(* ===== verification/_CoqProject ===== *)
-Q . S2P
Prelude.v
External.v
GoStd.v
Builder.v
Lifecycle.v
Heap.v
TData.v
PendingCache.v
Instances.v
Keys.v
Storage.v
Genesis.v
Stakers.v
Pows.v
Rewards.v
Actions.v
Users.v
Details.v
SysParams.v
SamaState.v
StateFacts.v
Tx.v
TypedTx.v
Activity.v
Keystore.v
TypedTxFacts.v
Block.v
BlockFacts.v
Mempool.v
VM.v
Config.v
Service.v
Client.v
Tree.v
Cli.v
Lookback.v
FeeMarket.v
MempoolFacts.v
BuildFacts.v
Network.v
Codec.v
Frames.v
Areas.v
Coherence.v
Restart.v
TxFacts.v
VMFacts.v
AcceptFacts.v
Supply.v
Values.v
ServiceFacts.v
ClientFacts.v
TreeFacts.v
CliFacts.v
GovernFacts.v
Samples.v
NodeSamples.v
ChainSamples.v
ServiceSamples.v
Witnesses.v
StateWitnesses.v
NodeWitnesses.v
VMWitnesses.v
CodecWitnesses.v
ServiceWitnesses.v
CliSamples.v
EndToEnd.v
CliWitnesses.v
