(* ===== verification/Prelude.v ===== *)
(** * SamaVM: a verified model of the chain's core

    The program under src/ is a virtual machine for an Avalanche node: it keeps
    accounts, stakes, proofs of work, rewards, users and governed parameters,
    executes thirteen kinds of transactions in blocks, answers the consensus
    engine that decides on the blocks, and serves clients over JSON-RPC, one of
    which is a command line.  This development models what such a node and its
    clients compute, from the bytes of the database to the interleaving of the
    builder's goroutines, and proves what each part promises.

    ** Conventions

    Code with state is a function of the monad [M S A] of this file, from a state
    to a state and an [outcome]: a value, an error, or a panic.  What an
    operation has written before it fails is kept, as in Go.  Machine integers
    are [Z] with their wrap-around written out: [+u], [-u], [*u] and [u64] for
    uint64, [i64] for int64.  Byte arrays are [sized n], maps are [gmap]s; a
    range over a Go map takes its order from [map_range] of [GoRuntime].  Where
    the order, the aliasing or a nil pointer matters the model has a store:
    actions (Actions.v), heap entries (Mempool.v), block objects (VM.v).
    Third-party code is a class of External.v (database, versiondb, LRU caches,
    codec, hashes, keys and signatures, the key store, text forms, clock and map
    order), with its documented behaviour as the laws of a second class; the
    transport of requests is the class [Requester] of Client.v, readers and
    writers are classes of Tree.v, the user's machine is a class of Cli.v, the
    registering codec one of Codec.v.  Instances.v and the files of samples have
    an instance with laws for each, so no theorem rests on a contract that
    nothing meets.

    ** Files and the code they model

    - Prelude, External, GoStd: this file's monad and lenses; the classes for
      third-party code; what is used of Go's standard library.
    - Keys, Storage, Genesis: chain/storage.go (keys, values, balances, access
      proofs), chain/genesis.go, chain/common_tx.go.
    - Stakers, Pows, Rewards, Actions, Users, Details, SysParams: the parts of
      the state, one record each with its committed and pending maps
      (chain/stake_status.go, pow_status.go, reward_status.go and
      yields_status.go, action_status.go, users_status.go and users_type.go,
      node_params.go, system_params.go); PendingCache.v is the interface the
      parts share, a cache with commit and abort.
    - SamaState, StateFacts: chain/state.go, the facade over the parts: commit,
      abort, rewards, claims and the confirmation of actions.
    - TData, Tx, TypedTx, Activity: tdata/tdata.go; the thirteen *_tx.go files,
      tx.go, base_tx.go and unsigned_tx.go (execution, fees, copies); typed
      data, chain/decoder.go, chain/crypto.go and signing; chain/activity.go.
    - Frames, Areas, Coherence, Restart: which keys every operation touches,
      and that the state in memory is what the database says.
    - Heap, Mempool, MempoolFacts: container/heap, mempool/tx_heap.go and
      mempool/mempool.go.
    - Block, BlockFacts: chain/block.go (data, parsing, hashing) and the store of
      blocks of chain/storage.go.
    - VM: vm/vm.go, vm/chain_vm.go, vm/helpers.go and the methods of
      chain/block.go and chain/builder.go that work on the VM, which in Go reach
      it through the interface [chain.VM].
    - Config: vm/config.go, and the start of a node from the bytes of its
      configuration and its genesis.
    - Lookback, FeeMarket, VMFacts, BuildFacts, AcceptFacts: the walk over recent
      blocks, the price and cost of blocks, verification, the building loop,
      acceptance and restart.
    - Supply: what the accounts hold together, over transactions, blocks and
      acceptance.
    - Builder: vm/block_builder.go and utils/timer/timer.go, with the goroutines
      of a node as a step relation.
    - Lifecycle: how builders are started, replaced and stopped
      (SetBlockBuilder, Shutdown, the loops of both builders, SetState), with
      their channels and goroutines as a step relation.
    - Network: vm/network.go.
    - Codec: chain/codec.go, the registration of the types, and the codecs of
      transactions, their lists and blocks that the other files take as
      parameters ([TxCodec], [GossipCodec], [BlockCodec]) made of it.
    - Keystore: vm/userkey.go and Sign of chain/crypto.go.
    - Service, ServiceFacts, Values: vm/public_service.go, a handler each; the
      record of a value and how it gets from a transaction to a reply.
    - Client, ClientFacts: client/client.go and client/helper.go, requests as a
      type indexed by their replies, sent to an arbitrary node or, by [served_by],
      to the modelled service.
    - Tree, TreeFacts: tree/tree.go over the client; [ValueStore] is what the
      upload asks of it, [FileReader] and [FileWriter] what it asks of a file.
    - Cli, CliFacts: the twenty commands of cmd/sama-cli over the client, the
      files and keys of the user's machine, and [RunE], which picks one.
    - Samples, NodeSamples, ChainSamples, ServiceSamples, CliSamples, Witnesses,
      StateWitnesses, NodeWitnesses, VMWitnesses, CodecWitnesses,
      ServiceWitnesses, CliWitnesses: concrete chains, nodes, codecs, clients and
      machines, and for every theorem with hypotheses a case in which they hold.
    - EndToEnd: runs of all parts together on one node, from the client and from
      the command line, as examples.

    How they fit together: a block holds transactions ([Block], [Tx]);
    [VM.verify] runs [Transaction_Execute] for each of them on an overlay of
    the database and on the [samaState] of the node, which is a [world];
    [VM.Accept] commits the overlay and the pending state.  The mempool feeds
    [BuildBlock]; [Submit] and [AppGossip] feed the mempool; the builder asks
    the engine for blocks.  A client's request runs a handler of [Service] on the
    node ([served_by]); [Upload] and [Download] are programs of such requests, and
    so are the commands.

    ** What the theorems show

    - Blocks and the node: an accepted block survives a restart; nothing is
      executed twice along a chain; verification accepts exactly the blocks that
      pass its checks and whose transactions all execute; the walk over recent
      blocks and the building loop end; the fee market has a closed form and
      bounds, and on a chain without gaps a fee is always suggested; the builder
      never stalls when its timer runs.
    - The state: what a node that starts again rebuilds from its database is, part
      by part ([restarted]), what the running node has; a commit publishes every
      part and an abort discards it; nobody but the sender and the receiver of a
      transfer is touched; a transaction that executes was valid and has paid its
      fee; transfers, stakes and unstakes move exactly what they say; the years of
      a reward cover its time exactly; proofs stay within their bounds.
    - The supply: an accepted block creates no tokens but the rewards its claims
      and unstakes are paid, and destroys none but its fees and what users pay.
    - The codec: it is set up without a panic, and every type of transaction but
      [WithdrawnTx] can be sent, within 4 MiB.
    - The mempool implements a bounded map that drops a cheapest transaction.
    - Service and clients: the value of an accepted transaction resolves; the
      cache of activities is a ring over the history of the chain; what a client
      signs is what the node submits, from the address of its key; a client
      accepts no value without its hash and polls no longer than its context; a
      key that is imported is exported; a file that is uploaded comes back
      from any store that keeps its promise.
    - The command line: a command that sends a transaction and ends well has, on
      its way, had the node accept and confirm what its arguments ask for;
      malformed arguments touch nothing; a file that is resolved is the one that
      was set, whatever the node answers; the genesis file starts the chain; keys of [create] are not overwritten, those of [config] are.
    - Builders are replaced and stopped without deadlock or panic.
    - Signatures: digests exist and their recursion ends; what the decoder gives
      back of every transaction.
    - Behaviour the code has and does not mean to have, each proved of the model:
      a block that is refused leaves its changes pending; without its timer
      goroutine the builder stops; a block may repeat a transfer; an underpriced
      transaction meets any surplus; what the node signs pays twice what it
      reports; an empty file comes back as zeros; and others, the findings of the
      manifest.

    ** Fuel

    [lookback] has as fuel the blocks the node knows and one more, [build_loop]
    and [regossip_loop] the length of the mempool, the typed-data encoder the
    depth of its value.  For each a theorem says that it does not run out
    ([lookback_terminates], [build_loop_is_the_loop], [regossip_loop_run],
    [DigestHash_terminates]).  Polling has as fuel one more than the seconds its
    context has left ([polling_ends_with_the_context]), an upload one more than
    the length of the file ([uploaded_file_comes_back]), the report of activities
    the size of its cache ([activity_loop_ring]).

    ** Simplifications

    - An overlay of versiondb is the database it shows, so a change of the
      underlying database is not seen through it; the code sets the database of
      an overlay only when the parent has been committed.
    - Transactions are values.  [linkValues] overwrites a value inside a
      transaction object that the mempool may still point to; the model keeps the
      mempool's copy.
    - Records of the state are taken to marshal always ([ChainCodecTotal]); the
      codec has limits for strings and sizes.  Transactions and blocks are not:
      what is stated of them holds of those that do.
    - The JSON of configuration, genesis and airdrop is read by parameters;
      metrics and logs are left out.
    - Locks: the engine serialises the calls into the VM, so only the builders
      are modelled with interleavings.
    - A request reaches a handler as a value: its JSON form is left out.  The
      reply of a request that fails is dropped.

    ** Not modelled

    The main function and factory of the plugin (cmd/samavm, factory.go), which
    hand an empty VM to the host process, the flags of the command line (parsed
    by a library), methods of the VM that do nothing (application requests,
    connections, health, version), what only prints, generated mocks and
    tests. *)

From stdpp Require Export base gmap sets list strings fin_maps sorting.
From Stdlib Require Export ZArith Lia Strings.Byte.

#[global] Open Scope Z_scope.

(** ** Bytes and fixed-size byte arrays

    A Go [[]byte] is a [list byte]; the array types [[n]byte] the chain uses
    ([ids.ID], [ids.ShortID], [common.Address], [common.Hash]) are lists whose
    length is part of the type. *)

Abbreviation bytes := (list byte).

#[global] Instance byte_eq_dec : EqDecision byte := Byte.byte_eq_dec.
#[global] Program Instance byte_countable : Countable byte :=
  inj_countable Byte.to_N Byte.of_N _.
Next Obligation. intros b. apply Byte.of_to_N. Qed.

Definition byte_of_Z (z : Z) : byte :=
  default x00 (Byte.of_N (Z.to_N (z `mod` 256))).
Definition Z_of_byte (b : byte) : Z := Z.of_N (Byte.to_N b).

Lemma Z_of_byte_range b : 0 <= Z_of_byte b < 256.
Proof. unfold Z_of_byte. pose proof (Byte.to_N_bounded b). lia. Qed.

Lemma Z_of_byte_of_Z z : Z_of_byte (byte_of_Z z) = z `mod` 256.
Proof.
  unfold Z_of_byte, byte_of_Z.
  assert (0 <= z `mod` 256 < 256) as Hz by (apply Z.mod_pos_bound; lia).
  destruct (Byte.of_N (Z.to_N (z `mod` 256))) as [b|] eqn:Hb; simpl.
  - apply Byte.to_of_N in Hb. rewrite Hb. lia.
  - apply Byte.of_N_None_iff in Hb. lia.
Qed.

Lemma byte_of_Z_of_byte b : byte_of_Z (Z_of_byte b) = b.
Proof.
  unfold byte_of_Z. rewrite Z.mod_small by apply Z_of_byte_range.
  unfold Z_of_byte. rewrite N2Z.id, Byte.of_to_N. reflexivity.
Qed.

Lemma byte_of_Z_inj x y :
  0 <= x < 256 -> 0 <= y < 256 -> byte_of_Z x = byte_of_Z y -> x = y.
Proof.
  intros Hx Hy Heq. apply (f_equal Z_of_byte) in Heq.
  rewrite !Z_of_byte_of_Z, !Z.mod_small in Heq by lia. exact Heq.
Qed.

Record sized (n : nat) := Sized {
  array : bytes;
  array_len : bool_decide (length array = n) = true
}.
Arguments Sized {n} _ _.
Arguments array {n} _.
Arguments array_len {n} _.

Lemma sized_length {n} (a : sized n) : length (array a) = n.
Proof. apply (bool_decide_eq_true_1 _ (array_len a)). Qed.

Lemma sized_eq {n} (a b : sized n) : array a = array b -> a = b.
Proof.
  destruct a as [la Ha], b as [lb Hb]; simpl. intros ->.
  f_equal. apply Eqdep_dec.UIP_dec, bool_dec.
Qed.

#[global] Instance sized_eq_dec n : EqDecision (sized n).
Proof.
  intros a b. destruct (decide (array a = array b)) as [H|H].
  - left. by apply sized_eq.
  - right. intros ->. done.
Defined.

(** The array a slice is copied into: [copy] fills at most [n] bytes and leaves
    the rest zero. *)
Definition fit (n : nat) (l : bytes) : bytes :=
  take n l ++ replicate (n - length l)%nat x00.

Lemma fit_length n l : length (fit n l) = n.
Proof. unfold fit. rewrite length_app, length_take, length_replicate. lia. Qed.

Definition sized_of (n : nat) (l : bytes) : sized n :=
  Sized (fit n l) (bool_decide_eq_true_2 _ (fit_length n l)).

Lemma fit_exact n l : length l = n -> fit n l = l.
Proof.
  intros <-. unfold fit. rewrite Nat.sub_diag, take_ge by lia.
  apply app_nil_r.
Qed.

Lemma sized_of_array {n} (a : sized n) : sized_of n (array a) = a.
Proof. apply sized_eq. simpl. apply fit_exact, sized_length. Qed.

#[global] Program Instance sized_countable n : Countable (sized n) :=
  inj_countable' array (sized_of n) _.
Next Obligation. intros n a. apply sized_of_array. Qed.

Abbreviation Address := (sized 20).
Abbreviation ID := (sized 32).
Abbreviation ShortID := (sized 20).
Abbreviation Hash := (sized 32).

Definition zeroAddress : Address := sized_of 20 [].
Definition EmptyID : ID := sized_of 32 [].
Definition EmptyShortID : ShortID := sized_of 20 [].

(** ** Machine integers *)

Declare Scope go_scope.
Delimit Scope go_scope with go.
#[global] Open Scope go_scope.

Definition two64 : Z := 2 ^ 64.
Definition u64 (z : Z) : Z := z `mod` 2 ^ 64.
Definition u32 (z : Z) : Z := z `mod` 2 ^ 32.
Definition u8 (z : Z) : Z := z `mod` 2 ^ 8.
(** [int64(z)]: the two's complement reading of the low 64 bits. *)
Definition i64 (z : Z) : Z := (z + 2 ^ 63) `mod` 2 ^ 64 - 2 ^ 63.

Notation "x +u y" := (u64 (x + y)) (at level 50, left associativity) : go_scope.
Notation "x -u y" := (u64 (x - y)) (at level 50, left associativity) : go_scope.
Notation "x *u y" := (u64 (x * y)) (at level 40, left associativity) : go_scope.

Definition is_u64 (z : Z) : Prop := 0 <= z < 2 ^ 64.
Definition is_u32 (z : Z) : Prop := 0 <= z < 2 ^ 32.

Lemma u64_range z : is_u64 (u64 z).
Proof. apply Z.mod_pos_bound. lia. Qed.
Lemma u64_add_l a b : u64 (u64 a + b) = u64 (a + b).
Proof. unfold u64. by rewrite Z.add_mod_idemp_l. Qed.
Lemma u64_add_r a b : u64 (a + u64 b) = u64 (a + b).
Proof. unfold u64. by rewrite Z.add_mod_idemp_r. Qed.
Lemma u64_mul_l a b : u64 (u64 a * b) = u64 (a * b).
Proof. unfold u64. by rewrite Z.mul_mod_idemp_l. Qed.
Lemma u64_small z : is_u64 z -> u64 z = z.
Proof. apply Z.mod_small. Qed.
Lemma u32_range z : is_u32 (u32 z).
Proof. apply Z.mod_pos_bound. lia. Qed.
Lemma u32_small z : is_u32 z -> u32 z = z.
Proof. apply Z.mod_small. Qed.
Lemma u64_sub_borrow x y :
  is_u64 x -> is_u64 y -> x < y -> x -u y = x - y + 2 ^ 64.
Proof.
  unfold is_u64, u64. intros Hx Hy Hlt.
  rewrite <- (Z_mod_plus_full (x - y) 1), Z.mod_small; lia.
Qed.
Lemma i64_small z : - 2 ^ 63 <= z < 2 ^ 63 -> i64 z = z.
Proof. intros H. unfold i64. rewrite Z.mod_small; lia. Qed.

Create HintDb go discriminated.
Create Rewrite HintDb go.
#[export] Hint Resolve u64_range u32_range : go.
#[export] Hint Rewrite u64_small u32_small using (unfold is_u64, is_u32 in *; lia) : go.

(** Solves goals about machine integers: unfolds the range predicates, removes
    the wrap-arounds that do nothing, and calls [lia]. *)
Ltac u64_lia :=
  unfold is_u64, is_u32 in *;
  repeat match goal with
    | |- context [u64 ?z] => rewrite (u64_small z) by (unfold is_u64 in *; lia)
    | |- context [u32 ?z] => rewrite (u32_small z) by (unfold is_u32 in *; lia)
    end; lia.

(** ** Errors, panics and outcomes

    The sentinel errors of the packages chain, tree, vm and client are
    constructors; [fmt.Errorf] builds the others.  [Wrapf] is the [%w] verb. *)

Inductive error :=
  (* Genesis correctness *)
  | ErrInvalidMagic | ErrInvalidBlockRate
  (* Block correctness *)
  | ErrTimestampTooEarly | ErrTimestampTooLate | ErrNoTxs | ErrInvalidCost
  | ErrInvalidPrice | ErrInsufficientSurplus | ErrParentBlockNotVerified
  | ErrInvalidAccessProof
  (* Tx correctness *)
  | ErrInvalidBlockID | ErrInvalidSignature | ErrDuplicateTx
  | ErrInsufficientPrice | ErrInvalidType | ErrTypedDataKeyMissing
  (* Execution correctness *)
  | ErrValueEmpty | ErrValueTooBig | ErrKeyMissing | ErrInvalidKey
  | ErrKeyExists | ErrUnauthorized | ErrInvalidBalance | ErrNonActionable
  | ErrBlockTooBig | ErrStakerType
  | ErrStakeAmount | ErrIDErr | ErrEndTimeTooEarly | ErrEndTimeTooLate
  (* storage.go, tree/errors.go *)
  | ErrInvalidKeyFormat | ErrEmpty | ErrMissing
  (* vm/errors.go, client/errors.go, vm/userkey.go *)
  | ErrTypedDataIsNil | ErrInputIsNil | ErrCorruption | ErrIntegrityFailure | EOF
  | errDBNil | errKeyNil
  (* database.ErrNotFound *)
  | ErrNotFound
  (* strconv.ErrSyntax, strconv.ErrRange, os.ErrNotExist, os.ErrExist *)
  | ErrSyntax | ErrRange | ErrNotExist | ErrExist
  (* fmt.Errorf without and with %w *)
  | Errorf (msg : string)
  | Wrapf (e : error) (msg : string)
  (* an error made by a third-party package *)
  | ExtError (msg : string).

#[global] Instance error_eq_dec : EqDecision error.
Proof. solve_decision. Defined.

(** [errors.Is]. *)
Fixpoint errors_is (e target : error) : bool :=
  bool_decide (e = target) ||
  match e with Wrapf e' _ => errors_is e' target | _ => false end.

(** Run-time panics of the Go runtime that the model can reach, and [panic(err)];
    [OutOfFuel] is none: a loop of the model that has not ended within its fuel. *)
Inductive panic :=
  | NilMapWrite | NilDereference | DivideByZero | IndexOutOfRange | MakeSliceOutOfRange | StackOverflow
  | PanicError (e : error) | OutOfFuel.

Inductive outcome (A : Type) :=
  | Ok (a : A)
  | Err (e : error)
  | Panic (p : panic).
Arguments Ok {A} a.
Arguments Err {A} e.
Arguments Panic {A} p.

Abbreviation result A := (error + A)%type.

Definition of_result {A} (r : result A) : outcome A :=
  match r with inl e => Err e | inr a => Ok a end.

(** ** State and errors

    A Go method that mutates what its receiver points to and returns an error.
    The state is kept when an error is returned: nothing is rolled back. *)

Definition M (S A : Type) : Type := S -> S * outcome A.

Section monad.
Context {S : Type}.

Definition ret {A} (a : A) : M S A := fun s => (s, Ok a).
Definition fail {A} (e : error) : M S A := fun s => (s, Err e).
Definition panics {A} (p : panic) : M S A := fun s => (s, Panic p).
Definition bind {A B} (m : M S A) (f : A -> M S B) : M S B := fun s =>
  match m s with
  | (s', Ok a) => f a s'
  | (s', Err e) => (s', Err e)
  | (s', Panic p) => (s', Panic p)
  end.
Definition gets {A} (f : S -> A) : M S A := fun s => (s, Ok (f s)).
Definition modify (f : S -> S) : M S unit := fun s => (f s, Ok tt).
Definition lift {A} (r : result A) : M S A := fun s => (s, of_result r).
Definition lift_outcome {A} (r : outcome A) : M S A := fun s => (s, r).
(** [x, err := m], with [err] inspected or dropped instead of returned. *)
Definition attempt {A} (m : M S A) : M S (result A) := fun s =>
  match m s with
  | (s', Ok a) => (s', Ok (inr a))
  | (s', Err e) => (s', Ok (inl e))
  | (s', Panic p) => (s', Panic p)
  end.

(** A [for range] loop over a slice whose body can return early. *)
Fixpoint for_each {A} (body : A -> M S unit) (l : list A) : M S unit :=
  match l with
  | [] => ret tt
  | x :: l' => bind (body x) (fun _ => for_each body l')
  end.
End monad.

Notation "'let!' x := m 'in' k" := (bind m (fun x => k))
  (at level 10, x name, m at level 100, k at level 200,
   format "'[hv' 'let!'  x  :=  '[' m ']'  'in'  '//' k ']'") : go_scope.
Notation "'let!' ' p := m 'in' k" := (bind m (fun x => match x with p => k end))
  (at level 10, p pattern, m at level 100, k at level 200) : go_scope.
Notation "m ;;; k" := (bind m (fun _ => k))
  (at level 100, k at level 200, right associativity) : go_scope.

(** [if guard { return err }]. *)
Definition check {S} (bad : bool) (e : error) : M S unit :=
  if bad then fail e else ret tt.

Lemma bind_ok {S A B} (m : M S A) (f : A -> M S B) s s' b :
  bind m f s = (s', Ok b) ->
  exists s1 a, m s = (s1, Ok a) /\ f a s1 = (s', Ok b).
Proof.
  unfold bind. destruct (m s) as [s1 [a|e|p]]; intros H; [eauto|done|done].
Qed.

Lemma bind_run {S A B} (m : M S A) (f : A -> M S B) s s1 a :
  m s = (s1, Ok a) -> bind m f s = f a s1.
Proof. unfold bind. by intros ->. Qed.

Lemma bind_err {S A B} (m : M S A) (f : A -> M S B) s s1 e :
  m s = (s1, Err e) -> bind m f s = (s1, Err e).
Proof. unfold bind. by intros ->. Qed.

Lemma check_ok {S} (bad : bool) e (s s' : S) u :
  check bad e s = (s', Ok u) -> bad = false /\ s' = s.
Proof. unfold check, fail, ret. destruct bad; intros H; by simplify_eq. Qed.

Lemma lift_ok {S A} (r : result A) (s s' : S) a : lift r s = (s', Ok a) -> s' = s /\ r = inr a.
Proof. unfold lift, of_result. destruct r; intros Hr; by simplify_eq. Qed.
Lemma lift_outcome_ok {S A} (r : outcome A) (s s' : S) a : lift_outcome r s = (s', Ok a) -> s' = s /\ r = Ok a.
Proof. unfold lift_outcome. intros Hr; by simplify_eq. Qed.
Lemma gets_ok {S A} (f : S -> A) (s s' : S) a : gets f s = (s', Ok a) -> s' = s /\ a = f s.
Proof. unfold gets. intros Hr; by simplify_eq. Qed.

(** [R] holds between every state and the one the operation leaves, however it ends. *)
Definition relates {S A} (R : relation S) (m : M S A) : Prop := forall s, R s (m s).1.
Section relates.
Context {S : Type} (R : relation S) `{!PreOrder R}.
Lemma relates_bind {A B} (m : M S A) (f : A -> M S B) :
  relates R m -> (forall a, relates R (f a)) -> relates R (bind m f).
Proof.
  intros Hm Hf s. unfold bind. pose proof (Hm s) as Hs. destruct (m s) as [s' [a|e|p]]; cbn [fst] in *;
    [|done..]. etrans; [done|apply Hf].
Qed.
Lemma relates_read {A} (m : M S A) : (forall s, (m s).1 = s) -> relates R m.
Proof. intros Hm s. by rewrite Hm. Qed.
Lemma relates_for_each {A} (body : A -> M S unit) xs :
  (forall x, relates R (body x)) -> relates R (for_each body xs).
Proof.
  intros Hb. induction xs as [|x xs IH]; [by apply relates_read|]. cbn [for_each].
  apply relates_bind; [apply Hb|by intros].
Qed.
End relates.

Lemma for_each_app {S A} (body : A -> M S unit) l1 l2 s :
  for_each body (l1 ++ l2) s = bind (for_each body l1) (fun _ => for_each body l2) s.
Proof.
  revert s. induction l1 as [|x l1 IH]; intros s; [done|].
  unfold bind in *. simpl. unfold bind.
  destruct (body x s) as [s1 [u|e|p]]; [apply IH|done|done].
Qed.

(** A property of the state kept by every iteration is kept by the loop,
    however the loop ends. *)
Lemma for_each_inv {S A} (I : S -> Prop) (body : A -> M S unit) l s :
  (forall x s0, x ∈ l -> I s0 -> I (body x s0).1) -> I s -> I (for_each body l s).1.
Proof.
  revert s. induction l as [|x l IH]; intros s Hb Hs; [done|].
  simpl. unfold bind. pose proof (Hb x s ltac:(set_solver) Hs) as H1.
  destruct (body x s) as [s1 [u|e|p]]; simpl in *; [|done|done].
  apply IH; [|done]. intros y s0 Hy. apply Hb. set_solver.
Qed.

(** What the iteration over [x] establishes and the others keep holds for every
    [x] once the loop has ended without an error. *)
Lemma for_each_establish {S A} (Q : A -> S -> Prop) (body : A -> M S unit) l s s' :
  (forall x s0 s1, x ∈ l -> body x s0 = (s1, Ok tt) -> Q x s1) ->
  (forall x y s0 s1, x ∈ l -> y ∈ l -> body y s0 = (s1, Ok tt) -> Q x s0 -> Q x s1) ->
  for_each body l s = (s', Ok tt) -> forall x, x ∈ l -> Q x s'.
Proof.
  revert s. induction l as [|y l IH]; intros s Hest Hkeep Hrun x Hx; [by apply elem_of_nil in Hx|].
  cbn [for_each] in Hrun. apply bind_ok in Hrun as (s1 & [] & H1 & Hrun).
  assert (forall z s0 s2, z ∈ l -> body z s0 = (s2, Ok tt) -> Q z s2) as Hest'
    by (intros; eapply Hest; [by apply list_elem_of_further|done]).
  assert (forall z z' s0 s2, z ∈ l -> z' ∈ l -> body z' s0 = (s2, Ok tt) -> Q z s0 -> Q z s2)
    as Hkeep' by (intros; eapply Hkeep; [by apply list_elem_of_further..|done|done]).
  apply elem_of_cons in Hx as [->|Hx]; [|by eapply IH].
  assert (forall l' s0 s2, l' ⊆ y :: l -> for_each body l' s0 = (s2, Ok tt) -> Q y s0 -> Q y s2)
    as Hloop.
  { clear - Hkeep. induction l' as [|z l' IH]; intros s0 s2 Hsub Hr Hq;
      [unfold for_each, ret in Hr; by simplify_eq|].
    cbn [for_each] in Hr. apply bind_ok in Hr as (s3 & [] & H3 & Hr).
    apply (IH s3); [set_solver|done|]. eapply (Hkeep y z); [set_solver..|done|done]. }
  eapply (Hloop l); [set_solver|exact Hrun|]. eapply Hest; [set_solver|done].
Qed.

(** ** Lenses: a method of an embedded struct run on the embedding one *)

Class Lens (S T : Type) := { view : S -> T; over : T -> S -> S }.
Class LensLaws (S T : Type) `{Lens S T} := {
  view_over t s : view (over t s) = t;
  over_view s : over (view s) s = s;
  over_over t t' s : over t (over t' s) = over t s
}.

Definition zoom {S T A} `{Lens S T} (m : M T A) : M S A := fun s =>
  let '(t, r) := m (view s) in (over t s, r).

#[global] Instance lens_fst {S T} : Lens (S * T) S := {| view := fst; over := fun a p => (a, p.2) |}.
#[global] Instance lens_snd {S T} : Lens (S * T) T := {| view := snd; over := fun b p => (p.1, b) |}.

(** Unfolds and reduces the monadic combinators in a run. *)
Ltac run_simpl :=
  repeat progress (cbn [bind ret fail panics gets modify lift lift_outcome attempt check
    of_result zoom view over fst snd] in *; unfold bind, ret, fail, panics, gets, modify,
    lift, lift_outcome, attempt, check, zoom in *).

(** Inverts a successful run step by step. *)
Ltac ok_inv H :=
  repeat match type of H with
  | bind _ _ _ = (_, Ok _) =>
      let s := fresh "s" in let a := fresh "a" in let H1 := fresh "Hrun" in
      apply bind_ok in H as (s & a & H1 & H)
  | check _ _ _ = (_, Ok _) => apply check_ok in H as [? ->]
  end.

(** ** Lists *)

Lemma NoDup_fst_elem {A B} (l : list (A * B)) k v v' :
  NoDup l.*1 -> (k, v) ∈ l -> (k, v') ∈ l -> v = v'.
Proof.
  induction l as [|[k0 v0] l IH]; simpl; [set_solver|].
  rewrite NoDup_cons. intros [Hnot Hnd].
  assert (forall w, (k0, w) ∈ l -> False) as Hk.
  { intros w Hw. apply Hnot. apply list_elem_of_fmap. by exists (k0, w). }
  rewrite !elem_of_cons. intros [Heq|H1] [Heq'|H2]; simplify_eq; try done.
  - exfalso. eauto.
  - exfalso. eauto.
  - eauto.
Qed.
