(* ===== verification/External.v ===== *)
(** * Third-party code as parameters

    Nothing in this file defines code: each class lists the functions the chain
    imports from packages that are not part of the repository (avalanchego's
    [database], [codec] and [ids], go-ethereum's [common], [crypto] and
    [common/math]) and what the Go run time leaves open.  The [...Laws] classes
    state what those packages document and the proofs rely on. *)

From S2P Require Import Prelude.

(** Lexicographic order of byte slices, [bytes.Compare a b <= 0]. *)
Fixpoint bytes_leb (a b : bytes) : bool :=
  match a, b with
  | [], _ => true
  | _ :: _, [] => false
  | x :: a', y :: b' =>
      (Z_of_byte x <? Z_of_byte y) || ((Z_of_byte x =? Z_of_byte y) && bytes_leb a' b')
  end.
Definition bytes_le (a b : bytes) : Prop := bytes_leb a b = true.

(** ** avalanchego/database

    A database value is the contents of the store at one moment; an operation
    that writes gives the next one.  The iterators are given by the pairs they
    yield when they are drained.  An overlay is the contents read through it, as
    long as nothing but its own chain of overlays writes to its base. *)
Class Database := {
  DB : Type;
  db_get : DB -> bytes -> result bytes;
  db_has : DB -> bytes -> result bool;
  db_put : DB -> bytes -> bytes -> DB * result unit;
  db_delete : DB -> bytes -> DB * result unit;
  db_iter_prefix : DB -> bytes -> list (bytes * bytes);
  db_iter_start : DB -> bytes -> list (bytes * bytes);
  (** [versiondb.New(base)], [overlay.Commit()] into [base], and
      [overlay.SetDatabase(base)] *)
  versiondb_New : DB -> DB;
  versiondb_Commit : DB -> DB -> DB * result unit;
  versiondb_SetDatabase : DB -> DB -> DB * result unit
}.

Section contents.
Context `{Database}.

Definition db_lookup (db : DB) (k : bytes) : option bytes :=
  match db_get db k with inr v => Some v | inl _ => None end.
Definition db_set (db : DB) (k v : bytes) : DB := (db_put db k v).1.
Definition db_del (db : DB) (k : bytes) : DB := (db_delete db k).1.

(** Two databases with the same contents. *)
#[export] Instance db_equiv : Equiv DB := fun db1 db2 =>
  forall k, db_lookup db1 k = db_lookup db2 k.
#[export] Instance db_equivalence : Equivalence (≡@{DB}).
Proof.
  split.
  - intros db k. done.
  - intros db1 db2 Heq k. done.
  - intros db1 db2 db3 H12 H23 k. by rewrite H12.
Qed.

(** The database methods as state operations. *)
Definition Get (k : bytes) : M DB bytes := fun db => (db, of_result (db_get db k)).
Definition Has (k : bytes) : M DB bool := fun db => (db, of_result (db_has db k)).
Definition Put (k v : bytes) : M DB unit := fun db =>
  let '(db', r) := db_put db k v in (db', of_result r).
Definition Delete (k : bytes) : M DB unit := fun db =>
  let '(db', r) := db_delete db k in (db', of_result r).

(** [vdb := versiondb.New(db); ...; return vdb.Commit()]: the writes reach
    [db] only if the body returns no error. *)
Definition on_versiondb {A} (body : M DB A) : M DB A := fun db =>
  match body (versiondb_New db) with
  | (vdb, Ok a) =>
      let '(db', r) := versiondb_Commit vdb db in
      (db', match r with inr _ => Ok a | inl e => Err e end)
  | (_, Err e) => (db, Err e)
  | (_, Panic p) => (db, Panic p)
  end.
End contents.

(** The contract of an open database over working storage: a map whose only
    error is [ErrNotFound], with iterators in key order. *)
Class DatabaseLaws `{Database} : Prop := {
  db_get_lookup db k :
    db_get db k = match db_lookup db k with Some v => inr v | None => inl ErrNotFound end;
  db_has_lookup db k : db_has db k = inr (bool_decide (is_Some (db_lookup db k)));
  db_put_nil db k v : (db_put db k v).2 = inr tt;
  db_delete_nil db k : (db_delete db k).2 = inr tt;
  db_lookup_set db k v k' :
    db_lookup (db_set db k v) k' = if decide (k = k') then Some v else db_lookup db k';
  db_lookup_del db k k' :
    db_lookup (db_del db k) k' = if decide (k = k') then None else db_lookup db k';
  db_iter_prefix_spec db p k v :
    (k, v) ∈ db_iter_prefix db p <-> p `prefix_of` k /\ db_lookup db k = Some v;
  db_iter_prefix_sorted db p : StronglySorted bytes_le (db_iter_prefix db p).*1;
  db_iter_prefix_nodup db p : NoDup (db_iter_prefix db p).*1;
  db_iter_start_spec db s k v :
    (k, v) ∈ db_iter_start db s <-> bytes_le s k /\ db_lookup db k = Some v;
  db_iter_start_sorted db s : StronglySorted bytes_le (db_iter_start db s).*1;
  db_iter_start_nodup db s : NoDup (db_iter_start db s).*1;
  versiondb_New_lookup db k : db_lookup (versiondb_New db) k = db_lookup db k;
  versiondb_Commit_nil vdb db : (versiondb_Commit vdb db).2 = inr tt;
  versiondb_Commit_lookup vdb db k :
    db_lookup (versiondb_Commit vdb db).1 k = db_lookup vdb k;
  versiondb_SetDatabase_nil vdb db : (versiondb_SetDatabase vdb db).2 = inr tt
}.

Section database_facts.
Context `{DatabaseLaws}.

Lemma Get_run k db :
  Get k db = (db, match db_lookup db k with Some v => Ok v | None => Err ErrNotFound end).
Proof. unfold Get. rewrite db_get_lookup. by destruct (db_lookup db k). Qed.
Lemma Has_run k db : Has k db = (db, Ok (bool_decide (is_Some (db_lookup db k)))).
Proof. unfold Has. by rewrite db_has_lookup. Qed.
Lemma Put_run k v db : Put k v db = (db_set db k v, Ok tt).
Proof.
  unfold Put, db_set. pose proof (db_put_nil db k v) as Hnil.
  destruct (db_put db k v) as [db' r]; simpl in *. by subst.
Qed.
Lemma Delete_run k db : Delete k db = (db_del db k, Ok tt).
Proof.
  unfold Delete, db_del. pose proof (db_delete_nil db k) as Hnil.
  destruct (db_delete db k) as [db' r]; simpl in *. by subst.
Qed.
Lemma lookup_set_eq db k v : db_lookup (db_set db k v) k = Some v.
Proof. rewrite db_lookup_set. by rewrite decide_True. Qed.
Lemma lookup_set_ne db k v k' : k <> k' -> db_lookup (db_set db k v) k' = db_lookup db k'.
Proof. intros. rewrite db_lookup_set. by rewrite decide_False. Qed.
Lemma lookup_del_eq db k : db_lookup (db_del db k) k = None.
Proof. rewrite db_lookup_del. by rewrite decide_True. Qed.
Lemma lookup_del_ne db k k' : k <> k' -> db_lookup (db_del db k) k' = db_lookup db k'.
Proof. intros. rewrite db_lookup_del. by rewrite decide_False. Qed.

(** Writes respect equality of contents. *)
#[export] Instance db_set_proper : Proper ((≡) ==> (=) ==> (=) ==> (≡)) db_set.
Proof. intros db1 db2 Hdb k ? <- v ? <- k'. rewrite !db_lookup_set. by case_decide. Qed.
#[export] Instance db_del_proper : Proper ((≡) ==> (=) ==> (≡)) db_del.
Proof. intros db1 db2 Hdb k ? <- k'. rewrite !db_lookup_del. by case_decide. Qed.

(** A body run on a fresh overlay sees the base; its writes reach the base all
    at once, or not at all. *)
Lemma versiondb_New_equiv db : versiondb_New db ≡ db.
Proof. intros k. apply versiondb_New_lookup. Qed.
Lemma on_versiondb_ok {A} (body : M DB A) db vdb a :
  body (versiondb_New db) = (vdb, Ok a) ->
  exists db', on_versiondb body db = (db', Ok a) /\ db' ≡ vdb.
Proof.
  intros Hb. unfold on_versiondb. rewrite Hb.
  pose proof (versiondb_Commit_nil vdb db) as Hnil.
  pose proof (versiondb_Commit_lookup vdb db) as Hlk.
  destruct (versiondb_Commit vdb db) as [db' r]; simpl in *. subst r.
  exists db'. split; [done|exact Hlk].
Qed.
Lemma on_versiondb_err {A} (body : M DB A) db vdb e :
  body (versiondb_New db) = (vdb, Err e) -> on_versiondb body db = (db, Err e).
Proof. intros Hb. unfold on_versiondb. by rewrite Hb. Qed.

Lemma db_set_comm db k v k' v' :
  k <> k' -> db_set (db_set db k v) k' v' ≡ db_set (db_set db k' v') k v.
Proof. intros Hne k0. rewrite !db_lookup_set. by repeat case_decide; subst. Qed.
End database_facts.

#[export] Hint Rewrite @Get_run @Has_run @Put_run @Delete_run using typeclasses eauto : go.

(** ** avalanchego/cache: a cache that may forget what was put into it *)
Class Cacher (K V : Type) := {
  Cache_t : Type;
  cache_New : Cache_t;
  cache_Get : Cache_t -> K -> Cache_t * option V;
  cache_Put : Cache_t -> K -> V -> Cache_t;
  cache_Evict : Cache_t -> K -> Cache_t
}.
Arguments Cache_t K V {_}.

Definition cached {K V} `{Cacher K V} (c : Cache_t K V) (k : K) : option V := (cache_Get c k).2.

Class CacherLaws (K V : Type) `{Cacher K V} : Prop := {
  cached_New k : cached cache_New k = None;
  cached_Get c k k' : cached (cache_Get c k).1 k' = cached c k';
  cached_Put_eq c k v : cached (cache_Put c k v) k = Some v;
  cached_Put_ne c k v k' v' :
    k <> k' -> cached (cache_Put c k v) k' = Some v' -> cached c k' = Some v';
  cached_Evict_eq c k : cached (cache_Evict c k) k = None;
  cached_Evict_ne c k k' : k <> k' -> cached (cache_Evict c k) k' = cached c k'
}.

(** ** avalanchego/codec: [codecManager] of chain/codec.go at one type *)
Class Codec (A : Type) := {
  Marshal : A -> result bytes;
  Unmarshal : bytes -> result A
}.
Class CodecLaws (A : Type) `{Codec A} : Prop :=
  Unmarshal_Marshal a b : Marshal a = inr b -> Unmarshal b = inr a.

(** Marshalling a value of a registered type within the size limit never fails. *)
Class CodecTotal (A : Type) `{Codec A} : Prop :=
  Marshal_total (a : A) : exists b, Marshal a = inr b.

Lemma Marshal_inj `{CodecLaws A} (a a' : A) b :
  Marshal a = inr b -> Marshal a' = inr b -> a = a'.
Proof. intros H1 H2. apply Unmarshal_Marshal in H1, H2. congruence. Qed.

(** ** go-ethereum and avalanchego/ids *)
Class Ethereum := {
  PublicKey : Type;
  Keccak256 : bytes -> Hash;
  UnmarshalPubkey : bytes -> result PublicKey;
  PubkeyToAddress : PublicKey -> Address;
  SigToPub : bytes -> bytes -> result PublicKey;
  HexToAddress : string -> Address;
  Address_Hex : Address -> string;
  Hash_Hex : Hash -> string;
  SafeAdd : Z -> Z -> Z * bool;
  SafeSub : Z -> Z -> Z * bool;
  hexutil_Encode : bytes -> string;
  hexutil_Decode : string -> result bytes;
  ToID : bytes -> result ID;
  ID_String : ID -> string;
  ID_FromString : string -> result ID;
  ShortID_String : ShortID -> string;
  ShortID_FromString : string -> result ShortID
}.
Class EthereumLaws `{Ethereum} : Prop := {
  SafeAdd_spec x y : is_u64 x -> is_u64 y ->
    SafeAdd x y = (x +u y, bool_decide (2 ^ 64 <= x + y));
  SafeSub_spec x y : is_u64 x -> is_u64 y ->
    SafeSub x y = (x -u y, bool_decide (x < y));
  HexToAddress_Hex a : HexToAddress (Address_Hex a) = a;
  hexutil_Decode_Encode b : hexutil_Decode (hexutil_Encode b) = inr b;
  ToID_array i : ToID (array i) = inr i;
  ID_FromString_String i : ID_FromString (ID_String i) = inr i;
  ShortID_FromString_String i : ShortID_FromString (ShortID_String i) = inr i
}.

(** ** go-ethereum: the text forms and byte forms tdata.go encodes with

    [HexOrDecimal256] is the [UnmarshalText] of [math.HexOrDecimal256]. *)
Class EthMath := {
  IsHexAddress : string -> bool;
  HexOrDecimal256 : string -> result Z;
  PaddedBigBytes : Z -> nat -> bytes;
  U256Bytes : Z -> bytes
}.
(** ** What the Go specification leaves to the implementation

    [map_range] is the order in which [for range] visits a map, [time_Now i] the
    [i]-th reading of the wall clock in nanoseconds since the Unix epoch, and
    [float_to_uint_oob] the result of converting a float that no [uint64]
    represents; [float_to_int_oob] that of a conversion to [int64]. *)
Class GoRuntime := {
  map_range : forall {K V : Type} `{Countable K}, gmap K V -> list (K * V);
  time_Now : nat -> Z;
  float_to_uint_oob : Z;
  float_to_int_oob : Z
}.
Class GoRuntimeLaws `{GoRuntime} : Prop := {
  map_range_perm {K V} `{Countable K} (m : gmap K V) : map_range m ≡ₚ map_to_list m;
  float_to_uint_oob_range : is_u64 float_to_uint_oob
}.

Lemma elem_of_map_range `{GoRuntimeLaws} {K V} `{Countable K} (m : gmap K V) k v :
  (k, v) ∈ map_range m <-> m !! k = Some v.
Proof. by rewrite map_range_perm, elem_of_map_to_list. Qed.

(** ** avalanchego/utils/crypto and go-ethereum's crypto: private keys

    [ToPrivateKey] is the method of the key factory, which does not look at its
    receiver; [crypto_Sign] is go-ethereum's [crypto.Sign]. *)
Class Secp `{Ethereum} := {
  PrivateKey : Type;
  sk_Bytes : PrivateKey -> bytes;
  ToPrivateKey : bytes -> result PrivateKey;
  sk_PublicKey : PrivateKey -> PublicKey;
  crypto_Sign : bytes -> PrivateKey -> result bytes
}.
(** A signature is r, s and a recovery id of 0 or 1, and recovers its key; the
    data signed must be a digest of 32 bytes. *)
Class SecpLaws `{Secp} : Prop := {
  ToPrivateKey_Bytes sk : ToPrivateKey (sk_Bytes sk) = inr sk;
  crypto_Sign_total dh sk : length dh = 32%nat -> exists sig, crypto_Sign dh sk = inr sig;
  crypto_Sign_spec dh sk sig : crypto_Sign dh sk = inr sig ->
    exists rs v, length rs = 64%nat /\ (v = x00 \/ v = x01) /\ sig = rs ++ [v] /\
      SigToPub dh sig = inr (sk_PublicKey sk)
}.

(** ** avalanchego/api/keystore: a database per user, kept with what the user
    writes into it. *)
Class Keystore `{Database} := {
  KS : Type;
  GetDatabase : KS -> string -> string -> result DB;
  ks_store : KS -> string -> DB -> KS
}.
Class KeystoreLaws `{Keystore} : Prop :=
  GetDatabase_store ks user pass db db' :
    GetDatabase ks user pass = inr db -> GetDatabase (ks_store ks user db') user pass = inr db'.
