(* ===== verification/GoStd.v ===== *)
(** * The parts of the Go standard library the chain uses

    [encoding/binary], [strconv], [encoding/hex], [time] and the floating-point
    arithmetic of [math.Pow], as executable functions, with the round trips the
    other files need. *)

From Stdlib Require Import Ascii SpecFloat.
From S2P Require Import Prelude.

(** ** encoding/binary *)

(** The [n] low bytes of [z], least significant first. *)
Fixpoint le_bytes (n : nat) (z : Z) : bytes :=
  match n with
  | O => []
  | S n' => byte_of_Z z :: le_bytes n' (z / 256)
  end.
Fixpoint le_value (l : bytes) : Z :=
  match l with
  | [] => 0
  | b :: l' => Z_of_byte b + 256 * le_value l'
  end.

(** [binary.BigEndian.PutUint64] into a fresh 8-byte slice. *)
Definition be_PutUint64 (z : Z) : bytes := reverse (le_bytes 8 z).
(** [binary.BigEndian.Uint64]: the bounds check panics on a short slice. *)
Definition be_Uint64 (b : bytes) : outcome Z :=
  if decide (8 <= length b)%nat then Ok (le_value (reverse (take 8 b)))
  else Panic IndexOutOfRange.
(** [binary.LittleEndian.PutUint64]. *)
Definition le_PutUint64 (z : Z) : bytes := le_bytes 8 z.

Lemma le_bytes_length n z : length (le_bytes n z) = n.
Proof. revert z. induction n; intros z; simpl; auto. Qed.

Lemma le_value_bytes n z : 0 <= z < 256 ^ Z.of_nat n -> le_value (le_bytes n z) = z.
Proof.
  revert z. induction n as [|n IH]; intros z Hz; [simpl in *; lia|].
  cbn [le_bytes le_value]. rewrite Z_of_byte_of_Z, IH.
  - pose proof (Z.div_mod z 256). lia.
  - rewrite Nat2Z.inj_succ, Z.pow_succ_r in Hz by lia.
    split; [apply Z.div_pos; lia|]. apply Z.div_lt_upper_bound; lia.
Qed.

Lemma le_value_range l : 0 <= le_value l < 256 ^ Z.of_nat (length l).
Proof.
  induction l as [|b l IH]; [simpl; lia|].
  cbn [le_value length]. rewrite Nat2Z.inj_succ, Z.pow_succ_r by lia.
  pose proof (Z_of_byte_range b). lia.
Qed.

Lemma be_PutUint64_length z : length (be_PutUint64 z) = 8%nat.
Proof. unfold be_PutUint64. by rewrite length_reverse, le_bytes_length. Qed.

Lemma be_Uint64_Put z : is_u64 z -> be_Uint64 (be_PutUint64 z) = Ok z.
Proof.
  intros Hz. unfold be_Uint64. rewrite decide_True by (rewrite be_PutUint64_length; lia).
  rewrite take_ge by (rewrite be_PutUint64_length; lia).
  unfold be_PutUint64. rewrite reverse_involutive, le_value_bytes; [done|].
  unfold is_u64 in Hz. simpl. lia.
Qed.

Lemma be_Uint64_range b z : be_Uint64 b = Ok z -> is_u64 z.
Proof.
  unfold be_Uint64. case_decide as Hlen; [|done]. intros [= <-].
  pose proof (le_value_range (reverse (take 8 b))) as Hr.
  rewrite length_reverse, length_take, Nat.min_l in Hr by lia.
  unfold is_u64. simpl in Hr. lia.
Qed.

(** ** strconv *)

Definition digit_val (c : ascii) : option Z :=
  let n := Z.of_N (N_of_ascii c) in
  if (48 <=? n) && (n <=? 57) then Some (n - 48) else None.
Definition digit_char (d : Z) : ascii := ascii_of_N (Z.to_N (48 + d)).

Lemma digit_val_char d : 0 <= d < 10 -> digit_val (digit_char d) = Some d.
Proof.
  intros Hd. unfold digit_val, digit_char.
  rewrite N_ascii_embedding by lia. rewrite Z2N.id by lia.
  rewrite (proj2 (Z.leb_le _ _)), (proj2 (Z.leb_le _ _)) by lia. simpl. f_equal. lia.
Qed.

(** The digit loop of [strconv.ParseUint(s, 10, 64)]: a bad character is a
    syntax error, a value past [math.MaxUint64] a range error, whichever comes
    first. *)
Fixpoint parse_digits (n : Z) (s : string) : result Z :=
  match s with
  | EmptyString => inr n
  | String c s' =>
      match digit_val c with
      | None => inl ErrSyntax
      | Some d =>
          let n' := n * 10 + d in
          if 2 ^ 64 <=? n' then inl ErrRange else parse_digits n' s'
      end
  end.
Definition ParseUint (s : string) : result Z :=
  match s with EmptyString => inl ErrSyntax | _ => parse_digits 0 s end.
(** What [ParseUint] returns beside its error: the largest value with a range
    error, otherwise zero. *)
Definition ParseUint_value (s : string) : Z :=
  match ParseUint s with inr n => n | inl ErrRange => 2 ^ 64 - 1 | inl _ => 0 end.

(** [strconv.FormatUint(n, 10)]: 20 digits are enough for a [uint64]. *)
Fixpoint format_digits (fuel : nat) (n : Z) (acc : string) : string :=
  match fuel with
  | O => acc
  | S f =>
      let acc' := String (digit_char (n `mod` 10)) acc in
      if n <? 10 then acc' else format_digits f (n / 10) acc'
  end.
Definition FormatUint (n : Z) : string := format_digits 20 n EmptyString.

Lemma parse_format_digits fuel n acc :
  0 <= n < 10 ^ Z.of_nat fuel -> n < 2 ^ 64 ->
  parse_digits 0 (format_digits fuel n acc) = parse_digits n acc.
Proof.
  revert n acc. induction fuel as [|f IH]; intros n acc Hn H64; [simpl in *; f_equal; lia|].
  cbn [format_digits]. assert (0 <= n `mod` 10 < 10) as Hm by (apply Z.mod_pos_bound; lia).
  destruct (Z.ltb_spec n 10) as [Hlt|Hge].
  - cbn [parse_digits]. rewrite digit_val_char by done.
    rewrite Z.mod_small by lia. rewrite (proj2 (Z.leb_gt _ _)) by lia. f_equal; lia.
  - rewrite Nat2Z.inj_succ, Z.pow_succ_r in Hn by lia.
    rewrite IH.
    + cbn [parse_digits]. rewrite digit_val_char by done.
      replace (n / 10 * 10 + n `mod` 10) with n by (pose proof (Z.div_mod n 10); lia).
      by rewrite (proj2 (Z.leb_gt _ _)) by lia.
    + split; [apply Z.div_pos; lia|]. apply Z.div_lt_upper_bound; lia.
    + assert (n / 10 <= n) by (apply Z.div_le_upper_bound; lia). lia.
Qed.

Lemma format_digits_nonempty fuel n acc :
  format_digits (S fuel) n acc <> EmptyString.
Proof.
  revert n acc. induction fuel as [|f IH]; intros n acc; cbn [format_digits].
  - by destruct (n <? 10).
  - destruct (n <? 10); [done|]. apply IH.
Qed.

Lemma ParseUint_FormatUint n : is_u64 n -> ParseUint (FormatUint n) = inr n.
Proof.
  intros Hn. unfold ParseUint, FormatUint.
  destruct (format_digits 20 n "") eqn:Hf; [by apply format_digits_nonempty in Hf|].
  rewrite <- Hf, parse_format_digits; [done| |]; unfold is_u64 in Hn; [|lia].
  change (10 ^ Z.of_nat 20) with 100000000000000000000. lia.
Qed.

Lemma parse_digits_range n s r : 0 <= n < 2 ^ 64 -> parse_digits n s = inr r -> is_u64 r.
Proof.
  revert n. induction s as [|c s IH]; intros n Hn; simpl; [by intros [= ->]|].
  destruct (digit_val c) as [d|] eqn:Hd; [|done].
  destruct (Z.leb_spec (2 ^ 64) (n * 10 + d)); [done|].
  apply IH. unfold digit_val in Hd. case_match eqn:Hr; [|done]. simplify_eq.
  apply andb_true_iff in Hr as [Hr1%Z.leb_le Hr2%Z.leb_le]. lia.
Qed.

Lemma ParseUint_range s n : ParseUint s = inr n -> is_u64 n.
Proof. destruct s; [done|]. apply parse_digits_range. lia. Qed.

(** ** encoding/hex *)

Definition hex_val (c : ascii) : option Z :=
  let n := Z.of_N (N_of_ascii c) in
  if (48 <=? n) && (n <=? 57) then Some (n - 48)
  else if (97 <=? n) && (n <=? 102) then Some (n - 87)
  else if (65 <=? n) && (n <=? 70) then Some (n - 55)
  else None.

(** [hex.DecodeString]: pairs of digits; a bad digit is reported before the odd
    length. *)
Fixpoint hex_DecodeString (s : string) : result bytes :=
  match s with
  | EmptyString => inr []
  | String c1 s1 =>
      match hex_val c1 with
      | None => inl (Errorf "encoding/hex: invalid byte")
      | Some h =>
          match s1 with
          | EmptyString => inl (Errorf "encoding/hex: odd length hex string")
          | String c2 s2 =>
              match hex_val c2 with
              | None => inl (Errorf "encoding/hex: invalid byte")
              | Some l =>
                  match hex_DecodeString s2 with
                  | inl e => inl e
                  | inr b => inr (byte_of_Z (16 * h + l) :: b)
                  end
              end
          end
      end
  end.

(** [hex.EncodeToString]. *)
Definition hex_char (d : Z) : ascii := ascii_of_N (Z.to_N (if d <? 10 then 48 + d else 87 + d)).
Fixpoint hex_EncodeToString (b : bytes) : string :=
  match b with
  | [] => EmptyString
  | x :: b' =>
      String (hex_char (Z_of_byte x / 16)) (String (hex_char (Z_of_byte x `mod` 16)) (hex_EncodeToString b'))
  end.

Lemma hex_val_char d : 0 <= d < 16 -> hex_val (hex_char d) = Some d.
Proof.
  intros Hd. unfold hex_char, hex_val. destruct (Z.ltb_spec d 10).
  - rewrite N_ascii_embedding by lia. rewrite Z2N.id by lia.
    rewrite (proj2 (Z.leb_le _ _)), (proj2 (Z.leb_le _ _)) by lia. cbn [andb]. f_equal. lia.
  - rewrite N_ascii_embedding by lia. rewrite Z2N.id by lia.
    rewrite (proj2 (Z.leb_gt _ 57)) by lia. rewrite andb_false_r.
    rewrite (proj2 (Z.leb_le _ _)), (proj2 (Z.leb_le _ _)) by lia. cbn [andb]. f_equal. lia.
Qed.
Lemma hex_DecodeString_EncodeToString b : hex_DecodeString (hex_EncodeToString b) = inr b.
Proof.
  induction b as [|x b IH]; [done|]. pose proof (Z_of_byte_range x) as Hx.
  cbn [hex_EncodeToString hex_DecodeString].
  rewrite !hex_val_char by (first [apply Z.mod_pos_bound; lia | split; [apply Z.div_pos; lia|apply Z.div_lt_upper_bound; lia]]).
  rewrite IH. do 2 f_equal. rewrite <- (Z.div_mod (Z_of_byte x) 16) by lia. by destruct x.
Qed.

(** ** time

    A clock reading is a number of nanoseconds since the Unix epoch.
    [time.Unix] keeps the seconds in an [int64] counted from year 1, so a very
    large argument wraps around. *)

Definition ns_per_sec : Z := 1000000000.
Definition Unix (now : Z) : Z := now / ns_per_sec.
Definition unixToInternal : Z := 62135596800.
Definition time_sec (s : Z) : Z := i64 (s + unixToInternal).
(** [now.After(time.Unix(s, 0))] and [now.Before(time.Unix(s, 0))]. *)
Definition After_unix (now s : Z) : bool :=
  (time_sec s <? time_sec (Unix now)) ||
  ((time_sec s =? time_sec (Unix now)) && (0 <? now `mod` ns_per_sec)).
Definition Before_unix (now s : Z) : bool := time_sec (Unix now) <? time_sec s.

(** ** float64

    IEEE 754 binary64 with round to nearest even ([SpecFloat] with 53 bits of
    precision). *)

Definition float64 : Type := spec_float.
Definition float64_of_uint (z : Z) : float64 := binary_normalize 53 1024 z 0 false.
Definition f64_mul : float64 -> float64 -> float64 := SFmul 53 1024.
Definition f64_div : float64 -> float64 -> float64 := SFdiv 53 1024.
Definition f64_add : float64 -> float64 -> float64 := SFadd 53 1024.
(** The constants 1, 0.5 and 0.8 rounded to the nearest float64. *)
Definition f64_one : float64 := S754_finite false 4503599627370496 (-52).
Definition f64_half : float64 := S754_finite false 4503599627370496 (-53).
Definition f64_0_8 : float64 := S754_finite false 7205759403792794 (-53).

(** [uint64(f)]: truncation towards zero; [oob] stands for the value of a
    conversion out of range. *)
Definition f64_to_uint (oob : Z) (f : float64) : Z :=
  match f with
  | S754_zero _ => 0
  | S754_finite false m e =>
      let z := Z.shiftl (Zpos m) e in if z <? 2 ^ 64 then z else oob
  | S754_finite true m e => if Z.shiftl (Zpos m) e =? 0 then 0 else oob
  | _ => oob
  end.

(** The loop of [math.Pow] over the bits of a positive integer exponent:
    [ans = a1 * 2^ae] and [x1 * 2^xe] is the current square. *)
Fixpoint pow_loop (x1 : float64) (xe : Z) (a1 : float64) (ae : Z) (i : positive) : float64 * Z :=
  if (xe <? - 2 ^ 12) || (2 ^ 12 <? xe) then (a1, ae + xe)
  else
    let square :=
      let x2 := f64_mul x1 x1 in
      if SFltb x2 f64_half then (f64_add x2 x2, xe * 2 - 1) else (x2, xe * 2) in
    match i with
    | xH => (f64_mul a1 x1, ae + xe)
    | xO i' => pow_loop square.1 square.2 a1 ae i'
    | xI i' => pow_loop square.1 square.2 (f64_mul a1 x1) (ae + xe) i'
    end.

(** [math.Pow(x, float64(i))] for a finite non-zero [x] and [0 <= i < 2^53]. *)
Definition math_Pow (x : float64) (i : Z) : float64 :=
  match i with
  | Zpos xH => x
  | Zpos p =>
      let '(x1, xe) := SFfrexp 53 1024 x in
      let '(a1, ae) := pow_loop x1 xe f64_one 0 p in
      SFldexp 53 1024 a1 ae
  | _ => f64_one
  end.

(** 0.8 squared is 0.6400000000000001 in float64, as in Go. *)
Example math_Pow_2 : math_Pow f64_0_8 2 = S754_finite false 5764607523034236 (-53).
Proof. vm_compute. reflexivity. Qed.
