(* ===== verification/Builder.v ===== *)
(** * When blocks are built: vm/block_builder.go and utils/timer

    The methods of [TimeBuilder] as functions of its state, the channel to the
    consensus engine and the mempool's [Pending] channel, and the interleavings
    of the goroutines that call them as a step relation.  [timer_runs] says
    whether some goroutine runs the [Dispatch] loop of the builder's timer; the
    program never starts one, see [idle_builder_never_asks]. *)

From S2P Require Import Prelude.

(** ** utils/timer: the timer's fields, [timeout] being a channel of length one *)

Record Timer := mkTimer {
  tm_timeout : bool;
  tm_finished : bool;
  tm_shouldExecute : bool;
  tm_duration : Z
}.
Definition NewTimer : Timer := mkTimer false false false 0.
Definition reset (t : Timer) : Timer :=
  mkTimer true (tm_finished t) (tm_shouldExecute t) (tm_duration t).
Definition SetTimeoutIn (duration : Z) (t : Timer) : Timer :=
  reset (mkTimer (tm_timeout t) (tm_finished t) true duration).
Definition Cancel (t : Timer) : Timer :=
  reset (mkTimer (tm_timeout t) (tm_finished t) false (tm_duration t)).
Definition Stop (t : Timer) : Timer :=
  reset (mkTimer (tm_timeout t) true (tm_shouldExecute t) (tm_duration t)).

(** ** The builder *)

Inductive buildingBlkStatus := dontBuild | mayBuild | building.
#[global] Instance buildingBlkStatus_eq_dec : EqDecision buildingBlkStatus.
Proof. solve_decision. Defined.

(** [toEngine] counts the messages in the channel to the engine. *)
Record TimeBuilder := mkTimeBuilder {
  tb_status : buildingBlkStatus;
  tb_buildBlockTimer : Timer;
  tb_toEngine : nat
}.
Definition NewTimeBuilder (queued : nat) : TimeBuilder := mkTimeBuilder dontBuild NewTimer queued.

Section builder.
(** The capacity of the channel, and [config.BuildInterval]. *)
Variables (capacity : nat) (BuildInterval : Z).

Definition markBuilding (b : TimeBuilder) : TimeBuilder :=
  if (tb_toEngine b <? capacity)%nat
  then mkTimeBuilder building (tb_buildBlockTimer b) (S (tb_toEngine b))
  else b.

Definition signalTxsReady (b : TimeBuilder) : TimeBuilder :=
  if decide (tb_status b <> dontBuild) then b else markBuilding b.

Definition needToBuild (mempool_Len : nat) : bool := (0 <? mempool_Len)%nat.

Definition HandleGenerateBlock (mempool_Len : nat) (b : TimeBuilder) : TimeBuilder :=
  if needToBuild mempool_Len
  then mkTimeBuilder mayBuild (SetTimeoutIn BuildInterval (tb_buildBlockTimer b)) (tb_toEngine b)
  else mkTimeBuilder dontBuild (tb_buildBlockTimer b) (tb_toEngine b).

(** The handler of the timer; it never asks to be called again. *)
Definition buildBlockTwoStageTimer (b : TimeBuilder) : TimeBuilder * (Z * bool) :=
  (match tb_status b with
   | dontBuild => b
   | mayBuild => markBuilding b
   | building => b
   end, (0, false)).

Definition NotifyBuild (toEngine : nat) : nat :=
  if (toEngine <? capacity)%nat then S toEngine else toEngine.

(** ** Timer.Dispatch

    The two branches of the loop's [select]; [armed] is the Go timer of the
    loop.  The second says whether the handler is called. *)
Definition Dispatch_timeout (t : Timer) (armed : bool) : Timer * bool :=
  (mkTimer false (tm_finished t) (tm_shouldExecute t) (tm_duration t), tm_shouldExecute t || armed).
Definition Dispatch_fired (t : Timer) : bool := negb (tm_finished t) && tm_shouldExecute t.

(** ** Interleavings *)

Record node := mkNode {
  n_builder : TimeBuilder;
  n_armed : bool;
  n_Pending : bool;
  n_pool : nat;
  n_engine : bool   (* the engine has taken a message and is to build *)
}.
Definition start_node : node := mkNode (NewTimeBuilder 0) false false 0 false.

(** The steps of the node itself, [true], and of its environment: transactions
    that arrive or leave. *)
Inductive step (timer_runs : bool) : bool -> node -> node -> Prop :=
  (* mempool.Add of one more transaction *)
  | step_add b a p n e : step timer_runs false (mkNode b a p n e) (mkNode b a true (S n) e)
  (* transactions leave the mempool: verified, pruned, evicted or gossiped *)
  | step_remove b a p n n' e : (n' <= n)%nat ->
      step timer_runs false (mkNode b a p n e) (mkNode b a p n' e)
  (* the Build loop receives from Pending *)
  | step_signal b a n e :
      step timer_runs true (mkNode b a true n e) (mkNode (signalTxsReady b) a false n e)
  (* the engine receives a message *)
  | step_take st t k a p n e :
      step timer_runs true (mkNode (mkTimeBuilder st t (S k)) a p n e)
        (mkNode (mkTimeBuilder st t k) a p n true)
  (* it calls VM.BuildBlock, which may leave transactions and put some back *)
  | step_build b a p p' n n' : (n' <= n)%nat -> (p = true -> p' = true) ->
      step timer_runs true (mkNode b a p n true) (mkNode (HandleGenerateBlock n' b) a p' n' false)
  (* the goroutine of the timer *)
  | step_timeout st t k a p n e : timer_runs = true -> tm_timeout t = true ->
      step timer_runs true (mkNode (mkTimeBuilder st t k) a p n e)
        (let '(t', a') := Dispatch_timeout t a in mkNode (mkTimeBuilder st t' k) a' p n e)
  | step_fired b p n e : timer_runs = true ->
      step timer_runs true (mkNode b true p n e)
        (mkNode (if Dispatch_fired (tb_buildBlockTimer b) then (buildBlockTwoStageTimer b).1 else b)
          false p n e).

Definition any_step (timer_runs : bool) (n n' : node) : Prop := exists own, step timer_runs own n n'.
Definition reachable (timer_runs : bool) : node -> Prop := rtc (any_step timer_runs) start_node.

(** *** With the timer's goroutine *)

(** Whoever the builder waits for will come back to it. *)
Definition awaited (n : node) : Prop :=
  (0 < tb_toEngine (n_builder n))%nat \/ n_engine n = true.
Definition timed (n : node) : Prop :=
  let t := tb_buildBlockTimer (n_builder n) in
  tm_shouldExecute t = true /\ (tm_timeout t = true \/ n_armed n = true).
Record builder_inv (n : node) : Prop := {
  inv_building : tb_status (n_builder n) = building -> awaited n;
  inv_mayBuild : tb_status (n_builder n) = mayBuild -> timed n \/ awaited n;
  inv_dontBuild : tb_status (n_builder n) = dontBuild -> (0 < n_pool n)%nat ->
    n_Pending n = true \/ awaited n;
  inv_finished : tm_finished (tb_buildBlockTimer (n_builder n)) = false
}.

Lemma markBuilding_cases b :
  (0 < capacity)%nat ->
  (0 < tb_toEngine (markBuilding b))%nat /\
  tb_buildBlockTimer (markBuilding b) = tb_buildBlockTimer b.
Proof.
  intros Hcap. unfold markBuilding. destruct (Nat.ltb_spec (tb_toEngine b) capacity);
    (split; [simpl; lia|done]).
Qed.

Lemma asked_inv b a p n e :
  (0 < tb_toEngine b)%nat -> tm_finished (tb_buildBlockTimer b) = false ->
  builder_inv (mkNode b a p n e).
Proof. intros Hk Hf. split; cbn; unfold awaited; cbn; auto. Qed.

Lemma builder_inv_step n n' : (0 < capacity)%nat -> any_step true n n' -> builder_inv n -> builder_inv n'.
Proof.
  intros Hcap [own Hstep] [Hb Hm Hd Hf]. unfold timed, awaited in *.
  destruct Hstep; cbn [n_builder n_armed n_Pending n_pool n_engine tb_toEngine tb_status
    tb_buildBlockTimer] in *.
  - split; cbn; unfold timed, awaited; cbn; auto.
  - split; cbn; unfold timed, awaited; cbn; auto. intros Hs Hn. apply Hd; [done|lia].
  - unfold signalTxsReady. destruct (decide (tb_status b <> dontBuild)) as [Hs|Hs].
    + split; cbn; unfold timed, awaited; cbn; auto; intros Hs'; by destruct Hs.
    + destruct (markBuilding_cases b Hcap) as [Hk Ht]. apply asked_inv; [done|by rewrite Ht].
  - split; cbn; unfold timed, awaited; cbn; auto.
  - unfold HandleGenerateBlock, needToBuild. destruct (Nat.ltb_spec 0 n') as [Hn|Hn];
      split; cbn; unfold timed, awaited; cbn; auto; intros; done || lia.
  - split; cbn; unfold timed, awaited; cbn; auto. intros Hs.
    destruct (Hm Hs) as [[Hx _]|Hk]; [left|by right]. rewrite Hx. auto.
  - unfold Dispatch_fired. rewrite Hf. cbn [negb andb].
    destruct (tm_shouldExecute (tb_buildBlockTimer b)) eqn:Hx.
    + unfold buildBlockTwoStageTimer. cbn [fst]. destruct (tb_status b) eqn:Hs.
      * split; cbn; unfold timed, awaited; cbn; rewrite ?Hs; auto; done.
      * destruct (markBuilding_cases b Hcap) as [Hk Ht]. apply asked_inv; [done|by rewrite Ht].
      * split; cbn; unfold timed, awaited; cbn; rewrite ?Hs; auto; done.
    + split; cbn; unfold timed, awaited; cbn; auto. intros Hs.
      destruct (Hm Hs) as [[Hy _]|Hk]; [congruence|by right].
Qed.

Lemma builder_inv_reachable n : (0 < capacity)%nat -> reachable true n -> builder_inv n.
Proof.
  intros Hcap Hr. unfold reachable in Hr.
  assert (builder_inv start_node) as H0 by (split; cbn; unfold timed, awaited; cbn; lia || done).
  revert H0. generalize start_node, Hr. clear Hr. intros m Hr. induction Hr; [done|].
  intros Hm. apply IHHr. by eapply builder_inv_step.
Qed.

(** C20: With a goroutine that dispatches its timer, the builder never forgets a
    transaction: in every interleaving, while the mempool is not empty some
    goroutine of the node has a step to make, also when messages to the engine
    have been dropped because the channel was full. *)
Theorem dispatched_builder_never_stalls n :
  (0 < capacity)%nat -> reachable true n -> (0 < n_pool n)%nat -> exists n', step true true n n'.
Proof.
  intros Hcap Hr Hn. destruct (builder_inv_reachable n Hcap Hr) as [Hb Hm Hd Hf].
  destruct n as [[st t k] a p m e]. unfold timed, awaited in *.
  cbn [n_builder n_armed n_Pending n_pool n_engine tb_toEngine tb_status tb_buildBlockTimer] in *.
  assert ((0 < k)%nat \/ e = true ->
    exists n', step true true (mkNode (mkTimeBuilder st t k) a p m e) n') as Hawait.
  { intros [Hk| ->]; [|eexists; by apply (step_build _ _ _ p p m m)].
    destruct k; [lia|]. eexists. constructor. }
  destruct st.
  - destruct Hd as [->|Hd]; [done|done| |by apply Hawait]. eexists. constructor.
  - destruct Hm as [[Hx [Ht| ->]]|Hm]; [done| | |by apply Hawait].
    + eexists. by apply step_timeout.
    + eexists. by apply step_fired.
  - by apply Hawait, Hb.
Qed.

(** *** As the program runs: without it *)

Definition stalled (n : node) : Prop :=
  tb_status (n_builder n) = mayBuild /\ tb_toEngine (n_builder n) = 0%nat /\ n_engine n = false.

Lemma stalled_step n n' : any_step false n n' -> stalled n -> stalled n'.
Proof.
  intros [own Hstep] (Hs & Hk & He). unfold stalled in *.
  destruct Hstep; cbn [n_builder n_engine tb_toEngine tb_status] in *; try done.
  unfold signalTxsReady. by rewrite decide_True by congruence.
Qed.

(** C21: The program starts no goroutine for the timer of the builder.  One block
    that leaves a transaction in the mempool is enough to stop the node: from
    then on, whatever transactions arrive, it never asks the engine for a block
    again. *)
Theorem idle_builder_never_asks :
  (0 < capacity)%nat ->
  exists n, reachable false n /\ (0 < n_pool n)%nat /\
    forall n', rtc (any_step false) n n' ->
      tb_toEngine (n_builder n') = 0%nat /\ n_engine n' = false.
Proof.
  intros Hcap. assert ((0 <? capacity)%nat = true) as Hc by (by apply Nat.ltb_lt).
  set (b := mkTimeBuilder mayBuild (SetTimeoutIn BuildInterval NewTimer) 0).
  exists (mkNode b false false 1 false). split_and!; [|cbn; lia|].
  - unfold reachable, start_node, NewTimeBuilder.
    eapply rtc_l; [exists false; apply step_add|]. eapply rtc_l; [exists true; apply step_signal|].
    unfold signalTxsReady, markBuilding. cbn [tb_status tb_toEngine tb_buildBlockTimer].
    rewrite decide_False by (intros Hn; by apply Hn). rewrite Hc.
    eapply rtc_l; [exists true; apply step_take|].
    eapply rtc_l; [exists true; by apply (step_build _ _ _ false false 1 1)|]. apply rtc_refl.
  - intros n' Hr. assert (stalled n') as (_ & Hk & He); [|done].
    assert (stalled (mkNode b false false 1 false)) as Hst by done.
    revert Hst. induction Hr; [done|]. intros Hst. by eapply IHHr, stalled_step.
Qed.
End builder.
