(* ===== verification/Lifecycle.v ===== *)
(** * Starting, replacing and stopping the builder: vm/block_builder.go, vm/vm.go

    The goroutines of a builder, the channels that stop them and the ones they
    close when they are done, and the two operations that wait for them,
    [SetBlockBuilder] and [Shutdown].  A channel is only ever closed; receiving
    from it waits until it is.  What the goroutines do while they run is in
    Builder.v and Network.v. *)

From S2P Require Import Prelude.

Abbreviation chan := nat.
Inductive builder_kind := Time | Manual.

(** A goroutine: the channels of which one stops it, none for the methods of
    [ManualBuilder], which end at once, and the channel it closes at its end. *)
Record goroutine := mkGoroutine { g_stops : option (chan * chan); g_done : chan }.

(** Where the caller of [SetBlockBuilder] or [Shutdown] is. *)
Inductive control :=
  | Ready
  | Replacing (b : builder_kind) | Replacing_gossip (b : builder_kind)
  | Stopping | Stopping_gossip
  | Down
  | Crashed.   (* a channel was closed twice *)

Record life := mkLife {
  lf_closed : gset chan;
  lf_next : chan;
  lf_stop : chan;
  lf_builderStop : chan;
  lf_doneBuild : chan;
  lf_doneGossip : chan;
  lf_running : list goroutine;
  lf_control : control
}.

Definition put_control (c : control) (s : life) : life :=
  mkLife (lf_closed s) (lf_next s) (lf_stop s) (lf_builderStop s) (lf_doneBuild s) (lf_doneGossip s)
    (lf_running s) c.
Definition put_running (l : list goroutine) (s : life) : life :=
  mkLife (lf_closed s) (lf_next s) (lf_stop s) (lf_builderStop s) (lf_doneBuild s) (lf_doneGossip s)
    l (lf_control s).
(** [close(c)]; it panics on a closed channel. *)
Definition close (c : chan) (s : life) : life :=
  if decide (c ∈ lf_closed s) then put_control Crashed s
  else mkLife ({[c]} ∪ lf_closed s) (lf_next s) (lf_stop s) (lf_builderStop s) (lf_doneBuild s)
         (lf_doneGossip s) (lf_running s) (lf_control s).

(** [NewTimeBuilder] and [NewManualBuilder] take the channels of the VM as they
    are; [go vm.builder.Build()] and [go vm.builder.Gossip()]. *)
Definition loop_of (b : builder_kind) (s : life) (done : chan) : goroutine :=
  mkGoroutine (match b with Time => Some (lf_builderStop s, lf_stop s) | Manual => None end) done.
Definition spawn (b : builder_kind) (s : life) : life :=
  put_running (loop_of b s (lf_doneBuild s) :: loop_of b s (lf_doneGossip s) :: lf_running s) s.
(** [Initialize] makes the channels and starts the first builder. *)
Definition started : life := spawn Time (mkLife ∅ 4 0 1 2 3 [] Ready).
(** The second half of [SetBlockBuilder]. *)
Definition renew (b : builder_kind) (s : life) : life :=
  let n := lf_next s in
  spawn b (mkLife (lf_closed s) (n + 3) (lf_stop s) (n + 2) n (n + 1) (lf_running s) (lf_control s)).

(** Whether the [select] of a goroutine can take a branch that returns. *)
Definition can_end (g : goroutine) (s : life) : Prop :=
  match g_stops g with
  | Some (builderStop, stop) => builderStop ∈ lf_closed s \/ stop ∈ lf_closed s
  | None => True
  end.

(** The calls come from the engine, one at a time, and [Shutdown] is the last. *)
Inductive call : life -> life -> Prop :=
  | call_SetBlockBuilder b s : lf_control s = Ready ->
      call s (close (lf_builderStop s) (put_control (Replacing b) s))
  | call_Shutdown s : lf_control s = Ready ->
      call s (close (lf_stop s) (put_control Stopping s)).
(** What then happens of itself. *)
Inductive own : life -> life -> Prop :=
  | own_end g l l' s : lf_running s = l ++ g :: l' -> can_end g s ->
      own s (close (g_done g) (put_running (l ++ l') s))
  | own_built b s : lf_control s = Replacing b -> lf_doneBuild s ∈ lf_closed s ->
      own s (put_control (Replacing_gossip b) s)
  | own_replaced b s : lf_control s = Replacing_gossip b -> lf_doneGossip s ∈ lf_closed s ->
      own s (renew b (put_control Ready s))
  | own_stopped s : lf_control s = Stopping -> lf_doneBuild s ∈ lf_closed s ->
      own s (put_control Stopping_gossip s)
  | own_down s : lf_control s = Stopping_gossip -> lf_doneGossip s ∈ lf_closed s ->
      own s (put_control Down s).
Definition life_step (s s' : life) : Prop := call s s' \/ own s s'.
Definition lives (s : life) : Prop := rtc life_step started s.

(** ** The state of consensus: [SetState] *)
Inductive snow_State := Bootstrapping | NormalOp | UnknownState.
Definition onBootstrapStarted (bootstrapped : bool) : bool := false.
Definition onNormalOperationsStarted (bootstrapped : bool) : bool :=
  if bootstrapped then bootstrapped else true.
Definition SetState (state : snow_State) (bootstrapped : bool) : bool * result unit :=
  match state with
  | Bootstrapping => (onBootstrapStarted bootstrapped, inr tt)
  | NormalOp => (onNormalOperationsStarted bootstrapped, inr tt)
  | UnknownState => (bootstrapped, inl (ExtError "unknown state"))
  end.

(** ** The goroutines of the builder *)

Definition left_of (b : builder_kind) (s : life) (done : chan) : list goroutine :=
  if decide (done ∈ lf_closed s) then [] else [loop_of b s done].

(** Only the goroutines of the builder in place run, each until it has closed its
    channel; what is closed fits the caller. *)
Record life_inv (s : life) : Prop := {
  li_running : exists b, lf_running s ≡ₚ left_of b s (lf_doneBuild s) ++ left_of b s (lf_doneGossip s);
  li_fresh c : c ∈ lf_closed s \/ c ∈ [lf_stop s; lf_builderStop s; lf_doneBuild s; lf_doneGossip s] ->
    (c < lf_next s)%nat;
  li_distinct : NoDup [lf_stop s; lf_builderStop s; lf_doneBuild s; lf_doneGossip s];
  li_control : match lf_control s with
    | Ready => lf_stop s ∉ lf_closed s /\ lf_builderStop s ∉ lf_closed s
    | Replacing _ => lf_stop s ∉ lf_closed s /\ lf_builderStop s ∈ lf_closed s
    | Replacing_gossip _ => lf_stop s ∉ lf_closed s /\ lf_builderStop s ∈ lf_closed s /\ lf_doneBuild s ∈ lf_closed s
    | Stopping => lf_stop s ∈ lf_closed s
    | Stopping_gossip => lf_stop s ∈ lf_closed s /\ lf_doneBuild s ∈ lf_closed s
    | Down => lf_stop s ∈ lf_closed s /\ lf_doneBuild s ∈ lf_closed s /\ lf_doneGossip s ∈ lf_closed s
    | Crashed => False
    end
}.

Definition closing (c : chan) (s : life) : life :=
  mkLife ({[c]} ∪ lf_closed s) (lf_next s) (lf_stop s) (lf_builderStop s) (lf_doneBuild s)
    (lf_doneGossip s) (lf_running s) (lf_control s).
Lemma close_open c s : c ∉ lf_closed s -> close c s = closing c s.
Proof. intros Hc. unfold close. by rewrite decide_False. Qed.
Lemma left_of_closing b c s done : done <> c -> left_of b (closing c s) done = left_of b s done.
Proof.
  intros Hne. unfold left_of. cbn [closing lf_closed lf_builderStop lf_stop].
  destruct (decide (done ∈ lf_closed s)) as [Hin|Hno]; [rewrite decide_True|rewrite decide_False]; set_solver.
Qed.
Lemma left_of_closed b s done : done ∈ lf_closed s -> left_of b s done = [].
Proof. intros Hin. unfold left_of. by rewrite decide_True. Qed.

Lemma started_inv : life_inv started.
Proof.
  split; cbn.
  - exists Time. unfold left_of. cbn. by rewrite !decide_False by set_solver.
  - intros c [Hc|Hc]; [set_solver|]. repeat (apply elem_of_cons in Hc as [->|Hc]; [lia|]). by apply elem_of_nil in Hc.
  - apply (bool_decide_eq_true_1 _). vm_compute. reflexivity.
  - set_solver.
Qed.

Ltac distinct H := cbn in H; rewrite !NoDup_cons in H; set_solver.

Lemma call_inv s s' : life_inv s -> call s s' -> life_inv s'.
Proof.
  intros [[b Hr] Hf Hd Hc] Hcall. inversion Hcall as [k s0 Hready Heq1 Heq2|s0 Hready Heq1 Heq2]; subst s0;
    clear Hcall Heq2; rewrite Hready in Hc; destruct Hc as [Hstop Hbs].
  - rewrite close_open by done. split.
    + exists b. rewrite !left_of_closing by distinct Hd. exact Hr.
    + cbn. intros c Hin. apply Hf. set_solver.
    + exact Hd.
    + cbn. split; [|set_solver]. cbn in Hd. rewrite !NoDup_cons in Hd. set_solver.
  - rewrite close_open by done. split.
    + exists b. rewrite !left_of_closing by distinct Hd. exact Hr.
    + cbn. intros c Hin. apply Hf. set_solver.
    + exact Hd.
    + cbn. set_solver.
Qed.

(** A goroutine that runs is of the builder in place and its channel is open; the
    other one, if it runs, goes on. *)
Lemma running_goroutine b g rest s :
  g :: rest ≡ₚ left_of b s (lf_doneBuild s) ++ left_of b s (lf_doneGossip s) ->
  exists done other, (done = lf_doneBuild s /\ other = lf_doneGossip s \/ done = lf_doneGossip s /\ other = lf_doneBuild s) /\
    g = loop_of b s done /\ done ∉ lf_closed s /\ rest ≡ₚ left_of b s other.
Proof.
  intros Hr. unfold left_of in *.
  destruct (decide (lf_doneBuild s ∈ lf_closed s)) as [HB|HB], (decide (lf_doneGossip s ∈ lf_closed s)) as [HG|HG]; cbn [app] in Hr.
  - by apply Permutation_nil_r in Hr.
  - apply Permutation_singleton_r in Hr. injection Hr as -> ->. exists (lf_doneGossip s), (lf_doneBuild s).
    rewrite decide_True by done. split_and!; [by right|done..].
  - apply Permutation_singleton_r in Hr. injection Hr as -> ->. exists (lf_doneBuild s), (lf_doneGossip s).
    rewrite decide_True by done. split_and!; [by left|done..].
  - assert (g ∈ [loop_of b s (lf_doneBuild s); loop_of b s (lf_doneGossip s)]) as Hg by (rewrite <- Hr; left).
    apply elem_of_cons in Hg as [->|Hg]; [|apply list_elem_of_singleton in Hg as ->].
    + exists (lf_doneBuild s), (lf_doneGossip s). rewrite decide_False by done.
      apply Permutation_cons_inv in Hr. split_and!; [by left|done..].
    + exists (lf_doneGossip s), (lf_doneBuild s). rewrite decide_False by done.
      rewrite Permutation_swap in Hr. apply Permutation_cons_inv in Hr. split_and!; [by right|done..].
Qed.

Lemma end_inv g l l' s :
  life_inv s -> lf_running s = l ++ g :: l' -> life_inv (close (g_done g) (put_running (l ++ l') s)).
Proof.
  intros [[b Hr] Hf Hd Hc] Hl. rewrite Hl, <- Permutation_middle in Hr.
  destruct (running_goroutine _ _ _ _ Hr) as (done & other & Hwhich & -> & Hopen & Hrest). cbn [loop_of g_done].
  assert (done ∈ [lf_doneBuild s; lf_doneGossip s] /\ other <> done /\ done <> lf_stop s /\ done <> lf_builderStop s)
    as (Hin & Hne & Hns & Hnb).
  { destruct Hwhich as [[-> ->]|[-> ->]]; split_and!; try set_solver; distinct Hd. }
  rewrite close_open by done. split.
  - exists b. cbn [closing put_running lf_running lf_doneBuild lf_doneGossip]. etrans; [exact Hrest|].
    assert (left_of b (closing done (put_running (l ++ l') s)) done = []) as Hdone by (apply left_of_closed; cbn; set_solver).
    assert (left_of b (closing done (put_running (l ++ l') s)) other = left_of b s other) as Hother by (by rewrite left_of_closing).
    destruct Hwhich as [[-> ->]|[-> ->]]; rewrite Hdone, Hother; by rewrite ?app_nil_r.
  - cbn. intros c Hcc. apply Hf. set_solver.
  - exact Hd.
  - cbn. destruct (lf_control s); set_solver.
Qed.

Lemma own_inv s s' : life_inv s -> own s s' -> life_inv s'.
Proof.
  intros Hinv Hown. destruct Hown as [g l l' s Hl _|b s Hctl Hdone|b s Hctl Hdone|s Hctl Hdone|s Hctl Hdone].
  { by apply end_inv. }
  all: destruct Hinv as [Hr Hf Hd Hc]; rewrite Hctl in Hc.
  2: { (* a new builder *)
    destruct Hc as (Hstop & Hbs & Hbuild). destruct Hr as [k Hr]. rewrite !left_of_closed in Hr by done.
    apply Permutation_nil_r in Hr.
    assert (forall c, (lf_next s <= c)%nat -> c ∉ lf_closed s) as Hfresh.
    { intros c Hle Hin. specialize (Hf c (or_introl Hin)). lia. }
    pose proof (Hf (lf_stop s) ltac:(right; left)) as Hlt. split; cbn.
    - exists b. rewrite Hr. unfold left_of. cbn. by rewrite !decide_False by (apply Hfresh; lia).
    - intros c [Hin|Hin]; [specialize (Hf c (or_introl Hin)); lia|].
      repeat (apply elem_of_cons in Hin as [->|Hin]; [lia|]). by apply elem_of_nil in Hin.
    - rewrite !NoDup_cons, !not_elem_of_cons. split_and!; try lia; try apply not_elem_of_nil. apply NoDup_nil_2.
    - split; [done|]. apply Hfresh. lia. }
  all: split; cbn; [exact Hr|exact Hf|exact Hd|set_solver].
Qed.
Lemma lives_inv s : lives s -> life_inv s.
Proof.
  intros Hl. apply rtc_ind_r with (P := life_inv) (x := started) in Hl; [done|apply started_inv|].
  intros s1 s2 _ [Hcall|Hown] Hinv; [by eapply call_inv|by eapply own_inv].
Qed.

(** ** Nobody waits for ever *)

Definition waits (c : control) : bool :=
  match c with Ready | Down | Crashed => false | _ => true end.
(** The steps that are left until the caller returns. *)
Definition to_go (s : life) : nat :=
  length (lf_running s) + match lf_control s with
    | Replacing _ => 5 | Replacing_gossip _ => 4 | Stopping => 3 | Stopping_gossip => 2 | _ => 0 end.

Lemma waiting_progress s : life_inv s -> waits (lf_control s) = true -> exists s', own s s'.
Proof.
  intros [[b Hr] _ _ Hc] Hw.
  assert (forall done, done = lf_doneBuild s \/ done = lf_doneGossip s -> lf_stop s ∈ lf_closed s \/ lf_builderStop s ∈ lf_closed s ->
    done ∈ lf_closed s \/ exists s', own s s') as Hend.
  { intros done Hwhich Hclosed. destruct (decide (done ∈ lf_closed s)) as [Hin|Hno]; [by left|right].
    assert (loop_of b s done ∈ lf_running s) as Hin.
    { rewrite Hr. destruct Hwhich as [->| ->]; unfold left_of; rewrite elem_of_app;
        [left|right]; rewrite decide_False by done; left. }
    apply list_elem_of_split in Hin as (l & l' & Hl). eexists. apply own_end; [exact Hl|].
    unfold can_end. destruct b; cbn; [destruct Hclosed; auto|done]. }
  destruct (lf_control s) as [|k|k| | | |] eqn:Hctl; try done.
  - destruct (Hend _ (or_introl eq_refl) (or_intror (proj2 Hc))) as [Hin|]; [|done]. eexists. by eapply own_built.
  - destruct (Hend _ (or_intror eq_refl) (or_intror (proj1 (proj2 Hc)))) as [Hin|]; [|done]. eexists. by eapply own_replaced.
  - destruct (Hend _ (or_introl eq_refl) (or_introl Hc)) as [Hin|]; [|done]. eexists. by eapply own_stopped.
  - destruct (Hend _ (or_intror eq_refl) (or_introl (proj1 Hc))) as [Hin|]; [|done]. eexists. by eapply own_down.
Qed.
Lemma own_decreases s s' : life_inv s -> own s s' -> (to_go s' < to_go s)%nat.
Proof.
  intros Hinv Hown. destruct Hown as [g l l' s Hl _|b s Hctl Hdone|b s Hctl Hdone|s Hctl Hdone|s Hctl Hdone].
  - pose proof Hinv as [[b Hr] _ _ _]. rewrite Hl, <- Permutation_middle in Hr.
    destruct (running_goroutine _ _ _ _ Hr) as (done & other & _ & -> & Hopen & _).
    cbn [loop_of g_done]. rewrite close_open by done. unfold to_go. cbn. rewrite Hl, !length_app. cbn. lia.
  - unfold to_go. rewrite Hctl. cbn. lia.
  - unfold to_go. rewrite Hctl. cbn. lia.
  - unfold to_go. rewrite Hctl. cbn. lia.
  - unfold to_go. rewrite Hctl. cbn. lia.
Qed.

(** C22: Whatever the order in which goroutines end and calls are made, one at a time
    and with the shutdown last: no channel is closed twice; who waits for the
    goroutines of a builder does not wait for ever, since there is a step to take
    and every run of steps is bounded; and after a shutdown no goroutine is left,
    after a replacement those of one builder. *)
Theorem builder_is_replaced_and_stopped s :
  lives s ->
  lf_control s <> Crashed /\
  (waits (lf_control s) = true -> exists s', own s s') /\
  (forall n s', nsteps own n s s' -> (n <= to_go s)%nat) /\
  (lf_control s = Down -> lf_running s = []) /\
  (length (lf_running s) <= 2)%nat.
Proof.
  intros Hl%lives_inv. split_and!.
  - intros Hctl. destruct Hl as [_ _ _ Hc]. by rewrite Hctl in Hc.
  - by apply waiting_progress.
  - intros n. revert s Hl. induction n as [|n IH]; intros s Hl s' Hrun; [lia|].
    inversion Hrun as [|? ? s1 ? Hown Hrest]; subst. pose proof (own_decreases _ _ Hl Hown).
    specialize (IH s1 (own_inv _ _ Hl Hown) s' Hrest). lia.
  - intros Hctl. destruct Hl as [[b Hr] _ _ Hc]. rewrite Hctl in Hc. destruct Hc as (_ & HB & HG).
    rewrite !left_of_closed in Hr by done. by apply Permutation_nil_r in Hr.
  - destruct Hl as [[b Hr] _ _ _]. rewrite Hr, length_app. unfold left_of. repeat case_decide; cbn; lia.
Qed.
