(* ===== verification/Heap.v ===== *)
(** * container/heap

    The functions of the Go package [container/heap] the mempool calls, over an
    interface of the five methods, and the theory of its order: whatever the
    representation, [Push] and [Remove] keep the heap order, and the multiset of
    the elements changes by the one pushed or removed. *)

From S2P Require Import Prelude.

(** [heap.Interface]; [Push] and [Pop] are the methods of the slice, which add
    and remove at its end. *)
Class HeapInterface (S X : Type) := {
  Len : S -> nat;
  Less : nat -> nat -> M S bool;
  Swap : nat -> nat -> M S unit;
  slice_Push : X -> M S unit;
  slice_Pop : M S X
}.

(** ** The functions of the package

    [up] and [down] loop at most as often as the index can move; the fuel they
    are given is shown to be enough by the theorems below, whose conclusions
    the order could not satisfy if a loop stopped early. *)
Section code.
Context {S X : Type} `{HeapInterface S X}.

Fixpoint up (fuel : nat) (j : nat) : M S unit :=
  match fuel with
  | O => ret tt
  | Datatypes.S fuel' =>
      let i := ((j - 1) / 2)%nat in
      if (i =? j)%nat then ret tt
      else
        let! less := Less j i in
        if negb less then ret tt
        else Swap i j ;;; up fuel' i
  end.

(** The smaller child of [i] among the first [n] elements. *)
Definition smaller_child (i n : nat) : M S nat :=
  let j1 := (2 * i + 1)%nat in
  let j2 := (j1 + 1)%nat in
  let! right := (if (j2 <? n)%nat then Less j2 j1 else ret false) in
  ret (if right : bool then j2 else j1).

(** The loop of [down]; it answers the final position. *)
Fixpoint down_loop (fuel : nat) (i n : nat) : M S nat :=
  match fuel with
  | O => ret i
  | Datatypes.S fuel' =>
      if (n <=? 2 * i + 1)%nat then ret i
      else
        let! j := smaller_child i n in
        let! less := Less j i in
        if negb less then ret i
        else Swap i j ;;; down_loop fuel' j n
  end.
Definition down (i0 n : nat) : M S bool :=
  let! i := down_loop n i0 n in ret (i0 <? i)%nat.

Definition Push (x : X) : M S unit :=
  slice_Push x ;;;
  let! len := gets Len in
  up len (len - 1).

Definition Remove (i : nat) : M S X :=
  let! len := gets Len in
  let n := (len - 1)%nat in
  (if negb (n =? i)%nat then
     Swap i n ;;;
     let! moved := down i n in
     if negb moved then up (Datatypes.S i) i else ret tt
   else ret tt) ;;;
  slice_Pop.
End code.

(** ** The order on lists *)

Definition parent (k : nat) : nat := ((k - 1) / 2)%nat.

Lemma parent_lt k : (0 < k)%nat -> (parent k < k)%nat.
Proof. intros Hk. apply Nat.Div0.div_lt_upper_bound. lia. Qed.
Lemma parent_child i k : (0 < k)%nat -> parent k = i <-> k = (2 * i + 1)%nat \/ k = (2 * i + 2)%nat.
Proof.
  intros Hk. unfold parent. pose proof (Nat.div_mod_eq (k - 1) 2) as Hdm.
  pose proof (Nat.mod_upper_bound (k - 1) 2). lia.
Qed.

Definition list_swap {E} (i j : nat) (l : list E) : list E :=
  match l !! i, l !! j with
  | Some x, Some y => <[i := y]> (<[j := x]> l)
  | _, _ => l
  end.

Lemma length_list_swap {E} i j (l : list E) : length (list_swap i j l) = length l.
Proof. unfold list_swap. repeat case_match; by rewrite ?length_insert. Qed.
Lemma lookup_list_swap {E} i j (l : list E) k :
  (i < length l)%nat -> (j < length l)%nat ->
  list_swap i j l !! k = if decide (k = i) then l !! j else if decide (k = j) then l !! i else l !! k.
Proof.
  intros Hi Hj. unfold list_swap.
  destruct (lookup_lt_is_Some_2 l i Hi) as [x Hx], (lookup_lt_is_Some_2 l j Hj) as [y Hy].
  rewrite Hx, Hy. destruct (decide (k = i)) as [->|Hki].
  { apply list_lookup_insert_eq. by rewrite length_insert. }
  rewrite list_lookup_insert_ne by done. destruct (decide (k = j)) as [->|Hkj].
  { by apply list_lookup_insert_eq. }
  by rewrite list_lookup_insert_ne.
Qed.
Lemma list_swap_perm {E} i j (l : list E) : list_swap i j l ≡ₚ l.
Proof.
  unfold list_swap. destruct (l !! i) as [x|] eqn:Hx, (l !! j) as [y|] eqn:Hy; [|done..].
  by apply Permutation_insert_swap.
Qed.

Section order.
Context {E : Type} (le : relation E) `{!PreOrder le}.
Implicit Types (l : list E).

(** [l !! i] and [l !! j] are in order when both exist. *)
Definition le_opt (x y : option E) : Prop :=
  match x, y with Some x, Some y => le x y | _, _ => True end.
Definition le_at l (i j : nat) : Prop := le_opt (l !! i) (l !! j).

(** The first [n] elements are in order ... *)
Definition ordered_to (n : nat) l : Prop := forall k, (0 < k < n)%nat -> le_at l (parent k) k.
(** ... but for the element at [i] and its parent ... *)
Definition rising (i n : nat) l : Prop :=
  (forall k, (0 < k < n)%nat -> k <> i -> le_at l (parent k) k) /\
  (forall k, (0 < k < n)%nat -> parent k = i -> (0 < i)%nat -> le_at l (parent i) k).
(** ... but for the element at [i] and its children ... *)
Definition sinking (i n : nat) l : Prop :=
  (forall k, (0 < k < n)%nat -> parent k <> i -> le_at l (parent k) k) /\
  (forall k, (0 < k < n)%nat -> parent k = i -> (0 < i)%nat -> le_at l (parent i) k).
(** ... but for the element at [i] and both. *)
Definition hole (i n : nat) l : Prop :=
  (forall k, (0 < k < n)%nat -> k <> i -> parent k <> i -> le_at l (parent k) k) /\
  (forall k, (0 < k < n)%nat -> parent k = i -> (0 < i)%nat -> le_at l (parent i) k).

Lemma le_at_trans l i j k :
  (j < length l)%nat -> le_at l i j -> le_at l j k -> le_at l i k.
Proof.
  intros Hj. unfold le_at. destruct (lookup_lt_is_Some_2 l j Hj) as [y ->].
  destruct (l !! i), (l !! k); simpl; try done. intros. by etrans.
Qed.

(** The swap of [up]: the element at [j] moves to its parent. *)
Lemma rising_step i j n l :
  (0 < j < n)%nat -> (n <= length l)%nat -> i = parent j -> rising j n l -> le_at l j i ->
  rising i n (list_swap i j l).
Proof.
  intros Hj Hn Hi [H1 H2] Hji. pose proof (parent_lt j ltac:(lia)) as Hlt.
  unfold rising, le_at in *. split.
  - intros k Hk Hki. pose proof (parent_lt k ltac:(lia)) as Hpk.
    rewrite !lookup_list_swap by lia. rewrite (decide_False (P := k = i)) by done.
    destruct (decide (k = j)) as [->|Hkj]; [by rewrite decide_True by done|].
    destruct (decide (parent k = i)) as [Hpi|Hpi].
    + eapply (le_at_trans l j i k); [lia|done|]. unfold le_at. rewrite <- Hpi. by apply H1.
    + destruct (decide (parent k = j)) as [Hpj|Hpj]; [|by apply H1].
      subst i. apply H2; lia.
  - intros k Hk Hpk H0i. pose proof (parent_lt i ltac:(lia)) as Hpi.
    pose proof (parent_lt k ltac:(lia)) as Hpk'.
    rewrite !lookup_list_swap by lia.
    rewrite (decide_False (P := parent i = i)), (decide_False (P := parent i = j)),
      (decide_False (P := k = i)) by lia.
    destruct (decide (k = j)) as [->|Hkj]; [apply H1; lia|].
    eapply (le_at_trans l (parent i) i k); [lia|apply H1; lia|]. unfold le_at.
    rewrite <- Hpk at 1. apply H1; lia.
Qed.
Lemma rising_stop j n l : rising j n l -> le_at l (parent j) j -> ordered_to n l.
Proof. intros [H1 _] Hj k Hk. destruct (decide (k = j)) as [->|]; [done|by apply H1]. Qed.
Lemma rising_root n l : rising 0 n l -> ordered_to n l.
Proof. intros [H1 _] k Hk. apply H1; lia. Qed.

(** The swap of [down]: the element at [i] moves to its smaller child [j]. *)
Lemma hole_step i j n l :
  (0 < j < n)%nat -> (n <= length l)%nat -> parent j = i -> hole i n l -> le_at l j i ->
  (forall k, (0 < k < n)%nat -> parent k = i -> le_at l j k) ->
  sinking j n (list_swap i j l).
Proof.
  intros Hj Hn Hi [H1 H2] Hji Hmin. pose proof (parent_lt j ltac:(lia)) as Hlt.
  unfold sinking, le_at in *. split.
  - intros k Hk Hkj. pose proof (parent_lt k ltac:(lia)) as Hpk.
    rewrite !lookup_list_swap by lia. rewrite (decide_False (P := parent k = j)) by done.
    destruct (decide (k = j)) as [->|Hkj'].
    { rewrite (decide_True (P := parent j = i)), (decide_False (P := j = i)) by lia. done. }
    destruct (decide (parent k = i)) as [Hpi|Hpi].
    { rewrite (decide_False (P := k = i)) by lia. by apply Hmin. }
    destruct (decide (k = i)) as [->|Hki]; [|by apply H1].
    apply (H2 j); lia.
  - intros k Hk Hpk H0j. pose proof (parent_lt k ltac:(lia)) as Hlk.
    rewrite !lookup_list_swap by lia.
    rewrite (decide_True (P := parent j = i)), (decide_False (P := k = i)),
      (decide_False (P := k = j)) by lia.
    rewrite <- Hpk at 1. apply H1; lia.
Qed.
Lemma sinking_hole i n l : sinking i n l -> hole i n l.
Proof. intros [H1 H2]. split; [|done]. intros; by apply H1. Qed.
Lemma sinking_stop i n l :
  sinking i n l -> (forall k, (0 < k < n)%nat -> parent k = i -> le_at l i k) -> ordered_to n l.
Proof.
  intros [H1 _] Hc k Hk. destruct (decide (parent k = i)) as [<-|]; [by apply Hc|by apply H1].
Qed.
Lemma hole_stop i n l :
  hole i n l -> (forall k, (0 < k < n)%nat -> parent k = i -> le_at l i k) -> rising i n l.
Proof.
  intros [H1 H2] Hc. split; [|done]. intros k Hk Hki.
  destruct (decide (parent k = i)) as [<-|]; [by apply Hc|by apply H1].
Qed.

(** Removing the element at [i]: the last one is put in its place. *)
Lemma ordered_hole i n l :
  (i < n)%nat -> (n < length l)%nat -> ordered_to (S n) l -> hole i n (list_swap i n l).
Proof.
  intros Hi Hn Ho. unfold hole, le_at. split.
  - intros k Hk Hki Hpi. pose proof (parent_lt k ltac:(lia)).
    rewrite !lookup_list_swap by lia.
    rewrite (decide_False (P := parent k = i)), (decide_False (P := parent k = n)),
      (decide_False (P := k = i)), (decide_False (P := k = n)) by lia.
    apply Ho. lia.
  - intros k Hk Hpk H0. pose proof (parent_lt k ltac:(lia)). pose proof (parent_lt i ltac:(lia)).
    rewrite !lookup_list_swap by lia.
    rewrite (decide_False (P := parent i = i)), (decide_False (P := parent i = n)),
      (decide_False (P := k = i)), (decide_False (P := k = n)) by lia.
    eapply (le_at_trans l (parent i) i k); [lia|apply Ho; lia|]. unfold le_at.
    rewrite <- Hpk at 1. apply Ho. lia.
Qed.
(** Adding an element at the end. *)
Lemma ordered_rising l x : ordered_to (length l) l -> rising (length l) (S (length l)) (l ++ [x]).
Proof.
  intros Ho. split.
  - intros k Hk Hne. pose proof (parent_lt k ltac:(lia)). unfold le_at.
    rewrite !lookup_app_l by lia. apply Ho. lia.
  - intros k Hk Hpk _. pose proof (parent_lt k ltac:(lia)). lia.
Qed.
Lemma ordered_prefix n l l' :
  (forall k, (k < n)%nat -> l' !! k = l !! k) -> ordered_to n l -> ordered_to n l'.
Proof.
  intros Hl Ho k Hk. pose proof (parent_lt k ltac:(lia)). unfold le_at.
  rewrite !Hl by lia. apply Ho. lia.
Qed.

(** The root is the least element. *)
Lemma ordered_root l x : ordered_to (length l) l -> x ∈ l -> le_opt (l !! 0%nat) (Some x).
Proof.
  intros Ho Hx. apply list_elem_of_lookup in Hx as [k Hk].
  assert (k < length l)%nat as Hlt by by eapply lookup_lt_Some.
  rewrite <- Hk. change (le_at l 0 k). clear Hk x.
  induction k as [k IH] using lt_wf_ind. destruct (decide (k = 0)%nat) as [->|Hne].
  - unfold le_at. destruct (l !! 0%nat); [simpl; reflexivity|done].
  - pose proof (parent_lt k ltac:(lia)).
    eapply (le_at_trans l 0 (parent k) k); [lia|apply IH; lia|apply Ho; lia].
Qed.
End order.

(** ** The contract of the methods

    [h_view] lists the elements behind the representation, [h_inv] is what the
    representation needs of itself. *)
Class HeapLaws (S X : Type) `{HeapInterface S X} {E : Type} (le : relation E) := {
  h_view : S -> list E;
  h_inv : S -> Prop;
  h_elem : X -> E;
  h_le_preorder : PreOrder le;
  Len_view s : Len s = length (h_view s);
  Less_run s i j x y : h_inv s -> h_view s !! i = Some x -> h_view s !! j = Some y ->
    exists b : bool, Less i j s = (s, Ok b) /\ if b then le x y else le y x;
  Swap_run s i j : h_inv s -> (i < length (h_view s))%nat -> (j < length (h_view s))%nat ->
    exists s', Swap i j s = (s', Ok tt) /\ h_inv s' /\ h_view s' = list_swap i j (h_view s);
  slice_Pop_run s l e : h_inv s -> h_view s = l ++ [e] ->
    exists s' x, slice_Pop s = (s', Ok x) /\ h_inv s' /\ h_view s' = l /\ h_elem x = e
}.
Arguments h_view {S X _ E} le {_} s.
Arguments h_inv {S X _ E} le {_} s.
Arguments h_elem {S X _ E} le {_} x.

(** ** The functions keep the order *)
Section facts.
Context {S X : Type} `{HeapInterface S X} {E : Type} (le : relation E) `{!HeapLaws S X le}.
Notation view := (h_view le).
#[local] Instance le_preorder : PreOrder le := h_le_preorder.

(** What a rearrangement of the first [n] elements leaves. *)
Definition rearranged (n : nat) (s s' : S) : Prop :=
  h_inv le s' /\ view s' ≡ₚ view s /\ forall k, (n <= k)%nat -> view s' !! k = view s !! k.

Lemma rearranged_refl n s : h_inv le s -> rearranged n s s.
Proof. done. Qed.
Lemma rearranged_length n s s' : rearranged n s s' -> length (view s') = length (view s).
Proof. intros (_ & Hp & _). by rewrite Hp. Qed.
Lemma rearranged_trans n s1 s2 s3 : rearranged n s1 s2 -> rearranged n s2 s3 -> rearranged n s1 s3.
Proof.
  intros (_ & Hp1 & Hk1) (Hi & Hp2 & Hk2). split_and!; [done|by etrans|].
  intros k Hk. by rewrite Hk2, Hk1.
Qed.
Lemma rearranged_swap n s i j :
  h_inv le s -> (i < n)%nat -> (j < n)%nat -> (n <= length (view s))%nat ->
  exists s', Swap i j s = (s', Ok tt) /\ rearranged n s s' /\ view s' = list_swap i j (view s).
Proof.
  intros Hs Hi Hj Hn. destruct (Swap_run s i j Hs) as (s' & Hrun & Hs' & Hv); [lia..|].
  exists s'. split_and!; [done| |done]. split_and!; [done|rewrite Hv; apply list_swap_perm|].
  intros k Hk. rewrite Hv, lookup_list_swap by lia. by rewrite !decide_False by lia.
Qed.
Lemma Less_at s i j :
  h_inv le s -> (i < length (view s))%nat -> (j < length (view s))%nat ->
  exists b : bool, Less i j s = (s, Ok b) /\
    if b then le_at le (view s) i j else le_at le (view s) j i.
Proof.
  intros Hs Hi Hj. destruct (lookup_lt_is_Some_2 _ _ Hi) as [x Hx].
  destruct (lookup_lt_is_Some_2 _ _ Hj) as [y Hy].
  destruct (Less_run s i j x y Hs Hx Hy) as (b & Hrun & Hb). exists b. split; [done|].
  unfold le_at. by rewrite Hx, Hy.
Qed.

Lemma up_run fuel s j n :
  h_inv le s -> (j < n)%nat -> (n <= length (view s))%nat -> (j < fuel)%nat ->
  rising le j n (view s) ->
  exists s', up fuel j s = (s', Ok tt) /\ rearranged n s s' /\ ordered_to le n (view s').
Proof.
  revert s j. induction fuel as [|fuel IH]; intros s j Hs Hj Hn Hf Hr; [lia|].
  cbn [up]. fold (parent j). destruct (Nat.eqb_spec (parent j) j) as [Hp|Hp].
  { exists s. assert (j = 0)%nat as -> by (destruct (decide (j = 0)%nat); [done|];
      pose proof (parent_lt j ltac:(lia)); lia).
    split_and!; [done|by apply rearranged_refl|by apply rising_root]. }
  assert (0 < j)%nat as H0 by (destruct j; [done|lia]). pose proof (parent_lt j H0) as Hlt.
  destruct (Less_at s j (parent j) Hs) as (b & Hless & Hb); [lia..|].
  rewrite (bind_run _ _ _ _ _ Hless). destruct b; cbn [negb].
  - destruct (rearranged_swap n s (parent j) j Hs) as (s1 & Hswap & Hre & Hv); [lia..|].
    rewrite (bind_run _ _ _ _ _ Hswap). pose proof (rearranged_length _ _ _ Hre) as Hlen.
    destruct (IH s1 (parent j)) as (s' & Hrun & Hre' & Ho); [apply Hre|lia..| |].
    { rewrite Hv. apply rising_step; (done || lia || apply _). }
    exists s'. split_and!; [done|by eapply rearranged_trans|done].
  - exists s. split_and!; [done|by apply rearranged_refl|by eapply rising_stop].
Qed.

Lemma smaller_child_run s i n :
  h_inv le s -> (2 * i + 1 < n)%nat -> (n <= length (view s))%nat ->
  exists j, smaller_child i n s = (s, Ok j) /\ (0 < j < n)%nat /\ parent j = i /\
    forall k, (0 < k < n)%nat -> parent k = i -> le_at le (view s) j k.
Proof.
  intros Hs Hi Hn. unfold smaller_child. set (j1 := (2 * i + 1)%nat) in *.
  assert (forall j, j = j1 \/ j = (j1 + 1)%nat -> parent j = i) as Hpar
    by (intros j Hj; apply parent_child; lia).
  assert (forall k, (0 < k)%nat -> parent k = i -> k = j1 \/ k = (j1 + 1)%nat) as Hchild
    by (intros k Hk Hpk; apply parent_child in Hpk; lia).
  assert (forall k, le_at le (view s) k k) as Hrefl.
  { intros k. unfold le_at. destruct (view s !! k); simpl; [reflexivity|done]. }
  destruct (Nat.ltb_spec (j1 + 1) n) as [Hlt|Hge].
  - destruct (Less_at s (j1 + 1) j1 Hs) as (b & Hless & Hb); [lia..|].
    rewrite (bind_run _ _ _ _ _ Hless). eexists. split; [done|].
    destruct b; (split_and!; [lia..|apply Hpar; lia|]); intros k Hk Hpk;
      apply Hchild in Hpk as [-> | ->]; (assumption || apply Hrefl || lia).
  - eexists. split; [done|]. split_and!; [lia..|apply Hpar; lia|].
    intros k Hk Hpk. apply Hchild in Hpk as [-> | ->]; [apply Hrefl|lia|lia].
Qed.

(** After a loop that starts in a hole at [i]: either nothing moved and only the
    parent of [i] may be out of order, or everything is in order. *)
Lemma down_loop_run fuel s i n :
  h_inv le s -> (i < n)%nat -> (n <= length (view s))%nat -> (n - i <= fuel)%nat ->
  hole le i n (view s) ->
  exists s' i', down_loop fuel i n s = (s', Ok i') /\ rearranged n s s' /\
    ((i' = i /\ rising le i n (view s')) \/ ((i < i')%nat /\ ordered_to le n (view s'))) /\
    (sinking le i n (view s) -> ordered_to le n (view s')).
Proof.
  revert s i. induction fuel as [|fuel IH]; intros s i Hs Hi Hn Hf Hh; [lia|].
  cbn [down_loop].
  assert (forall (Hc : forall k, (0 < k < n)%nat -> parent k = i -> le_at le (view s) i k),
    exists s' i', (s, Ok i) = (s', Ok i') /\ rearranged n s s' /\
    ((i' = i /\ rising le i n (view s')) \/ ((i < i')%nat /\ ordered_to le n (view s'))) /\
    (sinking le i n (view s) -> ordered_to le n (view s'))) as Hstop.
  { intros Hc. exists s, i. split_and!; [done|by apply rearranged_refl| |].
    - left. split; [done|by apply hole_stop].
    - intros Hsk. by eapply sinking_stop. }
  destruct (Nat.leb_spec n (2 * i + 1)) as [Hle|Hgt].
  { apply Hstop. intros k Hk Hpk. apply parent_child in Hpk; lia. }
  destruct (smaller_child_run s i n Hs) as (j & Hrun & Hj & Hpj & Hmin); [lia..|].
  rewrite (bind_run _ _ _ _ _ Hrun).
  destruct (Less_at s j i Hs) as (b & Hless & Hb); [lia..|].
  rewrite (bind_run _ _ _ _ _ Hless). pose proof (parent_lt j ltac:(lia)) as Hlt.
  destruct b; cbn [negb].
  - destruct (rearranged_swap n s i j Hs) as (s1 & Hswap & Hre & Hv); [lia..|].
    rewrite (bind_run _ _ _ _ _ Hswap). pose proof (rearranged_length _ _ _ Hre) as Hlen.
    assert (sinking le j n (view s1)) as Hsk by (rewrite Hv; apply hole_step; (done || lia || apply _)).
    destruct (IH s1 j) as (s' & i' & Hrun' & Hre' & Hi' & Ho); [apply Hre|lia..| |].
    { by apply sinking_hole. }
    specialize (Ho Hsk). exists s', i'.
    split_and!; [done|by eapply rearranged_trans| |done]. right. split; [|done].
    destruct Hi' as [[-> _]|[? _]]; lia.
  - apply Hstop. intros k Hk Hpk. eapply (le_at_trans le (view s) i j k); [lia|done|by apply Hmin].
Qed.

(** [heap.Push] on a slice whose [Push] has appended [e]. *)
Theorem Push_run s x s1 e :
  slice_Push x s = (s1, Ok tt) -> h_inv le s1 -> view s1 = view s ++ [e] ->
  ordered_to le (length (view s)) (view s) ->
  exists s', Push x s = (s', Ok tt) /\ h_inv le s' /\ view s' ≡ₚ e :: view s /\
    ordered_to le (length (view s')) (view s').
Proof.
  intros Hpush Hs1 Hv Ho. unfold Push. rewrite (bind_run _ _ _ _ _ Hpush).
  unfold gets, bind at 1. rewrite (Len_view s1), Hv, length_app. cbn [length].
  destruct (up_run (length (view s) + 1) s1 (length (view s) + 1 - 1) (length (view s1)) Hs1)
    as (s' & Hrun & Hre & Ho'); [rewrite Hv, length_app; simpl; lia|lia|lia| |].
  { rewrite Hv, length_app. cbn [length]. replace (length (view s) + 1 - 1)%nat with (length (view s)) by lia.
    replace (length (view s) + 1)%nat with (Datatypes.S (length (view s))) by lia.
    by apply ordered_rising. }
  exists s'. split_and!; [done|apply Hre| |].
  - destruct Hre as (_ & -> & _). rewrite Hv. by rewrite Permutation_app_comm.
  - by rewrite (rearranged_length _ _ _ Hre).
Qed.

(** [heap.Remove] takes out the element at the index, whatever its place. *)
Theorem Remove_run s i e :
  h_inv le s -> ordered_to le (length (view s)) (view s) -> view s !! i = Some e ->
  exists s' x, Remove i s = (s', Ok x) /\ h_elem le x = e /\ h_inv le s' /\
    view s ≡ₚ e :: view s' /\ ordered_to le (length (view s')) (view s').
Proof.
  intros Hs Ho Hi. assert (i < length (view s))%nat as Hlt by by eapply lookup_lt_Some.
  unfold Remove, gets, bind at 1. rewrite (Len_view s).
  set (n := (length (view s) - 1)%nat). assert (length (view s) = Datatypes.S n) as Hlen by lia.
  assert (exists s1, (if negb (n =? i)%nat then
     Swap i n ;;; let! moved := down i n in if negb moved then up (Datatypes.S i) i else ret tt
   else ret tt) s = (s1, Ok tt) /\ h_inv le s1 /\ view s1 ≡ₚ view s /\ view s1 !! n = Some e /\
     ordered_to le n (view s1)) as (s1 & Hrun & Hs1 & Hperm & Hn & Ho1).
  { destruct (Nat.eqb_spec n i) as [->|Hne]; cbn [negb].
    { exists s. split_and!; [done..|]. intros k Hk. apply Ho. lia. }
    destruct (rearranged_swap (length (view s)) s i n Hs) as (s1 & Hswap & Hre & Hv); [lia..|].
    rewrite (bind_run _ _ _ _ _ Hswap). pose proof (rearranged_length _ _ _ Hre) as Hl1.
    assert (view s1 !! n = Some e) as Hn1.
    { rewrite Hv, lookup_list_swap by lia. rewrite decide_False, decide_True by lia. done. }
    unfold down. destruct (down_loop_run n s1 i n) as (s2 & i' & Hrun & Hre2 & Hi' & _);
      [apply Hre|lia..| |].
    { rewrite Hv. apply ordered_hole; [apply _|lia..|]. by rewrite <- Hlen. }
    assert (bind (let! i0 := down_loop n i n in ret (i <? i0)%nat)
      (fun moved => if negb moved then up (Datatypes.S i) i else ret tt) s1 =
      (if negb (i <? i')%nat then up (Datatypes.S i) i else ret tt) s2) as ->.
    { unfold bind at 1. by rewrite (bind_run _ _ _ _ _ Hrun). }
    pose proof (rearranged_length _ _ _ Hre2) as Hl2.
    destruct Hi' as [[-> Hr]|[Hlt' Ho2]].
    - rewrite Nat.ltb_irrefl. cbn [negb].
      destruct (up_run (Datatypes.S i) s2 i n) as (s3 & Hup & Hre3 & Ho3); [apply Hre2|lia..|done|].
      pose proof (rearranged_trans _ _ _ _ Hre2 Hre3) as (Hs3 & Hp3 & Hk3).
      exists s3. split_and!; [done|done| | |done].
      + rewrite Hp3. apply Hre.
      + by rewrite Hk3.
    - rewrite (proj2 (Nat.ltb_lt _ _) Hlt'). exists s2. destruct Hre2 as (Hs2 & Hp2 & Hk2).
      split_and!; [done|done| | |done].
      + rewrite Hp2. apply Hre.
      + by rewrite Hk2. }
  rewrite (bind_run _ _ _ _ _ Hrun).
  assert (length (view s1) = Datatypes.S n) as Hl1 by (rewrite Hperm; done).
  assert (view s1 = take n (view s1) ++ [e]) as Hlast.
  { rewrite <- (take_drop_middle _ _ _ Hn) at 1. by rewrite drop_ge by lia. }
  destruct (slice_Pop_run s1 (take n (view s1)) e Hs1 Hlast) as (s' & x & Hpop & Hs' & Hv & Hx).
  exists s', x. split_and!; [done..| |].
  - rewrite Hv, <- Hperm, Hlast at 1. by rewrite Permutation_app_comm.
  - rewrite Hv, length_take, Hl1, Nat.min_l by lia. eapply ordered_prefix; [|exact Ho1].
    intros k Hk. apply lookup_take_lt. lia.
Qed.
End facts.
