(* ===== verification/TData.v ===== *)
(** * tdata/tdata.go: typed structured data and its digest (EIP-712)

    A value of type [interface{}] is an [iface]; a [map[string]interface{}] is
    the list of its entries, under distinct keys. *)

From Stdlib Require Import Ascii SpecFloat.
From S2P Require Import Prelude External GoStd.

Inductive iface :=
  | INil
  | IString (s : string)
  | IBool (b : bool)
  | IFloat (f : float64)
  | IBytes (b : bytes)
  | IHexBytes (b : bytes)
  | IBig (z : Z)
  | IArray (l : list iface)
  | IMap (l : list (string * iface)).

Record Type_t := mkType { Type_Name : string; Type_Type : string }.
Abbreviation Types := (gmap string (list Type_t)).
Abbreviation TypedDataMessage := (list (string * iface)).
Record TypedDataDomain := mkTypedDataDomain { Domain_Name : string; Domain_Magic : string }.
Record TypedData := mkTypedData {
  td_Types : Types;
  td_PrimaryType : string;
  td_Domain : TypedDataDomain;
  td_Message : TypedDataMessage
}.

(** [m[k]]: the zero value of the element type when [k] is absent. *)
Fixpoint message_at (l : TypedDataMessage) (k : string) : iface :=
  match l with
  | [] => INil
  | (k', v) :: l' => if String.eqb k' k then v else message_at l' k
  end.
Definition types_at (t : Types) (k : string) : list Type_t := default [] (t !! k).
(** [typedData.Types[k] != nil]. *)
Definition has_type (t : Types) (k : string) : bool := bool_decide (is_Some (t !! k)).

Definition EIP712Domain : list Type_t := [mkType "name" "string"; mkType "magic" "uint64"].
Definition samaDomain (m : Z) : TypedDataDomain := mkTypedDataDomain "Sama" (FormatUint m).
Definition CreateTypedData (magic : Z) (txType : string) (txFields : list Type_t)
    (msg : TypedDataMessage) : TypedData :=
  mkTypedData (<["EIP712Domain" := EIP712Domain]> {[txType := txFields]}) txType (samaDomain magic) msg.

Definition TypedDataDomain_Map (domain : TypedDataDomain) : TypedDataMessage :=
  [("name", IString (Domain_Name domain)); ("magic", IString (Domain_Magic domain))].

(** ** strings, strconv *)

Definition has_prefix (p s : string) : bool := String.prefix p s.
Definition trim_prefix (p s : string) : string :=
  if String.prefix p s then String.substring (String.length p) (String.length s - String.length p) s
  else s.
(** [strings.Split(s, "[")[0]]. *)
Fixpoint before_bracket (s : string) : string :=
  match s with
  | EmptyString => EmptyString
  | String c s' => if Ascii.eqb c "["%char then EmptyString else String c (before_bracket s')
  end.
(** [s[len(s)-1:]], which panics on the empty string. *)
Fixpoint last_char (s : string) : outcome ascii :=
  match s with
  | EmptyString => Panic IndexOutOfRange
  | String c EmptyString => Ok c
  | String _ s' => last_char s'
  end.
(** [strconv.Atoi]: an optional sign and decimal digits that fit an [int64]. *)
Definition Atoi (s : string) : result Z :=
  let '(neg, digits) :=
    match s with
    | String c s' =>
        if Ascii.eqb c "-"%char then (true, s') else if Ascii.eqb c "+"%char then (false, s') else (false, s)
    | EmptyString => (false, s)
    end in
  match ParseUint digits with
  | inl e => inl e
  | inr n =>
      if neg : bool then if 2 ^ 63 <? n then inl ErrRange else inr (- n)
      else if 2 ^ 63 <=? n then inl ErrRange else inr n
  end.
Fixpoint str_le (a b : string) : bool :=
  match a, b with
  | EmptyString, _ => true
  | _, EmptyString => false
  | String x a', String y b' =>
      (N_of_ascii x <? N_of_ascii y)%N || ((N_of_ascii x =? N_of_ascii y)%N && str_le a' b')
  end.
Definition str_order (a b : string) : Prop := str_le a b = true.
#[export] Instance str_order_dec : RelDecision str_order.
Proof. intros a b. apply bool_eq_dec. Defined.
(** [sort.Strings]. *)
Definition sort_Strings (l : list string) : list string :=
  merge_sort str_order l.

(** ** The encoding of types *)

Definition includes (arr : list string) (str : string) : bool := existsb (String.eqb str) arr.
Definition append_new (found : list string) (dep : string) : list string :=
  if includes found dep then found else found ++ [dep].

(** The recursion adds a type of [t] to [found] or stops, so the number of types
    bounds its depth. *)
Fixpoint Dependencies (fuel : nat) (t : Types) (primaryType : string) (found : list string) : list string :=
  match fuel with
  | O => found
  | S fuel' =>
      if includes found primaryType then found
      else
        match t !! primaryType with
        | None => found
        | Some fields =>
            foldl (fun found field =>
              foldl append_new found (Dependencies fuel' t (Type_Type field) found))
              (found ++ [primaryType]) fields
        end
  end.
Definition dependencies (t : Types) (primaryType : string) (found : list string) : list string :=
  Dependencies (S (size t)) t primaryType found.

(** [buffer.Truncate(buffer.Len() - 1)]. *)
Definition drop_last (s : string) : string := String.substring 0 (String.length s - 1) s.
Definition encode_type_of (t : Types) (buffer dep : string) : string :=
  let buffer := foldl (fun buffer obj =>
    (buffer +:+ Type_Type obj +:+ " " +:+ Type_Name obj +:+ ",")%string)
    (buffer +:+ dep +:+ "(")%string (types_at t dep) in
  (drop_last buffer +:+ ")")%string.
Definition EncodeType (t : Types) (primaryType : string) : bytes :=
  let deps := dependencies t primaryType [] in
  let deps := match deps with [] => [] | _ :: sliced => primaryType :: sort_Strings sliced end in
  String.list_byte_of_string (foldl (encode_type_of t) "" deps).

(** What go-ethereum documents of these functions: an address prints as a hex
    address, the decimal form of a number is read back, and the byte forms have
    the asked length. *)
Class EthMathLaws `{Ethereum} `{EthMath} : Prop := {
  IsHexAddress_Hex a : IsHexAddress (Address_Hex a) = true;
  HexOrDecimal256_FormatUint n : is_u64 n -> HexOrDecimal256 (FormatUint n) = inr n;
  U256Bytes_length z : length (U256Bytes z) = 32%nat
}.

(** ** The encoding of values *)
Section encode.
Context `{Ethereum} `{EthMath} `{GoRuntime}.

Definition TypeHash (t : Types) (primaryType : string) : bytes :=
  array (Keccak256 (EncodeType t primaryType)).

Definition dataMismatchError : error := Errorf "provided data doesn't match type".

Definition parseBytes (encType : iface) : option bytes :=
  match encType with
  | IBytes v => Some v
  | IHexBytes v => Some v
  | IString v => match hexutil_Decode v with inr b => Some b | inl _ => None end
  | _ => None
  end.

(** [int64(v)] of a float. *)
Definition f64_to_int (f : float64) : Z :=
  match f with
  | S754_zero _ => 0
  | S754_finite s m e =>
      let z := Z.shiftl (Zpos m) e in
      let z := if s : bool then - z else z in
      if (- 2 ^ 63 <=? z) && (z <? 2 ^ 63) then z else float_to_int_oob
  | _ => float_to_int_oob
  end.
Definition float64_of_int (z : Z) : float64 := binary_normalize 53 1024 z 0 false.

(** [big.Int.BitLen]: the length of the absolute value. *)
Definition BitLen (z : Z) : Z := if z =? 0 then 0 else Z.log2 (Z.abs z) + 1.

(** The number of bits of the type. *)
Definition int_length (encType : string) : result Z :=
  if (String.eqb encType "int" || String.eqb encType "uint") then inr 256
  else
    let lengthStr := if has_prefix "uint" encType then trim_prefix "uint" encType
                     else trim_prefix "int" encType in
    match Atoi lengthStr with
    | inl _ => inl (Errorf "invalid size on integer")
    | inr atoiSize => inr atoiSize
    end.

Definition parseInteger (encType : string) (encValue : iface) : result Z :=
  let signed := has_prefix "int" encType in
  match int_length encType with
  | inl e => inl e
  | inr length =>
      let b :=
        match encValue with
        | IBig v => inr (Some v)
        | IString v =>
            match HexOrDecimal256 v with inl e => inl e | inr z => inr (Some z) end
        | IFloat v =>
            if SFeqb (float64_of_int (f64_to_int v)) v then inr (Some (f64_to_int v))
            else inl (Errorf "invalid float value")
        | _ => inr None
        end in
      match b with
      | inl e => inl e
      | inr None => inl (Errorf "invalid integer value")
      | inr (Some b) =>
          if length <? BitLen b then inl (Errorf "integer larger than type")
          else if negb signed && (b <? 0) then inl (Errorf "invalid negative value for unsigned type")
          else inr b
      end
  end.

(** 20 bytes of an address at the end of 32. *)
Definition address_word (a : Address) : bytes := replicate 12 x00 ++ array a.

Definition EncodePrimitiveValue (encType : string) (encValue : iface) : result bytes :=
  if String.eqb encType "address" then
    match encValue with
    | IString s =>
        if IsHexAddress s then inr (address_word (HexToAddress s)) else inl dataMismatchError
    | _ => inl dataMismatchError
    end
  else if String.eqb encType "bool" then
    match encValue with
    | IBool b => inr (PaddedBigBytes (if b then 1 else 0) 32)
    | _ => inl dataMismatchError
    end
  else if String.eqb encType "string" then
    match encValue with
    | IString s => inr (array (Keccak256 (String.list_byte_of_string s)))
    | _ => inl dataMismatchError
    end
  else if String.eqb encType "bytes" then
    match parseBytes encValue with
    | Some b => inr (array (Keccak256 b))
    | None => inl dataMismatchError
    end
  else if has_prefix "bytes" encType then
    match Atoi (trim_prefix "bytes" encType) with
    | inl _ => inl (Errorf "invalid size on bytes")
    | inr length =>
        if (length <? 0) || (32 <? length) then inl (Errorf "invalid size on bytes")
        else
          match parseBytes encValue with
          | Some b =>
              if Z.of_nat (List.length b) =? length then inr (fit 32 b) else inl dataMismatchError
          | None => inl dataMismatchError
          end
    end
  else if has_prefix "int" encType || has_prefix "uint" encType then
    match parseInteger encType encValue with
    | inl e => inl e
    | inr b => inr (U256Bytes b)
    end
  else inl (Errorf "unrecognized type").

(** A loop that appends what its body gives to a buffer. *)
Fixpoint append_all {A} (body : A -> outcome bytes) (l : list A) (buffer : bytes) : outcome bytes :=
  match l with
  | [] => Ok buffer
  | x :: l' =>
      match body x with
      | Ok b => append_all body l' (buffer ++ b)
      | Err e => Err e
      | Panic p => Panic p
      end
  end.

(** The body of the loop of [EncodeData], whose recursive call is [rec]. *)
Definition encode_field (rec : string -> TypedDataMessage -> outcome bytes) (t : Types)
    (data : TypedDataMessage) (field : Type_t) : outcome bytes :=
  let encType := Type_Type field in
  let encValue := message_at data (Type_Name field) in
  match last_char encType with
  | Err e => Err e
  | Panic p => Panic p
  | Ok c =>
      if Ascii.eqb c "]"%char then
        match encValue with
        | IArray arrayValue =>
            let parsedType := before_bracket encType in
            match append_all (fun item =>
              if has_type t parsedType then
                match item with
                | IMap mapValue => rec parsedType mapValue
                | _ => Err dataMismatchError
                end
              else of_result (EncodePrimitiveValue parsedType item)) arrayValue [] with
            | Ok arrayBuffer => Ok (array (Keccak256 arrayBuffer))
            | Err e => Err e
            | Panic p => Panic p
            end
        | _ => Err dataMismatchError
        end
      else if has_type t encType then
        match encValue with
        | IMap mapValue =>
            match rec encType mapValue with
            | Ok encodedData => Ok (array (Keccak256 encodedData))
            | Err e => Err e
            | Panic p => Panic p
            end
        | _ => Err dataMismatchError
        end
      else of_result (EncodePrimitiveValue encType encValue)
  end.

(** The recursion goes from a value to the values inside it. *)
Fixpoint EncodeData (fuel : nat) (t : Types) (primaryType : string) (data : TypedDataMessage) :
    outcome bytes :=
  match fuel with
  | O => Panic StackOverflow
  | S fuel' =>
      if (List.length (types_at t primaryType) <? List.length data)%nat then
        Err (Errorf "there is extra data provided in the message")
      else
        append_all (encode_field (EncodeData fuel' t) t data) (types_at t primaryType)
          (TypeHash t primaryType)
  end.

(** How deep maps are nested in a value. *)
Fixpoint map_depth (v : iface) : nat :=
  match v with
  | IArray l => list_max (map map_depth l)
  | IMap l => S (list_max (map (fun kv => map_depth kv.2) l))
  | _ => O
  end.

Definition HashStruct (t : Types) (primaryType : string) (data : TypedDataMessage) : outcome bytes :=
  match EncodeData (map_depth (IMap data)) t primaryType data with
  | Ok encodedData => Ok (array (Keccak256 encodedData))
  | Err e => Err e
  | Panic p => Panic p
  end.

Definition DigestHash (td : TypedData) : outcome bytes :=
  match HashStruct (td_Types td) (td_PrimaryType td) (td_Message td) with
  | Err e => Err e
  | Panic p => Panic p
  | Ok typedDataHash =>
      match HashStruct (td_Types td) "EIP712Domain" (TypedDataDomain_Map (td_Domain td)) with
      | Err e => Err e
      | Panic p => Panic p
      | Ok domainSeparator =>
          Ok (array (Keccak256 ([x19; x01] ++ domainSeparator ++ typedDataHash)))
      end
  end.
End encode.

(** ** Facts *)
Section facts.
Context `{Ethereum} `{EthMath} `{GoRuntime}.

Lemma append_all_ext {A} (f g : A -> outcome bytes) l buffer :
  (forall x, x ∈ l -> f x = g x) -> append_all f l buffer = append_all g l buffer.
Proof.
  revert buffer. induction l as [|x l IH]; intros buffer Hfg; [done|]. cbn [append_all].
  rewrite (Hfg x (list_elem_of_here _ _)). destruct (g x); [|done..]. apply IH.
  intros y Hy. apply Hfg. by apply list_elem_of_further.
Qed.
Lemma append_all_panic {A} (f : A -> outcome bytes) l buffer p :
  append_all f l buffer = Panic p -> exists x, x ∈ l /\ f x = Panic p.
Proof.
  revert buffer. induction l as [|x l IH]; intros buffer; cbn [append_all]; [done|].
  destruct (f x) as [b|e|q] eqn:Hf; [|done|].
  - intros Hr. destruct (IH _ Hr) as (y & Hy & Hfy). exists y. split; [by apply list_elem_of_further|done].
  - intros [= <-]. exists x. split; [apply list_elem_of_here|done].
Qed.
Lemma last_char_panic s p : last_char s = Panic p -> p = IndexOutOfRange.
Proof.
  induction s as [|c [|c' s] IH]; cbn; [by intros [= <-]|done|exact IH].
Qed.

Lemma list_max_in n (l : list nat) : n ∈ l -> (n <= list_max l)%nat.
Proof.
  induction l as [|m l IH]; [by intros ?%elem_of_nil|].
  rewrite elem_of_cons. unfold list_max in *. cbn [foldr].
  intros [->|Hn]; [lia|]. specialize (IH Hn). lia.
Qed.
Lemma message_at_depth data k :
  (map_depth (message_at data k) < map_depth (IMap data))%nat.
Proof.
  enough (map_depth (message_at data k) <= list_max (map (fun kv => map_depth kv.2) data))%nat
    by (cbn [map_depth]; lia).
  induction data as [|[k' v] data IH]; [done|]. unfold list_max in *.
  cbn [message_at map foldr snd]. destruct (String.eqb k' k); lia.
Qed.
Lemma item_depth l item : item ∈ l -> (map_depth item <= map_depth (IArray l))%nat.
Proof. intros Hin. apply list_max_in. apply list_elem_of_fmap. by exists item. Qed.

(** Fuel that covers the depth of the data is enough: more makes no difference,
    and the recursion never runs out. *)
Lemma EncodeData_enough fuel t primaryType data :
  (map_depth (IMap data) <= fuel)%nat ->
  EncodeData (S fuel) t primaryType data = EncodeData fuel t primaryType data /\
  EncodeData fuel t primaryType data <> Panic StackOverflow.
Proof.
  revert primaryType data. induction fuel as [|fuel IH]; intros primaryType data Hd; [cbn in Hd; lia|].
  assert (forall p k m, message_at data k = IMap m ->
    EncodeData (S fuel) t p m = EncodeData fuel t p m /\ EncodeData fuel t p m <> Panic StackOverflow)
    as Hmap.
  { intros p k m Hm. apply IH. pose proof (message_at_depth data k) as Hlt. rewrite Hm in Hlt. lia. }
  assert (forall p k l m, message_at data k = IArray l -> IMap m ∈ l ->
    EncodeData (S fuel) t p m = EncodeData fuel t p m /\ EncodeData fuel t p m <> Panic StackOverflow)
    as Harr.
  { intros p k l m Hl Hm. apply IH. pose proof (message_at_depth data k) as Hlt. rewrite Hl in Hlt.
    pose proof (item_depth l (IMap m) Hm). lia. }
  assert (forall f, EncodeData (S f) t primaryType data =
    if (List.length (types_at t primaryType) <? List.length data)%nat then
      Err (Errorf "there is extra data provided in the message")
    else append_all (encode_field (EncodeData f t) t data) (types_at t primaryType)
      (TypeHash t primaryType)) as Hstep by done.
  split.
  - rewrite !Hstep. destruct (_ <? _)%nat; [done|]. apply append_all_ext. intros field _.
    unfold encode_field. destruct (last_char (Type_Type field)) as [c|e|p]; [|done..].
    destruct (Ascii.eqb c "]"%char).
    + destruct (message_at data (Type_Name field)) as [| | | | | | |l|] eqn:Hv; try done.
      erewrite append_all_ext; [reflexivity|]. intros item Hin. cbv beta.
      destruct (has_type t (before_bracket (Type_Type field))); [|done].
      destruct item; try done. by apply (Harr _ _ _ _ Hv).
    + destruct (has_type t (Type_Type field)); [|done].
      destruct (message_at data (Type_Name field)) as [| | | | | | | |m] eqn:Hv; try done.
      by rewrite (proj1 (Hmap _ _ _ Hv)).
  - rewrite Hstep. destruct (_ <? _)%nat; [done|]. intros Hp.
    apply append_all_panic in Hp as (field & _ & Hp). unfold encode_field in Hp.
    destruct (last_char (Type_Type field)) as [c|e|p] eqn:Hc; [|done|].
    2: { apply last_char_panic in Hc as ->. done. }
    destruct (Ascii.eqb c "]"%char).
    + destruct (message_at data (Type_Name field)) as [| | | | | | |l|] eqn:Hv; try done.
      destruct (append_all _ l []) as [b|e|q] eqn:Ha; try done. injection Hp as ->.
      apply append_all_panic in Ha as (item & Hin & Ha).
      destruct (has_type t (before_bracket (Type_Type field))).
      * destruct item; try done. by apply (Harr (before_bracket (Type_Type field)) _ _ _ Hv Hin).
      * by destruct (EncodePrimitiveValue _ _).
    + destruct (has_type t (Type_Type field)); [|by destruct (EncodePrimitiveValue _ _)].
      destruct (message_at data (Type_Name field)) as [| | | | | | | |m] eqn:Hv; try done.
      pose proof (proj2 (Hmap (Type_Type field) _ _ Hv)) as Hm.
      destruct (EncodeData fuel t (Type_Type field) m); [done..|]. by injection Hp as ->.
Qed.
(** The panics of the encoder. *)
Definition encoder_panic (p : panic) : Prop := p = StackOverflow \/ p = IndexOutOfRange.
Lemma EncodeData_panic fuel t primaryType data p :
  EncodeData fuel t primaryType data = Panic p -> encoder_panic p.
Proof.
  revert primaryType data p. induction fuel as [|fuel IH]; intros primaryType data p Hp;
    [injection Hp as <-; by left|].
  change (EncodeData (S fuel) t primaryType data) with
    (if (List.length (types_at t primaryType) <? List.length data)%nat then
       Err (Errorf "there is extra data provided in the message")
     else append_all (encode_field (EncodeData fuel t) t data) (types_at t primaryType)
       (TypeHash t primaryType)) in Hp.
  destruct (_ <? _)%nat; [done|]. apply append_all_panic in Hp as (field & _ & Hp).
  unfold encode_field in Hp. destruct (last_char (Type_Type field)) as [c|e|q] eqn:Hc; [|done|].
  2: { apply last_char_panic in Hc as ->. injection Hp as <-. by right. }
  destruct (Ascii.eqb c "]"%char).
  - destruct (message_at data (Type_Name field)) as [| | | | | | |l|]; try done.
    destruct (append_all _ l []) as [b|e|q] eqn:Ha; try done. injection Hp as <-.
    apply append_all_panic in Ha as (item & _ & Ha). destruct (has_type _ _).
    + destruct item; try done. by eapply IH.
    + by destruct (EncodePrimitiveValue _ _).
  - destruct (has_type t (Type_Type field)); [|by destruct (EncodePrimitiveValue _ _)].
    destruct (message_at data (Type_Name field)) as [| | | | | | | |m]; try done.
    destruct (EncodeData fuel t (Type_Type field) m) eqn:Hm; [done..|].
    injection Hp as <-. by eapply IH.
Qed.
Lemma DigestHash_panic td p : DigestHash td = Panic p -> encoder_panic p.
Proof.
  unfold DigestHash, HashStruct.
  destruct (EncodeData _ _ _ (td_Message td)) as [b|e|q] eqn:Hm; [|done|].
  - destruct (EncodeData _ _ _ (TypedDataDomain_Map _)) as [b'|e|q] eqn:Hd; [done..|].
    intros [= <-]. by eapply EncodeData_panic.
  - intros [= <-]. by eapply EncodeData_panic.
Qed.
Lemma EncodeData_fuel fuel t primaryType data :
  (map_depth (IMap data) <= fuel)%nat ->
  EncodeData fuel t primaryType data = EncodeData (map_depth (IMap data)) t primaryType data.
Proof.
  induction 1 as [|fuel Hle IH]; [done|]. by rewrite (proj1 (EncodeData_enough _ _ _ _ Hle)).
Qed.

(** C30: Digesting terminates on every typed data, nested to any depth: the recursion
    over the data has always enough fuel, and the only panic left is the one of
    a field whose type is the empty string. *)
Theorem DigestHash_terminates td :
  DigestHash td <> Panic StackOverflow /\
  forall fuel t primaryType data, (map_depth (IMap data) <= fuel)%nat ->
    EncodeData fuel t primaryType data = EncodeData (map_depth (IMap data)) t primaryType data.
Proof.
  split; [|intros; by apply EncodeData_fuel]. unfold DigestHash, HashStruct.
  pose proof (proj2 (EncodeData_enough _ (td_Types td) (td_PrimaryType td) (td_Message td) (le_n _))) as H1'.
  pose proof (proj2 (EncodeData_enough _ (td_Types td) "EIP712Domain"
    (TypedDataDomain_Map (td_Domain td)) (le_n _))) as H2'.
  destruct (EncodeData _ _ _ (td_Message td)) as [b|e|p]; [|done|intros [= ->]; done].
  destruct (EncodeData _ _ _ (TypedDataDomain_Map _)) as [b'|e|p]; [done|done|intros [= ->]; done].
Qed.
End facts.
