(* ===== verification/PendingCache.v ===== *)
(** * The pending-cache pattern

    Every sub-state of chain/state.go keeps three maps: what is committed
    ([cur...]), and what the blocks under verification add and delete
    ([pending...Add], [pending...Del]), while the database is written at once.
    This file holds the loops those files share, the abstract map they
    implement, the two-phase interface of the sub-states, and the invariant that
    ties a cache to the database. *)

From S2P Require Import Prelude External.

(** ** The loops of the Cache...Commit and Cache...Abort methods *)
Section loops.
Context {K V : Type} `{Countable K}.
Implicit Types (m add del cur : gmap K V).

(** [for k, v := range add { delete(cur, k); cur[k] = v }] *)
Definition merge_pending add cur : gmap K V :=
  map_fold (fun k v m => <[k := v]> (delete k m)) cur add.
(** [for k := range del { delete(cur, k) }] *)
Definition drop_deleted del cur : gmap K V :=
  map_fold (fun k _ m => delete k m) cur del.
(** [for k := range m { delete(m, k) }] *)
Definition clear_map m : gmap K V := drop_deleted m m.

Lemma lookup_merge_pending add cur k :
  merge_pending add cur !! k = match add !! k with Some v => Some v | None => cur !! k end.
Proof.
  unfold merge_pending. revert k.
  apply (map_fold_weak_ind (fun r add => forall k,
    r !! k = match add !! k with Some v => Some v | None => cur !! k end)).
  - intros k. by rewrite lookup_empty.
  - intros i v add' r Hi IH k. destruct (decide (i = k)) as [->|Hne].
    + by rewrite !lookup_insert_eq.
    + by rewrite !lookup_insert_ne, lookup_delete_ne, IH.
Qed.

Lemma lookup_drop_deleted del cur k :
  drop_deleted del cur !! k = match del !! k with Some _ => None | None => cur !! k end.
Proof.
  unfold drop_deleted. revert k.
  apply (map_fold_weak_ind (fun r del => forall k,
    r !! k = match del !! k with Some _ => None | None => cur !! k end)).
  - intros k. by rewrite lookup_empty.
  - intros i v del' r Hi IH k. destruct (decide (i = k)) as [->|Hne].
    + by rewrite lookup_insert_eq, lookup_delete_eq.
    + by rewrite lookup_insert_ne, lookup_delete_ne, IH.
Qed.

Lemma clear_map_empty m : clear_map m = ∅.
Proof.
  apply map_eq. intros k. unfold clear_map.
  rewrite lookup_drop_deleted, lookup_empty. by destruct (m !! k).
Qed.

Lemma merge_pending_empty cur : merge_pending ∅ cur = cur.
Proof. apply map_eq. intros k. by rewrite lookup_merge_pending, lookup_empty. Qed.
Lemma drop_deleted_empty cur : drop_deleted ∅ cur = cur.
Proof. apply map_eq. intros k. by rewrite lookup_drop_deleted, lookup_empty. Qed.

(** The order in which Go visits the map does not matter. *)
Lemma merge_pending_any_order add cur (l : list (K * V)) :
  l ≡ₚ map_to_list add ->
  foldr (fun kv m => <[kv.1 := kv.2]> (delete kv.1 m)) cur l = merge_pending add cur.
Proof.
  intros Hl. apply map_eq. intros k. rewrite lookup_merge_pending.
  assert (NoDup l.*1) as Hnd by (rewrite Hl; apply NoDup_fst_map_to_list).
  assert (forall v, (k, v) ∈ l <-> add !! k = Some v) as Hin.
  { intros v. by rewrite Hl, elem_of_map_to_list. }
  assert (foldr (fun kv m => <[kv.1 := kv.2]> (delete kv.1 m)) cur l !! k =
    match (list_to_map l : gmap K V) !! k with Some v => Some v | None => cur !! k end) as ->.
  { clear. induction l as [|[i v] l IH]; simpl; [by rewrite lookup_empty|].
    destruct (decide (i = k)) as [->|Hne].
    - by rewrite !lookup_insert_eq.
    - by rewrite !lookup_insert_ne, lookup_delete_ne. }
  destruct (add !! k) as [v|] eqn:Hk.
  - by rewrite (elem_of_list_to_map_1 l k v Hnd (proj2 (Hin v) eq_refl)).
  - rewrite not_elem_of_list_to_map_1; [done|].
    intros Hk'. apply list_elem_of_fmap in Hk' as ([k' v] & -> & Hv). simpl in *.
    by apply Hin in Hv.
Qed.
End loops.

(** ** The cache and the map it stands for *)

Record cache (K V : Type) `{Countable K} := Cache {
  c_cur : gmap K V;
  c_add : gmap K V;
  c_del : gmap K V
}.
Arguments Cache {K V _ _} _ _ _.
Arguments c_cur {K V _ _} _.
Arguments c_add {K V _ _} _.
Arguments c_del {K V _ _} _.

Section cache.
Context {K V : Type} `{Countable K}.
Implicit Types (c : cache K V).

Definition cache_put (k : K) (v : V) c : cache K V :=
  Cache (c_cur c) (<[k := v]> (c_add c)) (delete k (c_del c)).
Definition cache_del (k : K) (zero : V) c : cache K V :=
  Cache (c_cur c) (delete k (c_add c)) (<[k := zero]> (c_del c)).
Definition cache_commit c : cache K V :=
  Cache (drop_deleted (c_del c) (merge_pending (c_add c) (c_cur c)))
    (clear_map (c_add c)) (clear_map (c_del c)).
Definition cache_abort c : cache K V :=
  Cache (c_cur c) (clear_map (c_add c)) (clear_map (c_del c)).

(** What the cache will hold once committed. *)
Definition cache_view c : gmap K V :=
  drop_deleted (c_del c) (merge_pending (c_add c) (c_cur c)).

Lemma lookup_cache_view c k :
  cache_view c !! k =
    match c_del c !! k with
    | Some _ => None
    | None => match c_add c !! k with Some v => Some v | None => c_cur c !! k end
    end.
Proof. unfold cache_view. by rewrite lookup_drop_deleted, lookup_merge_pending. Qed.

Lemma cache_view_put k v c : cache_view (cache_put k v c) = <[k := v]> (cache_view c).
Proof.
  apply map_eq. intros k'. rewrite lookup_cache_view. cbn.
  destruct (decide (k = k')) as [->|Hne].
  - by rewrite lookup_delete_eq, !lookup_insert_eq.
  - by rewrite lookup_delete_ne, !lookup_insert_ne, lookup_cache_view.
Qed.

Lemma cache_view_del k z c : cache_view (cache_del k z c) = delete k (cache_view c).
Proof.
  apply map_eq. intros k'. rewrite lookup_cache_view. cbn.
  destruct (decide (k = k')) as [->|Hne].
  - by rewrite lookup_insert_eq, lookup_delete_eq.
  - by rewrite lookup_insert_ne, !lookup_delete_ne, lookup_cache_view.
Qed.

Lemma cache_commit_eq c : cache_commit c = Cache (cache_view c) ∅ ∅.
Proof. unfold cache_commit, cache_view. by rewrite !clear_map_empty. Qed.
Lemma cache_abort_eq c : cache_abort c = Cache (c_cur c) ∅ ∅.
Proof. unfold cache_abort. by rewrite !clear_map_empty. Qed.

Lemma cache_view_clean (m : gmap K V) : cache_view (Cache m ∅ ∅) = m.
Proof. unfold cache_view. cbn. by rewrite merge_pending_empty, drop_deleted_empty. Qed.
Lemma cache_view_commit c : cache_view (cache_commit c) = cache_view c.
Proof. by rewrite cache_commit_eq, cache_view_clean. Qed.
Lemma cache_view_abort c : cache_view (cache_abort c) = c_cur c.
Proof. by rewrite cache_abort_eq, cache_view_clean. Qed.

Lemma cache_commit_idemp c : cache_commit (cache_commit c) = cache_commit c.
Proof. by rewrite !cache_commit_eq, cache_view_clean. Qed.
Lemma cache_abort_idemp c : cache_abort (cache_abort c) = cache_abort c.
Proof. by rewrite !cache_abort_eq. Qed.
Lemma cache_commit_abort c : cache_commit (cache_abort c) = cache_abort c.
Proof. by rewrite cache_commit_eq, !cache_abort_eq, cache_view_clean. Qed.
End cache.

#[export] Hint Rewrite @lookup_cache_view @cache_view_put @cache_view_del
  @cache_view_commit @cache_view_abort @cache_commit_eq @cache_abort_eq
  @cache_view_clean : go.

(** ** Two-phase sub-states

    The interface state.go uses: [samaState.Commit] and [Abort] only call the
    sub-states' own.  [settled] is the data a reader sees between blocks; an
    abort keeps it, and a commit that follows an abort has nothing to do. *)
Class TwoPhase (S C : Type) := {
  settled : S -> C;
  tp_commit : S -> S;
  tp_abort : S -> S
}.
Class TwoPhaseLaws (S C : Type) `{TwoPhase S C} : Prop := {
  settled_abort s : settled (tp_abort s) = settled s;
  abort_idemp s : tp_abort (tp_abort s) = tp_abort s;
  commit_idemp s : tp_commit (tp_commit s) = tp_commit s;
  commit_after_abort s : tp_commit (tp_abort s) = tp_abort s
}.

#[export] Instance cache_two_phase {K V} `{Countable K} : TwoPhase (cache K V) (gmap K V) :=
  {| settled := c_cur; tp_commit := cache_commit; tp_abort := cache_abort |}.
#[export] Instance cache_two_phase_laws {K V} `{Countable K} :
  TwoPhaseLaws (cache K V) (gmap K V).
Proof.
  split; simpl; intros c.
  - done.
  - apply cache_abort_idemp.
  - apply cache_commit_idemp.
  - apply cache_commit_abort.
Qed.

(** ** The database behind a cache *)
Section coherence.
Context `{DatabaseLaws} {K V : Type} `{Countable K} `{CodecLaws V}.
Context (key : K -> bytes) `{!Inj (=) (=) key}.
Implicit Types (c : cache K V) (db : DB).

(** The database holds, marshalled under [key k], what the cache will hold. *)
Definition coherent db (m : gmap K V) : Prop :=
  forall k, match m !! k with
    | Some v => exists b, Marshal v = inr b /\ db_lookup db (key k) = Some b
    | None => db_lookup db (key k) = None
    end.

Lemma coherent_put db m k v b :
  Marshal v = inr b -> coherent db m -> coherent (db_set db (key k) b) (<[k := v]> m).
Proof.
  intros Hb Hc k'. specialize (Hc k'). destruct (decide (k = k')) as [->|Hne].
  - rewrite lookup_insert_eq, lookup_set_eq. eauto.
  - rewrite lookup_insert_ne, lookup_set_ne by (done || by intros ?%(inj key)). done.
Qed.

Lemma coherent_delete db m k :
  coherent db m -> coherent (db_del db (key k)) (delete k m).
Proof.
  intros Hc k'. specialize (Hc k'). destruct (decide (k = k')) as [->|Hne].
  - by rewrite lookup_delete_eq, lookup_del_eq.
  - rewrite lookup_delete_ne, lookup_del_ne by (done || by intros ?%(inj key)). done.
Qed.

(** Writes outside the keys of the cache keep it coherent. *)
Lemma coherent_frame_set db m k0 b :
  (forall k, key k <> k0) -> coherent db m -> coherent (db_set db k0 b) m.
Proof.
  intros Hk0 Hc k. specialize (Hc k). rewrite lookup_set_ne by (symmetry; done). done.
Qed.
Lemma coherent_frame_del db m k0 :
  (forall k, key k <> k0) -> coherent db m -> coherent (db_del db k0) m.
Proof.
  intros Hk0 Hc k. specialize (Hc k). rewrite lookup_del_ne by (symmetry; done). done.
Qed.

Lemma coherent_functional db m m' : coherent db m -> coherent db m' -> m = m'.
Proof.
  intros Hc1 Hc2. apply map_eq. intros k. specialize (Hc1 k). specialize (Hc2 k).
  destruct (m !! k) as [v|], (m' !! k) as [v'|]; try done.
  - destruct Hc1 as (b & Hb & Hdb), Hc2 as (b' & Hb' & Hdb').
    assert (b' = b) as -> by congruence. f_equal. by eapply Marshal_inj.
  - destruct Hc1 as (b & Hb & Hdb). congruence.
  - destruct Hc2 as (b & Hb & Hdb). congruence.
Qed.
End coherence.

(** ** Reloading a map from the database at start-up *)
Section reload.
Context {K V : Type} `{Countable K} `{Codec V}.
Context (ident : V -> K).

(** [for cursor.Next() { Unmarshal(cursor.Value(), pmeta); cur[ident pmeta] = pmeta }],
    stopping at the first value that does not unmarshal. *)
Fixpoint load_all (l : list (bytes * bytes)) (cur : gmap K V) : gmap K V * result unit :=
  match l with
  | [] => (cur, inr tt)
  | (_, b) :: l' =>
      match Unmarshal b with
      | inl e => (cur, inl e)
      | inr v => load_all l' (<[ident v := v]> cur)
      end
  end.

Lemma load_all_spec l (m cur : gmap K V) :
  (forall kb, kb ∈ l -> exists v, Unmarshal kb.2 = inr v /\ m !! ident v = Some v) ->
  exists r, load_all l cur = (r, inr tt) /\
    (forall k, r !! k = cur !! k \/ r !! k = m !! k) /\
    (forall kb v, kb ∈ l -> Unmarshal kb.2 = inr v -> r !! ident v = Some v).
Proof.
  revert cur. induction l as [|[k0 b] l IH]; intros cur Hl; [simpl; set_solver|].
  destruct (Hl (k0, b) ltac:(set_solver)) as (v & Hv & Hm). simpl in Hv |- *. rewrite Hv.
  destruct (IH (<[ident v := v]> cur)) as (r & Hr & Hk & Hin); [set_solver|].
  exists r. split; [done|]. split.
  - intros k. destruct (Hk k) as [Heq|Heq]; [|auto].
    destruct (decide (ident v = k)) as [<-|Hne].
    + right. by rewrite Heq, lookup_insert_eq.
    + left. by rewrite Heq, lookup_insert_ne.
  - intros kb v' [->|Hkb]%elem_of_cons Hv'; [|eauto]. simpl in Hv'.
    assert (v' = v) as -> by congruence.
    destruct (Hk (ident v)) as [Heq|Heq]; [by rewrite Heq, lookup_insert_eq|congruence].
Qed.

Lemma load_all_stops l1 k b l2 (cur m : gmap K V) e :
  (forall kb, kb ∈ l1 -> exists v, Unmarshal kb.2 = inr v /\ m !! ident v = Some v) ->
  Unmarshal b = inl e -> (load_all (l1 ++ (k, b) :: l2) cur).2 = inl e.
Proof.
  revert cur. induction l1 as [|[k0 b0] l1 IH]; intros cur Hl Hb; simpl; [by rewrite Hb|].
  destruct (Hl (k0, b0) ltac:(set_solver)) as (v & Hv & _). simpl in Hv. rewrite Hv.
  apply IH; set_solver.
Qed.
End reload.

(** A coherent map whose values carry their key is rebuilt exactly from the
    entries under a prefix that covers its keys and nothing else. *)
Lemma reload_coherent `{DatabaseLaws} {K V} `{Countable K} `{CodecLaws V}
    (ident : V -> K) (key : K -> bytes) db (m : gmap K V) (p : bytes) :
  coherent key db m ->
  (forall k v, m !! k = Some v -> ident v = k) ->
  (forall k, p `prefix_of` key k) ->
  (forall kb v, p `prefix_of` kb -> db_lookup db kb = Some v -> exists k, kb = key k) ->
  load_all ident (db_iter_prefix db p) ∅ = (m, inr tt).
Proof.
  intros Hc Hid Hpre Honly.
  assert (forall kb, kb ∈ db_iter_prefix db p ->
    exists v, Unmarshal kb.2 = inr v /\ m !! ident v = Some v) as Hall.
  { intros [kb b] Hin. apply db_iter_prefix_spec in Hin as [Hp Hlk].
    destruct (Honly kb b Hp Hlk) as (k & ->). specialize (Hc k).
    destruct (m !! k) as [v|] eqn:Hk; [|congruence].
    destruct Hc as (b' & Hb & Hlk'). assert (b' = b) as -> by congruence.
    exists v. split; [by apply Unmarshal_Marshal|]. by rewrite (Hid _ _ Hk). }
  destruct (load_all_spec ident _ m ∅ Hall) as (r & Hr & Hlook).
  destruct Hlook as [Hlook Hin]. rewrite Hr. f_equal. apply map_eq. intros k.
  destruct (m !! k) as [v|] eqn:Hk.
  - pose proof (Hc k) as Hck. rewrite Hk in Hck. destruct Hck as (b & Hb & Hlk).
    rewrite <- (Hid _ _ Hk).
    apply (Hin (key k, b) v); [by apply db_iter_prefix_spec|by apply Unmarshal_Marshal].
  - destruct (Hlook k) as [Heq|Heq]; [by rewrite Heq, lookup_empty|congruence].
Qed.
