(* ===== verification/Instances.v ===== *)
(** * Concrete third-party code for the witnesses

    Every class of External.v has an instance that satisfies its laws: a sorted
    in-memory store, a length-prefixed codec, and stand-ins for the hashes and
    text forms.  The witnesses evaluate the model with them, so no theorem rests
    on a contract that nothing can meet. *)

From S2P Require Import Prelude External GoStd.

(** ** An in-memory database *)

Lemma bytes_leb_refl a : bytes_leb a a = true.
Proof.
  induction a as [|x a IH]; simpl; [done|].
  by rewrite Z.eqb_refl, IH, orb_true_r.
Qed.
Lemma bytes_leb_total a b : bytes_leb a b = true \/ bytes_leb b a = true.
Proof.
  revert b. induction a as [|x a IH]; intros [|y b]; simpl; auto.
  destruct (Z.ltb_spec (Z_of_byte x) (Z_of_byte y)); [auto|].
  destruct (Z.ltb_spec (Z_of_byte y) (Z_of_byte x)); [auto|]. simpl.
  assert (Z_of_byte x = Z_of_byte y) as -> by lia. rewrite Z.eqb_refl. apply IH.
Qed.
Lemma bytes_leb_trans a b c :
  bytes_leb a b = true -> bytes_leb b c = true -> bytes_leb a c = true.
Proof.
  revert b c. induction a as [|x a IH]; intros [|y b] [|z c]; simpl; try done.
  rewrite !orb_true_iff, !andb_true_iff, !Z.ltb_lt, !Z.eqb_eq.
  intros [Hxy|[Hxy Hab]] [Hyz|[Hyz Hbc]]; [left; lia|left; lia|left; lia|].
  right. split; [congruence|]. by eapply IH.
Qed.

Definition entry_le (x y : bytes * bytes) : Prop := bytes_le x.1 y.1.
#[global] Instance entry_le_dec : RelDecision entry_le.
Proof. intros x y. unfold entry_le, bytes_le. apply bool_eq_dec. Defined.
#[global] Instance entry_le_total : Total entry_le.
Proof. intros x y. apply bytes_leb_total. Qed.
#[global] Instance entry_le_trans : Transitive entry_le.
Proof. intros x y z. apply bytes_leb_trans. Qed.

Definition sorted_entries (P : bytes -> bool) (db : gmap bytes bytes) : list (bytes * bytes) :=
  merge_sort entry_le (filter (fun kv => P kv.1 = true) (map_to_list db)).

#[global] Instance memdb : Database := {|
  DB := gmap bytes bytes;
  db_get db k := match db !! k with Some v => inr v | None => inl ErrNotFound end;
  db_has db k := inr (bool_decide (is_Some (db !! k)));
  db_put db k v := (<[k := v]> db, inr tt);
  db_delete db k := (delete k db, inr tt);
  db_iter_prefix db p := sorted_entries (fun k => bool_decide (p `prefix_of` k)) db;
  db_iter_start db s := sorted_entries (bytes_leb s) db;
  versiondb_New db := db;
  versiondb_Commit vdb _ := (vdb, inr tt);
  versiondb_SetDatabase vdb _ := (vdb, inr tt)
|}.

Lemma elem_of_sorted_entries P db k v :
  (k, v) ∈ sorted_entries P db <-> P k = true /\ db !! k = Some v.
Proof.
  unfold sorted_entries. rewrite merge_sort_Permutation, list_elem_of_filter.
  by rewrite elem_of_map_to_list.
Qed.
Lemma sorted_entries_sorted P db : StronglySorted bytes_le (sorted_entries P db).*1.
Proof.
  unfold sorted_entries. set (l := filter _ _).
  pose proof (StronglySorted_merge_sort entry_le l) as Hs.
  induction Hs as [|x l' Hl IH Hx]; csimpl; constructor; [done|].
  rewrite Forall_fmap. exact Hx.
Qed.
Lemma sorted_entries_nodup P db : NoDup (sorted_entries P db).*1.
Proof.
  unfold sorted_entries. rewrite merge_sort_Permutation.
  eapply sublist_NoDup; [apply (NoDup_fst_map_to_list db)|].
  apply fmap_sublist, sublist_filter.
Qed.

#[global] Instance memdb_laws : DatabaseLaws.
Proof.
  assert (forall (db : gmap bytes bytes) k, db_lookup db k = db !! k) as Hlk.
  { intros db k. unfold db_lookup. simpl. by destruct (db !! k). }
  split.
  - intros db k. rewrite Hlk. by simpl; destruct (db !! k).
  - intros db k. by rewrite Hlk.
  - done.
  - done.
  - intros db k v k'. rewrite !Hlk. unfold db_set; simpl. by rewrite lookup_insert.
  - intros db k k'. rewrite !Hlk. unfold db_del; simpl. by rewrite lookup_delete.
  - intros db p k v. rewrite Hlk. simpl. rewrite elem_of_sorted_entries.
    by rewrite bool_decide_eq_true.
  - intros db p. apply sorted_entries_sorted.
  - intros db p. apply sorted_entries_nodup.
  - intros db p k v. rewrite Hlk. apply elem_of_sorted_entries.
  - intros db p. apply sorted_entries_sorted.
  - intros db p. apply sorted_entries_nodup.
  - done.
  - done.
  - done.
  - done.
Qed.

(** A cache that never forgets. *)
#[global] Instance map_cacher {K V} `{Countable K} : Cacher K V := {|
  Cache_t := gmap K V;
  cache_New := ∅;
  cache_Get c k := (c, c !! k);
  cache_Put c k v := <[k := v]> c;
  cache_Evict c k := delete k c
|}.
#[global] Instance map_cacher_laws {K V} `{Countable K} : CacherLaws K V.
Proof.
  split; unfold cached; simpl; intros.
  - apply lookup_empty.
  - done.
  - apply lookup_insert_eq.
  - by rewrite lookup_insert_ne in *.
  - apply lookup_delete_eq.
  - by apply lookup_delete_ne.
Qed.

(** ** A codec for every packable type *)

#[local] Unset Program Cases.

Class Packable (A : Type) := {
  pack : A -> bytes;
  unpack : bytes -> option (A * bytes);
  unpack_pack a rest : unpack (pack a ++ rest) = Some (a, rest)
}.

Fixpoint pack_pos (p : positive) : bytes :=
  match p with xH => [x02] | xO p' => x00 :: pack_pos p' | xI p' => x01 :: pack_pos p' end.
Fixpoint unpack_pos (l : bytes) : option (positive * bytes) :=
  match l with
  | x02 :: l' => Some (xH, l')
  | x00 :: l' => prod_map xO id <$> unpack_pos l'
  | x01 :: l' => prod_map xI id <$> unpack_pos l'
  | _ => None
  end.
Lemma unpack_pack_pos p rest : unpack_pos (pack_pos p ++ rest) = Some (p, rest).
Proof. induction p as [p IH|p IH|]; simpl; by rewrite ?IH. Qed.

#[global] Program Instance packable_Z : Packable Z := {|
  pack z := match z with Z0 => [x00] | Zpos p => x01 :: pack_pos p | Zneg p => x02 :: pack_pos p end;
  unpack l := match l with
    | x00 :: l' => Some (Z0, l')
    | x01 :: l' => prod_map Zpos id <$> unpack_pos l'
    | x02 :: l' => prod_map Zneg id <$> unpack_pos l'
    | _ => None
    end
|}.
Next Obligation. intros [|p|p] rest; simpl; by rewrite ?unpack_pack_pos. Qed.

#[global] Program Instance packable_prod {A B} `{Packable A, Packable B} : Packable (A * B) := {|
  pack ab := pack ab.1 ++ pack ab.2;
  unpack l := match unpack l with
    | Some (a, l1) => match unpack l1 with Some (b, l2) => Some ((a, b), l2) | None => None end
    | None => None
    end
|}.
Next Obligation. intros A B ?? [a b] rest; simpl. by rewrite <- app_assoc, !unpack_pack. Qed.

Fixpoint unpack_n {A} `{Packable A} (n : nat) (l : bytes) : option (list A * bytes) :=
  match n with
  | O => Some ([], l)
  | S n' => match unpack l with
      | Some (a, l1) => prod_map (cons a) id <$> unpack_n n' l1
      | None => None
      end
  end.
Lemma unpack_n_pack {A} `{Packable A} (xs : list A) rest :
  unpack_n (length xs) (concat (pack <$> xs) ++ rest) = Some (xs, rest).
Proof.
  induction xs as [|x xs IH]; [done|].
  cbn [fmap list_fmap concat unpack_n length]. rewrite <- app_assoc, unpack_pack.
  by replace (unpack_n _ _) with (Some (xs, rest)) by (symmetry; exact IH).
Qed.

#[global] Program Instance packable_list {A} `{Packable A} : Packable (list A) := {|
  pack xs := pack (Z.of_nat (length xs)) ++ concat (pack <$> xs);
  unpack l := match unpack l with
    | Some (n, l1) => unpack_n (Z.to_nat n) l1
    | None => None
    end
|}.
Next Obligation.
  intros A ? xs rest. cbv beta. rewrite <- app_assoc, unpack_pack.
  rewrite Nat2Z.id. apply unpack_n_pack.
Qed.

#[global] Program Instance packable_byte : Packable byte := {|
  pack b := [b];
  unpack l := match l with b :: l' => Some (b, l') | [] => None end
|}.
Next Obligation. done. Qed.

#[global] Program Instance packable_sized n : Packable (sized n) := {|
  pack a := array a;
  unpack l := Some (sized_of n (take n l), drop n l)
|}.
Next Obligation.
  intros n a rest; simpl. pose proof (sized_length a) as Hn.
  rewrite take_app_length', drop_app_length' by done. by rewrite sized_of_array.
Qed.

(** A record packs as the tuple of its fields. *)
Program Definition packable_via {A B} `{Packable B} (f : A -> B) (g : B -> A)
    (gf : forall a, g (f a) = a) : Packable A := {|
  pack a := pack (f a);
  unpack l := prod_map g id <$> unpack l
|}.
Next Obligation. intros A B ? f g gf a rest; simpl. rewrite unpack_pack. simpl. by rewrite gf. Qed.

#[global] Instance packable_string : Packable string :=
  packable_via String.list_byte_of_string String.string_of_list_byte
    String.string_of_list_byte_of_string.
#[global] Instance packable_bool : Packable bool :=
  packable_via (fun b : bool => if b then 1 else 0) (fun z => bool_decide (z = 1))
    ltac:(by intros []).

#[global] Instance packable_codec {A} `{Packable A} : Codec A := {|
  Marshal a := inr (pack a);
  Unmarshal l := match unpack l with
    | Some (a, []) => inr a
    | _ => inl (ExtError "couldn't unmarshal")
    end
|}.
#[global] Instance packable_codec_laws {A} `{Packable A} : CodecLaws A.
Proof.
  intros a b [= <-]. simpl.
  pose proof (unpack_pack a []) as Hu. rewrite app_nil_r in Hu. by rewrite Hu.
Qed.

#[global] Instance packable_codec_total {A} `{Packable A} : CodecTotal A.
Proof. intros a. by eexists. Qed.

(** ** Hashes, keys and text forms *)

(** A hash that tells the sample blocks apart. *)
Definition sample_hash (b : bytes) : bytes :=
  le_bytes 32 (foldl (fun h x => (h * 257 + Z_of_byte x + 1) mod 65521) 0 b).

#[global] Instance sample_ethereum : Ethereum := {|
  PublicKey := bytes;
  Keccak256 b := sized_of 32 (sample_hash b);
  UnmarshalPubkey b :=
    if decide (length b = 20)%nat then inr b else inl (ExtError "invalid public key");
  PubkeyToAddress k := sized_of 20 k;
  SigToPub _ sig := inr (take 20 sig);
  HexToAddress s := sized_of 20 (String.list_byte_of_string s);
  Address_Hex a := String.string_of_list_byte (array a);
  Hash_Hex h := String.string_of_list_byte (array h);
  SafeAdd x y := (x +u y, bool_decide (2 ^ 64 <= x + y));
  SafeSub x y := (x -u y, bool_decide (x < y));
  hexutil_Encode := String.string_of_list_byte;
  hexutil_Decode s := inr (String.list_byte_of_string s);
  ToID b := if decide (length b = 32)%nat then inr (sized_of 32 b)
            else inl (ExtError "expected 32 bytes");
  ID_String i := String.string_of_list_byte (array i);
  ID_FromString s := inr (sized_of 32 (String.list_byte_of_string s));
  ShortID_String i := String.string_of_list_byte (array i);
  ShortID_FromString s := inr (sized_of 20 (String.list_byte_of_string s))
|}.
#[global] Instance sample_ethereum_laws : EthereumLaws.
Proof.
  split; intros; simpl; try done;
    try (by rewrite decide_True, sized_of_array by apply sized_length);
    by rewrite String.list_byte_of_string_of_list_byte, ?sized_of_array.
Qed.

(** A run time whose clock stands at second [now]. *)
Definition sample_runtime (now : Z) : GoRuntime := {|
  map_range K V _ _ m := map_to_list m;
  time_Now _ := now * 1000000000;
  float_to_uint_oob := 2 ^ 63;
  float_to_int_oob := - 2 ^ 63
|}.
Lemma sample_runtime_laws now : @GoRuntimeLaws (sample_runtime now).
Proof. split; simpl; [done|]. unfold is_u64. lia. Qed.
