(* ===== verification/Keys.v ===== *)
(** * Database keys

    Every key the chain reads or writes is built by one of the functions below
    ([Prefix...Key] and [...Prefix] of chain/storage.go and the [..._status.go]
    files).  [dbkey] names the kinds of key; [render] is injective, so two parts
    of the state never overwrite each other, and the [under_...] lemmas say
    which keys a prefix iteration meets. *)

From S2P Require Import Prelude GoStd.

(** ** Constants of chain/storage.go *)

Definition blockPrefix : byte := x00.
Definition txPrefix : byte := x01.
Definition txValuePrefix : byte := x02.
Definition keyPrefix : byte := x03.
Definition balancePrefix : byte := x04.
Definition stakerPrefix : byte := x05.
Definition routePrefix : byte := x06.
Definition serPrefix : byte := x07.
Definition rewardPrefix : byte := x08.
Definition powPrefix : byte := x0c.
Definition yieldsPrefix : byte := x0d.
Definition detailsPrefix : byte := x0e.
Definition usersPrefix : byte := x0f.
Definition sysParamPrefix : byte := x10.
Definition actionsPrefix : byte := x11.
Definition validatorPrefix : byte := x12.
Definition userTypesPrefix : byte := x13.

Definition ByteDelimiter : byte := x2f.

Definition stakerTypeRoute : byte := routePrefix.
Definition stakerTypeSer : byte := serPrefix.
Definition stakerTypeValidator : byte := validatorPrefix.
Definition powTypeSer : byte := serPrefix.
Definition powTypeRoute : byte := routePrefix.

Definition LocalPrefix : byte := x00.
Definition GlobalPrefix : byte := x01.

Definition lastAccepted : bytes := String.list_byte_of_string "last_accepted".

(** ** Key constructors *)

Definition PrefixBlockKey (blockID : ID) : bytes := blockPrefix :: ByteDelimiter :: array blockID.
Definition PrefixTxKey (txID : ID) : bytes := txPrefix :: ByteDelimiter :: array txID.
Definition PrefixTxValueKey (txID : ID) : bytes := txValuePrefix :: ByteDelimiter :: array txID.
Definition ValueKey (key : Hash) : bytes := keyPrefix :: ByteDelimiter :: array key.
Definition PrefixBalanceKey (address : Address) : bytes :=
  balancePrefix :: ByteDelimiter :: array address.
Definition PrefixStakeKey (address : Address) : bytes :=
  stakerPrefix :: ByteDelimiter :: array address.
Definition baseStakerPrefix (stakerType : byte) : bytes :=
  [stakerPrefix; ByteDelimiter; stakerType; ByteDelimiter].
Definition PrefixStaker4Key (stakerType : byte) (address : Address) : bytes :=
  stakerPrefix :: ByteDelimiter :: stakerType :: ByteDelimiter :: array address.
Definition basePowPrefix (powType : byte) : bytes :=
  [powPrefix; ByteDelimiter; powType; ByteDelimiter].
Definition PrefixPowKey (powType : byte) (address : Address) : bytes :=
  powPrefix :: ByteDelimiter :: powType :: ByteDelimiter :: array address.
Definition baseRewardPrefix : bytes := [rewardPrefix; ByteDelimiter; LocalPrefix; ByteDelimiter].
Definition PrefixRewardKey (address : Address) : bytes :=
  rewardPrefix :: ByteDelimiter :: LocalPrefix :: ByteDelimiter :: array address.
Definition RewardGlobalPrefix : bytes := [rewardPrefix; ByteDelimiter; GlobalPrefix; ByteDelimiter].
Definition PrefixYieldsKey : bytes := [yieldsPrefix; ByteDelimiter].
Definition baseDetailsPrefix : bytes := [detailsPrefix; ByteDelimiter].
Definition PrefixDetailsKey (address : Address) : bytes :=
  detailsPrefix :: ByteDelimiter :: array address.
Definition baseUsersPrefix : bytes := [usersPrefix; ByteDelimiter].
Definition PrefixUsersKey (address : Address) : bytes :=
  usersPrefix :: ByteDelimiter :: array address.
Definition baseUserTypesPrefix : bytes := [userTypesPrefix; ByteDelimiter].
(** The key of a user type starts with [usersPrefix], as in users_type.go. *)
Definition PrefixUserTypesKey (id : Z) : bytes :=
  usersPrefix :: ByteDelimiter :: be_PutUint64 id.
Definition PrefixSysParamsKey : bytes := [sysParamPrefix; ByteDelimiter].
Definition baseActionsPrefix : bytes := [actionsPrefix; ByteDelimiter].
Definition PrefixActionsKey (actionID : ShortID) : bytes :=
  actionsPrefix :: ByteDelimiter :: array actionID.

(** ** Kinds of key *)

Inductive dbkey :=
  | KBlock (i : ID) | KTx (i : ID) | KTxValue (i : ID) | KValue (h : Hash)
  | KBalance (a : Address) | KStake (a : Address)
  | KStaker (t : byte) (a : Address) | KPow (t : byte) (a : Address)
  | KReward (a : Address) | KRewardGlobal | KYields | KDetail (a : Address)
  | KUser (a : Address) | KUserType (id : Z) | KSysParams | KAction (i : ShortID)
  | KLastAccepted.

Definition render (k : dbkey) : bytes :=
  match k with
  | KBlock i => PrefixBlockKey i
  | KTx i => PrefixTxKey i
  | KTxValue i => PrefixTxValueKey i
  | KValue h => ValueKey h
  | KBalance a => PrefixBalanceKey a
  | KStake a => PrefixStakeKey a
  | KStaker t a => PrefixStaker4Key t a
  | KPow t a => PrefixPowKey t a
  | KReward a => PrefixRewardKey a
  | KRewardGlobal => RewardGlobalPrefix
  | KYields => PrefixYieldsKey
  | KDetail a => PrefixDetailsKey a
  | KUser a => PrefixUsersKey a
  | KUserType id => PrefixUserTypesKey id
  | KSysParams => PrefixSysParamsKey
  | KAction i => PrefixActionsKey i
  | KLastAccepted => lastAccepted
  end.

(** User type ids are [uint64] values. *)
Definition key_ok (k : dbkey) : Prop := match k with KUserType id => is_u64 id | _ => True end.

Lemma be_PutUint64_inj x y : is_u64 x -> is_u64 y -> be_PutUint64 x = be_PutUint64 y -> x = y.
Proof.
  intros Hx Hy Heq. apply (f_equal be_Uint64) in Heq.
  rewrite !be_Uint64_Put in Heq by done. congruence.
Qed.

(** Compares the lengths of two keys that share their first bytes. *)
Ltac key_lengths H :=
  apply (f_equal length) in H; simpl in H;
  rewrite ?be_PutUint64_length, ?sized_length in H;
  repeat match type of H with context [length (array ?a)] => rewrite (sized_length a) in H end.

(** The rendered key determines the kind of key and its argument. *)
Lemma render_inj_ok k1 k2 : key_ok k1 -> key_ok k2 -> render k1 = render k2 -> k1 = k2.
Proof.
  intros H1 H2 Heq.
  destruct k1, k2; simpl in *;
    try discriminate Heq; try reflexivity;
    try (injection Heq as Harr; by apply sized_eq in Harr; subst);
    try (injection Heq as Ht Harr; apply sized_eq in Harr; by subst);
    try (apply (f_equal (drop 2)) in Heq; f_equal; by apply be_PutUint64_inj);
    try (injection Heq as Harr; exfalso; key_lengths Harr; lia);
    try (exfalso; key_lengths Heq; lia).
Qed.

Lemma render_ne k1 k2 : key_ok k1 -> key_ok k2 -> k1 <> k2 -> render k1 <> render k2.
Proof. intros H1 H2 Hne Heq. by apply Hne, render_inj_ok. Qed.

#[global] Instance PrefixBalanceKey_inj : Inj (=) (=) PrefixBalanceKey.
Proof. intros a b [= Harr]. by apply sized_eq. Qed.
#[global] Instance PrefixStakeKey_inj : Inj (=) (=) PrefixStakeKey.
Proof. intros a b [= Harr]. by apply sized_eq. Qed.
#[global] Instance PrefixStaker4Key_inj t : Inj (=) (=) (PrefixStaker4Key t).
Proof. intros a b [= Harr]. by apply sized_eq. Qed.
#[global] Instance PrefixPowKey_inj t : Inj (=) (=) (PrefixPowKey t).
Proof. intros a b [= Harr]. by apply sized_eq. Qed.
#[global] Instance PrefixRewardKey_inj : Inj (=) (=) PrefixRewardKey.
Proof. intros a b [= Harr]. by apply sized_eq. Qed.
#[global] Instance PrefixDetailsKey_inj : Inj (=) (=) PrefixDetailsKey.
Proof. intros a b [= Harr]. by apply sized_eq. Qed.
#[global] Instance PrefixUsersKey_inj : Inj (=) (=) PrefixUsersKey.
Proof. intros a b [= Harr]. by apply sized_eq. Qed.
#[global] Instance PrefixActionsKey_inj : Inj (=) (=) PrefixActionsKey.
Proof. intros a b [= Harr]. by apply sized_eq. Qed.
#[global] Instance ValueKey_inj : Inj (=) (=) ValueKey.
Proof. intros a b [= Harr]. by apply sized_eq. Qed.
#[global] Instance PrefixTxKey_inj : Inj (=) (=) PrefixTxKey.
Proof. intros a b [= Harr]. by apply sized_eq. Qed.
#[global] Instance PrefixTxValueKey_inj : Inj (=) (=) PrefixTxValueKey.
Proof. intros a b [= Harr]. by apply sized_eq. Qed.
#[global] Instance PrefixBlockKey_inj : Inj (=) (=) PrefixBlockKey.
Proof. intros a b [= Harr]. by apply sized_eq. Qed.

(** Closes [render k1 <> render k2], also when the keys are written out. *)
Ltac key_ne :=
  let H := fresh in
  intros H;
  first [ discriminate H
        | exfalso; unfold PrefixStakeKey, PrefixStaker4Key, PrefixUsersKey, PrefixUserTypesKey,
            PrefixRewardKey, RewardGlobalPrefix in H; key_lengths H; lia ].

(** ** Keys met by a prefix iteration *)

(** Iterating over the stakers of a type also meets the stake balance of every
    address whose first bytes are the type and the delimiter. *)
Lemma under_stakers t k :
  baseStakerPrefix t `prefix_of` render k ->
  (exists a, k = KStaker t a) \/
  (exists a rest, k = KStake a /\ array a = t :: ByteDelimiter :: rest).
Proof.
  intros [rest Heq]. destruct k; try discriminate Heq; simpl in Heq.
  - right. injection Heq as Harr. eauto.
  - left. injection Heq as -> _. eauto.
Qed.

Lemma under_pows t k : basePowPrefix t `prefix_of` render k -> exists a, k = KPow t a.
Proof.
  intros [rest Heq]. destruct k; try discriminate Heq; simpl in Heq.
  injection Heq as -> _. eauto.
Qed.

Lemma under_rewards k : baseRewardPrefix `prefix_of` render k -> exists a, k = KReward a.
Proof. intros [rest Heq]. destruct k; try discriminate Heq; eauto. Qed.

Lemma under_details k : baseDetailsPrefix `prefix_of` render k -> exists a, k = KDetail a.
Proof. intros [rest Heq]. destruct k; try discriminate Heq; eauto. Qed.

Lemma under_actions k : baseActionsPrefix `prefix_of` render k -> exists i, k = KAction i.
Proof. intros [rest Heq]. destruct k; try discriminate Heq; eauto. Qed.

(** Iterating over the users meets the user types as well, and iterating over
    the user types meets nothing. *)
Lemma under_users k :
  baseUsersPrefix `prefix_of` render k -> (exists a, k = KUser a) \/ (exists id, k = KUserType id).
Proof. intros [rest Heq]. destruct k; try discriminate Heq; eauto. Qed.

Lemma under_user_types k : ~ baseUserTypesPrefix `prefix_of` render k.
Proof. intros [rest Heq]. by destruct k. Qed.

Lemma under_values k : [keyPrefix; ByteDelimiter] `prefix_of` render k -> exists h, k = KValue h.
Proof. intros [rest Heq]. destruct k; try discriminate Heq; eauto. Qed.

(** A database all of whose keys were built by the chain. *)
Definition own_keys (present : bytes -> Prop) : Prop :=
  forall kb, present kb -> exists k, key_ok k /\ kb = render k.

(** ** Which keys are the chain's own *)

(** The only key a byte string can be. *)
Definition classify (kb : bytes) : option dbkey :=
  match kb with
  | p :: _ :: rest =>
      match p with
      | x00 => Some (KBlock (sized_of 32 rest))
      | x01 => Some (KTx (sized_of 32 rest))
      | x02 => Some (KTxValue (sized_of 32 rest))
      | x03 => Some (KValue (sized_of 32 rest))
      | x04 => Some (KBalance (sized_of 20 rest))
      | x05 =>
          if decide (length rest = 20)%nat then Some (KStake (sized_of 20 rest))
          else match rest with t :: _ :: a => Some (KStaker t (sized_of 20 a)) | _ => None end
      | x08 =>
          match rest with
          | x00 :: _ :: a => Some (KReward (sized_of 20 a))
          | _ => Some KRewardGlobal
          end
      | x0c => match rest with t :: _ :: a => Some (KPow t (sized_of 20 a)) | _ => None end
      | x0d => Some KYields
      | x0e => Some (KDetail (sized_of 20 rest))
      | x0f =>
          if decide (length rest = 8)%nat then Some (KUserType (le_value (reverse rest)))
          else Some (KUser (sized_of 20 rest))
      | x10 => Some KSysParams
      | x11 => Some (KAction (sized_of 20 rest))
      | x6c => Some KLastAccepted
      | _ => None
      end
  | _ => None
  end.

Lemma classify_render k : key_ok k -> classify (render k) = Some k.
Proof.
  intros Hk. destruct k as [i|i|i|h|a|a|t a|t a|a| | |a|a|id| |i|]; simpl; try done;
    rewrite ?sized_of_array; try done.
  - by rewrite decide_True by apply sized_length.
  - rewrite decide_False by (rewrite sized_length; lia). done.
  - rewrite decide_False by (rewrite sized_length; lia). done.
  - change (Some (KUserType (le_value (le_bytes 8 id))) = Some (KUserType id)).
    by rewrite le_value_bytes.
Qed.

#[export] Instance dbkey_eq_dec : EqDecision dbkey.
Proof. solve_decision. Defined.
#[export] Instance key_ok_dec k : Decision (key_ok k).
Proof. destruct k; simpl; unfold is_u64; apply _. Defined.
