(* ===== verification/Storage.v ===== *)
(** * chain/storage.go: balances, values and transactions in the database

    The functions run in [M DB].  [balance] and [stake_balance] read an account
    off a database; [accounts_ok] says that every stored balance is the 8 bytes
    [SetBalance] writes. *)

From S2P Require Import Prelude External GoStd Instances Keys.

(** ** Balances *)
Section balances.
Context `{Database} `{Ethereum}.

Definition GetBalance (address : Address) : M DB Z :=
  let! r := attempt (Get (PrefixBalanceKey address)) in
  match r with
  | inl e => if errors_is e ErrNotFound then ret 0 else fail e
  | inr v => lift_outcome (be_Uint64 v)
  end.

Definition SetBalance (address : Address) (bal : Z) : M DB unit :=
  Put (PrefixBalanceKey address) (be_PutUint64 bal).

Definition ModifyBalance (address : Address) (add : bool) (change : Z) : M DB Z :=
  let! b := GetBalance address in
  let '(n, xflow) := if add then SafeAdd b change else SafeSub b change in
  if xflow : bool then fail (Wrapf ErrInvalidBalance "modify bal")
  else SetBalance address n ;;; ret n.

Definition GetStakeBalance (address : Address) : M DB Z :=
  let! r := attempt (Get (PrefixStakeKey address)) in
  match r with
  | inl e => if errors_is e ErrNotFound then ret 0 else fail e
  | inr v => lift_outcome (be_Uint64 v)
  end.

Definition SetStakeBalance (address : Address) (bal : Z) : M DB unit :=
  Put (PrefixStakeKey address) (be_PutUint64 bal).

Definition ModifyStakeBalance (address : Address) (add : bool) (change : Z) : M DB Z :=
  let! b := GetStakeBalance address in
  let '(n, xflow) := if add then SafeAdd b change else SafeSub b change in
  if xflow : bool then fail (Wrapf ErrInvalidBalance "lockerr bal")
  else SetStakeBalance address n ;;; ret n.

(** The account an observer reads. *)
Definition amount_at (k : bytes) (db : DB) : Z :=
  match db_lookup db k with
  | Some v => match be_Uint64 v with Ok z => z | _ => 0 end
  | None => 0
  end.
Definition balance (db : DB) (a : Address) : Z := amount_at (PrefixBalanceKey a) db.
Definition stake_balance (db : DB) (a : Address) : Z := amount_at (PrefixStakeKey a) db.

Definition account_key (k : bytes) : Prop :=
  exists a, k = PrefixBalanceKey a \/ k = PrefixStakeKey a.
Definition accounts_ok (db : DB) : Prop :=
  forall k v, account_key k -> db_lookup db k = Some v -> length v = 8%nat.
End balances.

Section balance_facts.
Context `{DatabaseLaws} `{EthereumLaws}.
Implicit Types (db : DB) (a : Address).

Lemma balance_key_account a : account_key (PrefixBalanceKey a).
Proof. exists a. by left. Qed.
Lemma stake_key_account a : account_key (PrefixStakeKey a).
Proof. exists a. by right. Qed.

Lemma amount_at_range k db : is_u64 (amount_at k db).
Proof.
  unfold amount_at. destruct (db_lookup db k) as [v|]; [|unfold is_u64; lia].
  destruct (be_Uint64 v) eqn:Hv; [by eapply be_Uint64_range|unfold is_u64; lia..].
Qed.

Lemma amount_at_set k z db k' :
  is_u64 z -> amount_at k' (db_set db k (be_PutUint64 z)) =
    if decide (k = k') then z else amount_at k' db.
Proof.
  intros Hz. unfold amount_at. rewrite db_lookup_set.
  case_decide; [|done]. by rewrite be_Uint64_Put.
Qed.

#[export] Instance amount_at_proper k : Proper ((≡) ==> (=)) (amount_at k).
Proof. intros db1 db2 Hdb. unfold amount_at. by rewrite (Hdb k). Qed.
#[export] Instance balance_proper : Proper ((≡) ==> (=) ==> (=)) balance.
Proof. intros db1 db2 Hdb a ? <-. unfold balance. by rewrite Hdb. Qed.
#[export] Instance accounts_ok_proper : Proper ((≡) ==> iff) accounts_ok.
Proof.
  intros db1 db2 Hdb. unfold accounts_ok. split; intros Hok k v Hk Hv; eapply Hok; try done.
  - by rewrite (Hdb k).
  - by rewrite <- (Hdb k).
Qed.

(** A write that is not at an account key leaves the accounts alone. *)
Lemma amount_at_frame_set k v db k' :
  k <> k' -> amount_at k' (db_set db k v) = amount_at k' db.
Proof. intros. unfold amount_at. by rewrite lookup_set_ne. Qed.
Lemma amount_at_frame_del k db k' :
  k <> k' -> amount_at k' (db_del db k) = amount_at k' db.
Proof. intros. unfold amount_at. by rewrite lookup_del_ne. Qed.

Lemma accounts_ok_set_amount k z db :
  accounts_ok db -> accounts_ok (db_set db k (be_PutUint64 z)).
Proof.
  intros Hok k' v Hk'. rewrite db_lookup_set. case_decide; [|by apply Hok].
  intros [= <-]. apply be_PutUint64_length.
Qed.
Lemma accounts_ok_frame_set k v db :
  ~ account_key k -> accounts_ok db -> accounts_ok (db_set db k v).
Proof.
  intros Hk Hok k' v' Hk'. rewrite db_lookup_set. case_decide; [by subst|by apply Hok].
Qed.
Lemma accounts_ok_frame_del k db : accounts_ok db -> accounts_ok (db_del db k).
Proof. intros Hok k' v' Hk'. rewrite db_lookup_del. case_decide; [done|by apply Hok]. Qed.

Lemma amount_read k db :
  accounts_ok db -> account_key k ->
  match db_lookup db k with
  | Some v => be_Uint64 v = Ok (amount_at k db)
  | None => amount_at k db = 0
  end.
Proof.
  intros Hok Hk. unfold amount_at. destruct (db_lookup db k) as [v|] eqn:Hv; [|done].
  unfold be_Uint64. rewrite decide_True by (rewrite (Hok _ _ Hk Hv); lia). done.
Qed.

Lemma GetBalance_run a db : accounts_ok db -> GetBalance a db = (db, Ok (balance db a)).
Proof.
  intros Hok. pose proof (amount_read _ db Hok (balance_key_account a)) as Hr.
  unfold GetBalance, attempt, bind. rewrite Get_run. unfold balance.
  destruct (db_lookup db (PrefixBalanceKey a)) as [v|]; simpl.
  - unfold lift_outcome. by rewrite Hr.
  - by rewrite Hr.
Qed.
Lemma GetStakeBalance_run a db :
  accounts_ok db -> GetStakeBalance a db = (db, Ok (stake_balance db a)).
Proof.
  intros Hok. pose proof (amount_read _ db Hok (stake_key_account a)) as Hr.
  unfold GetStakeBalance, attempt, bind. rewrite Get_run. unfold stake_balance.
  destruct (db_lookup db (PrefixStakeKey a)) as [v|]; simpl.
  - unfold lift_outcome. by rewrite Hr.
  - by rewrite Hr.
Qed.

(** The balance after a change, before any overflow check. *)
Definition changed (add : bool) (b change : Z) : Z := if add then b + change else b - change.

Lemma safe_change (add : bool) b change :
  is_u64 b -> is_u64 change ->
  (if add then SafeAdd b change else SafeSub b change) =
    (u64 (changed add b change), negb (bool_decide (0 <= changed add b change < 2 ^ 64))).
Proof.
  intros Hb Hc. unfold is_u64 in *. destruct add; simpl.
  - rewrite SafeAdd_spec by done. f_equal. rewrite <- bool_decide_not.
    apply bool_decide_ext. lia.
  - rewrite SafeSub_spec by done. f_equal. rewrite <- bool_decide_not.
    apply bool_decide_ext. lia.
Qed.

Lemma ModifyBalance_run a add change db :
  accounts_ok db -> is_u64 change ->
  let n := changed add (balance db a) change in
  ModifyBalance a add change db =
    if bool_decide (0 <= n < 2 ^ 64)
    then (db_set db (PrefixBalanceKey a) (be_PutUint64 n), Ok n)
    else (db, Err (Wrapf ErrInvalidBalance "modify bal")).
Proof.
  intros Hok Hc n. unfold ModifyBalance. rewrite (bind_run _ _ _ _ _ (GetBalance_run _ _ Hok)).
  rewrite safe_change by (done || apply amount_at_range). fold n.
  case_bool_decide as Hn; simpl; [|done].
  rewrite u64_small by done. unfold bind, SetBalance. by rewrite Put_run.
Qed.
Lemma ModifyStakeBalance_run a add change db :
  accounts_ok db -> is_u64 change ->
  let n := changed add (stake_balance db a) change in
  ModifyStakeBalance a add change db =
    if bool_decide (0 <= n < 2 ^ 64)
    then (db_set db (PrefixStakeKey a) (be_PutUint64 n), Ok n)
    else (db, Err (Wrapf ErrInvalidBalance "lockerr bal")).
Proof.
  intros Hok Hc n. unfold ModifyStakeBalance.
  rewrite (bind_run _ _ _ _ _ (GetStakeBalance_run _ _ Hok)).
  rewrite safe_change by (done || apply amount_at_range). fold n.
  case_bool_decide as Hn; simpl; [|done].
  rewrite u64_small by done. unfold bind, SetStakeBalance. by rewrite Put_run.
Qed.

Lemma balance_set a n db a' :
  is_u64 n -> balance (db_set db (PrefixBalanceKey a) (be_PutUint64 n)) a' =
    if decide (a = a') then n else balance db a'.
Proof.
  intros Hn. unfold balance. rewrite amount_at_set by done.
  destruct (decide (a = a')) as [->|Hne]; [by rewrite decide_True|].
  rewrite decide_False; [done|]. by intros ?%(inj PrefixBalanceKey).
Qed.
Lemma stake_balance_set a n db a' :
  is_u64 n -> stake_balance (db_set db (PrefixStakeKey a) (be_PutUint64 n)) a' =
    if decide (a = a') then n else stake_balance db a'.
Proof.
  intros Hn. unfold stake_balance. rewrite amount_at_set by done.
  destruct (decide (a = a')) as [->|Hne]; [by rewrite decide_True|].
  rewrite decide_False; [done|]. by intros ?%(inj PrefixStakeKey).
Qed.
Lemma stake_balance_frame a v db a' :
  stake_balance (db_set db (PrefixBalanceKey a) v) a' = stake_balance db a'.
Proof. unfold stake_balance. by rewrite amount_at_frame_set. Qed.
Lemma balance_frame_stake a v db a' :
  balance (db_set db (PrefixStakeKey a) v) a' = balance db a'.
Proof. unfold balance. by rewrite amount_at_frame_set. Qed.

(** [ModifyBalance] moves exactly one account, or fails and writes nothing:
    the change is applied in full when the result is a [uint64], refused
    otherwise. *)
Theorem ModifyBalance_spec a add change db :
  accounts_ok db -> is_u64 change ->
  let n := changed add (balance db a) change in
  let '(db', r) := ModifyBalance a add change db in
  accounts_ok db' /\
  (forall a', stake_balance db' a' = stake_balance db a') /\
  if bool_decide (0 <= n < 2 ^ 64)
  then r = Ok n /\ forall a', balance db' a' = if decide (a = a') then n else balance db a'
  else r = Err (Wrapf ErrInvalidBalance "modify bal") /\ db' = db.
Proof.
  intros Hok Hc n. rewrite ModifyBalance_run by done. fold n.
  case_bool_decide as Hn; [|done]. split; [by apply accounts_ok_set_amount|].
  split; [intros a'; apply stake_balance_frame|].
  split; [done|]. intros a'. by rewrite balance_set.
Qed.
End balance_facts.

#[export] Hint Resolve amount_at_range accounts_ok_set_amount balance_key_account
  stake_key_account : go.

(** ** Values *)

Record ValueMeta := mkValueMeta {
  Value_Size : Z;
  Value_TxID : ID;
  Value_Created : Z
}.
#[global] Instance packable_ValueMeta : Packable ValueMeta :=
  packable_via (fun v => (Value_Size v, Value_TxID v, Value_Created v))
    (fun '(s, t, c) => mkValueMeta s t c) ltac:(by intros []).

Section values.
Context `{Database} `{Ethereum} `{!Codec ValueMeta} `{!Cacher bytes bytes}.

Definition ValueHash (v : bytes) : Hash := Keccak256 v.

Definition GetValueMeta (key : Hash) : M DB (option ValueMeta) :=
  let! r := attempt (Get (ValueKey key)) in
  match r with
  | inl e => if errors_is e ErrNotFound then ret None else fail e
  | inr rvmeta => let! vmeta := lift (Unmarshal rvmeta) in ret (Some vmeta)
  end.

Definition HasKey (key : Hash) : M DB bool := Has (ValueKey key).

Definition PutKey (key : Hash) (vmeta : ValueMeta) : M DB unit :=
  let! rvmeta := lift (Marshal vmeta) in Put (ValueKey key) rvmeta.

Definition SetTransaction (txID : ID) : M DB unit := Put (PrefixTxKey txID) [].
Definition HasTransaction (txID : ID) : M DB bool := Has (PrefixTxKey txID).

(** The package-level [linkedTxCache] is part of the state here. *)
Definition getLinkedValue (b : bytes) : M (Cache_t bytes bytes * DB) bytes :=
  let! c := gets fst in
  let '(c', hit) := cache_Get c b in
  modify (over c') ;;;
  match hit with
  | Some v => ret v
  | None =>
      let! txID := lift (ToID b) in
      let! v := zoom (Get (PrefixTxValueKey txID)) in
      modify (fun s => over (cache_Put s.1 b v) s) ;;;
      ret v
  end.

Definition GetValue (key : Hash) : M (Cache_t bytes bytes * DB) (option bytes) :=
  let! r := attempt (zoom (Get (ValueKey key))) in
  match r with
  | inl e => if errors_is e ErrNotFound then ret None else fail e
  | inr rvmeta =>
      let! vmeta := lift (Unmarshal (A := ValueMeta) rvmeta) in
      let! v := getLinkedValue (array (Value_TxID vmeta)) in
      ret (Some v)
  end.

Definition HasLastAccepted : M DB bool := Has lastAccepted.
Definition GetLastAccepted : M DB ID :=
  let! r := attempt (Get lastAccepted) in
  match r with
  | inl e => if errors_is e ErrNotFound then ret EmptyID else fail e
  | inr v => lift (ToID v)
  end.

(** [bytes.Compare]. *)
Definition bytes_Compare (a b : bytes) : Z :=
  if bytes_leb a b then (if bytes_leb b a then 0 else -1) else 1.

(** The loop of [SelectRandomValue] over what the cursor yields. *)
Fixpoint select_loop (baseKey : bytes) (l : list (bytes * bytes)) : bytes :=
  match l with
  | [] => []
  | (curKey, value) :: l' =>
      if bytes_Compare baseKey curKey <? -1 then select_loop baseKey l'
      else if bool_decide (baseKey `prefix_of` curKey) then value
      else []
  end.
Definition SelectRandomValue (db : DB) (seed : bytes) : bytes :=
  let startKey := ValueKey (ValueHash seed) in
  select_loop [keyPrefix; ByteDelimiter] (db_iter_start db startKey).

(** [generateAccessProof] of block.go. *)
Definition generateAccessProof (db : DB) (pid : ID) (hght : Z) : Hash :=
  let seed := array pid ++ le_PutUint64 hght in
  let v := SelectRandomValue db seed in
  if decide (length v = 0%nat) then sized_of 32 []
  else ValueHash (v ++ array pid).
End values.

Section value_facts.
Context `{DatabaseLaws} `{Ethereum} `{CodecLaws ValueMeta} `{!Cacher bytes bytes}.

Lemma GetValueMeta_run key db :
  GetValueMeta key db = (db,
    match db_lookup db (ValueKey key) with
    | Some b => match Unmarshal b with inr m => Ok (Some m) | inl e => Err e end
    | None => Ok None
    end).
Proof.
  unfold GetValueMeta, attempt, bind. rewrite Get_run.
  destruct (db_lookup db (ValueKey key)) as [b|]; [|done].
  unfold lift. by destruct (Unmarshal b).
Qed.

Lemma PutKey_run key vmeta db :
  PutKey key vmeta db =
    match Marshal vmeta with
    | inr b => (db_set db (ValueKey key) b, Ok tt)
    | inl e => (db, Err e)
    end.
Proof. unfold PutKey, lift, bind. destruct (Marshal vmeta); simpl; [done|by rewrite Put_run]. Qed.

Lemma bytes_Compare_ge a b : (bytes_Compare a b <? -1) = false.
Proof. unfold bytes_Compare. by repeat case_match. Qed.

(** The access proof is read off the smallest value key from the seed on: no
    earlier entry of the store and no other part of it is looked at. *)
Lemma SelectRandomValue_first db seed :
  SelectRandomValue db seed =
    match db_iter_start db (ValueKey (ValueHash seed)) with
    | (k, v) :: _ => if bool_decide ([keyPrefix; ByteDelimiter] `prefix_of` k) then v else []
    | [] => []
    end.
Proof.
  unfold SelectRandomValue. destruct (db_iter_start _ _) as [|[k v] l]; [done|].
  cbn [select_loop]. by rewrite bytes_Compare_ge.
Qed.
End value_facts.

(** ** What the access proof depends on *)

Lemma bytes_leb_antisym a b : bytes_leb a b = true -> bytes_leb b a = true -> a = b.
Proof.
  revert b. induction a as [|x a IH]; intros [|y b]; simpl; try done.
  rewrite !orb_true_iff, !andb_true_iff, !Z.ltb_lt, !Z.eqb_eq.
  intros [?|[Hxy Hab]] [?|[Hyx Hba]]; try lia.
  f_equal; [|by apply IH]. rewrite <- (byte_of_Z_of_byte x), Hxy. apply byte_of_Z_of_byte.
Qed.

Lemma bytes_leb_cons x a b : bytes_leb (x :: a) (x :: b) = bytes_leb a b.
Proof. simpl. by rewrite Z.ltb_irrefl, Z.eqb_refl. Qed.

(** Whatever lies between two keys with a common prefix has that prefix. *)
Lemma bytes_leb_sandwich p a b k :
  bytes_leb (p ++ a) k = true -> bytes_leb k (p ++ b) = true -> p `prefix_of` k.
Proof.
  revert k. induction p as [|x p IH]; intros k; [intros; apply prefix_nil|].
  destruct k as [|y k]; simpl; [done|].
  rewrite !orb_true_iff, !andb_true_iff, !Z.ltb_lt, !Z.eqb_eq.
  intros [?|[Hxy Hl]] [?|[Hyx Hr]]; try lia.
  assert (y = x) as -> by
    (rewrite <- (byte_of_Z_of_byte x), <- (byte_of_Z_of_byte y); by rewrite Hxy).
  by apply prefix_cons, IH.
Qed.

Section access_proof.
Context `{DatabaseLaws} `{Ethereum}.
Definition value_prefix : bytes := [keyPrefix; ByteDelimiter].

(** The two databases hold the same value metadata. *)
Definition same_values (db1 db2 : DB) : Prop :=
  forall k, value_prefix `prefix_of` k -> db_lookup db1 k = db_lookup db2 k.

Lemma same_values_sym db1 db2 : same_values db1 db2 -> same_values db2 db1.
Proof. intros Hs k Hk. by rewrite Hs. Qed.

Lemma iter_start_head db s k v l :
  db_iter_start db s = (k, v) :: l ->
  bytes_le s k /\ db_lookup db k = Some v /\
  forall k' v', bytes_le s k' -> db_lookup db k' = Some v' -> bytes_le k k'.
Proof.
  intros Hit. assert ((k, v) ∈ db_iter_start db s) as Hin by (rewrite Hit; set_solver).
  apply db_iter_start_spec in Hin as [Hle Hlk]. split_and!; [done|done|].
  intros k' v' Hle' Hlk'.
  assert ((k', v') ∈ db_iter_start db s) as Hin' by (by apply db_iter_start_spec).
  rewrite Hit in Hin'. apply elem_of_cons in Hin' as [[= -> ->]|Hin'].
  - unfold bytes_le. clear. induction k as [|x k IH]; simpl; [done|].
    by rewrite Z.eqb_refl, IH, orb_true_r.
  - pose proof (db_iter_start_sorted db s) as Hsort. rewrite Hit in Hsort. csimpl in Hsort.
    apply StronglySorted_inv in Hsort as [_ Hall].
    rewrite Forall_forall in Hall. apply Hall. apply list_elem_of_fmap. by exists (k', v').
Qed.

(** The first value from the seed on, when there is one. *)
Lemma select_same db1 db2 h k v l :
  same_values db1 db2 ->
  db_iter_start db1 (ValueKey h) = (k, v) :: l -> value_prefix `prefix_of` k ->
  exists l', db_iter_start db2 (ValueKey h) = (k, v) :: l'.
Proof.
  intros Hs Hit Hpre. pose proof (iter_start_head _ _ _ _ _ Hit) as (Hle & Hlk & Hmin).
  assert ((k, v) ∈ db_iter_start db2 (ValueKey h)) as Hin2.
  { apply db_iter_start_spec. split; [done|]. by rewrite <- Hs. }
  destruct (db_iter_start db2 (ValueKey h)) as [|[k2 v2] l2] eqn:Hit2; [set_solver|].
  pose proof (iter_start_head _ _ _ _ _ Hit2) as (Hle2 & Hlk2 & Hmin2).
  assert (bytes_le k2 k) as Hk2 by (eapply Hmin2; [done|by rewrite <- Hs]).
  destruct Hpre as [rest ->].
  assert (value_prefix `prefix_of` k2) as Hpre2 by
    (eapply (bytes_leb_sandwich _ (array h) rest); [exact Hle2|exact Hk2]).
  assert (bytes_le (value_prefix ++ rest) k2) as Hk1 by (eapply Hmin; [done|by rewrite Hs]).
  assert (k2 = value_prefix ++ rest) as -> by (by apply bytes_leb_antisym).
  exists l2. rewrite Hs in Hlk by (by eexists). congruence.
Qed.

Lemma SelectRandomValue_same db1 db2 seed :
  same_values db1 db2 -> SelectRandomValue db1 seed = SelectRandomValue db2 seed.
Proof.
  intros Hs. rewrite !SelectRandomValue_first. fold value_prefix.
  destruct (db_iter_start db1 _) as [|[k v] l] eqn:Hit.
  - destruct (db_iter_start db2 _) as [|[k2 v2] l2] eqn:Hit2; [done|].
    case_bool_decide as Hp; [|done].
    destruct (select_same db2 db1 _ k2 v2 l2 (same_values_sym _ _ Hs) Hit2 Hp). congruence.
  - case_bool_decide as Hp.
    + destruct (select_same db1 db2 _ k v l Hs Hit Hp) as [l' ->].
      by rewrite bool_decide_eq_true_2.
    + destruct (db_iter_start db2 _) as [|[k2 v2] l2] eqn:Hit2; [done|].
      case_bool_decide as Hp2; [|done].
      destruct (select_same db2 db1 _ k2 v2 l2 (same_values_sym _ _ Hs) Hit2 Hp2). congruence.
Qed.

(** The access proof only reads value metadata: pruning the stored values
    themselves, or anything else, leaves every proof unchanged. *)
Theorem access_proof_reads_metadata_only db1 db2 pid hght :
  same_values db1 db2 -> generateAccessProof db1 pid hght = generateAccessProof db2 pid hght.
Proof. intros Hs. unfold generateAccessProof. by rewrite (SelectRandomValue_same _ db2). Qed.
End access_proof.
