(* ===== verification/Genesis.v ===== *)
(** * chain/genesis.go: chain parameters and the initial allocation *)

From S2P Require Import Prelude External GoStd Keys Storage.

Definition MinBlockCost : Z := 0.
Definition DefaultValueUnitSize : Z := 1024.
Definition DefaultLookbackWindow : Z := 60.

Record CustomAllocation := mkCustomAllocation {
  Alloc_Address : Address;
  Alloc_Balance : Z
}.

Record Genesis := mkGenesis {
  Genesis_Magic : Z;
  Genesis_BaseTxUnits : Z;
  Genesis_ValueUnitSize : Z;
  Genesis_MaxValueSize : Z;
  Genesis_MinPrice : Z;
  Genesis_LookbackWindow : Z;
  Genesis_TargetBlockRate : Z;
  Genesis_TargetBlockSize : Z;
  Genesis_MaxBlockSize : Z;
  Genesis_BlockCostEnabled : bool;
  Genesis_CustomAllocation : list CustomAllocation;
  Genesis_AirdropHash : string;
  Genesis_AirdropUnits : Z;
  Genesis_TotalTokens : Z;
  Genesis_ClaimMinUnits : Z;
  Genesis_ClaimMinInterval : Z;
  Genesis_TotalYears : Z;
  Genesis_RateSustainYears : Z;
  Genesis_ChainCreateTime : Z;
  Genesis_MinerPerc : Z;
  Genesis_FoundationPerc : Z;
  Genesis_RoutePerc : Z;
  Genesis_SerPerc : Z;
  Genesis_ValidatorPerc : Z;
  Genesis_BaseSerPerc : Z;
  Genesis_MeritSerPerc : Z;
  Genesis_BaseRoutePerc : Z;
  Genesis_MeritRoutePerc : Z;
  Genesis_BurnPerc : Z;
  Genesis_RouteStake : Z;
  Genesis_SerStake : Z;
  Genesis_MonthCard : Z;
  Genesis_SeasonCard : Z;
  Genesis_AnnualCard : Z;
  Genesis_MinStakeTime : Z;
  Genesis_RootAddress : string;
  Genesis_FoundationAddr : string
}.

Definition DefaultGenesis : Genesis := {|
  Genesis_Magic := 0;
  Genesis_BaseTxUnits := 1;
  Genesis_ValueUnitSize := DefaultValueUnitSize;
  Genesis_MaxValueSize := 200 * 1024;
  Genesis_MinPrice := 0;
  Genesis_LookbackWindow := DefaultLookbackWindow;
  Genesis_TargetBlockRate := 1;
  Genesis_TargetBlockSize := 225;
  Genesis_MaxBlockSize := 246;
  Genesis_BlockCostEnabled := true;
  Genesis_CustomAllocation := [];
  Genesis_AirdropHash := "";
  Genesis_AirdropUnits := 0;
  Genesis_TotalTokens := 2100000000000;
  Genesis_ClaimMinUnits := 100;
  Genesis_ClaimMinInterval := 7 * 24 * 60 * 60;
  Genesis_TotalYears := 10;
  Genesis_RateSustainYears := 1;
  Genesis_ChainCreateTime := 1668125288;
  Genesis_MinerPerc := 20;
  Genesis_FoundationPerc := 40;
  Genesis_RoutePerc := 30;
  Genesis_SerPerc := 50;
  Genesis_ValidatorPerc := 20;
  Genesis_BaseSerPerc := 20;
  Genesis_MeritSerPerc := 80;
  Genesis_BaseRoutePerc := 20;
  Genesis_MeritRoutePerc := 80;
  Genesis_BurnPerc := 20;
  Genesis_RouteStake := 200000000;
  Genesis_SerStake := 100000000;
  Genesis_MonthCard := 100;
  Genesis_SeasonCard := 300;
  Genesis_AnnualCard := 1200;
  Genesis_MinStakeTime := 90 * 24 * 60 * 60;
  Genesis_RootAddress := "0x8db97c7cece249c2b98bdc0226cc4c2a57bf52fc";
  Genesis_FoundationAddr := "0x8db97c7cece249c2b98bdc0226cc4c2a57bf52fc"
|}.

(** [Genesis.Verify]. *)
Definition Genesis_Verify (g : Genesis) : result unit :=
  if Genesis_Magic g =? 0 then inl ErrInvalidMagic
  else if Genesis_TargetBlockRate g =? 0 then inl ErrInvalidBlockRate
  else inr tt.

(** [valueUnits] of common_tx.go; the division panics on a zero unit size. *)
Definition valueUnits (g : Genesis) (size : Z) : outcome Z :=
  if Genesis_ValueUnitSize g =? 0 then Panic DivideByZero
  else Ok (size / Genesis_ValueUnitSize g +u 1).

Section load.
Context `{Database} `{Ethereum}.

Definition set_allocation (a : Address) (bal : Z) : M DB unit :=
  let! r := attempt (SetBalance a bal) in
  match r with
  | inl e => fail (Wrapf e "addr, bal")
  | inr _ => ret tt
  end.

(** [Genesis.Load]; [parse_airdrop] is the [json.Unmarshal] of the airdrop
    file into its addresses. *)
Definition Genesis_Load (g : Genesis) (airdropData : bytes)
    (parse_airdrop : bytes -> result (list Address)) : M DB unit :=
  on_versiondb (
    (if (0 <? String.length (Genesis_AirdropHash g))%nat then
      let h := Hash_Hex (Keccak256 airdropData) in
      if bool_decide (Genesis_AirdropHash g <> h) then
        fail (Errorf "expected standard allocation")
      else
        let! airdrop := lift (parse_airdrop airdropData) in
        for_each (fun alloc => set_allocation alloc (Genesis_AirdropUnits g)) airdrop
    else ret tt) ;;;
    for_each (fun alloc => set_allocation (Alloc_Address alloc) (Alloc_Balance alloc))
      (Genesis_CustomAllocation g)).
End load.

Section load_facts.
Context `{DatabaseLaws} `{Ethereum}.

Lemma set_allocation_run a bal db :
  set_allocation a bal db = (db_set db (PrefixBalanceKey a) (be_PutUint64 bal), Ok tt).
Proof. unfold set_allocation, attempt, bind, SetBalance. by rewrite Put_run. Qed.

(** The balance an allocation list leaves: the last entry for an address wins. *)
Fixpoint allocated (l : list (Address * Z)) (a : Address) (before : Z) : Z :=
  match l with
  | [] => before
  | (a', z) :: l' => allocated l' a (if decide (a' = a) then z else before)
  end.

Lemma allocate_all {B} (f : B -> Address * Z) (l : list B) db :
  Forall (fun b => is_u64 (f b).2) l ->
  exists db', for_each (fun b => set_allocation (f b).1 (f b).2) l db = (db', Ok tt) /\
    (accounts_ok db -> accounts_ok db') /\
    forall a, balance db' a = allocated (f <$> l) a (balance db a).
Proof.
  revert db. induction l as [|b l IH]; intros db Hl; [simpl; eauto|].
  apply Forall_cons in Hl as [Hb Hl]. cbn [for_each].
  rewrite (bind_run _ _ _ _ _ (set_allocation_run _ _ _)).
  destruct (IH (db_set db (PrefixBalanceKey (f b).1) (be_PutUint64 (f b).2)) Hl)
    as (db' & Hrun & Hok & Hbal).
  exists db'. split; [done|]. split; [eauto with go|].
  intros a. rewrite Hbal, balance_set by done. csimpl. by destruct (f b).
Qed.

Definition custom_entry (c : CustomAllocation) : Address * Z :=
  (Alloc_Address c, Alloc_Balance c).

Lemma allocated_app l1 l2 a z : allocated (l1 ++ l2) a z = allocated l2 a (allocated l1 a z).
Proof. revert z. induction l1 as [|[a' z'] l1 IH]; intros z; simpl; auto. Qed.

(** C34: Loading a genesis with a valid airdrop succeeds and gives every address
    its airdrop, overridden by its last custom allocation; a wrong airdrop
    hash writes nothing. *)
Theorem Genesis_Load_spec g data parse db :
  accounts_ok db -> is_u64 (Genesis_AirdropUnits g) ->
  Forall (fun c => is_u64 (Alloc_Balance c)) (Genesis_CustomAllocation g) ->
  let '(db', r) := Genesis_Load g data parse db in
  let custom := custom_entry <$> Genesis_CustomAllocation g in
  if bool_decide (Genesis_AirdropHash g = "") then
    r = Ok tt /\ accounts_ok db' /\
    forall a, balance db' a = allocated custom a (balance db a)
  else if bool_decide (Genesis_AirdropHash g = Hash_Hex (Keccak256 data)) then
    match parse data with
    | inl e => r = Err e /\ db' = db
    | inr addrs => r = Ok tt /\ accounts_ok db' /\ forall a,
        balance db' a =
          allocated (((fun x => (x, Genesis_AirdropUnits g)) <$> addrs) ++ custom) a (balance db a)
    end
  else r = Err (Errorf "expected standard allocation") /\ db' = db.
Proof.
  intros Hok Hu Hc. unfold Genesis_Load. set (body := bind _ _).
  pose proof (versiondb_New_equiv db) as Hnew.
  rewrite <- Hnew in Hok.
  destruct (decide (Genesis_AirdropHash g = "")) as [He|He].
  - rewrite (bool_decide_eq_true_2 _ He).
    destruct (allocate_all custom_entry (Genesis_CustomAllocation g) (versiondb_New db) Hc)
      as (v & Hrun & Hv & Hbal).
    destruct (on_versiondb_ok body db v tt) as (db' & -> & Heq).
    { unfold body. rewrite He. exact Hrun. }
    split_and!; [done|rewrite Heq; auto|]. intros a. by rewrite Heq, Hbal, Hnew.
  - rewrite (bool_decide_eq_false_2 _ He).
    assert ((0 <? String.length (Genesis_AirdropHash g))%nat = true) as Hlen
      by (by destruct (Genesis_AirdropHash g)).
    destruct (decide (Genesis_AirdropHash g = Hash_Hex (Keccak256 data))) as [Hh|Hh].
    + rewrite (bool_decide_eq_true_2 _ Hh). destruct (parse data) as [e|addrs] eqn:Hp.
      * rewrite (on_versiondb_err body db (versiondb_New db) e); [done|].
        unfold body. rewrite Hlen, bool_decide_eq_false_2 by (intros Hn; by apply Hn).
        reflexivity.
      * destruct (allocate_all (fun x => (x, Genesis_AirdropUnits g)) addrs (versiondb_New db))
          as (v1 & Hrun1 & Hv1 & Hbal1); [by apply Forall_true|].
        destruct (allocate_all custom_entry (Genesis_CustomAllocation g) v1 Hc)
          as (v & Hrun & Hv & Hbal).
        destruct (on_versiondb_ok body db v tt) as (db' & -> & Heq).
        { unfold body. rewrite Hlen, bool_decide_eq_false_2 by (intros Hn; by apply Hn).
          cbn [fst snd] in Hrun1. unfold bind, lift. simpl. rewrite Hrun1.
          exact Hrun. }
        split_and!; [done|rewrite Heq; auto|].
        intros a. by rewrite Heq, allocated_app, Hbal, Hbal1, Hnew.
    + rewrite (bool_decide_eq_false_2 _ Hh).
      rewrite (on_versiondb_err body db (versiondb_New db) (Errorf "expected standard allocation"));
        [done|].
      unfold body. rewrite Hlen, bool_decide_eq_true_2 by done. done.
Qed.
End load_facts.
