(* ===== verification/Stakers.v ===== *)
(** * chain/stake_status.go: the stakers

    [stakerState] keeps the three pending-cache triples of the source (route,
    ser, validator).  [staker_cache t] is the triple the switches of
    [GetPendingStakers] and [GetCurStakes] select; all the lemmas go through
    it. *)

From S2P Require Import Prelude External GoStd PendingCache Instances Keys.

Record StakerMeta := mkStakerMeta {
  Staker_TxID : ID;
  Staker_StakerType : Z;
  Staker_StakeAmount : Z;
  Staker_StakeTime : Z;
  Staker_StakerAddr : Address
}.
#[global] Instance packable_StakerMeta : Packable StakerMeta :=
  packable_via (fun m => (Staker_TxID m, Staker_StakerType m, Staker_StakeAmount m,
      Staker_StakeTime m, Staker_StakerAddr m))
    (fun '(i, t, a, s, d) => mkStakerMeta i t a s d) ltac:(by intros []).

Definition zeroStaker : StakerMeta := mkStakerMeta EmptyID 0 0 0 zeroAddress.

Definition StakerTypes : list byte := [stakerTypeRoute; stakerTypeSer; stakerTypeValidator].

(** The package functions [RouteStake], [SerStake] and [ValidatorStake]. *)
Definition RouteStake : Z := Z_of_byte stakerTypeRoute.
Definition SerStake : Z := Z_of_byte stakerTypeSer.
Definition ValidatorStake : Z := Z_of_byte stakerTypeValidator.

Abbreviation staker_map := (gmap Address StakerMeta).

Record stakerState := mkStakerState {
  curRoute : staker_map;
  curSer : staker_map;
  curValidator : staker_map;
  pendingRouteAdd : staker_map;
  pendingSerAdd : staker_map;
  pendingValidatorAdd : staker_map;
  pendingRouteDel : staker_map;
  pendingSerDel : staker_map;
  pendingValidatorDel : staker_map
}.

Definition emptyStakerState : stakerState := mkStakerState ∅ ∅ ∅ ∅ ∅ ∅ ∅ ∅ ∅.

(** ** Reading *)

Definition GetPendingStakers (s : stakerState) (stakerType : byte) :
    result (staker_map * staker_map) :=
  if decide (stakerType = stakerTypeSer) then inr (pendingSerAdd s, pendingSerDel s)
  else if decide (stakerType = stakerTypeRoute) then inr (pendingRouteAdd s, pendingRouteDel s)
  else if decide (stakerType = stakerTypeValidator) then
    inr (pendingValidatorAdd s, pendingValidatorDel s)
  else inl ErrIDErr.

Definition GetCurStakes (s : stakerState) (stakerType : byte) : result staker_map :=
  if decide (stakerType = stakerTypeSer) then inr (curSer s)
  else if decide (stakerType = stakerTypeRoute) then inr (curRoute s)
  else if decide (stakerType = stakerTypeValidator) then inr (curValidator s)
  else inl ErrIDErr.

(** [curMap, _ := s.GetCurStakes(t)]: a nil map reads as an empty one. *)
Definition cur_stakes (s : stakerState) (t : byte) : staker_map :=
  match GetCurStakes s t with inr m => m | inl _ => ∅ end.

Definition GetStakersNum (s : stakerState) : nat * nat * nat :=
  (size (curRoute s), size (curSer s), size (curValidator s)).

Fixpoint is_staker_loop (s : stakerState) (address : Address) (ts : list byte) : bool * byte :=
  match ts with
  | [] => (false, x00)
  | t :: ts' =>
      if decide (is_Some (cur_stakes s t !! address)) then (true, t)
      else is_staker_loop s address ts'
  end.
Definition IsStaker (s : stakerState) (address : Address) : bool * byte :=
  is_staker_loop s address StakerTypes.

Definition IsRoute (s : stakerState) (address : Address) : bool :=
  bool_decide (is_Some (cur_stakes s stakerTypeRoute !! address)).
Definition IsSer (s : stakerState) (address : Address) : bool :=
  bool_decide (is_Some (cur_stakes s stakerTypeSer !! address)).
Definition IsValidator (s : stakerState) (address : Address) : bool :=
  bool_decide (is_Some (cur_stakes s stakerTypeValidator !! address)).

Definition GetStakerMeta (s : stakerState) (stakerType : byte) (address : Address) :
    option StakerMeta := cur_stakes s stakerType !! address.

Definition GetStakers `{GoRuntime} (s : stakerState) (stakerType : byte) : list StakerMeta :=
  (map_range (cur_stakes s stakerType)).*2.

(** ** Writing

    The maps are shared by reference, so a write through what the switch
    returned reaches the field. *)

Definition set_pending_stakers (t : byte) (add del : staker_map) (s : stakerState) : stakerState :=
  if decide (t = stakerTypeSer) then
    mkStakerState (curRoute s) (curSer s) (curValidator s)
      (pendingRouteAdd s) add (pendingValidatorAdd s) (pendingRouteDel s) del (pendingValidatorDel s)
  else if decide (t = stakerTypeRoute) then
    mkStakerState (curRoute s) (curSer s) (curValidator s)
      add (pendingSerAdd s) (pendingValidatorAdd s) del (pendingSerDel s) (pendingValidatorDel s)
  else if decide (t = stakerTypeValidator) then
    mkStakerState (curRoute s) (curSer s) (curValidator s)
      (pendingRouteAdd s) (pendingSerAdd s) add (pendingRouteDel s) (pendingSerDel s) del
  else s.

Definition set_cur_stakes (t : byte) (cur : staker_map) (s : stakerState) : stakerState :=
  let set r se v := mkStakerState r se v (pendingRouteAdd s) (pendingSerAdd s)
    (pendingValidatorAdd s) (pendingRouteDel s) (pendingSerDel s) (pendingValidatorDel s) in
  if decide (t = stakerTypeSer) then set (curRoute s) cur (curValidator s)
  else if decide (t = stakerTypeRoute) then set cur (curSer s) (curValidator s)
  else if decide (t = stakerTypeValidator) then set (curRoute s) (curSer s) cur
  else s.

Definition stakers_commit_type (s : stakerState) (t : byte) : stakerState :=
  match GetPendingStakers s t with
  | inr (add, del) =>
      set_pending_stakers t (clear_map add) (clear_map del)
        (set_cur_stakes t (drop_deleted del (merge_pending add (cur_stakes s t))) s)
  | inl _ => s
  end.
Definition CacheStakersCommit (s : stakerState) : stakerState :=
  foldl stakers_commit_type s StakerTypes.

Definition stakers_abort_type (s : stakerState) (t : byte) : stakerState :=
  match GetPendingStakers s t with
  | inr (add, del) => set_pending_stakers t (clear_map add) (clear_map del) s
  | inl _ => s
  end.
Definition CacheStakersAbort (s : stakerState) : stakerState :=
  foldl stakers_abort_type s StakerTypes.

Section stakers.
Context `{Database} `{!Codec StakerMeta}.

Definition PutStaker (staker : StakerMeta) : M (stakerState * DB) unit :=
  let! s := gets fst in
  let t := byte_of_Z (Staker_StakerType staker) in
  match GetPendingStakers s t with
  | inl _ => panics NilMapWrite
  | inr (add, del) =>
      modify (over (set_pending_stakers t
        (<[Staker_StakerAddr staker := staker]> add) (delete (Staker_StakerAddr staker) del) s)) ;;;
      let! pvmeta := lift (Marshal staker) in
      zoom (Put (PrefixStaker4Key t (Staker_StakerAddr staker)) pvmeta)
  end.

Definition DelStaker (stakerType : byte) (address : Address) : M (stakerState * DB) unit :=
  let! s := gets fst in
  match GetPendingStakers s stakerType with
  | inl _ => panics NilMapWrite
  | inr (add, del) =>
      modify (over (set_pending_stakers stakerType
        (delete address add) (<[address := zeroStaker]> del) s)) ;;;
      zoom (Delete (PrefixStaker4Key stakerType address))
  end.

Definition reload_staker_type (t : byte) : M (stakerState * DB) unit := fun '(s, db) =>
  let '(cur, r) :=
    load_all Staker_StakerAddr (db_iter_prefix db (baseStakerPrefix t)) (cur_stakes s t) in
  ((set_cur_stakes t cur s, db), of_result r).
Definition ReloadStakers : M (stakerState * DB) unit := for_each reload_staker_type StakerTypes.

Definition NewStakerState (db : DB) : stakerState * outcome unit :=
  let '((s, _), r) := ReloadStakers (emptyStakerState, db) in (s, r).
End stakers.

(** ** The cache of one type *)

Definition staker_cache (t : byte) (s : stakerState) : cache Address StakerMeta :=
  match GetPendingStakers s t with
  | inr (add, del) => Cache (cur_stakes s t) add del
  | inl _ => Cache ∅ ∅ ∅
  end.

#[local] Opaque drop_deleted merge_pending clear_map.

Lemma StakerTypes_cases t :
  t ∈ StakerTypes -> t = stakerTypeRoute \/ t = stakerTypeSer \/ t = stakerTypeValidator.
Proof. unfold StakerTypes. rewrite !elem_of_cons, elem_of_nil. tauto. Qed.

(** Splits on the type of staker and computes the switches. *)
Ltac staker_type t Ht :=
  apply StakerTypes_cases in Ht; destruct Ht as [->|[->| ->]].

Lemma route_type : stakerTypeRoute ∈ StakerTypes.
Proof. apply list_elem_of_here. Qed.
Lemma ser_type : stakerTypeSer ∈ StakerTypes.
Proof. apply list_elem_of_further, list_elem_of_here. Qed.
Lemma validator_type : stakerTypeValidator ∈ StakerTypes.
Proof. do 2 apply list_elem_of_further. apply list_elem_of_here. Qed.
#[export] Hint Resolve route_type ser_type validator_type : go.

Lemma staker_cache_route s :
  staker_cache stakerTypeRoute s = Cache (curRoute s) (pendingRouteAdd s) (pendingRouteDel s).
Proof. reflexivity. Qed.
Lemma staker_cache_ser s :
  staker_cache stakerTypeSer s = Cache (curSer s) (pendingSerAdd s) (pendingSerDel s).
Proof. reflexivity. Qed.
Lemma staker_cache_validator s :
  staker_cache stakerTypeValidator s =
    Cache (curValidator s) (pendingValidatorAdd s) (pendingValidatorDel s).
Proof. reflexivity. Qed.

Lemma staker_state_eq s s' :
  (forall t, t ∈ StakerTypes -> staker_cache t s = staker_cache t s') -> s = s'.
Proof.
  intros Heq.
  pose proof (Heq stakerTypeRoute route_type) as H1.
  pose proof (Heq stakerTypeSer ser_type) as H2.
  pose proof (Heq stakerTypeValidator validator_type) as H3.
  rewrite !staker_cache_route in H1. rewrite !staker_cache_ser in H2.
  rewrite !staker_cache_validator in H3.
  destruct s, s'. cbn in H1, H2, H3. by simplify_eq.
Qed.

Lemma staker_cache_commit t s :
  t ∈ StakerTypes -> staker_cache t (CacheStakersCommit s) = cache_commit (staker_cache t s).
Proof. intros Ht. staker_type t Ht; reflexivity. Qed.
Lemma staker_cache_abort t s :
  t ∈ StakerTypes -> staker_cache t (CacheStakersAbort s) = cache_abort (staker_cache t s).
Proof. intros Ht. staker_type t Ht; reflexivity. Qed.
Lemma cur_stakes_cache t s : t ∈ StakerTypes -> cur_stakes s t = c_cur (staker_cache t s).
Proof. intros Ht. staker_type t Ht; reflexivity. Qed.

#[export] Instance stakers_two_phase :
  TwoPhase stakerState (staker_map * staker_map * staker_map) := {|
  settled s := (curRoute s, curSer s, curValidator s);
  tp_commit := CacheStakersCommit;
  tp_abort := CacheStakersAbort
|}.
#[export] Instance stakers_two_phase_laws :
  TwoPhaseLaws stakerState (staker_map * staker_map * staker_map).
Proof.
  split; [done|..]; simpl; intros s; apply staker_state_eq; intros t Ht;
    repeat rewrite staker_cache_abort by done; repeat rewrite staker_cache_commit by done;
    repeat rewrite staker_cache_abort by done;
    auto using cache_abort_idemp, cache_commit_idemp, cache_commit_abort.
Qed.

Section staker_facts.
Context `{DatabaseLaws} `{CodecLaws StakerMeta}.
Implicit Types (s : stakerState) (db : DB).

Lemma staker_cache_set t t' add del s :
  t ∈ StakerTypes -> t' ∈ StakerTypes ->
  staker_cache t' (set_pending_stakers t add del s) =
    if decide (t = t') then Cache (cur_stakes s t) add del else staker_cache t' s.
Proof. intros Ht Ht'. staker_type t Ht; staker_type t' Ht'; reflexivity. Qed.

(** What [PutStaker] and [DelStaker] do, branch by branch. *)
Lemma PutStaker_run staker s db :
  let t := byte_of_Z (Staker_StakerType staker) in
  let a := Staker_StakerAddr staker in
  t ∈ StakerTypes ->
  exists s', (forall t', t' ∈ StakerTypes -> staker_cache t' s' =
      if decide (t = t') then cache_put a staker (staker_cache t s) else staker_cache t' s) /\
    PutStaker staker (s, db) =
      match Marshal staker with
      | inr b => ((s', db_set db (PrefixStaker4Key t a) b), Ok tt)
      | inl e => ((s', db), Err e)
      end.
Proof.
  intros t a Ht. unfold PutStaker, gets, bind. cbn [fst]. fold t a.
  destruct (GetPendingStakers s t) as [e|[add del]] eqn:Hp.
  { exfalso. clearbody t. by staker_type t Ht. }
  eexists. split.
  - intros t' Ht'. rewrite staker_cache_set by done. case_decide; [|done].
    unfold staker_cache. rewrite Hp. reflexivity.
  - unfold modify, lift, zoom. simpl. destruct (Marshal staker) as [e|b]; simpl; [done|].
    rewrite Put_run. done.
Qed.

Lemma DelStaker_run t a s db :
  t ∈ StakerTypes ->
  exists s', (forall t', t' ∈ StakerTypes -> staker_cache t' s' =
      if decide (t = t') then cache_del a zeroStaker (staker_cache t s) else staker_cache t' s) /\
    DelStaker t a (s, db) = ((s', db_del db (PrefixStaker4Key t a)), Ok tt).
Proof.
  intros Ht. unfold DelStaker, gets, bind. cbn [fst].
  destruct (GetPendingStakers s t) as [e|[add del]] eqn:Hp.
  { exfalso. by staker_type t Ht. }
  eexists. split.
  - intros t' Ht'. rewrite staker_cache_set by done. case_decide; [|done].
    unfold staker_cache. rewrite Hp. reflexivity.
  - unfold modify, zoom. simpl. rewrite Delete_run. done.
Qed.

(** An unknown staker type is a write to a nil map. *)
Lemma PutStaker_bad_type staker w :
  byte_of_Z (Staker_StakerType staker) ∉ StakerTypes ->
  PutStaker staker w = (w, Panic NilMapWrite).
Proof.
  unfold StakerTypes. rewrite !not_elem_of_cons. intros (Hn1 & Hn2 & Hn3 & _).
  unfold PutStaker, gets, bind, GetPendingStakers. destruct w.
  by rewrite !decide_False.
Qed.

(** *** Database and caches agree *)

Definition stakers_coherent (db : DB) (s : stakerState) : Prop :=
  forall t, t ∈ StakerTypes ->
    coherent (PrefixStaker4Key t) db (cache_view (staker_cache t s)).

(** Every entry sits under its own address and type. *)
Definition stakers_keyed (s : stakerState) : Prop :=
  forall t a m, t ∈ StakerTypes -> cache_view (staker_cache t s) !! a = Some m ->
    Staker_StakerAddr m = a /\ byte_of_Z (Staker_StakerType m) = t.

Lemma staker4_ne t t' a a' : t <> t' -> PrefixStaker4Key t' a' <> PrefixStaker4Key t a.
Proof. unfold PrefixStaker4Key. congruence. Qed.

Lemma PutStaker_coherent staker s db s' db' :
  byte_of_Z (Staker_StakerType staker) ∈ StakerTypes ->
  PutStaker staker (s, db) = ((s', db'), Ok tt) ->
  stakers_coherent db s -> stakers_keyed s -> stakers_coherent db' s' /\ stakers_keyed s'.
Proof.
  intros Ht Hrun Hc Hk. destruct (PutStaker_run staker s db Ht) as (s1 & Hs1 & Heq).
  rewrite Heq in Hrun. destruct (Marshal staker) as [e|b] eqn:Hb; simplify_eq. split.
  - intros t' Ht'. rewrite Hs1 by done. case_decide as Htt.
    + subst t'. rewrite cache_view_put. apply coherent_put; [apply _|done|by apply Hc].
    + apply coherent_frame_set; [intros; by apply staker4_ne|by apply Hc].
  - intros t' a m Ht'. rewrite Hs1 by done. case_decide as Htt; [|by apply Hk].
    subst t'. rewrite cache_view_put, lookup_insert_Some.
    intros [[<- <-]|[_ Hm]]; [done|by apply Hk].
Qed.

Lemma DelStaker_coherent t a s db s' db' :
  t ∈ StakerTypes ->
  DelStaker t a (s, db) = ((s', db'), Ok tt) ->
  stakers_coherent db s -> stakers_keyed s -> stakers_coherent db' s' /\ stakers_keyed s'.
Proof.
  intros Ht Hrun Hc Hk. destruct (DelStaker_run t a s db Ht) as (s1 & Hs1 & Heq).
  rewrite Heq in Hrun. simplify_eq. split.
  - intros t' Ht'. rewrite Hs1 by done. case_decide as Htt.
    + subst t'. rewrite cache_view_del. apply coherent_delete; [apply _|by apply Hc].
    + apply coherent_frame_del; [intros; by apply staker4_ne|by apply Hc].
  - intros t' a' m Ht'. rewrite Hs1 by done. case_decide as Htt; [|by apply Hk].
    subst t'. rewrite cache_view_del, lookup_delete_Some. intros [_ Hm]. by apply Hk.
Qed.

Lemma commit_coherent db s :
  stakers_coherent db s -> stakers_coherent db (CacheStakersCommit s).
Proof.
  intros Hc t Ht. rewrite staker_cache_commit, cache_view_commit by done. by apply Hc.
Qed.

(** *** Restart *)

(** No stake balance hides among the stakers of a type. *)
Definition no_stake_shadow (db : DB) : Prop :=
  forall a t rest, t ∈ StakerTypes -> array a = t :: ByteDelimiter :: rest ->
    db_lookup db (PrefixStakeKey a) = None.

Lemma reload_staker_type_run t s db :
  t ∈ StakerTypes -> cur_stakes s t = ∅ ->
  own_keys (fun k => is_Some (db_lookup db k)) -> no_stake_shadow db ->
  forall m, coherent (PrefixStaker4Key t) db m ->
  (forall a v, m !! a = Some v -> Staker_StakerAddr v = a) ->
  reload_staker_type t (s, db) = ((set_cur_stakes t m s, db), Ok tt).
Proof.
  intros Ht Hcur Hown Hno m Hc Hk. unfold reload_staker_type. rewrite Hcur.
  rewrite (reload_coherent _ (PrefixStaker4Key t) db m); [done|done|done|..].
  - intros a. by exists (array a).
  - intros kb v Hp Hlk. destruct (Hown kb) as (k & _ & ->); [by eexists|].
    destruct (under_stakers t k Hp) as [[a ->]|(a & rest & -> & Ha)]; [by exists a|].
    cbn [render] in Hlk. by rewrite (Hno a t rest Ht Ha) in Hlk.
Qed.

(** After a commit, a restart from the database rebuilds exactly the maps the
    running node holds, as long as no stake balance key falls under a staker
    prefix. *)
Theorem stakers_restart db s :
  own_keys (fun k => is_Some (db_lookup db k)) -> no_stake_shadow db ->
  stakers_coherent db s -> stakers_keyed s ->
  NewStakerState db = (CacheStakersCommit s, Ok tt).
Proof.
  intros Hown Hno Hc Hk. unfold NewStakerState, ReloadStakers, StakerTypes. cbn [for_each].
  assert (forall t s0, t ∈ StakerTypes -> cur_stakes s0 t = ∅ ->
    reload_staker_type t (s0, db) =
      ((set_cur_stakes t (cache_view (staker_cache t s)) s0, db), Ok tt)) as Hr.
  { intros t s0 Ht Hs0. apply reload_staker_type_run; [done..|by apply Hc|].
    intros a v Hv. by eapply Hk. }
  do 3 (erewrite bind_run; [|apply Hr; [auto with go|reflexivity]]).
  unfold ret. f_equal. apply staker_state_eq. intros t Ht.
  rewrite staker_cache_commit, cache_commit_eq by done. by staker_type t Ht.
Qed.
End staker_facts.
