(* ===== verification/Pows.v ===== *)
(** * chain/pow_status.go: proofs of work

    [GetPendingPow] pairs the ser type with the route maps and the other way
    round; [pow_cache t] is the triple a type really uses, so the swap is
    visible in the model and harmless in the theorems. *)

From S2P Require Import Prelude External GoStd PendingCache Instances Keys.

Record ProofMeta := mkProofMeta {
  Proof_Netflow : Z;
  Proof_WorkTime : Z;
  Proof_Miner : Address;
  Proof_TxID : ID;
  Proof_UpdateTime : Z
}.

Record PowMeta := mkPowMeta {
  Pow_PowType : Z;
  Pow_TotalTime : Z;
  Pow_Totalflow : Z;
  Pow_LastUpdateTime : Z;
  Pow_LastUpdateTXID : ID;
  Pow_Miner : Address
}.
#[global] Instance packable_PowMeta : Packable PowMeta :=
  packable_via (fun m => (Pow_PowType m, Pow_TotalTime m, Pow_Totalflow m,
      Pow_LastUpdateTime m, Pow_LastUpdateTXID m, Pow_Miner m))
    (fun '(p, t, f, u, i, a) => mkPowMeta p t f u i a) ltac:(by intros []).

Definition zeroPow : PowMeta := mkPowMeta 0 0 0 0 EmptyID zeroAddress.
Definition powTypes : list byte := [powTypeSer; powTypeRoute].

Abbreviation pow_map := (gmap Address PowMeta).

Record powState := mkPowState {
  pow_updateTime : Z;
  pow_curSer : pow_map;
  pow_curRoute : pow_map;
  pow_pendingRouteAdd : pow_map;
  pow_pendingSerAdd : pow_map;
  pow_pendingRouteDel : pow_map;
  pow_pendingSerDel : pow_map
}.
Definition emptyPowState : powState := mkPowState 0 ∅ ∅ ∅ ∅ ∅ ∅.

Definition GetPendingPow (s : powState) (powType : byte) : result (pow_map * pow_map) :=
  if decide (powType = powTypeSer) then inr (pow_pendingRouteAdd s, pow_pendingRouteDel s)
  else if decide (powType = powTypeRoute) then inr (pow_pendingSerAdd s, pow_pendingSerDel s)
  else inl ErrIDErr.

Definition GetCurPow (s : powState) (powType : byte) : result pow_map :=
  if decide (powType = powTypeSer) then inr (pow_curSer s)
  else if decide (powType = powTypeRoute) then inr (pow_curRoute s)
  else inl ErrIDErr.

Definition cur_pows (s : powState) (t : byte) : pow_map :=
  match GetCurPow s t with inr m => m | inl _ => ∅ end.

Definition GetPowMeta (s : powState) (powType : byte) (address : Address) : option PowMeta :=
  cur_pows s powType !! address.

(** Sums commute, so the order of the map does not matter. *)
Definition TotalPowTime (s : powState) (powType : byte) : Z :=
  map_fold (fun _ pow total => total +u Pow_TotalTime pow) 0 (cur_pows s powType).

Definition GetPows `{GoRuntime} (s : powState) (powType : byte) : list PowMeta :=
  (map_range (cur_pows s powType)).*2.

Definition set_pending_pow (t : byte) (add del : pow_map) (s : powState) : powState :=
  if decide (t = powTypeSer) then
    mkPowState (pow_updateTime s) (pow_curSer s) (pow_curRoute s)
      add (pow_pendingSerAdd s) del (pow_pendingSerDel s)
  else if decide (t = powTypeRoute) then
    mkPowState (pow_updateTime s) (pow_curSer s) (pow_curRoute s)
      (pow_pendingRouteAdd s) add (pow_pendingRouteDel s) del
  else s.

Definition set_cur_pow (t : byte) (cur : pow_map) (s : powState) : powState :=
  if decide (t = powTypeSer) then
    mkPowState (pow_updateTime s) cur (pow_curRoute s)
      (pow_pendingRouteAdd s) (pow_pendingSerAdd s) (pow_pendingRouteDel s) (pow_pendingSerDel s)
  else if decide (t = powTypeRoute) then
    mkPowState (pow_updateTime s) (pow_curSer s) cur
      (pow_pendingRouteAdd s) (pow_pendingSerAdd s) (pow_pendingRouteDel s) (pow_pendingSerDel s)
  else s.

Definition pows_commit_type (s : powState) (t : byte) : powState :=
  match GetPendingPow s t with
  | inr (add, del) =>
      set_pending_pow t (clear_map add) (clear_map del)
        (set_cur_pow t (drop_deleted del (merge_pending add (cur_pows s t))) s)
  | inl _ => s
  end.
Definition CachePowsCommit (s : powState) : powState := foldl pows_commit_type s powTypes.

Definition pows_abort_type (s : powState) (t : byte) : powState :=
  match GetPendingPow s t with
  | inr (add, del) => set_pending_pow t (clear_map add) (clear_map del) s
  | inl _ => s
  end.
Definition CachePowsAbort (s : powState) : powState := foldl pows_abort_type s powTypes.

(** The pending meta with a proof added to it. *)
Definition pow_add (m : PowMeta) (proof : ProofMeta) : PowMeta :=
  mkPowMeta (Pow_PowType m) (Pow_TotalTime m +u Proof_WorkTime proof)
    (Pow_Totalflow m +u Proof_Netflow proof) (Proof_UpdateTime proof) (Proof_TxID proof)
    (Pow_Miner m).
(** The meta of a miner with no pending proof. *)
Definition pow_fresh (powType : byte) (cur : option PowMeta) (proof : ProofMeta) : PowMeta :=
  mkPowMeta (Z_of_byte powType)
    (match cur with Some c => Pow_TotalTime c +u Proof_WorkTime proof | None => Proof_WorkTime proof end)
    (match cur with Some c => Pow_Totalflow c +u Proof_Netflow proof | None => Proof_Netflow proof end)
    (Proof_UpdateTime proof) (Proof_TxID proof) (Proof_Miner proof).

Section pows.
Context `{Database} `{!Codec PowMeta}.

Definition PutPow (powType : byte) (proof : ProofMeta) : M (powState * DB) unit :=
  let k := PrefixPowKey powType (Proof_Miner proof) in
  let! s := gets fst in
  (* [delete(pendingDel, miner)] on the nil maps of an unknown type does nothing *)
  let '(add, del) := match GetPendingPow s powType with inr p => p | inl _ => (∅, ∅) end in
  let del' := delete (Proof_Miner proof) del in
  modify (over (set_pending_pow powType add del' s)) ;;;
  match add !! Proof_Miner proof with
  | Some pendingMeta =>
      let m := pow_add pendingMeta proof in
      modify (over (set_pending_pow powType (<[Proof_Miner proof := m]> add) del' s)) ;;;
      let! pvmeta := lift (Marshal m) in
      zoom (Put k pvmeta)
  | None =>
      let cur := cur_pows s powType !! Proof_Miner proof in
      check (match cur with
             | Some c => bool_decide (Pow_PowType c <> Z_of_byte powType)
             | None => false
             end) (Errorf "pow type err") ;;;
      let m := pow_fresh powType cur proof in
      match GetPendingPow s powType with
      | inl _ => panics NilMapWrite
      | inr _ =>
          modify (over (set_pending_pow powType (<[Proof_Miner proof := m]> add) del' s)) ;;;
          let! pvmeta := lift (Marshal m) in
          zoom (Put k pvmeta)
      end
  end.

Definition DelPow (powType : byte) (address : Address) : M (powState * DB) unit :=
  let! s := gets fst in
  match GetPendingPow s powType with
  | inl _ => panics NilMapWrite
  | inr (add, del) =>
      modify (over (set_pending_pow powType (delete address add) (<[address := zeroPow]> del) s)) ;;;
      zoom (Delete (PrefixPowKey powType address))
  end.

Definition reload_pow_type (t : byte) : M (powState * DB) unit := fun '(s, db) =>
  let '(cur, r) := load_all Pow_Miner (db_iter_prefix db (basePowPrefix t)) (cur_pows s t) in
  ((set_cur_pow t cur s, db), of_result r).
Definition ReloadPows : M (powState * DB) unit := for_each reload_pow_type powTypes.

Definition NewPowState (db : DB) : powState * outcome unit :=
  let '((s, _), r) := ReloadPows (emptyPowState, db) in (s, r).
End pows.

(** ** The cache of one type *)

Definition pow_cache (t : byte) (s : powState) : cache Address PowMeta :=
  match GetPendingPow s t with
  | inr (add, del) => Cache (cur_pows s t) add del
  | inl _ => Cache ∅ ∅ ∅
  end.

#[local] Opaque drop_deleted merge_pending clear_map.

Lemma ser_pow_type : powTypeSer ∈ powTypes.
Proof. apply list_elem_of_here. Qed.
Lemma route_pow_type : powTypeRoute ∈ powTypes.
Proof. apply list_elem_of_further, list_elem_of_here. Qed.
#[export] Hint Resolve ser_pow_type route_pow_type : go.

Lemma powTypes_cases t : t ∈ powTypes -> t = powTypeSer \/ t = powTypeRoute.
Proof. unfold powTypes. rewrite !elem_of_cons, elem_of_nil. tauto. Qed.
Ltac pow_type t Ht := apply powTypes_cases in Ht; destruct Ht as [-> | ->].

Lemma pow_cache_ser s :
  pow_cache powTypeSer s = Cache (pow_curSer s) (pow_pendingRouteAdd s) (pow_pendingRouteDel s).
Proof. reflexivity. Qed.
Lemma pow_cache_route s :
  pow_cache powTypeRoute s = Cache (pow_curRoute s) (pow_pendingSerAdd s) (pow_pendingSerDel s).
Proof. reflexivity. Qed.

Lemma pow_state_eq s s' :
  pow_updateTime s = pow_updateTime s' ->
  (forall t, t ∈ powTypes -> pow_cache t s = pow_cache t s') -> s = s'.
Proof.
  intros Hu Heq. pose proof (Heq _ ser_pow_type) as Hs. pose proof (Heq _ route_pow_type) as Hr.
  rewrite !pow_cache_ser in Hs. rewrite !pow_cache_route in Hr.
  destruct s, s'. cbn in *. by simplify_eq.
Qed.

Lemma pow_cache_commit t s :
  t ∈ powTypes -> pow_cache t (CachePowsCommit s) = cache_commit (pow_cache t s).
Proof. intros Ht. pow_type t Ht; reflexivity. Qed.
Lemma pow_cache_abort t s :
  t ∈ powTypes -> pow_cache t (CachePowsAbort s) = cache_abort (pow_cache t s).
Proof. intros Ht. pow_type t Ht; reflexivity. Qed.
Lemma cur_pows_cache t s : t ∈ powTypes -> cur_pows s t = c_cur (pow_cache t s).
Proof. intros Ht. pow_type t Ht; reflexivity. Qed.
Lemma pow_pending t s :
  t ∈ powTypes -> GetPendingPow s t = inr (c_add (pow_cache t s), c_del (pow_cache t s)).
Proof. intros Ht. pow_type t Ht; reflexivity. Qed.
Lemma pow_cache_set t t' add del s :
  t ∈ powTypes -> t' ∈ powTypes ->
  pow_cache t' (set_pending_pow t add del s) =
    if decide (t = t') then Cache (cur_pows s t) add del else pow_cache t' s.
Proof. intros Ht Ht'. pow_type t Ht; pow_type t' Ht'; reflexivity. Qed.
Lemma pow_set_set t add del add' del' s :
  set_pending_pow t add del (set_pending_pow t add' del' s) = set_pending_pow t add del s.
Proof. unfold set_pending_pow. by repeat case_decide. Qed.

#[export] Instance pows_two_phase : TwoPhase powState (pow_map * pow_map) := {|
  settled s := (pow_curSer s, pow_curRoute s);
  tp_commit := CachePowsCommit;
  tp_abort := CachePowsAbort
|}.
#[export] Instance pows_two_phase_laws : TwoPhaseLaws powState (pow_map * pow_map).
Proof.
  split; [done|..]; simpl; intros s; (apply pow_state_eq; [done|]); intros t Ht;
    repeat rewrite pow_cache_abort by done; repeat rewrite pow_cache_commit by done;
    repeat rewrite pow_cache_abort by done;
    auto using cache_abort_idemp, cache_commit_idemp, cache_commit_abort.
Qed.

Section pow_facts.
Context `{DatabaseLaws} `{CodecLaws PowMeta}.
Implicit Types (s : powState) (db : DB).

(** What a miner is credited with before a proof: the pending total, or else
    the committed one (also when its deletion is pending). *)
Definition pow_before (t : byte) (a : Address) s : option PowMeta :=
  match c_add (pow_cache t s) !! a with
  | Some m => Some m
  | None => c_cur (pow_cache t s) !! a
  end.
Definition pow_after (t : byte) (proof : ProofMeta) s : PowMeta :=
  match c_add (pow_cache t s) !! Proof_Miner proof with
  | Some m => pow_add m proof
  | None => pow_fresh t (c_cur (pow_cache t s) !! Proof_Miner proof) proof
  end.

(** The committed metas carry the type they are filed under. *)
Definition pow_typed s : Prop :=
  forall t a m, t ∈ powTypes -> c_cur (pow_cache t s) !! a = Some m -> Pow_PowType m = Z_of_byte t.

Lemma PutPow_run t proof s db :
  t ∈ powTypes -> pow_typed s ->
  exists s', pow_updateTime s' = pow_updateTime s /\
    (forall t', t' ∈ powTypes -> pow_cache t' s' =
      if decide (t = t') then cache_put (Proof_Miner proof) (pow_after t proof s) (pow_cache t s)
      else pow_cache t' s) /\
    PutPow t proof (s, db) =
      match Marshal (pow_after t proof s) with
      | inr b => ((s', db_set db (PrefixPowKey t (Proof_Miner proof)) b), Ok tt)
      | inl e => ((s', db), Err e)
      end.
Proof.
  intros Ht Hty.
  exists (set_pending_pow t (<[Proof_Miner proof := pow_after t proof s]> (c_add (pow_cache t s)))
    (delete (Proof_Miner proof) (c_del (pow_cache t s))) s).
  split; [unfold set_pending_pow; by repeat case_decide|]. split.
  { intros t' Ht'. rewrite pow_cache_set by done. case_decide; [|done].
    by rewrite cur_pows_cache. }
  unfold PutPow, pow_after, gets, bind, modify. cbn [fst over lens_fst].
  rewrite pow_pending by done. cbn [fst snd].
  destruct (c_add (pow_cache t s) !! Proof_Miner proof) as [m|].
  - unfold lift. destruct (Marshal _) as [e|b]; simpl; [done|].
    unfold zoom; simpl. by rewrite Put_run.
  - rewrite cur_pows_cache by done.
    destruct (c_cur (pow_cache t s) !! Proof_Miner proof) as [c|] eqn:Hc.
    + rewrite bool_decide_eq_false_2 by (intros Hn; by apply Hn, (Hty t (Proof_Miner proof))).
      cbn [check]. unfold check, ret, lift. destruct (Marshal _) as [e|b]; simpl; [done|].
      unfold zoom; simpl. by rewrite Put_run.
    + unfold check, ret, lift. destruct (Marshal _) as [e|b]; simpl; [done|].
      unfold zoom; simpl. by rewrite Put_run.
Qed.

(** A proof adds its flow and work time, with wrap-around, to what the miner
    already had. *)
Lemma pow_after_totals t proof s :
  is_u64 (Proof_WorkTime proof) -> is_u64 (Proof_Netflow proof) ->
  let before f := match pow_before t (Proof_Miner proof) s with Some m => f m | None => 0 end in
  Pow_TotalTime (pow_after t proof s) = before Pow_TotalTime +u Proof_WorkTime proof /\
  Pow_Totalflow (pow_after t proof s) = before Pow_Totalflow +u Proof_Netflow proof.
Proof.
  intros Hw Hn. unfold pow_after, pow_before.
  destruct (c_add (pow_cache t s) !! Proof_Miner proof) as [m|]; [done|].
  destruct (c_cur (pow_cache t s) !! Proof_Miner proof) as [m|]; [done|].
  simpl. by rewrite !u64_small.
Qed.

Definition pows_coherent (db : DB) (s : powState) : Prop :=
  forall t, t ∈ powTypes -> coherent (PrefixPowKey t) db (cache_view (pow_cache t s)).
Definition pows_keyed (s : powState) : Prop :=
  forall t a m, t ∈ powTypes ->
    (c_add (pow_cache t s) !! a = Some m \/ c_cur (pow_cache t s) !! a = Some m) ->
    Pow_Miner m = a /\ Pow_PowType m = Z_of_byte t.

Lemma pows_keyed_typed s : pows_keyed s -> pow_typed s.
Proof. intros Hk t a m Ht Hm. eapply Hk; eauto. Qed.
Lemma pows_keyed_view t s a m :
  pows_keyed s -> t ∈ powTypes -> cache_view (pow_cache t s) !! a = Some m -> Pow_Miner m = a.
Proof.
  intros Hk Ht. rewrite lookup_cache_view. repeat case_match; intros Hm; simplify_eq;
    eapply (Hk t); eauto.
Qed.

Lemma pow_key_ne t t' a a' : t <> t' -> PrefixPowKey t' a' <> PrefixPowKey t a.
Proof. unfold PrefixPowKey. congruence. Qed.

Lemma pow_after_keyed t proof s :
  t ∈ powTypes -> pows_keyed s ->
  Pow_Miner (pow_after t proof s) = Proof_Miner proof /\
  Pow_PowType (pow_after t proof s) = Z_of_byte t.
Proof.
  intros Ht Hk. unfold pow_after.
  destruct (c_add (pow_cache t s) !! Proof_Miner proof) as [m|] eqn:Hm; [|done].
  simpl. eapply (Hk t); eauto.
Qed.

(** A recorded proof of a known type never fails in the caches, accumulates
    modulo 2^64, and keeps the caches coherent with the database. *)
Theorem PutPow_accumulates t proof s db b :
  t ∈ powTypes -> pows_keyed s -> pows_coherent db s ->
  is_u64 (Proof_WorkTime proof) -> is_u64 (Proof_Netflow proof) ->
  Marshal (pow_after t proof s) = inr b ->
  exists s' db' m, PutPow t proof (s, db) = ((s', db'), Ok tt) /\
    pows_keyed s' /\ pows_coherent db' s' /\
    cache_view (pow_cache t s') = <[Proof_Miner proof := m]> (cache_view (pow_cache t s)) /\
    let before f := match pow_before t (Proof_Miner proof) s with Some p => f p | None => 0 end in
    Pow_TotalTime m = before Pow_TotalTime +u Proof_WorkTime proof /\
    Pow_Totalflow m = before Pow_Totalflow +u Proof_Netflow proof /\
    Pow_LastUpdateTime m = Proof_UpdateTime proof /\ Pow_LastUpdateTXID m = Proof_TxID proof.
Proof.
  intros Ht Hk Hc Hw Hn Hb.
  destruct (PutPow_run t proof s db Ht (pows_keyed_typed _ Hk)) as (s' & Hu & Hs' & Hrun).
  rewrite Hb in Hrun. do 2 eexists. exists (pow_after t proof s).
  split_and!; [exact Hrun|..].
  - intros t' a m Ht'. rewrite Hs' by done. case_decide; [|by apply Hk]. subst t'.
    cbn. rewrite lookup_insert_Some. intros [[[<- <-]|[_ Hm]]|Hm].
    + by apply pow_after_keyed.
    + eapply Hk; eauto.
    + eapply Hk; eauto.
  - intros t' Ht'. rewrite Hs' by done. case_decide.
    + subst t'. rewrite cache_view_put. apply coherent_put; [apply _|done|by apply Hc].
    + apply coherent_frame_set; [intros; by apply pow_key_ne|by apply Hc].
  - rewrite Hs', decide_True by done. apply cache_view_put.
  - destruct (pow_after_totals t proof s Hw Hn) as [Htime Hflow]. intros before.
    split; [exact Htime|split; [exact Hflow|]]. unfold pow_after.
    by destruct (c_add (pow_cache t s) !! Proof_Miner proof).
Qed.

(** After a commit a restart rebuilds the proofs of both types. *)
Lemma reload_pow_type_run t s db m :
  t ∈ powTypes -> cur_pows s t = ∅ ->
  own_keys (fun k => is_Some (db_lookup db k)) -> coherent (PrefixPowKey t) db m ->
  (forall a v, m !! a = Some v -> Pow_Miner v = a) ->
  reload_pow_type t (s, db) = ((set_cur_pow t m s, db), Ok tt).
Proof.
  intros Ht Hcur Hown Hc Hk. unfold reload_pow_type. rewrite Hcur.
  rewrite (reload_coherent _ (PrefixPowKey t) db m); [done|done|done|..].
  - intros a. by exists (array a).
  - intros kb v Hp Hlk. destruct (Hown kb) as (k & _ & ->); [by eexists|].
    destruct (under_pows t k Hp) as [a ->]. by exists a.
Qed.

Theorem pows_restart db s :
  own_keys (fun k => is_Some (db_lookup db k)) -> pows_coherent db s -> pows_keyed s ->
  pow_updateTime s = 0 -> NewPowState db = (CachePowsCommit s, Ok tt).
Proof.
  intros Hown Hc Hk Hu. unfold NewPowState, ReloadPows, powTypes. cbn [for_each].
  assert (forall t s0, t ∈ powTypes -> cur_pows s0 t = ∅ ->
    reload_pow_type t (s0, db) = ((set_cur_pow t (cache_view (pow_cache t s)) s0, db), Ok tt)) as Hr.
  { intros t s0 Ht Hs0. apply reload_pow_type_run; [done..|by apply Hc|].
    intros a v Hv. by eapply pows_keyed_view. }
  do 2 (erewrite bind_run; [|apply Hr; [auto with go|reflexivity]]).
  unfold ret. f_equal. apply pow_state_eq; [by symmetry|]. intros t Ht.
  rewrite pow_cache_commit, cache_commit_eq by done. by pow_type t Ht.
Qed.
End pow_facts.
