(* ===== verification/Rewards.v ===== *)
(** * chain/reward_status.go and chain/yields_status.go *)

From S2P Require Import Prelude External GoStd PendingCache Instances Keys.

Record RewardGlobal := mkRewardGlobal {
  Global_LastOprTime : Z;
  Global_LastOprTXID : ID
}.
Record RewardMeta := mkRewardMeta {
  Reward_YieldReward : Z;
  Reward_BaseReward : Z;
  Reward_MeritReward : Z;
  Reward_LastOprTime : Z;
  Reward_LastOprTXID : ID;
  Reward_LastClaimTime : Z;
  Reward_LastClaimTXID : ID;
  Reward_RewardAddr : Address
}.
Record YieldMeta := mkYieldMeta {
  Yield_Total : Z;
  Yield_Undistributed : Z;
  Yield_LastOprTime : Z;
  Yield_LastOprTXID : ID
}.
#[global] Instance packable_RewardGlobal : Packable RewardGlobal :=
  packable_via (fun m => (Global_LastOprTime m, Global_LastOprTXID m))
    (fun '(t, i) => mkRewardGlobal t i) ltac:(by intros []).
#[global] Instance packable_RewardMeta : Packable RewardMeta :=
  packable_via (fun m => (Reward_YieldReward m, Reward_BaseReward m, Reward_MeritReward m,
      Reward_LastOprTime m, Reward_LastOprTXID m, Reward_LastClaimTime m,
      Reward_LastClaimTXID m, Reward_RewardAddr m))
    (fun '(y, b, m, t, i, c, j, a) => mkRewardMeta y b m t i c j a) ltac:(by intros []).
#[global] Instance packable_YieldMeta : Packable YieldMeta :=
  packable_via (fun m => (Yield_Total m, Yield_Undistributed m, Yield_LastOprTime m,
      Yield_LastOprTXID m))
    (fun '(t, u, l, i) => mkYieldMeta t u l i) ltac:(by intros []).

(** ** Rewards *)

Definition zeroGlobal : RewardGlobal := mkRewardGlobal 0 EmptyID.
Definition zeroReward : RewardMeta := mkRewardMeta 0 0 0 0 EmptyID 0 EmptyID zeroAddress.

Record rewardState := mkRewardState {
  curGlobal : RewardGlobal;
  pendigGlobal : RewardGlobal;
  curRewards : gmap Address RewardMeta;
  pendingRewardsAdd : gmap Address RewardMeta;
  pendingRewardsDel : gmap Address RewardMeta
}.
Definition emptyRewardState : rewardState := mkRewardState zeroGlobal zeroGlobal ∅ ∅ ∅.

Definition GetLastUpdateTime (r : rewardState) : Z :=
  if Global_LastOprTime (curGlobal r) <? Global_LastOprTime (pendigGlobal r)
  then Global_LastOprTime (pendigGlobal r)
  else Global_LastOprTime (curGlobal r).

Definition GetLastClaimTime (r : rewardState) (address : Address) : Z :=
  match curRewards r !! address with Some m => Reward_LastClaimTime m | None => 0 end.

Definition GetRewardMeta (r : rewardState) (address : Address) : option RewardMeta :=
  curRewards r !! address.

Definition GetRewards `{GoRuntime} (r : rewardState) : list RewardMeta :=
  (map_range (curRewards r)).*2.

Definition set_pending_rewards (add del : gmap Address RewardMeta) (r : rewardState) : rewardState :=
  mkRewardState (curGlobal r) (pendigGlobal r) (curRewards r) add del.

Section rewards.
Context `{Database} `{!Codec RewardMeta} `{!Codec RewardGlobal}.

Definition UpdateOwner (pmeta : RewardMeta) : M (rewardState * DB) unit :=
  let address := Reward_RewardAddr pmeta in
  modify (fun '(r, db) => (set_pending_rewards (<[address := pmeta]> (pendingRewardsAdd r))
    (delete address (pendingRewardsDel r)) r, db)) ;;;
  let! pvmeta := lift (Marshal pmeta) in
  zoom (Put (PrefixRewardKey address) pvmeta).

(** Only the database is written: [pendigGlobal] keeps its value. *)
Definition UpdateGlobal (pG : RewardGlobal) : M (rewardState * DB) unit :=
  let! pvG := lift (Marshal pG) in zoom (Put RewardGlobalPrefix pvG).

Definition UpdateReward (pG : RewardGlobal) (pmeta : RewardMeta) : M (rewardState * DB) unit :=
  UpdateOwner pmeta ;;;
  let! pvG := lift (Marshal pG) in zoom (Put RewardGlobalPrefix pvG).

Definition DelReward (address : Address) : M (rewardState * DB) unit :=
  modify (fun '(r, db) => (set_pending_rewards (delete address (pendingRewardsAdd r))
    (<[address := zeroReward]> (pendingRewardsDel r)) r, db)) ;;;
  zoom (Delete (PrefixRewardKey address)).

Definition ReloadRewards : M (rewardState * DB) unit := fun '(r, db) =>
  let '(cur, res) :=
    load_all Reward_RewardAddr (db_iter_prefix db baseRewardPrefix) (curRewards r) in
  let r' := mkRewardState (curGlobal r) (pendigGlobal r) cur
    (pendingRewardsAdd r) (pendingRewardsDel r) in
  match res with
  | inl e => ((r', db), Err e)
  | inr _ =>
      match db_get db RewardGlobalPrefix with
      | inl e => if decide (e = ErrNotFound) then ((r', db), Ok tt) else ((r', db), Err e)
      | inr ymeta =>
          match Unmarshal ymeta with
          | inl e => ((r', db), Err e)
          | inr g => ((mkRewardState g (pendigGlobal r') (curRewards r')
                        (pendingRewardsAdd r') (pendingRewardsDel r'), db), Ok tt)
          end
      end
  end.

Definition NewRewardState (db : DB) : rewardState * outcome unit :=
  let '((r, _), res) := ReloadRewards (emptyRewardState, db) in (r, res).
End rewards.

Definition CacheRewardsCommit (r : rewardState) : rewardState :=
  let cur := drop_deleted (pendingRewardsDel r)
    (merge_pending (pendingRewardsAdd r) (curRewards r)) in
  let add := clear_map (pendingRewardsAdd r) in
  let del := clear_map (pendingRewardsDel r) in
  if negb (Global_LastOprTime (pendigGlobal r) =? 0)
  then mkRewardState (pendigGlobal r) (mkRewardGlobal 0 EmptyID) cur add del
  else mkRewardState (curGlobal r) (pendigGlobal r) cur add del.

Definition CacheRewardsAbort (r : rewardState) : rewardState :=
  mkRewardState (curGlobal r) (mkRewardGlobal 0 EmptyID) (curRewards r)
    (clear_map (pendingRewardsAdd r)) (clear_map (pendingRewardsDel r)).

Definition reward_cache (r : rewardState) : cache Address RewardMeta :=
  Cache (curRewards r) (pendingRewardsAdd r) (pendingRewardsDel r).

Lemma reward_state_eq r r' :
  curGlobal r = curGlobal r' -> pendigGlobal r = pendigGlobal r' ->
  reward_cache r = reward_cache r' -> r = r'.
Proof. destruct r, r'; unfold reward_cache; simpl. by intros -> -> [= -> -> ->]. Qed.
Lemma reward_cache_commit r : reward_cache (CacheRewardsCommit r) = cache_commit (reward_cache r).
Proof. unfold CacheRewardsCommit. by case_match. Qed.
Lemma reward_cache_abort r : reward_cache (CacheRewardsAbort r) = cache_abort (reward_cache r).
Proof. done. Qed.

#[export] Instance rewards_two_phase : TwoPhase rewardState (RewardGlobal * gmap Address RewardMeta) := {|
  settled r := (curGlobal r, curRewards r);
  tp_commit := CacheRewardsCommit;
  tp_abort := CacheRewardsAbort
|}.
#[export] Instance rewards_two_phase_laws :
  TwoPhaseLaws rewardState (RewardGlobal * gmap Address RewardMeta).
Proof.
  split; [done|..]; simpl; intros r; apply reward_state_eq; try done.
  - rewrite !reward_cache_abort. apply cache_abort_idemp.
  - unfold CacheRewardsCommit. destruct (Z.eqb_spec (Global_LastOprTime (pendigGlobal r)) 0) as [He|He];
      simpl; [|done]. by rewrite He.
  - unfold CacheRewardsCommit. destruct (Z.eqb_spec (Global_LastOprTime (pendigGlobal r)) 0) as [He|He];
      simpl; [|done]. by rewrite He.
  - rewrite !reward_cache_commit. apply cache_commit_idemp.
  - rewrite reward_cache_commit, !reward_cache_abort. apply cache_commit_abort.
Qed.

Section reward_facts.
Context `{DatabaseLaws} `{CodecLaws RewardMeta} `{CodecLaws RewardGlobal}.
Implicit Types (r : rewardState) (db : DB).

Lemma UpdateOwner_run m r db :
  exists r', reward_cache r' = cache_put (Reward_RewardAddr m) m (reward_cache r) /\
    curGlobal r' = curGlobal r /\ pendigGlobal r' = pendigGlobal r /\
    UpdateOwner m (r, db) =
      match Marshal m with
      | inr b => ((r', db_set db (PrefixRewardKey (Reward_RewardAddr m)) b), Ok tt)
      | inl e => ((r', db), Err e)
      end.
Proof.
  eexists. split_and!; [..|].
  4: { unfold UpdateOwner, modify, bind, lift, zoom. simpl.
       destruct (Marshal m) as [e|b]; simpl; [reflexivity|]. rewrite Put_run. reflexivity. }
  all: done.
Qed.

Lemma UpdateGlobal_run g r db :
  UpdateGlobal g (r, db) =
    match Marshal g with
    | inr b => ((r, db_set db RewardGlobalPrefix b), Ok tt)
    | inl e => ((r, db), Err e)
    end.
Proof.
  unfold UpdateGlobal, bind, lift, zoom. destruct (Marshal g) as [e|b]; simpl; [done|].
  by rewrite Put_run.
Qed.

Definition rewards_coherent (db : DB) (r : rewardState) : Prop :=
  coherent PrefixRewardKey db (cache_view (reward_cache r)).
Definition rewards_keyed (r : rewardState) : Prop :=
  forall a m, cache_view (reward_cache r) !! a = Some m -> Reward_RewardAddr m = a.
(** The database holds the global record the node will have once committed. *)
Definition global_coherent (db : DB) (g : RewardGlobal) : Prop :=
  match db_lookup db RewardGlobalPrefix with
  | Some b => Marshal g = inr b
  | None => g = zeroGlobal
  end.

Lemma reward_global_ne a : PrefixRewardKey a <> RewardGlobalPrefix.
Proof. key_ne. Qed.

Lemma UpdateOwner_coherent m r db r' db' :
  UpdateOwner m (r, db) = ((r', db'), Ok tt) ->
  rewards_coherent db r -> rewards_keyed r -> rewards_coherent db' r' /\ rewards_keyed r'.
Proof.
  intros Hrun Hc Hk. destruct (UpdateOwner_run m r db) as (r1 & Hr1 & _ & _ & Heq).
  rewrite Heq in Hrun. destruct (Marshal m) as [e|b] eqn:Hb; simplify_eq.
  unfold rewards_coherent, rewards_keyed. rewrite Hr1, cache_view_put. split.
  - apply coherent_put; [apply _|done..].
  - intros a m'. rewrite lookup_insert_Some. intros [[<- <-]|[_ Hm]]; [done|by apply Hk].
Qed.

(** After a commit a restart rebuilds the rewards; the global record it finds
    is the one last written to the database. *)
Theorem rewards_restart db r g :
  own_keys (fun k => is_Some (db_lookup db k)) -> rewards_coherent db r -> rewards_keyed r ->
  global_coherent db g -> 0 <= Global_LastOprTime g ->
  exists r', NewRewardState db = (r', Ok tt) /\
    curRewards r' = curRewards (CacheRewardsCommit r) /\
    pendingRewardsAdd r' = ∅ /\ pendingRewardsDel r' = ∅ /\
    GetLastUpdateTime r' = Global_LastOprTime g.
Proof.
  intros Hown Hc Hk Hg H0g. unfold NewRewardState, ReloadRewards. cbn [emptyRewardState curRewards].
  rewrite (reload_coherent Reward_RewardAddr PrefixRewardKey db (cache_view (reward_cache r)));
    [|done|done|..].
  - rewrite db_get_lookup. unfold global_coherent in Hg.
    assert (curRewards (CacheRewardsCommit r) = cache_view (reward_cache r)) as Hcur.
    { transitivity (c_cur (reward_cache (CacheRewardsCommit r))); [done|].
      by rewrite reward_cache_commit, cache_commit_eq. }
    destruct (db_lookup db RewardGlobalPrefix) as [b|].
    + rewrite (Unmarshal_Marshal _ _ Hg). eexists. split; [done|]. rewrite Hcur.
      split_and!; [done..|]. unfold GetLastUpdateTime; cbn. repeat case_match; lia.
    + rewrite decide_True by done. eexists. split; [done|]. rewrite Hcur. by subst g.
  - intros a. by exists (array a).
  - intros kb v Hp Hlk. destruct (Hown kb) as (k & _ & ->); [by eexists|].
    destruct (under_rewards k Hp) as [a ->]. by exists a.
Qed.

(** The time of the last distribution goes to the database only: the running
    node keeps answering the old time, also after a commit, until it is
    restarted. *)
Theorem UpdateGlobal_invisible g r db b :
  Marshal g = inr b -> Global_LastOprTime (pendigGlobal r) = 0 ->
  0 <= Global_LastOprTime (curGlobal r) ->
  exists r' db', UpdateGlobal g (r, db) = ((r', db'), Ok tt) /\
    db_lookup db' RewardGlobalPrefix = Some b /\
    GetLastUpdateTime r' = GetLastUpdateTime r /\
    GetLastUpdateTime (CacheRewardsCommit r') = GetLastUpdateTime r.
Proof.
  intros Hb Hp Hc. exists r. eexists. rewrite UpdateGlobal_run, Hb.
  split_and!; [done|by rewrite lookup_set_eq|done|].
  unfold CacheRewardsCommit. rewrite Hp. simpl. unfold GetLastUpdateTime. simpl. by rewrite Hp.
Qed.
End reward_facts.

(** ** Yields *)

Record yieldsState := mkYieldsState {
  curYields : YieldMeta;
  pendingYields : YieldMeta
}.
Definition emptyYieldsState : yieldsState :=
  mkYieldsState (mkYieldMeta 0 0 0 EmptyID) (mkYieldMeta 0 0 0 EmptyID).

Definition GetChainYields (y : yieldsState) : Z := Yield_Total (curYields y).

Section yields.
Context `{Database} `{!Codec YieldMeta}.

Definition ModifyYields (yield : Z) (txID : ID) (blkTime : Z) : M (yieldsState * DB) unit :=
  let! y := gets fst in
  let m := mkYieldMeta (Yield_Total (curYields y) +u yield)
    (if yield =? 0 then 0 else Yield_Undistributed (curYields y) +u yield) blkTime txID in
  modify (over (mkYieldsState (curYields y) m)) ;;;
  let! pvmeta := lift (Marshal m) in
  zoom (Put PrefixYieldsKey pvmeta).

Definition ReloadYields : M (yieldsState * DB) unit :=
  let! ymeta := zoom (Get PrefixYieldsKey) in
  let! m := lift (Unmarshal ymeta) in
  modify (fun '(y, db) => (mkYieldsState m (pendingYields y), db)).

Definition NewYieldsState (db : DB) : yieldsState * outcome unit :=
  match ReloadYields (emptyYieldsState, db) with
  | ((y, _), Err e) => (y, if decide (e = ErrNotFound) then Ok tt else Err e)
  | ((y, _), r) => (y, r)
  end.
End yields.

Definition yield_zero_total (m : YieldMeta) : YieldMeta :=
  mkYieldMeta 0 (Yield_Undistributed m) (Yield_LastOprTime m) (Yield_LastOprTXID m).
Definition CacheYieldsCommit (y : yieldsState) : yieldsState :=
  if negb (Yield_Total (pendingYields y) =? 0)
  then mkYieldsState (pendingYields y) (yield_zero_total (pendingYields y)) else y.
Definition CacheYieldsAbort (y : yieldsState) : yieldsState :=
  mkYieldsState (curYields y) (yield_zero_total (pendingYields y)).

#[export] Instance yields_two_phase : TwoPhase yieldsState YieldMeta := {|
  settled := curYields;
  tp_commit := CacheYieldsCommit;
  tp_abort := CacheYieldsAbort
|}.
#[export] Instance yields_two_phase_laws : TwoPhaseLaws yieldsState YieldMeta.
Proof.
  split; try done; simpl; intros y; unfold CacheYieldsCommit.
  destruct (Yield_Total (pendingYields y) =? 0) eqn:He; simpl; by rewrite ?He.
Qed.

Section yield_facts.
Context `{DatabaseLaws} `{CodecLaws YieldMeta}.

Lemma ModifyYields_run yield txID t y db :
  let m := mkYieldMeta (Yield_Total (curYields y) +u yield)
    (if yield =? 0 then 0 else Yield_Undistributed (curYields y) +u yield) t txID in
  ModifyYields yield txID t (y, db) =
    match Marshal m with
    | inr b => ((mkYieldsState (curYields y) m, db_set db PrefixYieldsKey b), Ok tt)
    | inl e => ((mkYieldsState (curYields y) m, db), Err e)
    end.
Proof.
  unfold ModifyYields, gets, modify, bind, lift, zoom. simpl.
  destruct (Marshal _) as [e|b]; simpl; [done|]. by rewrite Put_run.
Qed.

(** Two payments in one block: only the second one reaches the yields, in the
    cache and in the database. *)
Theorem yields_last_payment_wins yield1 yield2 tx1 tx2 t y db :
  (forall m : YieldMeta, exists b, Marshal m = inr b) ->
  is_u64 (Yield_Total (curYields y)) -> is_u64 yield2 ->
  0 < Yield_Total (curYields y) + yield2 < 2 ^ 64 ->
  exists y' db', (ModifyYields yield1 tx1 t ;;; ModifyYields yield2 tx2 t) (y, db) =
      ((y', db'), Ok tt) /\
    GetChainYields (CacheYieldsCommit y') = GetChainYields y + yield2 /\
    NewYieldsState db' = (mkYieldsState (curYields (CacheYieldsCommit y'))
      (mkYieldMeta 0 0 0 EmptyID), Ok tt).
Proof.
  intros HM Hy Hy2 Hsum.
  destruct (HM (mkYieldMeta (Yield_Total (curYields y) +u yield1)
    (if yield1 =? 0 then 0 else Yield_Undistributed (curYields y) +u yield1) t tx1)) as [b1 Hb1].
  set (m2 := mkYieldMeta (Yield_Total (curYields y) +u yield2)
    (if yield2 =? 0 then 0 else Yield_Undistributed (curYields y) +u yield2) t tx2).
  destruct (HM m2) as [b2 Hb2].
  assert (Yield_Total m2 = Yield_Total (curYields y) + yield2) as Htot by
    (unfold m2; cbn [Yield_Total]; rewrite u64_small by (unfold is_u64 in *; lia); done).
  exists (mkYieldsState (curYields y) m2). eexists. split; [|split].
  - unfold bind. rewrite ModifyYields_run, Hb1. rewrite ModifyYields_run. cbn [curYields].
    fold m2. by rewrite Hb2.
  - unfold CacheYieldsCommit. cbn [pendingYields].
    destruct (Z.eqb_spec (Yield_Total m2) 0); [lia|]. exact Htot.
  - unfold NewYieldsState, ReloadYields, zoom, bind, lift. cbn [view lens_snd snd].
    rewrite Get_run, lookup_set_eq. cbn [of_result]. rewrite (Unmarshal_Marshal _ _ Hb2). simpl.
    unfold CacheYieldsCommit. cbn [pendingYields].
    by destruct (Z.eqb_spec (Yield_Total m2) 0); [lia|].
Qed.
End yield_facts.
