(* ===== verification/Actions.v ===== *)
(** * chain/action_status.go: governance actions

    The maps hold pointers to [ActionMeta] and one transaction writes through
    such a pointer, so the state carries the store of the metas it points to:
    [cur_meta] and [view_meta] read through it. *)

From S2P Require Import Prelude External GoStd PendingCache Instances Keys.

Definition actionTypeStart : Z := 0.
Definition actionTypeAddStaker : Z := 1.
Definition actionTypeModifySysParam : Z := 2.
Definition actionTypeAddUserType : Z := 3.
Definition actionTypeModifyUserType : Z := 4.
Definition actionTypeModifyFoundation : Z := 5.
Definition actionTypeEnd : Z := 6.

Record ActionMeta := mkActionMeta {
  Action_ActionID : ShortID;
  Action_ActionType : Z;
  Action_StartTime : Z;
  Action_EndTime : Z;
  Action_TxIDs : list ID;
  Action_Voters : list Address;
  Action_Key : string;
  Action_NewValue : string
}.
#[global] Instance packable_ActionMeta : Packable ActionMeta :=
  packable_via (fun m => (Action_ActionID m, Action_ActionType m, Action_StartTime m,
      Action_EndTime m, Action_TxIDs m, Action_Voters m, Action_Key m, Action_NewValue m))
    (fun '(i, t, s, e, x, v, k, n) => mkActionMeta i t s e x v k n) ltac:(by intros []).
#[global] Instance ActionMeta_eq_dec : EqDecision ActionMeta.
Proof. solve_decision. Defined.

Definition zeroAction : ActionMeta := mkActionMeta EmptyShortID 0 0 0 [] [] "" "".

Abbreviation loc := positive.

Record actionsState := mkActionsState {
  act_heap : gmap loc ActionMeta;
  act_next : loc;
  curActions : gmap ShortID loc;
  pendingActionsAdd : gmap ShortID loc;
  pendingActionsDel : gmap ShortID loc
}.
Definition emptyActionsState : actionsState := mkActionsState ∅ 1%positive ∅ ∅ ∅.

(** What a pointer points to, a write through it and [&ActionMeta{...}]. *)
Definition load_action (s : actionsState) (l : loc) : ActionMeta :=
  default zeroAction (act_heap s !! l).
Definition store_action (l : loc) (m : ActionMeta) (s : actionsState) : actionsState :=
  mkActionsState (<[l := m]> (act_heap s)) (act_next s) (curActions s)
    (pendingActionsAdd s) (pendingActionsDel s).
Definition alloc_action (m : ActionMeta) (s : actionsState) : loc * actionsState :=
  (act_next s, mkActionsState (<[act_next s := m]> (act_heap s)) (Pos.succ (act_next s))
    (curActions s) (pendingActionsAdd s) (pendingActionsDel s)).
Definition set_pending_actions (add del : gmap ShortID loc) (s : actionsState) : actionsState :=
  mkActionsState (act_heap s) (act_next s) (curActions s) add del.

Definition GetActionMeta (now : Z) (s : actionsState) (actionID : ShortID) : result (option loc) :=
  match curActions s !! actionID with
  | None => inr None
  | Some l =>
      if Action_EndTime (load_action s l) <? u64 (Unix now)
      then inl (Errorf "action is overdue ") else inr (Some l)
  end.

Definition GetActions `{GoRuntime} (s : actionsState) : list ActionMeta :=
  load_action s <$> (map_range (curActions s)).*2.

(** [for _, action := range s.curActions] up to the first match. *)
Fixpoint voters_loop (s : actionsState) (actionType : Z) (key : string)
    (l : list (ShortID * loc)) : result (Z * ShortID) :=
  match l with
  | [] => inl (Errorf "not found ")
  | (_, p) :: l' =>
      let action := load_action s p in
      if (Action_ActionType action =? actionType) && String.eqb (Action_Key action) key
      then inr (Z.of_nat (length (Action_Voters action)), Action_ActionID action)
      else voters_loop s actionType key l'
  end.
Definition GetVotersNum `{GoRuntime} (s : actionsState) (actionType : Z) (key : string) :
    result (Z * ShortID) := voters_loop s actionType key (map_range (curActions s)).

(** The two scans only look for a key, in any order. *)
Definition has_action_key (s : actionsState) (key : string) (m : gmap ShortID loc) : bool :=
  existsb (fun p => String.eqb (Action_Key (load_action s p.2)) key) (map_to_list m).
Definition ProposalRepeat (s : actionsState) (actionID : ShortID) (key newValue : string) :
    result unit :=
  if decide (is_Some (curActions s !! actionID)) then inl (Errorf "action exist curActions")
  else if has_action_key s key (curActions s) then inl (Errorf "key exist curActions")
  else if decide (is_Some (pendingActionsAdd s !! actionID)) then
    inl (Errorf "action id exist pending")
  else if has_action_key s key (pendingActionsAdd s) then inl (Errorf "key exist pending")
  else inr tt.

Definition CheckActionType (actionType : Z) : bool :=
  (actionTypeStart <? actionType) && (actionType <? actionTypeEnd).

Definition CacheActionsCommit (s : actionsState) : actionsState :=
  mkActionsState (act_heap s) (act_next s)
    (drop_deleted (pendingActionsDel s) (merge_pending (pendingActionsAdd s) (curActions s)))
    (clear_map (pendingActionsAdd s)) (clear_map (pendingActionsDel s)).
Definition CacheActionsAbort (s : actionsState) : actionsState :=
  set_pending_actions (clear_map (pendingActionsAdd s)) (clear_map (pendingActionsDel s)) s.

Section actions.
Context `{Database} `{GoRuntime} `{!Codec ActionMeta}.

Definition PutAction (actionID : ShortID) (pmeta : loc) : M (actionsState * DB) unit :=
  modify (fun '(s, db) => (set_pending_actions (<[actionID := pmeta]> (pendingActionsAdd s))
    (delete actionID (pendingActionsDel s)) s, db)) ;;;
  let! s := gets fst in
  let! pvmeta := lift (Marshal (load_action s pmeta)) in
  zoom (Put (PrefixActionsKey actionID) pvmeta).

Definition DelAction (actionID : ShortID) : M (actionsState * DB) unit :=
  modify (fun '(s, db) =>
    let '(z, s1) := alloc_action zeroAction s in
    (set_pending_actions (delete actionID (pendingActionsAdd s))
      (<[actionID := z]> (pendingActionsDel s)) s1, db)) ;;;
  zoom (Delete (PrefixActionsKey actionID)).

(** The loop of [ReloadActions]; [tick] numbers the readings of the clock. *)
Fixpoint reload_actions_loop (l : list (bytes * bytes)) (tick : nat) (s : actionsState) :
    actionsState * outcome unit :=
  match l with
  | [] => (s, Ok tt)
  | (_, nmeta) :: l' =>
      match Unmarshal nmeta with
      | inl e => (s, Err e)
      | inr m =>
          let '(p, s1) := alloc_action m s in
          if Action_EndTime m <? u64 (Unix (time_Now tick))
          then reload_actions_loop l' (S tick) s1
          else reload_actions_loop l' (S tick)
            (mkActionsState (act_heap s1) (act_next s1)
              (<[Action_ActionID m := p]> (curActions s1))
              (pendingActionsAdd s1) (pendingActionsDel s1))
      end
  end.
Definition ReloadActions (tick : nat) : M (actionsState * DB) unit := fun '(s, db) =>
  let '(s', r) := reload_actions_loop (db_iter_prefix db baseActionsPrefix) tick s in
  ((s', db), r).

Definition NewActionsState (tick : nat) (db : DB) : actionsState * outcome unit :=
  let '((s, _), r) := ReloadActions tick (emptyActionsState, db) in (s, r).
End actions.

(** ** Reading through the pointers *)

Definition action_cache (s : actionsState) : cache ShortID loc :=
  Cache (curActions s) (pendingActionsAdd s) (pendingActionsDel s).
Definition metas (s : actionsState) (m : gmap ShortID loc) : gmap ShortID ActionMeta :=
  load_action s <$> m.
Definition cur_meta (s : actionsState) : gmap ShortID ActionMeta := metas s (curActions s).
Definition view_meta (s : actionsState) : gmap ShortID ActionMeta :=
  metas s (cache_view (action_cache s)).

(** Every pointer is allocated, and below the next one. *)
Definition actions_wf (s : actionsState) : Prop :=
  forall i l, (curActions s !! i = Some l \/ pendingActionsAdd s !! i = Some l \/
               pendingActionsDel s !! i = Some l) -> (l < act_next s)%positive.

Lemma action_state_eq s s' :
  act_heap s = act_heap s' -> act_next s = act_next s' ->
  action_cache s = action_cache s' -> s = s'.
Proof. destruct s, s'; unfold action_cache; simpl. by intros -> -> [= -> -> ->]. Qed.
Lemma action_cache_commit s : action_cache (CacheActionsCommit s) = cache_commit (action_cache s).
Proof. done. Qed.
Lemma action_cache_abort s : action_cache (CacheActionsAbort s) = cache_abort (action_cache s).
Proof. done. Qed.

#[export] Instance actions_two_phase : TwoPhase actionsState (gmap ShortID ActionMeta) := {|
  settled := cur_meta;
  tp_commit := CacheActionsCommit;
  tp_abort := CacheActionsAbort
|}.
#[export] Instance actions_two_phase_laws : TwoPhaseLaws actionsState (gmap ShortID ActionMeta).
Proof.
  split; [done|..]; simpl; intros s; apply action_state_eq; try done;
    rewrite ?action_cache_abort, ?action_cache_commit, ?action_cache_abort;
    auto using cache_abort_idemp, cache_commit_idemp, cache_commit_abort.
Qed.

Lemma metas_frame_alloc s m (M0 : gmap ShortID loc) :
  (forall i l, M0 !! i = Some l -> (l < act_next s)%positive) ->
  metas (alloc_action m s).2 M0 = metas s M0.
Proof.
  intros Hlt. unfold metas. apply map_fmap_ext. intros i l Hl. apply Hlt in Hl.
  unfold load_action. simpl. rewrite lookup_insert_ne; [done|lia].
Qed.

Lemma load_alloc s m : load_action (alloc_action m s).2 (alloc_action m s).1 = m.
Proof. unfold load_action. simpl. by rewrite lookup_insert_eq. Qed.

Section action_facts.
Context `{DatabaseLaws} `{GoRuntime} `{CodecLaws ActionMeta}.
Implicit Types (s : actionsState) (db : DB).

Lemma PutAction_run i l s db :
  let s' := set_pending_actions (<[i := l]> (pendingActionsAdd s))
    (delete i (pendingActionsDel s)) s in
  PutAction i l (s, db) =
    match Marshal (load_action s l) with
    | inr b => ((s', db_set db (PrefixActionsKey i) b), Ok tt)
    | inl e => ((s', db), Err e)
    end.
Proof.
  unfold PutAction, modify, gets, bind, lift, zoom. cbn [fst view over lens_snd snd].
  change (load_action (set_pending_actions _ _ s) l) with (load_action s l).
  destruct (Marshal (load_action s l)) as [e|b]; simpl; [done|]. by rewrite Put_run.
Qed.

Lemma DelAction_run i s db :
  DelAction i (s, db) =
    ((set_pending_actions (delete i (pendingActionsAdd s))
        (<[i := act_next s]> (pendingActionsDel s)) (alloc_action zeroAction s).2,
      db_del db (PrefixActionsKey i)), Ok tt).
Proof.
  unfold DelAction, modify, bind, zoom. cbn [alloc_action view over lens_snd snd].
  by rewrite Delete_run.
Qed.

Definition actions_coherent (db : DB) (s : actionsState) : Prop :=
  coherent PrefixActionsKey db (view_meta s).
Definition actions_keyed (s : actionsState) : Prop :=
  forall i m, view_meta s !! i = Some m -> Action_ActionID m = i.

(** Recording a new meta under its id, as every transaction but the withdrawal
    does. *)
Lemma PutAction_new_coherent m s db s' db' :
  let '(l, s1) := alloc_action m s in
  PutAction (Action_ActionID m) l (s1, db) = ((s', db'), Ok tt) ->
  actions_wf s -> actions_coherent db s -> actions_keyed s ->
  actions_wf s' /\ actions_coherent db' s' /\ actions_keyed s' /\
  view_meta s' = <[Action_ActionID m := m]> (view_meta s).
Proof.
  cbn [alloc_action]. intros Hrun Hwf Hc Hk. pose proof (load_alloc s m) as Hload.
  pose proof (metas_frame_alloc s m (cache_view (action_cache s))) as Hframe.
  cbn [alloc_action fst snd] in Hload, Hframe.
  set (s1 := mkActionsState _ _ _ _ _) in *. rewrite PutAction_run, Hload in Hrun.
  destruct (Marshal m) as [e|b] eqn:Hb; simplify_eq.
  set (i := Action_ActionID m) in *.
  assert (view_meta (set_pending_actions (<[i := act_next s]> (pendingActionsAdd s1))
    (delete i (pendingActionsDel s1)) s1) = <[i := m]> (view_meta s)) as Hview.
  { unfold view_meta. change (action_cache (set_pending_actions _ _ s1)) with (cache_put i (act_next s) (action_cache s)).
    rewrite cache_view_put. unfold metas. rewrite fmap_insert. f_equal; [exact Hload|].
    apply Hframe. intros i' l'. rewrite lookup_cache_view. simpl.
    repeat case_match; intros ?; simplify_eq; eapply (Hwf i'); eauto. }
  split_and!.
  - intros i' l'. simpl. rewrite lookup_insert_Some, lookup_delete_Some.
    intros [Hl|[[[_ <-]|[_ Hl]]|[_ Hl]]]; try lia;
      (apply Pos.lt_lt_succ; eapply (Hwf i'); eauto).
  - unfold actions_coherent. rewrite Hview. apply coherent_put; [apply _|done|exact Hc].
  - intros i' m'. rewrite Hview, lookup_insert_Some. intros [[<- <-]|[_ Hm]]; [done|by apply Hk].
  - exact Hview.
Qed.

Lemma DelAction_coherent i s db s' db' :
  DelAction i (s, db) = ((s', db'), Ok tt) ->
  actions_wf s -> actions_coherent db s -> actions_keyed s ->
  actions_wf s' /\ actions_coherent db' s' /\ actions_keyed s' /\
  view_meta s' = delete i (view_meta s).
Proof.
  intros Hrun Hwf Hc Hk. rewrite DelAction_run in Hrun. simplify_eq.
  set (s1 := (alloc_action zeroAction s).2).
  assert (view_meta (set_pending_actions (delete i (pendingActionsAdd s))
    (<[i := act_next s]> (pendingActionsDel s)) s1) = delete i (view_meta s)) as Hview.
  { unfold view_meta. change (action_cache (set_pending_actions _ _ s1)) with (cache_del i (act_next s) (action_cache s)).
    rewrite cache_view_del. unfold metas. rewrite fmap_delete. f_equal.
    apply (metas_frame_alloc s zeroAction). intros i' l'. rewrite lookup_cache_view. simpl.
    repeat case_match; intros ?; simplify_eq; eapply (Hwf i'); eauto. }
  split_and!.
  - intros i' l'. simpl. rewrite lookup_insert_Some, lookup_delete_Some.
    intros [Hl|[[_ Hl]|[[_ <-]|[_ Hl]]]]; try lia;
      (apply Pos.lt_lt_succ; eapply (Hwf i'); eauto).
  - unfold actions_coherent. rewrite Hview. apply coherent_delete; [apply _|exact Hc].
  - intros i' m'. rewrite Hview, lookup_delete_Some. intros [_ Hm]. by apply Hk.
  - exact Hview.
Qed.

(** *** Restart *)

Definition with_cur_action (i : ShortID) (l : loc) s : actionsState :=
  mkActionsState (act_heap s) (act_next s) (<[i := l]> (curActions s))
    (pendingActionsAdd s) (pendingActionsDel s).

Lemma cur_meta_insert m s :
  actions_wf s ->
  let s1 := with_cur_action (Action_ActionID m) (act_next s) (alloc_action m s).2 in
  actions_wf s1 /\ cur_meta s1 = <[Action_ActionID m := m]> (cur_meta s).
Proof.
  intros Hwf s1. split.
  - intros i l. simpl. rewrite lookup_insert_Some.
    intros [[[_ <-]|[_ Hl]]|[Hl|Hl]]; try lia;
      (apply Pos.lt_lt_succ; eapply (Hwf i); eauto).
  - unfold cur_meta, metas. cbn [s1 with_cur_action curActions alloc_action snd].
    rewrite fmap_insert. f_equal; [exact (load_alloc s m)|].
    apply (metas_frame_alloc s m). intros i l Hl. eapply (Hwf i); eauto.
Qed.

Lemma wf_alloc m s : actions_wf s -> actions_wf (alloc_action m s).2.
Proof. intros Hwf i l Hl. apply Pos.lt_lt_succ. by apply (Hwf i). Qed.
Lemma cur_meta_alloc m s : actions_wf s -> cur_meta (alloc_action m s).2 = cur_meta s.
Proof. intros Hwf. apply (metas_frame_alloc s m). intros i l Hl. eapply (Hwf i); eauto. Qed.

(** The loop keeps what is certainly live, and nothing that is certainly
    overdue, when the clock stays between [lo] and [hi]. *)
Lemma reload_actions_spec (V : gmap ShortID ActionMeta) lo hi l tick s :
  (forall i, lo <= u64 (Unix (time_Now i)) <= hi) ->
  (forall kb, kb ∈ l -> exists m, Unmarshal kb.2 = inr m /\ V !! Action_ActionID m = Some m) ->
  actions_wf s ->
  exists s', reload_actions_loop l tick s = (s', Ok tt) /\
    action_cache s' = Cache (curActions s') (pendingActionsAdd s) (pendingActionsDel s) /\
    (forall i m, cur_meta s' !! i = Some m ->
      cur_meta s !! i = Some m \/ (V !! i = Some m /\ lo <= Action_EndTime m)) /\
    (forall i m, cur_meta s !! i = Some m -> V !! i = Some m -> cur_meta s' !! i = Some m) /\
    (forall kb m, kb ∈ l -> Unmarshal kb.2 = inr m -> hi <= Action_EndTime m ->
      cur_meta s' !! Action_ActionID m = Some m).
Proof.
  intros Hclk. revert tick s. induction l as [|[k b] l IH]; intros tick s Hl Hwf.
  { exists s. split_and!; [done|done|auto|auto|]. intros kb m Hkb. by apply elem_of_nil in Hkb. }
  destruct (Hl (k, b) ltac:(set_solver)) as (m0 & Hm0 & HV0). simpl in Hm0.
  assert (forall kb, kb ∈ l -> exists m, Unmarshal kb.2 = inr m /\
    V !! Action_ActionID m = Some m) as Hl' by set_solver.
  specialize (Hclk tick) as Hnow. cbn [reload_actions_loop]. rewrite Hm0. cbn [alloc_action].
  destruct (Z.ltb_spec (Action_EndTime m0) (u64 (Unix (time_Now tick)))) as [Hov|Hlive].
  - destruct (IH (S tick) (alloc_action m0 s).2 Hl' (wf_alloc _ _ Hwf))
      as (s' & Hrun & Hcache & Hsound & Hkeep & Hlive).
    exists s'. rewrite cur_meta_alloc in Hsound, Hkeep by done.
    split_and!; [exact Hrun|exact Hcache|exact Hsound|exact Hkeep|].
    intros kb m [->|Hkb]%elem_of_cons Hu Hhi; [|by eapply Hlive].
    simpl in Hu. assert (m = m0) as -> by congruence. lia.
  - destruct (cur_meta_insert m0 s Hwf) as [Hwf1 Hcur1].
    destruct (IH (S tick) _ Hl' Hwf1) as (s' & Hrun & Hcache & Hsound & Hkeep & Hin).
    rewrite Hcur1 in Hsound, Hkeep.
    exists s'. split_and!; [exact Hrun|exact Hcache|..].
    + intros i m Hm. destruct (Hsound i m Hm) as [Hi|Hi]; [|by right].
      apply lookup_insert_Some in Hi as [[<- <-]|[_ Hi]]; [right; split; [done|lia]|by left].
    + intros i m Hm HV. apply Hkeep; [|done]. apply lookup_insert_Some.
      destruct (decide (Action_ActionID m0 = i)) as [<-|Hne]; [left|by right].
      split; [done|congruence].
    + intros kb m [->|Hkb]%elem_of_cons Hu Hhi; [|by eapply Hin].
      simpl in Hu. assert (m = m0) as -> by congruence.
      apply Hkeep; [by rewrite lookup_insert_eq|done].
Qed.

(** A restart keeps every action of the database that is still open and drops
    those that are over, whatever the clock reads between [lo] and [hi] while
    the loop runs. *)
Theorem actions_restart lo hi tick db s :
  (forall i, lo <= u64 (Unix (time_Now i)) <= hi) ->
  own_keys (fun k => is_Some (db_lookup db k)) ->
  actions_coherent db s -> actions_keyed s ->
  exists s', NewActionsState tick db = (s', Ok tt) /\
    pendingActionsAdd s' = ∅ /\ pendingActionsDel s' = ∅ /\
    (forall i m, cur_meta s' !! i = Some m -> view_meta s !! i = Some m /\ lo <= Action_EndTime m) /\
    (forall i m, view_meta s !! i = Some m -> hi <= Action_EndTime m -> cur_meta s' !! i = Some m).
Proof.
  intros Hclk Hown Hc Hk.
  destruct (reload_actions_spec (view_meta s) lo hi (db_iter_prefix db baseActionsPrefix) tick
    emptyActionsState Hclk) as (s' & Hrun & Hcache & Hsound & _ & Hlive).
  - intros [kb b] Hin. apply db_iter_prefix_spec in Hin as [Hp Hlk].
    destruct (Hown kb) as (k & _ & ->); [by eexists|]. destruct (under_actions k Hp) as [i ->].
    specialize (Hc i). cbn [render] in Hlk. destruct (view_meta s !! i) as [m|] eqn:Hm; [|congruence].
    destruct Hc as (b' & Hb & Hlk'). assert (b' = b) as -> by congruence.
    exists m. split; [by apply Unmarshal_Marshal|]. by rewrite (Hk _ _ Hm).
  - intros i l. cbn. rewrite !lookup_empty. naive_solver.
  - exists s'. unfold action_cache in Hcache. injection Hcache as Hadd Hdel.
    split_and!; [|done|done|..].
    + unfold NewActionsState, ReloadActions. by rewrite Hrun.
    + intros i m Hm. by destruct (Hsound i m Hm) as [Hm'|].
    + intros i m Hm Hhi. specialize (Hc i). rewrite Hm in Hc. destruct Hc as (b & Hb & Hlk).
      rewrite <- (Hk i m Hm). eapply (Hlive (PrefixActionsKey i, b)); [|by apply Unmarshal_Marshal|done].
      apply db_iter_prefix_spec. split; [by exists (array i)|done].
Qed.
End action_facts.
