(* ===== verification/Users.v ===== *)
(** * chain/users_status.go and chain/users_type.go *)

From S2P Require Import Prelude External GoStd PendingCache Instances Keys.

Record UserMeta := mkUserMeta {
  User_StartTime : Z;
  User_EndTime : Z;
  User_Connections : Z;
  User_PayAmount : Z;
  User_TxsID : list ID;
  User_UserType : Z;
  User_Address : Address
}.
#[global] Instance packable_UserMeta : Packable UserMeta :=
  packable_via (fun m => (User_StartTime m, User_EndTime m, User_Connections m,
      User_PayAmount m, User_TxsID m, User_UserType m, User_Address m))
    (fun '(s, e, c, p, x, t, a) => mkUserMeta s e c p x t a) ltac:(by intros []).
Record UserType := mkUserType {
  UserType_TypeName : string;
  UserType_TypeID : Z;
  UserType_FeeUnits : Z
}.
#[global] Instance packable_UserType : Packable UserType :=
  packable_via (fun m => (UserType_TypeName m, UserType_TypeID m, UserType_FeeUnits m))
    (fun '(n, i, f) => mkUserType n i f) ltac:(by intros []).

Definition UsersCacheSize : Z := 8096.
Definition zeroUser : UserMeta := mkUserMeta 0 0 0 0 [] 0 zeroAddress.
Definition zeroUserType : UserType := mkUserType "" 0 0.

(** ** Users: an LRU cache in front of the database *)

Record usersState `{Cacher Address UserMeta} := mkUsersState {
  curUsers : Cache_t Address UserMeta;
  pendingUsersAdd : gmap Address UserMeta;
  pendingUsersDel : gmap Address UserMeta
}.
Arguments usersState {_}.

Section users.
Context `{Database} `{GoRuntime} `{Cacher Address UserMeta} `{!Codec UserMeta}.

Definition emptyUsersState : usersState := mkUsersState _ cache_New ∅ ∅.

Definition with_cur_users (c : Cache_t Address UserMeta) (s : usersState) : usersState :=
  mkUsersState _ c (pendingUsersAdd s) (pendingUsersDel s).

Definition GetUserMeta (address : Address) : M (usersState * DB) (option UserMeta) :=
  let! s := gets fst in
  let '(c, hit) := cache_Get (curUsers s) address in
  modify (over (with_cur_users c s)) ;;;
  match hit with
  | Some award => ret (Some award)
  | None =>
      let! r := attempt (zoom (Get (PrefixUsersKey address))) in
      match r with
      | inl e => if decide (e = ErrNotFound) then ret None else fail e
      | inr cmeta => let! pmeta := lift (Unmarshal cmeta) in ret (Some pmeta)
      end
  end.

Definition PutUser (pmeta : UserMeta) : M (usersState * DB) unit :=
  let address := User_Address pmeta in
  modify (fun '(s, db) => (mkUsersState _ (curUsers s) (<[address := pmeta]> (pendingUsersAdd s))
    (delete address (pendingUsersDel s)), db)) ;;;
  let! pvmeta := lift (Marshal pmeta) in
  zoom (Put (PrefixUsersKey address) pvmeta).

Definition DelUser (address : Address) : M (usersState * DB) unit :=
  modify (fun '(s, db) => (mkUsersState _ (curUsers s) (delete address (pendingUsersAdd s))
    (<[address := zeroUser]> (pendingUsersDel s)), db)) ;;;
  zoom (Delete (PrefixUsersKey address)).

Fixpoint users_loop (l : list (bytes * bytes)) : result (list UserMeta) :=
  match l with
  | [] => inr []
  | (_, nmeta) :: l' =>
      match Unmarshal nmeta with
      | inl e => inl e
      | inr m => match users_loop l' with inl e => inl e | inr ms => inr (m :: ms) end
      end
  end.
Definition GetUsers (db : DB) : result (list UserMeta) :=
  users_loop (db_iter_prefix db baseUsersPrefix).

Fixpoint reload_users_loop (count : Z) (l : list (bytes * bytes)) (c : Cache_t Address UserMeta) :
    Cache_t Address UserMeta * outcome unit :=
  match l with
  | [] => (c, Ok tt)
  | (_, nmeta) :: l' =>
      match Unmarshal nmeta with
      | inl e => (c, Err e)
      | inr m =>
          let c' := cache_Put c (User_Address m) m in
          if UsersCacheSize / 2 <? count + 1 then (c', Ok tt)
          else reload_users_loop (count + 1) l' c'
      end
  end.
Definition ReloadUsers : M (usersState * DB) unit := fun '(s, db) =>
  let '(c, r) := reload_users_loop 0 (db_iter_prefix db baseUsersPrefix) (curUsers s) in
  ((with_cur_users c s, db), r).

Definition NewUserstate (db : DB) : usersState * outcome unit :=
  let '((s, _), r) := ReloadUsers (emptyUsersState, db) in (s, r).

Definition CacheUsersCommit (s : usersState) : usersState :=
  let c := foldl (fun c kv => cache_Put (cache_Evict c kv.1) kv.1 kv.2)
    (curUsers s) (map_range (pendingUsersAdd s)) in
  let c := foldl (fun c kv => cache_Evict c kv.1) c (map_range (pendingUsersDel s)) in
  mkUsersState _ c (clear_map (pendingUsersAdd s)) (clear_map (pendingUsersDel s)).
Definition CacheUsersAbort (s : usersState) : usersState :=
  mkUsersState _ (curUsers s) (clear_map (pendingUsersAdd s)) (clear_map (pendingUsersDel s)).
End users.

Section user_facts.
Context `{DatabaseLaws} `{GoRuntimeLaws} `{CacherLaws Address UserMeta} `{CodecLaws UserMeta}.
Implicit Types (s : usersState) (db : DB).

(** What the cache still remembers is what the database says. *)
Definition users_fresh (db : DB) (c : Cache_t Address UserMeta) : Prop :=
  forall a m, cached c a = Some m ->
    exists b, Marshal m = inr b /\ db_lookup db (PrefixUsersKey a) = Some b.

(** The user the database holds for an address. *)
Definition stored_user (db : DB) (a : Address) (u : option UserMeta) : Prop :=
  match db_lookup db (PrefixUsersKey a) with
  | Some b => exists m, u = Some m /\ Marshal m = inr b
  | None => u = None
  end.

(** A lookup answers what the database holds, whether it hits the cache or
    not, and whatever the cache has forgotten. *)
Theorem GetUserMeta_reads_through a u s db :
  users_fresh db (curUsers s) -> stored_user db a u ->
  exists s', GetUserMeta a (s, db) = ((s', db), Ok u) /\ users_fresh db (curUsers s') /\
    pendingUsersAdd s' = pendingUsersAdd s /\ pendingUsersDel s' = pendingUsersDel s.
Proof.
  intros Hf Hu. unfold stored_user in Hu. pose proof (cached_Get (curUsers s) a) as Hkeep.
  assert (users_fresh db (cache_Get (curUsers s) a).1) as Hf'.
  { intros a' m. rewrite Hkeep. apply Hf. }
  unfold GetUserMeta, gets, modify, bind. cbn [fst].
  pose proof (Hf a) as Hhit. unfold cached in Hhit.
  destruct (cache_Get (curUsers s) a) as [c hit]; cbn [fst snd over lens_fst] in *.
  exists (with_cur_users c s). split; [|done].
  destruct hit as [m|].
  - destruct (Hhit m eq_refl) as (b & Hb & Hlk). rewrite Hlk in Hu.
    destruct Hu as (m' & -> & Hb'). by rewrite (Marshal_inj _ _ _ Hb Hb').
  - unfold attempt, zoom. cbn [view over lens_snd snd fst]. rewrite Get_run.
    destruct (db_lookup db (PrefixUsersKey a)) as [b|].
    + destruct Hu as (m' & -> & Hb'). unfold lift. by rewrite (Unmarshal_Marshal _ _ Hb').
    + subst u. by rewrite decide_True.
Qed.

Lemma PutUser_run m s db :
  let s' := mkUsersState _ (curUsers s) (<[User_Address m := m]> (pendingUsersAdd s))
    (delete (User_Address m) (pendingUsersDel s)) in
  PutUser m (s, db) =
    match Marshal m with
    | inr b => ((s', db_set db (PrefixUsersKey (User_Address m)) b), Ok tt)
    | inl e => ((s', db), Err e)
    end.
Proof.
  unfold PutUser, modify, bind, lift, zoom. destruct (Marshal m) as [e|b]; [done|].
  cbn [of_result view over lens_snd snd fst]. by rewrite Put_run.
Qed.

(** Every entry the pending maps leave alone is still fresh after the writes
    of a block; the commit refreshes the others. *)
Definition users_fresh_but (db : DB) s : Prop :=
  (forall a m, cached (curUsers s) a = Some m ->
     pendingUsersAdd s !! a = None -> pendingUsersDel s !! a = None ->
     exists b, Marshal m = inr b /\ db_lookup db (PrefixUsersKey a) = Some b) /\
  (forall a m, pendingUsersAdd s !! a = Some m -> pendingUsersDel s !! a = None ->
     exists b, Marshal m = inr b /\ db_lookup db (PrefixUsersKey a) = Some b).

Lemma cached_put_all c (l : list (Address * UserMeta)) a m :
  cached (foldl (fun c kv => cache_Put (cache_Evict c kv.1) kv.1 kv.2) c l) a = Some m ->
  (exists m', (a, m') ∈ l /\ m' = m) \/ (a ∉ l.*1 /\ cached c a = Some m).
Proof.
  revert c. induction l as [|[k v] l IH]; intros c; csimpl; [right; split; [set_solver|done]|].
  intros Hc. apply IH in Hc as [(m' & Hin & ->)|[Hnot Hc]]; [left; exists m; set_solver|].
  cbn [fst snd] in Hc. destruct (decide (k = a)) as [->|Hne].
  - rewrite cached_Put_eq in Hc. simplify_eq. left. exists m. set_solver.
  - right. split; [set_solver|]. apply cached_Put_ne in Hc; [|done].
    by rewrite cached_Evict_ne in Hc.
Qed.

Lemma cached_evict_all c (l : list (Address * UserMeta)) a m :
  cached (foldl (fun c kv => cache_Evict c kv.1) c l) a = Some m ->
  a ∉ l.*1 /\ cached c a = Some m.
Proof.
  revert c. induction l as [|[k v] l IH]; intros c; csimpl; [split; [set_solver|done]|].
  intros Hc. apply IH in Hc as [Hnot Hc]. cbn [fst] in Hc.
  destruct (decide (k = a)) as [->|Hne]; [by rewrite cached_Evict_eq in Hc|].
  split; [set_solver|]. by rewrite cached_Evict_ne in Hc.
Qed.

Lemma not_elem_map_range {V} (m : gmap Address V) a : a ∉ (map_range m).*1 -> m !! a = None.
Proof.
  intros Hnot. destruct (m !! a) as [v|] eqn:Hv; [|done]. exfalso. apply Hnot.
  apply list_elem_of_fmap. exists (a, v). split; [done|]. by apply elem_of_map_range.
Qed.

(** The commit leaves a cache that agrees with the database, in whatever order
    the maps are visited and whatever the cache evicts. *)
Theorem users_commit_fresh db s :
  users_fresh_but db s -> users_fresh db (curUsers (CacheUsersCommit s)).
Proof.
  intros [Hcur Hadd] a m. cbn [CacheUsersCommit curUsers].
  intros Hc. apply cached_evict_all in Hc as [Hdel Hc]. apply not_elem_map_range in Hdel.
  apply cached_put_all in Hc as [(m' & Hin & ->)|[Hnot Hc]].
  - apply elem_of_map_range in Hin. by apply Hadd.
  - apply Hcur; [done| |done]. by apply not_elem_map_range.
Qed.

Lemma users_fresh_clean db c : users_fresh db c -> users_fresh_but db (mkUsersState _ c ∅ ∅).
Proof.
  intros Hf. split; cbn; [intros a m Hc _ _; by apply Hf|].
  intros a m. by rewrite lookup_empty.
Qed.

Lemma PutUser_fresh_but m s db s' db' :
  PutUser m (s, db) = ((s', db'), Ok tt) -> users_fresh_but db s -> users_fresh_but db' s'.
Proof.
  rewrite PutUser_run. destruct (Marshal m) as [e|b] eqn:Hb; intros Hrun [Hcur Hadd]; [done|].
  injection Hrun as <- <-. split; cbn; intros a m'.
  - intros Hc Ha Hd. rewrite lookup_insert_None in Ha. destruct Ha as [Ha Hne].
    rewrite lookup_delete_ne in Hd by done.
    rewrite lookup_set_ne by (by intros ?%(inj PrefixUsersKey)). by apply Hcur.
  - rewrite lookup_insert_Some. intros [[<- <-]|[Hne Ha]] Hd.
    + exists b. by rewrite lookup_set_eq.
    + rewrite lookup_delete_ne in Hd by done.
      rewrite lookup_set_ne by (by intros ?%(inj PrefixUsersKey)). by apply Hadd.
Qed.
End user_facts.

(** ** User types *)

Record userTypesState := mkUserTypesState {
  curUserTypes : gmap Z UserType;
  pendingUserTypesAdd : gmap Z UserType;
  pendingUserTypesDel : gmap Z UserType
}.
Definition emptyUserTypesState : userTypesState := mkUserTypesState ∅ ∅ ∅.

Definition GetUserType (s : userTypesState) (id : Z) : option UserType := curUserTypes s !! id.
Definition GetUserTypes (s : userTypesState) : gmap Z UserType := curUserTypes s.
Definition CheckUserType (s : userTypesState) (id : Z) : bool :=
  bool_decide (is_Some (curUserTypes s !! id)).
Definition CheckFee (s : userTypesState) (id fee : Z) : bool :=
  match curUserTypes s !! id with
  | None => false
  | Some userType => fee =? UserType_FeeUnits userType
  end.

Section user_types.
Context `{Database} `{!Codec UserType}.

Definition AddUserType (pmeta : UserType) : M (userTypesState * DB) unit :=
  let id := UserType_TypeID pmeta in
  modify (fun '(s, db) => (mkUserTypesState (curUserTypes s)
    (<[id := pmeta]> (pendingUserTypesAdd s)) (delete id (pendingUserTypesDel s)), db)) ;;;
  let! pvmeta := lift (Marshal pmeta) in
  zoom (Put (PrefixUserTypesKey id) pvmeta).

Definition DelUserType (id : Z) : M (userTypesState * DB) unit :=
  modify (fun '(s, db) => (mkUserTypesState (curUserTypes s) (delete id (pendingUserTypesAdd s))
    (<[id := zeroUserType]> (pendingUserTypesDel s)), db)) ;;;
  zoom (Delete (PrefixUserTypesKey id)).

Definition ReloadUserTypes : M (userTypesState * DB) unit := fun '(s, db) =>
  let '(cur, r) := load_all UserType_TypeID (db_iter_prefix db baseUserTypesPrefix)
    (curUserTypes s) in
  ((mkUserTypesState cur (pendingUserTypesAdd s) (pendingUserTypesDel s), db), of_result r).

Definition NewUserTypesState (db : DB) : userTypesState * outcome unit :=
  let '((s, _), r) := ReloadUserTypes (emptyUserTypesState, db) in (s, r).
End user_types.

Definition CacheUserTypesCommit (s : userTypesState) : userTypesState :=
  mkUserTypesState
    (drop_deleted (pendingUserTypesDel s) (merge_pending (pendingUserTypesAdd s) (curUserTypes s)))
    (clear_map (pendingUserTypesAdd s)) (clear_map (pendingUserTypesDel s)).
Definition CacheUserTypesAbort (s : userTypesState) : userTypesState :=
  mkUserTypesState (curUserTypes s) (clear_map (pendingUserTypesAdd s))
    (clear_map (pendingUserTypesDel s)).

Definition user_type_cache (s : userTypesState) : cache Z UserType :=
  Cache (curUserTypes s) (pendingUserTypesAdd s) (pendingUserTypesDel s).

Lemma user_type_state_eq s s' : user_type_cache s = user_type_cache s' -> s = s'.
Proof. destruct s, s'; unfold user_type_cache; simpl. by intros [= -> -> ->]. Qed.
Lemma user_type_cache_commit s :
  user_type_cache (CacheUserTypesCommit s) = cache_commit (user_type_cache s).
Proof. done. Qed.
Lemma user_type_cache_abort s :
  user_type_cache (CacheUserTypesAbort s) = cache_abort (user_type_cache s).
Proof. done. Qed.

#[export] Instance user_types_two_phase : TwoPhase userTypesState (gmap Z UserType) := {|
  settled := curUserTypes;
  tp_commit := CacheUserTypesCommit;
  tp_abort := CacheUserTypesAbort
|}.
#[export] Instance user_types_two_phase_laws : TwoPhaseLaws userTypesState (gmap Z UserType).
Proof.
  split; [done|..]; simpl; intros s; apply user_type_state_eq;
    rewrite ?user_type_cache_abort, ?user_type_cache_commit, ?user_type_cache_abort;
    auto using cache_abort_idemp, cache_commit_idemp, cache_commit_abort.
Qed.

Section user_type_facts.
Context `{DatabaseLaws} `{CodecLaws UserType} `{CodecLaws UserMeta} `{CacherLaws Address UserMeta}.

Lemma AddUserType_run m s db :
  let id := UserType_TypeID m in
  let s' := mkUserTypesState (curUserTypes s) (<[id := m]> (pendingUserTypesAdd s))
    (delete id (pendingUserTypesDel s)) in
  AddUserType m (s, db) =
    match Marshal m with
    | inr b => ((s', db_set db (PrefixUserTypesKey id) b), Ok tt)
    | inl e => ((s', db), Err e)
    end.
Proof.
  unfold AddUserType, modify, bind, lift, zoom. destruct (Marshal m) as [e|b]; [done|].
  cbn [of_result view over lens_snd snd fst]. by rewrite Put_run.
Qed.

Lemma no_user_types_stored db :
  own_keys (fun k => is_Some (db_lookup db k)) -> db_iter_prefix db baseUserTypesPrefix = [].
Proof.
  intros Hown. destruct (db_iter_prefix db baseUserTypesPrefix) as [|[kb b] l] eqn:Hit; [done|].
  assert ((kb, b) ∈ db_iter_prefix db baseUserTypesPrefix) as Hin by (rewrite Hit; set_solver).
  apply db_iter_prefix_spec in Hin as [Hp Hlk].
  destruct (Hown kb) as (k & _ & ->); [by eexists|]. by apply under_user_types in Hp.
Qed.

Lemma reload_users_stops count l c k b e :
  (k, b) ∈ l -> Unmarshal (A := UserMeta) b = inl e ->
  count + Z.of_nat (length l) <= UsersCacheSize / 2 ->
  exists e', (reload_users_loop count l c).2 = Err e'.
Proof.
  revert count c. induction l as [|[k0 b0] l IH]; intros count c Hin He Hlen; [set_solver|].
  cbn [reload_users_loop length] in *. destruct (Unmarshal b0) as [e0|m0] eqn:Hb0; [by eexists|].
  apply elem_of_cons in Hin as [[= -> ->]|Hin]; [congruence|].
  destruct (Z.ltb_spec (UsersCacheSize / 2) (count + 1)); [lia|].
  apply IH; [done|done|lia].
Qed.

(** A user type added by governance is written under the prefix of the users:
    after a restart the user types are empty, and the users do not load. *)
Theorem user_type_breaks_restart m b e s db :
  own_keys (fun k => is_Some (db_lookup db k)) -> is_u64 (UserType_TypeID m) ->
  Marshal m = inr b -> Unmarshal (A := UserMeta) b = inl e ->
  Z.of_nat (length (db_iter_prefix (db_set db (PrefixUserTypesKey (UserType_TypeID m)) b)
    baseUsersPrefix)) <= UsersCacheSize / 2 ->
  exists s' db' e', AddUserType m (s, db) = ((s', db'), Ok tt) /\
    curUserTypes (CacheUserTypesCommit s') !! UserType_TypeID m = Some m /\
    NewUserTypesState db' = (emptyUserTypesState, Ok tt) /\
    (NewUserstate db').2 = Err e'.
Proof.
  intros Hown Hid Hb He Hlen. set (id := UserType_TypeID m) in *.
  set (db' := db_set db (PrefixUserTypesKey id) b) in *.
  destruct (reload_users_stops 0 (db_iter_prefix db' baseUsersPrefix) (curUsers emptyUsersState)
    (PrefixUserTypesKey id) b e) as [e' He']; [|done|done|].
  { apply db_iter_prefix_spec. split; [by eexists|]. apply lookup_set_eq. }
  eexists _, db', e'. rewrite AddUserType_run, Hb. split_and!; [done|..].
  - cbn [CacheUserTypesCommit curUserTypes pendingUserTypesAdd pendingUserTypesDel].
    by rewrite lookup_drop_deleted, lookup_delete_eq, lookup_merge_pending, lookup_insert_eq.
  - unfold NewUserTypesState, ReloadUserTypes. rewrite no_user_types_stored; [done|].
    intros kb [v Hv]. unfold db' in Hv. rewrite db_lookup_set in Hv.
    case_decide as Hkb; [|by apply Hown; eexists]. subst kb. by exists (KUserType id).
  - unfold NewUserstate, ReloadUsers. by destruct (reload_users_loop _ _ _).
Qed.
End user_type_facts.
