(* ===== verification/Details.v ===== *)
(** * chain/node_params.go: the parameters of the registered nodes *)

From S2P Require Import Prelude External GoStd PendingCache Instances Keys.

Record DetailMeta := mkDetailMeta {
  Detail_StakerType : Z;
  Detail_Country : string;
  Detail_LocalIP : string;
  Detail_PublicIP : string;
  Detail_MinPort : Z;
  Detail_MaxPort : Z;
  Detail_CheckPort : Z;
  Detail_WorkKey : string;
  Detail_TxID : ID;
  Detail_LastUpdateTime : Z;
  Detail_WorkAddress : Address;
  Detail_StakeAddress : Address
}.
#[global] Instance packable_DetailMeta : Packable DetailMeta :=
  packable_via (fun m => (Detail_StakerType m, Detail_Country m, Detail_LocalIP m,
      Detail_PublicIP m, Detail_MinPort m, Detail_MaxPort m, Detail_CheckPort m,
      Detail_WorkKey m, Detail_TxID m, Detail_LastUpdateTime m, Detail_WorkAddress m,
      Detail_StakeAddress m))
    (fun '(t, c, l, p, a, b, k, w, i, u, x, y) => mkDetailMeta t c l p a b k w i u x y)
    ltac:(by intros []).

Definition zeroDetail : DetailMeta :=
  mkDetailMeta 0 "" "" "" 0 0 0 "" EmptyID 0 zeroAddress zeroAddress.

Record detailsState := mkDetailsState {
  curNodes : gmap Address DetailMeta;
  pendingNodesAdd : gmap Address DetailMeta;
  pendingNodesDel : gmap Address DetailMeta
}.
Definition emptyDetailsState : detailsState := mkDetailsState ∅ ∅ ∅.

Definition GetDetailMeta (d : detailsState) (address : Address) : option DetailMeta :=
  curNodes d !! address.
Definition GetDetails `{GoRuntime} (d : detailsState) : list DetailMeta :=
  (map_range (curNodes d)).*2.

Section details.
Context `{Database} `{!Codec DetailMeta}.

Definition PutDetail (address : Address) (pmeta : DetailMeta) : M (detailsState * DB) unit :=
  modify (fun '(d, db) => (mkDetailsState (curNodes d) (<[address := pmeta]> (pendingNodesAdd d))
    (delete address (pendingNodesDel d)), db)) ;;;
  let! pvmeta := lift (Marshal pmeta) in
  zoom (Put (PrefixDetailsKey address) pvmeta).

Definition DelDetail (address : Address) : M (detailsState * DB) unit :=
  modify (fun '(d, db) => (mkDetailsState (curNodes d) (delete address (pendingNodesAdd d))
    (<[address := zeroDetail]> (pendingNodesDel d)), db)) ;;;
  zoom (Delete (PrefixDetailsKey address)).

Definition ReloadDetails : M (detailsState * DB) unit := fun '(d, db) =>
  let '(cur, r) := load_all Detail_StakeAddress (db_iter_prefix db baseDetailsPrefix) (curNodes d) in
  ((mkDetailsState cur (pendingNodesAdd d) (pendingNodesDel d), db), of_result r).

Definition NewDetailstate (db : DB) : detailsState * outcome unit :=
  let '((d, _), r) := ReloadDetails (emptyDetailsState, db) in (d, r).
End details.

Definition CacheDetailsCommit (d : detailsState) : detailsState :=
  mkDetailsState
    (drop_deleted (pendingNodesDel d) (merge_pending (pendingNodesAdd d) (curNodes d)))
    (clear_map (pendingNodesAdd d)) (clear_map (pendingNodesDel d)).
Definition CacheDetailsAbort (d : detailsState) : detailsState :=
  mkDetailsState (curNodes d) (clear_map (pendingNodesAdd d)) (clear_map (pendingNodesDel d)).

Definition detail_cache (d : detailsState) : cache Address DetailMeta :=
  Cache (curNodes d) (pendingNodesAdd d) (pendingNodesDel d).
Lemma detail_state_eq d d' : detail_cache d = detail_cache d' -> d = d'.
Proof. destruct d, d'; unfold detail_cache; simpl. by intros [= -> -> ->]. Qed.
Lemma detail_cache_commit d : detail_cache (CacheDetailsCommit d) = cache_commit (detail_cache d).
Proof. done. Qed.
Lemma detail_cache_abort d : detail_cache (CacheDetailsAbort d) = cache_abort (detail_cache d).
Proof. done. Qed.

#[export] Instance details_two_phase : TwoPhase detailsState (gmap Address DetailMeta) := {|
  settled := curNodes;
  tp_commit := CacheDetailsCommit;
  tp_abort := CacheDetailsAbort
|}.
#[export] Instance details_two_phase_laws : TwoPhaseLaws detailsState (gmap Address DetailMeta).
Proof.
  split; [done|..]; simpl; intros d; apply detail_state_eq;
    rewrite ?detail_cache_abort, ?detail_cache_commit, ?detail_cache_abort;
    auto using cache_abort_idemp, cache_commit_idemp, cache_commit_abort.
Qed.

Section detail_facts.
Context `{DatabaseLaws} `{CodecLaws DetailMeta}.
Implicit Types (d : detailsState) (db : DB).

Lemma PutDetail_run a m d db :
  let d' := mkDetailsState (curNodes d) (<[a := m]> (pendingNodesAdd d))
    (delete a (pendingNodesDel d)) in
  PutDetail a m (d, db) =
    match Marshal m with
    | inr b => ((d', db_set db (PrefixDetailsKey a) b), Ok tt)
    | inl e => ((d', db), Err e)
    end.
Proof.
  unfold PutDetail, modify, bind, lift, zoom. destruct (Marshal m) as [e|b]; [done|].
  cbn [of_result view over lens_snd snd fst]. by rewrite Put_run.
Qed.

Definition details_coherent (db : DB) (d : detailsState) : Prop :=
  coherent PrefixDetailsKey db (cache_view (detail_cache d)).

Lemma PutDetail_coherent a m d db d' db' :
  PutDetail a m (d, db) = ((d', db'), Ok tt) -> details_coherent db d ->
  details_coherent db' d' /\
  cache_view (detail_cache d') = <[a := m]> (cache_view (detail_cache d)).
Proof.
  rewrite PutDetail_run. destruct (Marshal m) as [e|b] eqn:Hb; intros Hrun Hc; [done|].
  injection Hrun as <- <-. unfold details_coherent.
  change (detail_cache (mkDetailsState _ _ _)) with (cache_put a m (detail_cache d)).
  rewrite cache_view_put. split; [|done]. by apply coherent_put; [apply _|..].
Qed.

Lemma load_all_keyed {K V} `{Countable K} `{!Codec V} (ident : V -> K) l (cur r : gmap K V) u k v :
  load_all ident l cur = (r, u) -> r !! k = Some v ->
  cur !! k = Some v \/ (ident v = k /\ exists kb, kb ∈ l /\ Unmarshal kb.2 = inr v).
Proof.
  revert cur. induction l as [|[k0 b0] l IH]; intros cur; simpl; [intros [= -> _]; by left|].
  destruct (Unmarshal b0) as [e|v0] eqn:Hb0; [intros [= -> _]; by left|].
  intros Hrun Hv. apply IH in Hrun as [Hcur|(Hid & kb & Hin & Hu)]; [|right; set_solver|done].
  apply lookup_insert_Some in Hcur as [[<- <-]|[_ Hcur]]; [right|by left].
  split; [done|]. exists (k0, b0). split; [set_solver|done].
Qed.

(** The node parameters are written under the work address and read back under
    the stake address: after a restart the parameters of a node are found under
    its stake address only, and every node of the database is found there. *)
Theorem details_restart_by_stake db d :
  own_keys (fun k => is_Some (db_lookup db k)) -> details_coherent db d ->
  exists d', NewDetailstate db = (d', Ok tt) /\
    (forall a m, GetDetailMeta d' a = Some m -> Detail_StakeAddress m = a /\
       exists w, GetDetailMeta (CacheDetailsCommit d) w = Some m) /\
    (forall w m, GetDetailMeta (CacheDetailsCommit d) w = Some m ->
       is_Some (GetDetailMeta d' (Detail_StakeAddress m))).
Proof.
  intros Hown Hc. set (V := cache_view (detail_cache d)).
  assert (curNodes (CacheDetailsCommit d) = V) as HV by done.
  unfold NewDetailstate, ReloadDetails, GetDetailMeta. rewrite HV.
  assert (forall kb, kb ∈ db_iter_prefix db baseDetailsPrefix ->
    exists v w, Unmarshal kb.2 = inr v /\ V !! w = Some v) as Hall.
  { intros [kb b] Hin. apply db_iter_prefix_spec in Hin as [Hp Hlk].
    destruct (Hown kb) as (k & _ & ->); [by eexists|]. destruct (under_details k Hp) as [w ->].
    specialize (Hc w). fold V in Hc. cbn [render] in Hlk.
    destruct (V !! w) as [v|] eqn:Hw; [|congruence]. destruct Hc as (b' & Hb & Hlk').
    exists v, w. split; [|done]. apply Unmarshal_Marshal. simpl. congruence. }
  assert (forall l (cur : gmap Address DetailMeta),
    (forall kb, kb ∈ l -> exists v w, Unmarshal kb.2 = inr v /\ V !! w = Some v) ->
    exists r, load_all Detail_StakeAddress l cur = (r, inr tt) /\
      (forall a, is_Some (cur !! a) -> is_Some (r !! a)) /\
      forall kb v, kb ∈ l -> Unmarshal kb.2 = inr v -> is_Some (r !! Detail_StakeAddress v)) as Hload.
  { clear. induction l as [|[k0 b0] l IH]; intros cur Hl; [exists cur; set_solver|].
    destruct (Hl (k0, b0) ltac:(set_solver)) as (v0 & w0 & Hv0 & _). simpl in *. rewrite Hv0.
    destruct (IH (<[Detail_StakeAddress v0 := v0]> cur)) as (r & Hr & Hgrow & Hin); [set_solver|].
    exists r. split; [done|]. split.
    - intros a Ha. apply Hgrow, lookup_insert_is_Some'. by right.
    - intros kb v [->|Hkb]%elem_of_cons Hu; [|by eapply Hin]. simpl in Hu.
      assert (v = v0) as -> by congruence. apply Hgrow, lookup_insert_is_Some'. by left. }
  destruct (Hload _ ∅ Hall) as (r & Hr & _ & Hin). simpl curNodes. rewrite Hr.
  exists (mkDetailsState r ∅ ∅). split_and!; [done|..]; cbn [curNodes].
  - intros a m Hm. eapply load_all_keyed in Hr as [Hr|(Hid & kb & Hkb & Hu)]; [|..|done];
      [by rewrite lookup_empty in Hr|].
    split; [done|]. destruct (Hall kb Hkb) as (v & w & Hv & Hw). exists w. congruence.
  - intros w m Hw. pose proof (Hc w) as Hcw. fold V in Hcw. rewrite Hw in Hcw.
    destruct Hcw as (b & Hb & Hlk). eapply (Hin (PrefixDetailsKey w, b));
      [apply db_iter_prefix_spec; split; [by exists (array w)|done]|by apply Unmarshal_Marshal].
Qed.
End detail_facts.
