(* ===== verification/SysParams.v ===== *)
(** * chain/system_params.go: the governed parameters *)

From S2P Require Import Prelude External GoStd PendingCache Instances Keys Genesis.

Definition MinPercentage : Z := 5.
Definition MaxPercentage : Z := 95.

Record SysParamsMeta := mkSysParamsMeta {
  Sys_Symbol : string;
  Sys_TotalTokens : Z;
  Sys_ClaimMinUnits : Z;
  Sys_ClaimMinInterval : Z;
  Sys_TotalYears : Z;
  Sys_RateSustainYears : Z;
  Sys_ChainCreateTime : Z;
  Sys_MinerPerc : Z;
  Sys_FoundationPerc : Z;
  Sys_RoutePerc : Z;
  Sys_SerPerc : Z;
  Sys_ValidatorPerc : Z;
  Sys_BaseSerPerc : Z;
  Sys_MeritSerPerc : Z;
  Sys_BaseRoutePerc : Z;
  Sys_MeritRoutePerc : Z;
  Sys_RouteStakeAmount : Z;
  Sys_SerStakeAmount : Z;
  Sys_MinStakeTime : Z;
  Sys_MonthCard : Z;
  Sys_SeasonCard : Z;
  Sys_AnnualCard : Z;
  Sys_BurnPerc : Z;
  Sys_RootAddress : string;
  Sys_FoundationAddr : string;
  Sys_UpdateTime : Z;
  Sys_UpdateTxID : ID
}.
#[global] Instance packable_SysParamsMeta : Packable SysParamsMeta :=
  packable_via (fun m => (
      (Sys_Symbol m, Sys_TotalTokens m, Sys_ClaimMinUnits m, Sys_ClaimMinInterval m,
       Sys_TotalYears m, Sys_RateSustainYears m, Sys_ChainCreateTime m, Sys_MinerPerc m,
       Sys_FoundationPerc m, Sys_RoutePerc m, Sys_SerPerc m, Sys_ValidatorPerc m, Sys_BaseSerPerc m),
      (Sys_MeritSerPerc m, Sys_BaseRoutePerc m, Sys_MeritRoutePerc m, Sys_RouteStakeAmount m,
       Sys_SerStakeAmount m, Sys_MinStakeTime m, Sys_MonthCard m, Sys_SeasonCard m, Sys_AnnualCard m,
       Sys_BurnPerc m, Sys_RootAddress m, Sys_FoundationAddr m, Sys_UpdateTime m, Sys_UpdateTxID m)))
    (fun '((a, b, c, d, e, f, g, h, i, j, k, l, m), (n, o, p, q, r, s, t, u, v, w, x, y, z, aa)) =>
      mkSysParamsMeta a b c d e f g h i j k l m n o p q r s t u v w x y z aa)
    ltac:(by intros []).

Record sysParams := mkSysParams {
  curParams : SysParamsMeta;
  pendingParams : SysParamsMeta
}.

Definition zeroParams : SysParamsMeta :=
  mkSysParamsMeta "" 0 0 0 0 0 0 0 0 0 0 0 0 0 0 0 0 0 0 0 0 0 0 "" "" 0 EmptyID.

(** The fields [NewSysParamsState] copies; the others keep their zero value. *)
Definition params_of_genesis (g : Genesis) : SysParamsMeta := {|
  Sys_Symbol := "";
  Sys_TotalTokens := Genesis_TotalTokens g;
  Sys_ClaimMinUnits := Genesis_ClaimMinUnits g;
  Sys_ClaimMinInterval := Genesis_ClaimMinInterval g;
  Sys_TotalYears := Genesis_TotalYears g;
  Sys_RateSustainYears := Genesis_RateSustainYears g;
  Sys_ChainCreateTime := Genesis_ChainCreateTime g;
  Sys_MinerPerc := Genesis_MinerPerc g;
  Sys_FoundationPerc := 0;
  Sys_RoutePerc := Genesis_RoutePerc g;
  Sys_SerPerc := Genesis_SerPerc g;
  Sys_ValidatorPerc := 0;
  Sys_BaseSerPerc := Genesis_BaseSerPerc g;
  Sys_MeritSerPerc := Genesis_MeritSerPerc g;
  Sys_BaseRoutePerc := Genesis_BaseRoutePerc g;
  Sys_MeritRoutePerc := Genesis_MeritRoutePerc g;
  Sys_RouteStakeAmount := Genesis_RouteStake g;
  Sys_SerStakeAmount := Genesis_SerStake g;
  Sys_MinStakeTime := Genesis_MinStakeTime g;
  Sys_MonthCard := Genesis_MonthCard g;
  Sys_SeasonCard := Genesis_SeasonCard g;
  Sys_AnnualCard := Genesis_AnnualCard g;
  Sys_BurnPerc := Genesis_BurnPerc g;
  Sys_RootAddress := Genesis_RootAddress g;
  Sys_FoundationAddr := "";
  Sys_UpdateTime := 0;
  Sys_UpdateTxID := EmptyID
|}.

(** ** The getters *)
Definition GetChainSymbol (s : sysParams) : string := Sys_Symbol (curParams s).
Definition GetChainTokenAmount (s : sysParams) : Z :=
  (Sys_TotalTokens (curParams s) / 100) *u Sys_MinerPerc (curParams s).
Definition GetPercRoute (s : sysParams) : Z := Sys_RoutePerc (curParams s).
Definition GetPercSer (s : sysParams) : Z := Sys_SerPerc (curParams s).
Definition GetPercValidator (s : sysParams) : Z := Sys_ValidatorPerc (curParams s).
Definition GetRoutePercBase (s : sysParams) : Z := Sys_BaseRoutePerc (curParams s).
Definition GetRoutePercMerit (s : sysParams) : Z := Sys_MeritRoutePerc (curParams s).
Definition GetSerPercBase (s : sysParams) : Z := Sys_BaseSerPerc (curParams s).
Definition GetSerPercMerit (s : sysParams) : Z := Sys_MeritSerPerc (curParams s).
Definition GetPercBurn (s : sysParams) : Z := Sys_BurnPerc (curParams s).
Definition GetPercFoundation (s : sysParams) : Z := Sys_FoundationPerc (curParams s).
Definition GetTotalYears (s : sysParams) : Z := Sys_TotalYears (curParams s).
Definition GetRateSustainYears (s : sysParams) : Z := Sys_RateSustainYears (curParams s).
Definition GetChainCreateTime (s : sysParams) : Z := Sys_ChainCreateTime (curParams s).
Definition GetMonthCardPrice (s : sysParams) : Z := Sys_MonthCard (curParams s).
Definition GetSeasonCardPrice (s : sysParams) : Z := Sys_SeasonCard (curParams s).
Definition GetAnnualCardPrice (s : sysParams) : Z := Sys_AnnualCard (curParams s).
Definition GetRootAddress (s : sysParams) : string := Sys_RootAddress (curParams s).
Definition GetFoundationAddress (s : sysParams) : string := Sys_FoundationAddr (curParams s).
Definition GetMinStakeTime (s : sysParams) : Z := Sys_MinStakeTime (curParams s).
Definition GetSysParams (s : sysParams) : SysParamsMeta := curParams s.

(** ** Field updates *)
Definition set_update (tx : ID) (time : Z) (m : SysParamsMeta) : SysParamsMeta :=
  let '(mkSysParamsMeta a b c d e f g h i j k l mm n o p q r s t u v w x y _ _) := m in
  mkSysParamsMeta a b c d e f g h i j k l mm n o p q r s t u v w x y time tx.
Definition set_route_ser (rp sp : Z) (m : SysParamsMeta) : SysParamsMeta :=
  let '(mkSysParamsMeta a b c d e f g h i _ _ l mm n o p q r s t u v w x y z zz) := m in
  mkSysParamsMeta a b c d e f g h i rp sp l mm n o p q r s t u v w x y z zz.
Definition set_route_split (base merit : Z) (m : SysParamsMeta) : SysParamsMeta :=
  let '(mkSysParamsMeta a b c d e f g h i j k l mm n _ _ q r s t u v w x y z zz) := m in
  mkSysParamsMeta a b c d e f g h i j k l mm n base merit q r s t u v w x y z zz.
Definition set_ser_split (base merit : Z) (m : SysParamsMeta) : SysParamsMeta :=
  let '(mkSysParamsMeta a b c d e f g h i j k l _ _ o p q r s t u v w x y z zz) := m in
  mkSysParamsMeta a b c d e f g h i j k l base merit o p q r s t u v w x y z zz.
Definition set_burn (burn : Z) (m : SysParamsMeta) : SysParamsMeta :=
  let '(mkSysParamsMeta a b c d e f g h i j k l mm n o p q r s t u v _ x y z zz) := m in
  mkSysParamsMeta a b c d e f g h i j k l mm n o p q r s t u v burn x y z zz.
Definition set_total_tokens (n : Z) (m : SysParamsMeta) : SysParamsMeta :=
  let '(mkSysParamsMeta a _ c d e f g h i j k l mm nn o p q r s t u v w x y z zz) := m in
  mkSysParamsMeta a n c d e f g h i j k l mm nn o p q r s t u v w x y z zz.

(** The key switch of [ModifyParams], on the new percentage. *)
Definition apply_param (key : string) (newPerc : Z) (m : SysParamsMeta) : option SysParamsMeta :=
  let rest := u32 (100 - newPerc) in
  if String.eqb key "routePerc" then Some (set_route_ser newPerc rest m)
  else if String.eqb key "serPerc" then Some (set_route_ser rest newPerc m)
  else if String.eqb key "routeBase" then Some (set_route_split newPerc rest m)
  else if String.eqb key "routeMerit" then Some (set_route_split rest newPerc m)
  else if String.eqb key "serBase" then Some (set_ser_split newPerc rest m)
  else if String.eqb key "serMerit" then Some (set_ser_split rest newPerc m)
  else if String.eqb key "burn" then Some (set_burn newPerc m)
  else None.

(** The key switch of [CompCurParam]. *)
Definition cur_param (key : string) (m : SysParamsMeta) : option Z :=
  if String.eqb key "routePerc" then Some (Sys_RoutePerc m)
  else if String.eqb key "serPerc" then Some (Sys_SerPerc m)
  else if String.eqb key "routeBase" then Some (Sys_BaseRoutePerc m)
  else if String.eqb key "routeMerit" then Some (Sys_MeritRoutePerc m)
  else if String.eqb key "serBase" then Some (Sys_BaseSerPerc m)
  else if String.eqb key "serMerit" then Some (Sys_MeritSerPerc m)
  else if String.eqb key "burn" then Some (Sys_BurnPerc m)
  else None.

Definition CompCurParam (s : sysParams) (key newValue : string) : result unit :=
  match ParseUint newValue with
  | inl e => inl (Wrapf e "failed to parse newValue")
  | inr newPerc =>
      match cur_param key (curParams s) with
      | None => inl (Errorf "err key")
      | Some oldPerc => if oldPerc =? newPerc then inl (Errorf "equal CurParam") else inr tt
      end
  end.

Section params.
Context `{Database} `{!Codec SysParamsMeta}.

Definition ModifyParams (key newValue : string) (txID : ID) (updateTime : Z) :
    M (sysParams * DB) unit :=
  let! s := gets fst in
  match ParseUint newValue with
  | inl e => fail (Wrapf e "failed to parse newValue")
  | inr perc =>
      let newPerc := u32 perc in
      check ((MaxPercentage <? newPerc) || (newPerc <? MinPercentage)) (Errorf "percentage err") ;;;
      match apply_param key newPerc (set_update txID updateTime (curParams s)) with
      | None => fail (Errorf "err key")
      | Some ymeta =>
          modify (over (mkSysParams (curParams s) ymeta)) ;;;
          let! pvmeta := lift (Marshal ymeta) in
          zoom (Put PrefixSysParamsKey pvmeta)
      end
  end.

(** Any error of the read is taken for an absent record. *)
Definition ReloadParams : M (sysParams * DB) unit :=
  let! r := attempt (zoom (Get PrefixSysParamsKey)) in
  match r with
  | inl _ => ret tt
  | inr ymeta =>
      let! m := lift (Unmarshal ymeta) in
      modify (fun '(s, db) => (mkSysParams m (pendingParams s), db))
  end.

Definition NewSysParamsState (db : DB) (g : Genesis) : sysParams * outcome unit :=
  match ReloadParams (mkSysParams (params_of_genesis g) zeroParams, db) with
  | ((s, _), Err e) => (s, if decide (e = ErrNotFound) then Ok tt else Err e)
  | ((s, _), r) => (s, r)
  end.
End params.

Definition CacheParamsCommit (s : sysParams) : sysParams :=
  if negb (Sys_TotalTokens (pendingParams s) =? 0)
  then mkSysParams (pendingParams s) (set_total_tokens 0 (pendingParams s)) else s.
Definition CacheParamsAbort (s : sysParams) : sysParams :=
  mkSysParams (curParams s) (set_total_tokens 0 (pendingParams s)).

Lemma set_total_tokens_total n m : Sys_TotalTokens (set_total_tokens n m) = n.
Proof. by destruct m. Qed.
Lemma set_total_tokens_twice n n' m :
  set_total_tokens n (set_total_tokens n' m) = set_total_tokens n m.
Proof. by destruct m. Qed.

#[export] Instance params_two_phase : TwoPhase sysParams SysParamsMeta := {|
  settled := curParams;
  tp_commit := CacheParamsCommit;
  tp_abort := CacheParamsAbort
|}.
#[export] Instance params_two_phase_laws : TwoPhaseLaws sysParams SysParamsMeta.
Proof.
  split; simpl; intros s; try done; unfold CacheParamsCommit, CacheParamsAbort; simpl.
  - by rewrite set_total_tokens_twice.
  - destruct (Sys_TotalTokens (pendingParams s) =? 0) eqn:He; simpl; [by rewrite He|].
    by rewrite set_total_tokens_total.
  - by rewrite set_total_tokens_total.
Qed.

(** ** Shares that always add up *)

(** Each governed pair of shares sums to 100 and every share stays inside
    [[MinPercentage, MaxPercentage]]. *)
Definition share (p : Z) : Prop := MinPercentage <= p <= MaxPercentage.
Definition shares_ok (m : SysParamsMeta) : Prop :=
  share (Sys_BurnPerc m) /\
  Sys_BaseRoutePerc m + Sys_MeritRoutePerc m = 100 /\ share (Sys_BaseRoutePerc m) /\
  Sys_BaseSerPerc m + Sys_MeritSerPerc m = 100 /\ share (Sys_BaseSerPerc m) /\
  share (Sys_RoutePerc m) /\ share (Sys_SerPerc m) /\ Sys_RoutePerc m + Sys_SerPerc m <= 100.

Lemma apply_param_shares key p m m' :
  MinPercentage <= p <= MaxPercentage -> shares_ok m -> apply_param key p m = Some m' -> shares_ok m'.
Proof.
  unfold shares_ok, share, MinPercentage, MaxPercentage. intros Hp Hm.
  assert (u32 (100 - p) = 100 - p) as Hrest by (apply u32_small; unfold is_u32; lia).
  unfold apply_param. rewrite Hrest. destruct m; cbn in Hm.
  repeat (case_match; [intros [= <-]; cbn; lia|]). done.
Qed.

Section param_facts.
Context `{DatabaseLaws} `{CodecLaws SysParamsMeta}.

Lemma ModifyParams_run key v tx t s db :
  ModifyParams key v tx t (s, db) =
    match ParseUint v with
    | inl e => ((s, db), Err (Wrapf e "failed to parse newValue"))
    | inr perc =>
        if (MaxPercentage <? u32 perc) || (u32 perc <? MinPercentage)
        then ((s, db), Err (Errorf "percentage err"))
        else match apply_param key (u32 perc) (set_update tx t (curParams s)) with
          | None => ((s, db), Err (Errorf "err key"))
          | Some m =>
              match Marshal m with
              | inl e => ((mkSysParams (curParams s) m, db), Err e)
              | inr b => ((mkSysParams (curParams s) m, db_set db PrefixSysParamsKey b), Ok tt)
              end
          end
    end.
Proof.
  unfold ModifyParams, gets, bind. cbn [fst]. destruct (ParseUint v) as [e|perc]; [done|].
  unfold check.
  destruct ((MaxPercentage <? u32 perc) || (u32 perc <? MinPercentage)); [done|]. unfold ret.
  destruct (apply_param _ _ _) as [m|]; [|done]. unfold modify, lift, zoom.
  destruct (Marshal m) as [e|b]; [done|]. cbn [of_result view over lens_snd lens_fst snd fst].
  by rewrite Put_run.
Qed.

Lemma shares_ok_update tx t m : shares_ok (set_update tx t m) <-> shares_ok m.
Proof. by destruct m. Qed.

(** C37: Governance keeps the shares well formed, whatever key and text a proposal
    carries, and a successful change survives a commit and a restart. *)
Theorem ModifyParams_shares key v tx t s db g :
  shares_ok (curParams s) -> Sys_TotalTokens (curParams s) <> 0 ->
  let '((s', db'), r) := ModifyParams key v tx t (s, db) in
  curParams s' = curParams s /\
  (r = Ok tt -> let s'' := CacheParamsCommit s' in
    shares_ok (curParams s'') /\ Sys_UpdateTxID (curParams s'') = tx /\
    Sys_TotalTokens (curParams s'') = Sys_TotalTokens (curParams s) /\
    exists p, NewSysParamsState db' g = (mkSysParams (curParams s'') p, Ok tt)).
Proof.
  intros Hs Htok. rewrite ModifyParams_run.
  destruct (ParseUint v) as [e|perc]; [done|].
  destruct ((MaxPercentage <? u32 perc) || (u32 perc <? MinPercentage)) eqn:Hrange; [done|].
  apply orb_false_iff in Hrange as [Hmax%Z.ltb_ge Hmin%Z.ltb_ge].
  destruct (apply_param key (u32 perc) _) as [m|] eqn:Ha; [|done].
  destruct (Marshal m) as [e|b] eqn:Hb; (split; [done|]); [done|]. intros _.
  assert (Sys_TotalTokens m = Sys_TotalTokens (curParams s) /\ Sys_UpdateTxID m = tx) as [Ht Hx].
  { revert Ha. unfold apply_param. destruct (curParams s); cbn.
    repeat (case_match; [intros [= <-]; done|]). done. }
  unfold CacheParamsCommit. cbn [pendingParams].
  destruct (Z.eqb_spec (Sys_TotalTokens m) 0) as [Hz|Hz]; [congruence|]. cbn [negb curParams].
  split_and!; [|done|done|].
  - eapply apply_param_shares; [split; eassumption| |exact Ha]. by apply shares_ok_update.
  - unfold NewSysParamsState, ReloadParams, attempt, bind, zoom.
    cbn [view lens_snd snd]. rewrite Get_run, lookup_set_eq. unfold lift, of_result.
    rewrite (Unmarshal_Marshal _ _ Hb). by eexists.
Qed.

(** The range check looks at the low 32 bits only: a value far out of range is
    accepted when its low part is a percentage, although [CompCurParam] has
    compared the whole value. *)
Theorem ModifyParams_truncates n tx t s db b :
  MinPercentage <= n <= MaxPercentage ->
  Marshal (set_burn n (set_update tx t (curParams s))) = inr b ->
  let v := FormatUint (2 ^ 32 + n) in
  CompCurParam s "burn" v <> inl (Errorf "percentage err") /\
  ModifyParams "burn" v tx t (s, db) =
    ((mkSysParams (curParams s) (set_burn n (set_update tx t (curParams s))),
      db_set db PrefixSysParamsKey b), Ok tt).
Proof.
  intros Hn Hb v. unfold MinPercentage, MaxPercentage in Hn.
  assert (ParseUint v = inr (2 ^ 32 + n)) as Hv by
    (apply ParseUint_FormatUint; unfold is_u64; lia).
  assert (u32 (2 ^ 32 + n) = n) as Hu.
  { unfold u32. rewrite Z.add_comm, <- (Z.mul_1_l (2 ^ 32)) at 1.
    rewrite Z_mod_plus_full, Z.mod_small by lia. done. }
  split.
  - unfold CompCurParam. rewrite Hv. simpl. by case_match.
  - rewrite ModifyParams_run, Hv, Hu. unfold MinPercentage, MaxPercentage.
    rewrite (proj2 (Z.ltb_ge _ _)), (proj2 (Z.ltb_ge _ _)) by lia. simpl. by rewrite Hb.
Qed.
End param_facts.

(** A chain started from the default genesis has no foundation address and gives
    the foundation and the validators no share. *)
Lemma default_params_unset g :
  let m := params_of_genesis g in
  Sys_FoundationPerc m = 0 /\ Sys_ValidatorPerc m = 0 /\ Sys_FoundationAddr m = "" /\ Sys_Symbol m = "".
Proof. done. Qed.
