(* ===== verification/SamaState.v ===== *)
(** * chain/state.go: the chain state and the operations across its parts

    [samaState] embeds the nine sub-states; a [world] adds the database the
    transaction writes to and the number of clock readings made so far, so that
    each operation of a sub-state is run on its part with [zoom]. *)

From S2P Require Import Prelude External GoStd PendingCache Instances Keys Storage Genesis.
From S2P Require Import Stakers Pows Rewards Actions Users Details SysParams.

Definition SecondsYear : Z := 364 * 24 * 60 * 60.
Definition SecondsMonth : Z := 30 * 24 * 60 * 60.
Definition SecondsDay : Z := 24 * 60 * 60.
Definition Seconds7Day : Z := 7 * 24 * 60 * 60.
Definition SecondsMinute : Z := 60.

(** The codec at every type the chain stores. *)
Class ChainCodecs := {
  codec_staker :: Codec StakerMeta;
  codec_pow :: Codec PowMeta;
  codec_reward :: Codec RewardMeta;
  codec_global :: Codec RewardGlobal;
  codec_yield :: Codec YieldMeta;
  codec_action :: Codec ActionMeta;
  codec_user :: Codec UserMeta;
  codec_user_type :: Codec UserType;
  codec_detail :: Codec DetailMeta;
  codec_params :: Codec SysParamsMeta;
  codec_value :: Codec ValueMeta
}.
Class ChainCodecLaws `{ChainCodecs} : Prop := {
  codec_laws_staker :: CodecLaws StakerMeta;
  codec_laws_pow :: CodecLaws PowMeta;
  codec_laws_reward :: CodecLaws RewardMeta;
  codec_laws_global :: CodecLaws RewardGlobal;
  codec_laws_yield :: CodecLaws YieldMeta;
  codec_laws_action :: CodecLaws ActionMeta;
  codec_laws_user :: CodecLaws UserMeta;
  codec_laws_user_type :: CodecLaws UserType;
  codec_laws_detail :: CodecLaws DetailMeta;
  codec_laws_params :: CodecLaws SysParamsMeta;
  codec_laws_value :: CodecLaws ValueMeta
}.
Class ChainCodecTotal `{ChainCodecs} : Prop := {
  codec_total_staker :: CodecTotal StakerMeta;
  codec_total_pow :: CodecTotal PowMeta;
  codec_total_reward :: CodecTotal RewardMeta;
  codec_total_global :: CodecTotal RewardGlobal;
  codec_total_yield :: CodecTotal YieldMeta;
  codec_total_action :: CodecTotal ActionMeta;
  codec_total_user :: CodecTotal UserMeta;
  codec_total_user_type :: CodecTotal UserType;
  codec_total_detail :: CodecTotal DetailMeta;
  codec_total_params :: CodecTotal SysParamsMeta;
  codec_total_value :: CodecTotal ValueMeta
}.
Definition sample_codecs : ChainCodecs := {|
  codec_staker := _; codec_pow := _; codec_reward := _; codec_global := _; codec_yield := _;
  codec_action := _; codec_user := _; codec_user_type := _; codec_detail := _;
  codec_params := _; codec_value := _
|}.
Lemma sample_codec_laws : @ChainCodecLaws sample_codecs.
Proof. split; exact packable_codec_laws. Qed.

Lemma sample_codec_total : @ChainCodecTotal sample_codecs.
Proof. split; exact packable_codec_total. Qed.

Record samaState `{Cacher Address UserMeta} := mkSamaState {
  st_params : sysParams;
  st_stakers : stakerState;
  st_rewards : rewardState;
  st_pows : powState;
  st_yields : yieldsState;
  st_users : usersState;
  st_details : detailsState;
  st_actions : actionsState;
  st_userTypes : userTypesState
}.
Arguments samaState {_}.
Arguments mkSamaState {_}.

Record world `{Database} `{Cacher Address UserMeta} := mkWorld {
  w_db : DB;
  w_sama : samaState;
  w_tick : nat
}.
Arguments world {_ _}.
Arguments mkWorld {_ _}.

(** ** The parts of the world *)
Section lenses.
Context `{Database} `{Cacher Address UserMeta}.

Definition with_sama (f : samaState -> samaState) (w : world) : world :=
  mkWorld (w_db w) (f (w_sama w)) (w_tick w).

#[export] Instance lens_db : Lens world DB :=
  {| view := w_db; over db w := mkWorld db (w_sama w) (w_tick w) |}.
#[export] Instance lens_params : Lens world (sysParams * DB) := {|
  view w := (st_params (w_sama w), w_db w);
  over p w := let s := w_sama w in mkWorld p.2 (mkSamaState p.1 (st_stakers s) (st_rewards s)
    (st_pows s) (st_yields s) (st_users s) (st_details s) (st_actions s) (st_userTypes s)) (w_tick w) |}.
#[export] Instance lens_stakers : Lens world (stakerState * DB) := {|
  view w := (st_stakers (w_sama w), w_db w);
  over p w := let s := w_sama w in mkWorld p.2 (mkSamaState (st_params s) p.1 (st_rewards s)
    (st_pows s) (st_yields s) (st_users s) (st_details s) (st_actions s) (st_userTypes s)) (w_tick w) |}.
#[export] Instance lens_rewards : Lens world (rewardState * DB) := {|
  view w := (st_rewards (w_sama w), w_db w);
  over p w := let s := w_sama w in mkWorld p.2 (mkSamaState (st_params s) (st_stakers s) p.1
    (st_pows s) (st_yields s) (st_users s) (st_details s) (st_actions s) (st_userTypes s)) (w_tick w) |}.
#[export] Instance lens_pows : Lens world (powState * DB) := {|
  view w := (st_pows (w_sama w), w_db w);
  over p w := let s := w_sama w in mkWorld p.2 (mkSamaState (st_params s) (st_stakers s) (st_rewards s)
    p.1 (st_yields s) (st_users s) (st_details s) (st_actions s) (st_userTypes s)) (w_tick w) |}.
#[export] Instance lens_yields : Lens world (yieldsState * DB) := {|
  view w := (st_yields (w_sama w), w_db w);
  over p w := let s := w_sama w in mkWorld p.2 (mkSamaState (st_params s) (st_stakers s) (st_rewards s)
    (st_pows s) p.1 (st_users s) (st_details s) (st_actions s) (st_userTypes s)) (w_tick w) |}.
#[export] Instance lens_users : Lens world (usersState * DB) := {|
  view w := (st_users (w_sama w), w_db w);
  over p w := let s := w_sama w in mkWorld p.2 (mkSamaState (st_params s) (st_stakers s) (st_rewards s)
    (st_pows s) (st_yields s) p.1 (st_details s) (st_actions s) (st_userTypes s)) (w_tick w) |}.
#[export] Instance lens_details : Lens world (detailsState * DB) := {|
  view w := (st_details (w_sama w), w_db w);
  over p w := let s := w_sama w in mkWorld p.2 (mkSamaState (st_params s) (st_stakers s) (st_rewards s)
    (st_pows s) (st_yields s) (st_users s) p.1 (st_actions s) (st_userTypes s)) (w_tick w) |}.
#[export] Instance lens_actions : Lens world (actionsState * DB) := {|
  view w := (st_actions (w_sama w), w_db w);
  over p w := let s := w_sama w in mkWorld p.2 (mkSamaState (st_params s) (st_stakers s) (st_rewards s)
    (st_pows s) (st_yields s) (st_users s) (st_details s) p.1 (st_userTypes s)) (w_tick w) |}.
#[export] Instance lens_user_types : Lens world (userTypesState * DB) := {|
  view w := (st_userTypes (w_sama w), w_db w);
  over p w := let s := w_sama w in mkWorld p.2 (mkSamaState (st_params s) (st_stakers s) (st_rewards s)
    (st_pows s) (st_yields s) (st_users s) (st_details s) (st_actions s) p.1) (w_tick w) |}.

(** [time.Now()]: every reading is a new one. *)
Definition clock `{GoRuntime} : M world Z := fun w =>
  (mkWorld (w_db w) (w_sama w) (S (w_tick w)), Ok (time_Now (w_tick w))).

Definition the {A} (f : samaState -> A) : M world A := gets (fun w => f (w_sama w)).
End lenses.

(** ** Commit and Abort *)
Section commit.
Context `{Cacher Address UserMeta} `{GoRuntime}.

Definition samaState_Commit (s : samaState) : samaState := {|
  st_rewards := CacheRewardsCommit (st_rewards s);
  st_stakers := CacheStakersCommit (st_stakers s);
  st_details := CacheDetailsCommit (st_details s);
  st_actions := CacheActionsCommit (st_actions s);
  st_users := CacheUsersCommit (st_users s);
  st_pows := CachePowsCommit (st_pows s);
  st_yields := CacheYieldsCommit (st_yields s);
  st_params := CacheParamsCommit (st_params s);
  st_userTypes := CacheUserTypesCommit (st_userTypes s)
|}.
Definition samaState_Abort (s : samaState) : samaState := {|
  st_rewards := CacheRewardsAbort (st_rewards s);
  st_actions := CacheActionsAbort (st_actions s);
  st_users := CacheUsersAbort (st_users s);
  st_details := CacheDetailsAbort (st_details s);
  st_pows := CachePowsAbort (st_pows s);
  st_params := CacheParamsAbort (st_params s);
  st_yields := CacheYieldsAbort (st_yields s);
  st_userTypes := CacheUserTypesAbort (st_userTypes s);
  st_stakers := CacheStakersAbort (st_stakers s)
|}.

(** What the getters read. *)
Definition sama_settled (s : samaState) :=
  (settled (C := SysParamsMeta) (st_params s),
   settled (C := staker_map * staker_map * staker_map) (st_stakers s),
   settled (C := RewardGlobal * gmap Address RewardMeta) (st_rewards s),
   settled (C := pow_map * pow_map) (st_pows s),
   settled (C := YieldMeta) (st_yields s), curUsers (st_users s),
   settled (C := gmap Address DetailMeta) (st_details s),
   settled (C := gmap ShortID ActionMeta) (st_actions s),
   settled (C := gmap Z UserType) (st_userTypes s)).
End commit.

(** ** SamaNew *)
Section start.
Context `{Database} `{Cacher Address UserMeta} `{GoRuntime} `{ChainCodecs}.

Definition SamaNew (db : DB) (g : Genesis) (tick : nat) : outcome samaState :=
  match NewSysParamsState db g with
  | (_, Err e) => Err e | (_, Panic p) => Panic p
  | (sysParams, Ok _) =>
  match NewStakerState db with
  | (_, Err e) => Err e | (_, Panic p) => Panic p
  | (stakeState, Ok _) =>
  match NewRewardState db with
  | (_, Err e) => Err e | (_, Panic p) => Panic p
  | (rewardState, Ok _) =>
  match NewPowState db with
  | (_, Err e) => Err e | (_, Panic p) => Panic p
  | (powState, Ok _) =>
  match NewYieldsState db with
  | (_, Err e) => Err e | (_, Panic p) => Panic p
  | (yieldsState, Ok _) =>
  match NewUserstate db with
  | (_, Err e) => Err e | (_, Panic p) => Panic p
  | (usersState, Ok _) =>
  match NewDetailstate db with
  | (_, Err e) => Err e | (_, Panic p) => Panic p
  | (detailsState, Ok _) =>
  match NewActionsState tick db with
  | (_, Err e) => Err e | (_, Panic p) => Panic p
  | (actionsState, Ok _) =>
  match NewUserTypesState db with
  | (_, Err e) => Err e | (_, Panic p) => Panic p
  | (userTypesState, Ok _) =>
      Ok (mkSamaState sysParams stakeState rewardState powState yieldsState usersState
            detailsState actionsState userTypesState)
  end end end end end end end end end.
End start.

(** ** Rewards *)

(** Integer division of [uint64]s. *)
Definition udiv (a b : Z) : outcome Z := if b =? 0 then Panic DivideByZero else Ok (a / b).

Definition obind {A B} (x : outcome A) (f : A -> outcome B) : outcome B :=
  match x with Ok a => f a | Err e => Err e | Panic p => Panic p end.
Notation "'try!' x := m 'in' k" := (obind m (fun x => k))
  (at level 10, x name, m at level 100, k at level 200) : go_scope.

Section rewards.
Context `{Cacher Address UserMeta} `{GoRuntime} `{Ethereum}.
Implicit Types (s : samaState).

(** [for i := 0; i < n; i++ { total += uint64(math.Pow(0.8, float64(i))) }] *)
Fixpoint pow_sum (n : nat) (i total : Z) : Z :=
  match n with
  | O => total
  | S n' => pow_sum n' (i + 1) (total +u f64_to_uint float_to_uint_oob (math_Pow f64_0_8 i))
  end.

Definition RewardCurYear s (index : Z) : outcome Z :=
  let totalYears := GetTotalYears (st_params s) in
  let changeYears := GetRateSustainYears (st_params s) in
  let totalTokens := GetChainTokenAmount (st_params s) in
  try! n := udiv totalYears changeYears in
  let total := pow_sum (Z.to_nat n) 0 0 in
  let quota := if negb (index =? 0) then math_Pow f64_0_8 index else f64_one in
  let totalReward := f64_div (f64_mul (float64_of_uint totalTokens) quota) (float64_of_uint total) in
  Ok (f64_to_uint float_to_uint_oob totalReward).

Definition StakePercentage s (stakerType : byte) : Z :=
  if decide (stakerType = stakerTypeRoute) then GetPercRoute (st_params s)
  else if decide (stakerType = stakerTypeSer) then GetPercSer (st_params s)
  else if decide (stakerType = stakerTypeValidator) then GetPercValidator (st_params s)
  else 0.

Definition StakersNum s (stakerType : byte) : Z :=
  let '(routes, sers, validators) := GetStakersNum (st_stakers s) in
  if decide (stakerType = stakerTypeRoute) then Z.of_nat routes
  else if decide (stakerType = stakerTypeSer) then Z.of_nat sers
  else if decide (stakerType = stakerTypeValidator) then Z.of_nat validators
  else 0.

Definition StakePowMinutes s (stakerType : byte) (address : Address) : Z :=
  match GetPowMeta (st_pows s) stakerType address with
  | None => 0
  | Some pow => Pow_TotalTime pow
  end.
Definition ChainTotalPowMinutes s (stakerType : byte) : Z := TotalPowTime (st_pows s) stakerType.

(** The seconds of year [i] between [startTime] and [endTime]. *)
Definition work_secs (createTime startTime endTime i : Z) : Z :=
  let tmpStart := createTime +u i *u SecondsYear in
  let tmpEnd := createTime +u (i +u 1) *u SecondsYear in
  if tmpEnd <? endTime then
    if startTime <? tmpStart then tmpEnd -u tmpStart else tmpEnd -u startTime
  else
    if startTime <? tmpStart then endTime -u tmpStart else endTime -u startTime.

(** One iteration of the loop of [StakerReword]; the accumulators are
    [baseReward], [meritReward] and [meritInc]. *)
Definition reword_year s (stakerType : byte) (roleNum : Z) (address : Address)
    (percBase percMerit createTime startTime endTime : Z) (i : Z) (acc : Z * Z * Z) :
    outcome (Z * Z * Z) :=
  let '(baseReward, meritReward, meritInc) := acc in
  try! totalRewardYear := RewardCurYear s (u32 i) in
  let roleTotalYear := (totalRewardYear *u StakePercentage s stakerType) / 100 in
  let workSecs := work_secs createTime startTime endTime i in
  if decide (stakerType = stakerTypeValidator) then
    try! q := udiv roleTotalYear (u64 roleNum *u SecondsYear) in
    Ok (baseReward +u (q *u workSecs), 0, meritInc)
  else
    let baseTotal := (roleTotalYear *u percBase) / 100 in
    let meritTotal := (roleTotalYear *u percMerit) / 100 in
    let meritInc := meritInc +u ((meritTotal / SecondsYear) *u workSecs) in
    try! q := udiv baseTotal (u64 roleNum *u SecondsYear) in
    let baseReward := baseReward +u (q *u workSecs) in
    let totalTime := ChainTotalPowMinutes s stakerType in
    let userTime := StakePowMinutes s stakerType address in
    let meritReward :=
      if negb (totalTime =? 0) then meritReward +u (meritInc *u userTime) / totalTime
      else meritReward in
    Ok (baseReward, meritReward, meritInc).

(** [for i := from; ...; i++], [n] times. *)
Fixpoint year_loop {A} (body : Z -> A -> outcome A) (n : nat) (i : Z) (acc : A) : outcome A :=
  match n with
  | O => Ok acc
  | S n' => try! acc' := body i acc in year_loop body n' (i +u 1) acc'
  end.

(** The number of iterations of [for i := sYear; i < eYear+1; i++]. *)
Definition year_count (createTime startTime endTime : Z) : nat :=
  let sYear := (startTime -u createTime) / SecondsYear in
  let eYear := (endTime -u createTime) / SecondsYear in
  Z.to_nat (eYear +u 1 - sYear).

(** [meritInc] is not reset from one year to the next, as in the source. *)
Definition StakerReword s (stakerType : byte) (roleNum : Z) (address : Address)
    (stakeTime endTime : Z) : outcome (Z * Z * Z) :=
  let '(percBase, percMerit) :=
    if decide (stakerType = stakerTypeRoute) then
      (GetRoutePercBase (st_params s), GetRoutePercMerit (st_params s))
    else if decide (stakerType = stakerTypeSer) then
      (GetSerPercBase (st_params s), GetSerPercMerit (st_params s))
    else if decide (stakerType = stakerTypeValidator) then (100, 0)
    else (0, 0) in
  let '(startTime, baseReward, meritReward, yieldReward) :=
    match GetRewardMeta (st_rewards s) address with
    | Some reward =>
        (Reward_LastOprTime reward, Reward_BaseReward reward, Reward_MeritReward reward,
         Reward_YieldReward reward)
    | None => (stakeTime, 0, 0, 0)
    end in
  let totalYields := GetChainYields (st_yields s) in
  let roleYields := (totalYields *u StakePercentage s stakerType) / 100 in
  try! share := udiv roleYields (u64 roleNum) in
  let yieldReward := yieldReward +u share in
  let createTime := GetChainCreateTime (st_params s) in
  try! acc := year_loop
    (reword_year s stakerType roleNum address percBase percMerit createTime startTime endTime)
    (year_count createTime startTime endTime)
    ((startTime -u createTime) / SecondsYear) (baseReward, meritReward, 0) in
  let '(baseReward, meritReward, _) := acc in
  Ok (baseReward, meritReward, yieldReward).

Definition foundation_year s (createTime startTime endTime i fReward : Z) : outcome Z :=
  try! totalRewardYear := RewardCurYear s (u32 i) in
  let roleTotalYear := (totalRewardYear *u GetPercFoundation (st_params s)) / 100 in
  let workSecs := work_secs createTime startTime endTime i in
  Ok (fReward +u ((roleTotalYear / SecondsYear) *u workSecs)).

(** The sum is computed and dropped: the source returns the constant 0. *)
Definition FoundationReword s (address : Address) (endTime : Z) : outcome Z :=
  let createTime := GetChainCreateTime (st_params s) in
  let startTime :=
    match GetRewardMeta (st_rewards s) address with
    | Some reward => Reward_LastClaimTime reward
    | None => createTime
    end in
  if endTime <? startTime then Err (Errorf "end time err")
  else
    try! fReward := year_loop (foundation_year s createTime startTime endTime)
      (year_count createTime startTime endTime) ((startTime -u createTime) / SecondsYear) 0 in
    let _ := fReward in
    Ok 0.

Definition CalcReward s (claimerType : byte) (address : Address) (endTime : Z) :
    outcome (Z * Z * Z) :=
  if decide (claimerType = x00) then
    let foundation := GetFoundationAddress (st_params s) in
    if decide (address <> HexToAddress foundation) then
      Err (Errorf "address or claimer type  err")
    else
      try! base := FoundationReword s address endTime in Ok (base, 0, 0)
  else
    match GetStakerMeta (st_stakers s) claimerType address with
    | None => Err (Errorf "GetStakerMeta err")
    | Some staker =>
        if endTime <? Staker_StakeTime staker then Err (Errorf "endTime err")
        else
          StakerReword s (byte_of_Z (Staker_StakerType staker)) (StakersNum s claimerType)
            (Staker_StakerAddr staker) (Staker_StakeTime staker) endTime
    end.

(** ** Checks *)

Definition CheckClaimAddress s (address : Address) : bool * byte :=
  let '(ok, stakerType) := IsStaker (st_stakers s) address in
  if ok : bool then (true, stakerType)
  else
    let foundation := GetFoundationAddress (st_params s) in
    if decide (address = HexToAddress foundation) then (true, x00) else (false, x00).

(** The loop stops at the first node whose key gives the address, and fails at
    the first key that does not decode. *)
Fixpoint valid_work_loop s (address : Address) (nodes : list DetailMeta) : result (bool * byte) :=
  match nodes with
  | [] => inr (false, x00)
  | node :: nodes' =>
      match hex_DecodeString (Detail_WorkKey node) with
      | inl e => inl e
      | inr pbkb =>
          match UnmarshalPubkey pbkb with
          | inl e => inl e
          | inr pbk =>
              if decide (PubkeyToAddress pbk = address) then
                if Detail_StakerType node =? Z_of_byte stakerTypeRoute then
                  inr (IsRoute (st_stakers s) (Detail_StakeAddress node),
                       byte_of_Z (Detail_StakerType node))
                else if Detail_StakerType node =? Z_of_byte stakerTypeSer then
                  inr (IsSer (st_stakers s) (Detail_StakeAddress node),
                       byte_of_Z (Detail_StakerType node))
                else inl (Errorf "type err")
              else valid_work_loop s address nodes'
          end
      end
  end.
Definition IsValidWorkAddress s (address : Address) : result (bool * byte) :=
  valid_work_loop s address (GetDetails (st_details s)).

Definition CheckPayAmount s (userType amount startTime endTime : Z) : bool :=
  if negb ((endTime -u startTime) `mod` SecondsMonth =? 0) then false
  else
    match GetUserType (st_userTypes s) userType with
    | None => false
    | Some pmeta => amount =? UserType_FeeUnits pmeta
    end.
End rewards.

(** ** Operations that write *)
Section operations.
Context `{Database} `{Cacher Address UserMeta} `{GoRuntime} `{Ethereum} `{ChainCodecs}.

Definition UpdateFoundationReward (address : Address) (txID : ID) (endTime : Z) : M world unit :=
  let! s := gets w_sama in
  let lastTime := GetLastUpdateTime (st_rewards s) in
  if endTime <? lastTime then fail ErrEndTimeTooEarly
  else if lastTime =? endTime then ret tt
  else
    let! base := lift_outcome (FoundationReword s address endTime) in
    zoom (UpdateOwner (mkRewardMeta 0 base 0 endTime txID endTime txID address)).

(** The body of the loop of [UpdateStakerReward]. *)
Definition update_staker (s : samaState) (roleNum : Z) (address : Address) (txID : ID)
    (endTime : Z) (staker : StakerMeta) : M world unit :=
  if endTime <=? Staker_StakeTime staker then ret tt
  else
    let! r := lift_outcome (
      if decide (address <> Staker_StakerAddr staker) then
        StakerReword s (byte_of_Z (Staker_StakerType staker)) roleNum (Staker_StakerAddr staker)
          (Staker_StakeTime staker) endTime
      else Ok (0, 0, 0)) in
    let '(base, merit, yield) := r in
    zoom (UpdateOwner
      (mkRewardMeta yield base merit endTime txID endTime txID (Staker_StakerAddr staker))).

Definition UpdateStakerReward (stakerType : byte) (address : Address) (txID : ID) (endTime : Z) :
    M world unit :=
  let! s := gets w_sama in
  let lastTime := GetLastUpdateTime (st_rewards s) in
  if endTime <? lastTime then fail ErrEndTimeTooEarly
  else if lastTime =? endTime then ret tt
  else
    let roleNum := StakersNum s stakerType in
    if roleNum =? 0 then ret tt
    else
      let stakers := GetStakers (st_stakers s) stakerType in
      for_each (update_staker s roleNum address txID endTime) stakers ;;;
      zoom (UpdateGlobal (mkRewardGlobal endTime txID)) ;;;
      zoom (ModifyYields 0 txID endTime).

Definition DealStakeTx (staker : StakerMeta) : M world unit :=
  UpdateStakerReward (byte_of_Z (Staker_StakerType staker)) (Staker_StakerAddr staker)
    (Staker_TxID staker) (Staker_StakeTime staker) ;;;
  zoom (PutStaker staker).

Definition DealUnStakeTx (stakerType : byte) (address : Address) (txID : ID) (endTime : Z) :
    M world unit :=
  UpdateStakerReward stakerType address txID endTime ;;;
  zoom (DelStaker stakerType address).

Definition DealAddUserTx (txID : ID) (blkTime : Z) (user : UserMeta) : M world unit :=
  let! pmate := zoom (GetUserMeta (User_Address user)) in
  let! user' :=
    match pmate with
    | Some p =>
        check ((User_EndTime p +u SecondsMinute <? User_StartTime user) ||
               (User_StartTime user <? User_EndTime p -u SecondsMinute)) (Errorf "start time err") ;;;
        ret (mkUserMeta (User_StartTime p) (User_EndTime user) (User_Connections user)
          (User_PayAmount user) (User_TxsID p) (User_UserType user) (User_Address user))
    | None => ret user
    end in
  let user'' := mkUserMeta (User_StartTime user') (User_EndTime user') (User_Connections user')
    (User_PayAmount user') (User_TxsID user' ++ [txID]) (User_UserType user') (User_Address user') in
  zoom (PutUser user'') ;;;
  let! perc := the (fun s => GetPercBurn (st_params s)) in
  let yield := (User_PayAmount user'' *u u32 (100 - perc)) / 100 in
  zoom (ModifyYields yield txID blkTime).

(** The error of [PutDetail] is dropped. *)
Definition UpdateNodeParams (detail : DetailMeta) : M world unit :=
  let! _ := attempt (zoom (PutDetail (Detail_WorkAddress detail) detail)) in ret tt.

(** [s.GetActionMeta(id)] at the next clock reading. *)
Definition get_action (actionID : ShortID) : M world (option loc) :=
  let! s := the st_actions in
  match curActions s !! actionID with
  | None => ret None
  | Some _ =>
      let! now := clock in
      lift (GetActionMeta now s actionID)
  end.

Definition root_voted (s : samaState) (voters : list Address) : bool :=
  existsb (fun voter => bool_decide (voter = HexToAddress (GetRootAddress (st_params s)))) voters.

Definition IsBeConfirmed (actionType : Z) (key : string) : M world (bool * ShortID) :=
  let! s := gets w_sama in
  let! r := lift (GetVotersNum (st_actions s) actionType key) in
  let '(votersNum, actionID) := r in
  let routeNum := StakersNum s stakerTypeRoute in
  if routeNum <? 3 then
    let! action := get_action actionID in
    match action with
    | None => panics NilDereference
    | Some l =>
        if root_voted s (Action_Voters (load_action (st_actions s) l))
        then ret (true, actionID) else ret (false, EmptyShortID)
    end
  else if routeNum * 2 / 3 <=? votersNum then ret (true, actionID)
  else ret (false, EmptyShortID).

Definition ProposalStatus (actionID : ShortID) : M world bool :=
  let! s := gets w_sama in
  let! action := get_action actionID in
  match action with
  | None => fail (Errorf "not found")
  | Some l =>
      let votersNum := Z.of_nat (length (Action_Voters (load_action (st_actions s) l))) in
      let routeNum := StakersNum s stakerTypeRoute in
      if routeNum <? 3 then
        let! action' := get_action actionID in
        match action' with
        | None => panics NilDereference
        | Some l' => ret (root_voted s (Action_Voters (load_action (st_actions s) l')))
        end
      else ret (routeNum * 2 / 3 <=? votersNum)
  end.
End operations.
