(* ===== verification/StateFacts.v ===== *)
(** * Properties of chain/state.go: two-phase commit, rewards, confirmation *)

From S2P Require Import Prelude External GoStd PendingCache Instances Keys Storage Genesis.
From S2P Require Import Stakers Pows Rewards Actions Users Details SysParams SamaState.

(** ** Commit and abort *)

(** Proves an equation of a sub-state with one of its two-phase laws. *)
Ltac part_law law :=
  lazymatch goal with
  | |- @eq sysParams _ _ => apply (law sysParams SysParamsMeta params_two_phase params_two_phase_laws)
  | |- @eq stakerState _ _ => apply (law stakerState (staker_map * staker_map * staker_map)%type stakers_two_phase stakers_two_phase_laws)
  | |- @eq rewardState _ _ => apply (law rewardState (RewardGlobal * gmap Address RewardMeta)%type rewards_two_phase rewards_two_phase_laws)
  | |- @eq powState _ _ => apply (law powState (pow_map * pow_map)%type pows_two_phase pows_two_phase_laws)
  | |- @eq yieldsState _ _ => apply (law yieldsState YieldMeta yields_two_phase yields_two_phase_laws)
  | |- @eq detailsState _ _ => apply (law detailsState (gmap Address DetailMeta) details_two_phase details_two_phase_laws)
  | |- @eq actionsState _ _ => apply (law actionsState (gmap ShortID ActionMeta) actions_two_phase actions_two_phase_laws)
  | |- @eq userTypesState _ _ => apply (law userTypesState (gmap Z UserType) user_types_two_phase user_types_two_phase_laws)
  end.

Section two_phase.
Context `{CacherLaws Address UserMeta} `{GoRuntimeLaws}.
Implicit Types (s : samaState).

Lemma map_range_empty {K V} `{Countable K} : map_range (∅ : gmap K V) = [].
Proof. apply Permutation_nil_r. by rewrite map_range_perm, map_to_list_empty. Qed.

Lemma users_abort_idemp (u : usersState) : CacheUsersAbort (CacheUsersAbort u) = CacheUsersAbort u.
Proof. unfold CacheUsersAbort. cbn. by rewrite !clear_map_empty. Qed.
Lemma users_commit_clean c : CacheUsersCommit (mkUsersState _ c ∅ ∅) = mkUsersState _ c ∅ ∅.
Proof. unfold CacheUsersCommit. cbn. by rewrite !map_range_empty, !clear_map_empty. Qed.

Lemma users_commit_cached (u : usersState) a m :
  cached (curUsers (CacheUsersCommit u)) a = Some m ->
  pendingUsersDel u !! a = None /\
  match pendingUsersAdd u !! a with Some m' => m = m' | None => cached (curUsers u) a = Some m end.
Proof.
  cbn [CacheUsersCommit curUsers]. intros Hc. apply cached_evict_all in Hc as [Hdel Hc].
  split; [by apply not_elem_map_range|]. apply cached_put_all in Hc as [(m' & Hin & ->)|[Hnot Hc]].
  - apply elem_of_map_range in Hin. by rewrite Hin.
  - by rewrite (not_elem_map_range _ _ Hnot).
Qed.

(** Part by part: what was pending is there for every reader, and nothing is
    pending any more.  The parts that are one record take it over when it has been
    written, which they tell from a field that is not zero; of the users only the
    cache is part of the state.  The actions are objects that both maps point to. *)
Record published s s' : Prop := {
  pb_stakers t : t ∈ StakerTypes ->
    staker_cache t (st_stakers s') = Cache (cache_view (staker_cache t (st_stakers s))) ∅ ∅;
  pb_pows t : t ∈ powTypes -> pow_cache t (st_pows s') = Cache (cache_view (pow_cache t (st_pows s))) ∅ ∅;
  pb_rewards : reward_cache (st_rewards s') = Cache (cache_view (reward_cache (st_rewards s))) ∅ ∅;
  pb_global : curGlobal (st_rewards s') =
    let g := pendigGlobal (st_rewards s) in if Global_LastOprTime g =? 0 then curGlobal (st_rewards s) else g;
  pb_global_none : Global_LastOprTime (pendigGlobal (st_rewards s')) = 0;
  pb_yields : curYields (st_yields s') =
    let y := pendingYields (st_yields s) in if Yield_Total y =? 0 then curYields (st_yields s) else y;
  pb_yields_none : Yield_Total (pendingYields (st_yields s')) = 0;
  pb_params : curParams (st_params s') =
    let p := pendingParams (st_params s) in if Sys_TotalTokens p =? 0 then curParams (st_params s) else p;
  pb_params_none : Sys_TotalTokens (pendingParams (st_params s')) = 0;
  pb_details : detail_cache (st_details s') = Cache (cache_view (detail_cache (st_details s))) ∅ ∅;
  pb_actions : action_cache (st_actions s') = Cache (cache_view (action_cache (st_actions s))) ∅ ∅;
  pb_action_objects : act_heap (st_actions s') = act_heap (st_actions s);
  pb_userTypes : user_type_cache (st_userTypes s') = Cache (cache_view (user_type_cache (st_userTypes s))) ∅ ∅;
  pb_users a m : cached (curUsers (st_users s')) a = Some m ->
    pendingUsersDel (st_users s) !! a = None /\
    match pendingUsersAdd (st_users s) !! a with Some m' => m = m' | None => cached (curUsers (st_users s)) a = Some m end;
  pb_users_none : pendingUsersAdd (st_users s') = ∅ /\ pendingUsersDel (st_users s') = ∅
}.
(** Part by part: what was committed is as it was, and nothing is pending. *)
Record discarded s s' : Prop := {
  dc_stakers t : t ∈ StakerTypes -> staker_cache t (st_stakers s') = Cache (c_cur (staker_cache t (st_stakers s))) ∅ ∅;
  dc_pows t : t ∈ powTypes -> pow_cache t (st_pows s') = Cache (c_cur (pow_cache t (st_pows s))) ∅ ∅;
  dc_rewards : reward_cache (st_rewards s') = Cache (curRewards (st_rewards s)) ∅ ∅;
  dc_global : curGlobal (st_rewards s') = curGlobal (st_rewards s);
  dc_global_none : Global_LastOprTime (pendigGlobal (st_rewards s')) = 0;
  dc_yields : curYields (st_yields s') = curYields (st_yields s);
  dc_yields_none : Yield_Total (pendingYields (st_yields s')) = 0;
  dc_params : curParams (st_params s') = curParams (st_params s);
  dc_params_none : Sys_TotalTokens (pendingParams (st_params s')) = 0;
  dc_details : detail_cache (st_details s') = Cache (curNodes (st_details s)) ∅ ∅;
  dc_actions : action_cache (st_actions s') = Cache (curActions (st_actions s)) ∅ ∅;
  dc_action_objects : act_heap (st_actions s') = act_heap (st_actions s);
  dc_userTypes : user_type_cache (st_userTypes s') = Cache (curUserTypes (st_userTypes s)) ∅ ∅;
  dc_users : curUsers (st_users s') = curUsers (st_users s);
  dc_users_none : pendingUsersAdd (st_users s') = ∅ /\ pendingUsersDel (st_users s') = ∅
}.

Lemma commit_publishes s : published s (samaState_Commit s).
Proof.
  split; unfold samaState_Commit; cbn [st_params st_stakers st_rewards st_pows st_yields st_users st_details st_actions st_userTypes].
  - intros t Ht. by rewrite staker_cache_commit, cache_commit_eq.
  - intros t Ht. by rewrite pow_cache_commit, cache_commit_eq.
  - by rewrite reward_cache_commit, cache_commit_eq.
  - unfold CacheRewardsCommit. by destruct (_ =? 0).
  - unfold CacheRewardsCommit. destruct (Z.eqb_spec (Global_LastOprTime (pendigGlobal (st_rewards s))) 0); [done|done].
  - unfold CacheYieldsCommit. by destruct (_ =? 0).
  - unfold CacheYieldsCommit. by destruct (Z.eqb_spec (Yield_Total (pendingYields (st_yields s))) 0).
  - unfold CacheParamsCommit. by destruct (_ =? 0).
  - unfold CacheParamsCommit. destruct (Z.eqb_spec (Sys_TotalTokens (pendingParams (st_params s))) 0); [done|].
    apply set_total_tokens_total.
  - by rewrite detail_cache_commit, cache_commit_eq.
  - by rewrite action_cache_commit, cache_commit_eq.
  - done.
  - by rewrite user_type_cache_commit, cache_commit_eq.
  - apply users_commit_cached.
  - cbn. by rewrite !clear_map_empty.
Qed.
Lemma abort_discards s : discarded s (samaState_Abort s).
Proof.
  split; unfold samaState_Abort; cbn [st_params st_stakers st_rewards st_pows st_yields st_users st_details st_actions st_userTypes];
    try done.
  - intros t Ht. by rewrite staker_cache_abort, cache_abort_eq.
  - intros t Ht. by rewrite pow_cache_abort, cache_abort_eq.
  - by rewrite reward_cache_abort, cache_abort_eq.
  - apply set_total_tokens_total.
  - by rewrite detail_cache_abort, cache_abort_eq.
  - by rewrite action_cache_abort, cache_abort_eq.
  - by rewrite user_type_cache_abort, cache_abort_eq.
  - cbn. by rewrite !clear_map_empty.
Qed.

(** C17: The block protocol on the whole state.  A commit publishes what is pending in
    every part, an abort discards it in every part; both leave nothing pending, so
    either is idempotent, and a commit right after an abort has nothing to do. *)
Theorem samaState_two_phase s :
  published s (samaState_Commit s) /\ discarded s (samaState_Abort s) /\
  samaState_Abort (samaState_Abort s) = samaState_Abort s /\
  samaState_Commit (samaState_Commit s) = samaState_Commit s /\
  samaState_Commit (samaState_Abort s) = samaState_Abort s.
Proof.
  split; [apply commit_publishes|]. split; [apply abort_discards|].
  split; [|split]; unfold samaState_Abort, samaState_Commit;
    cbn [st_params st_stakers st_rewards st_pows st_yields st_users st_details st_actions
         st_userTypes].
  - f_equal; try part_law (@abort_idemp). apply users_abort_idemp.
  - f_equal; try part_law (@commit_idemp).
    unfold CacheUsersCommit at 2 3. rewrite !clear_map_empty. apply users_commit_clean.
  - f_equal; try part_law (@commit_after_abort).
    unfold CacheUsersAbort. rewrite !clear_map_empty. apply users_commit_clean.
Qed.
End two_phase.

(** ** The reward schedule *)
Section schedule.
Context `{Ethereum} `{Cacher Address UserMeta}.

(** The state of a node that has just read its genesis. *)
Definition fresh_state (g : Genesis) : samaState :=
  mkSamaState (mkSysParams (params_of_genesis g) zeroParams) emptyStakerState emptyRewardState
    emptyPowState emptyYieldsState emptyUsersState emptyDetailsState emptyActionsState
    emptyUserTypesState.

Fixpoint sum_years (runtime : GoRuntime) (s : samaState) (n : nat) : Z :=
  match n with
  | O => 0
  | S n' => sum_years runtime s n' +
      match RewardCurYear s (Z.of_nat n') with Ok z => z | _ => 0 end
  end.

(** With the default genesis the first of the ten years already hands out the
    whole mining budget, and the ten years together more than four times it:
    the weights [0.8^i] are truncated to integers before they are added. *)
Theorem default_rewards_exceed_budget :
  let runtime := sample_runtime 0 in
  let s := fresh_state DefaultGenesis in
  RewardCurYear s 0 = Ok (GetChainTokenAmount (st_params s)) /\
  4 * GetChainTokenAmount (st_params s) < sum_years runtime s 10.
Proof. split; vm_compute; reflexivity. Qed.

Context `{Cacher Address UserMeta} `{GoRuntime}.
Implicit Types (s : samaState).

Lemma year_loop_invariant {A} (P : A -> Prop) (body : Z -> A -> outcome A) n i acc :
  (forall j a, P a -> match body j a with Ok a' => P a' | Err _ => True | Panic _ => False end) ->
  P acc -> match year_loop body n i acc with Ok a' => P a' | Err _ => True | Panic _ => False end.
Proof.
  intros Hbody. revert i acc. induction n as [|n IH]; intros i acc Hacc; [done|].
  cbn [year_loop]. pose proof (Hbody i acc Hacc) as Hb. unfold obind.
  destruct (body i acc) as [a|e|p]; [by apply IH|done|done].
Qed.

(** The foundation is paid nothing, whatever its share, its last claim and the
    end time: the sum of the years is computed and not returned. *)
Theorem FoundationReword_pays_nothing s address endTime b m y :
  CalcReward s x00 address endTime = Ok (b, m, y) -> b = 0 /\ m = 0 /\ y = 0.
Proof.
  unfold CalcReward. rewrite decide_True by done. case_decide; [done|].
  unfold FoundationReword, obind.
  destruct (endTime <? _); [done|].
  destruct (year_loop _ _ _ _) as [z|e|p]; [|done|done]. intros [= <- <- <-]. done.
Qed.

(** *** The years of an interval cover it exactly *)

Fixpoint covered (createTime startTime endTime : Z) (n : nat) (i : Z) : Z :=
  match n with
  | O => 0
  | S n' => work_secs createTime startTime endTime i
      + covered createTime startTime endTime n' (i +u 1)
  end.

Lemma SecondsYear_val : SecondsYear = 31449600.
Proof. reflexivity. Qed.

Lemma covered_from c st e n i :
  0 <= c <= st -> st <= e -> e + 2 * SecondsYear < 2 ^ 64 -> 0 <= i ->
  c + i * SecondsYear <= Z.max st (c + i * SecondsYear) <= e ->
  (n = Z.to_nat ((e - c) / SecondsYear + 1 - i)) -> (st - c) / SecondsYear <= i ->
  covered c st e n i = e - Z.max st (c + i * SecondsYear).
Proof.
  intros Hc Hse Hov Hi Hmax Hn Hs. pose proof SecondsYear_val as HY. set (Y := SecondsYear) in *.
  clearbody Y. subst Y. pose proof (Z.div_mod (e - c) 31449600 ltac:(lia)) as Hdm.
  pose proof (Z.mod_pos_bound (e - c) 31449600 ltac:(lia)) as Hmb.
  set (q := (e - c) / 31449600) in *. clearbody q.
  revert i Hi Hmax Hn Hs. induction n as [|n IH]; intros i Hi Hmax Hn Hs; [lia|].
  cbn [covered]. unfold work_secs. rewrite SecondsYear_val.
  pose proof (Z.div_mod (st - c) 31449600 ltac:(lia)) as Hdm'.
  pose proof (Z.mod_pos_bound (st - c) 31449600 ltac:(lia)) as Hmb'.
  set (q' := (st - c) / 31449600) in *. clearbody q'.
  assert (i <= q) as Hiq by lia.
  rewrite (u64_small (i + 1)) by (unfold is_u64; lia).
  rewrite (u64_small (i * 31449600)), (u64_small ((i + 1) * 31449600)) by (unfold is_u64; lia).
  rewrite (u64_small (c + i * 31449600)), (u64_small (c + (i + 1) * 31449600))
    by (unfold is_u64; lia).
  destruct (Z.ltb_spec (c + (i + 1) * 31449600) e) as [Hlt|Hge].
  - rewrite IH by lia.
    destruct (Z.ltb_spec st (c + i * 31449600)); rewrite u64_small by (unfold is_u64; lia); lia.
  - assert (covered c st e n (i + 1) = 0) as ->.
    { destruct n as [|n']; [done|]. rewrite IH by lia. lia. }
    destruct (Z.ltb_spec st (c + i * 31449600)); rewrite u64_small by (unfold is_u64; lia); lia.
Qed.

(** C8: The seconds the reward loop credits over the years it visits add up to the
    length of the interval: no second is lost or counted twice at a year's
    boundary. *)
Theorem reward_years_partition createTime startTime endTime :
  0 <= createTime <= startTime -> startTime <= endTime -> endTime + 2 * SecondsYear < 2 ^ 64 ->
  covered createTime startTime endTime (year_count createTime startTime endTime)
    ((startTime -u createTime) / SecondsYear) = endTime - startTime.
Proof.
  intros Hc Hse Hov. unfold year_count.
  rewrite (u64_small (startTime - createTime)), (u64_small (endTime - createTime))
    by (unfold is_u64, SecondsYear in *; lia).
  pose proof SecondsYear_val as HY.
  pose proof (Z.div_mod (startTime - createTime) SecondsYear ltac:(lia)) as Hdm.
  pose proof (Z.mod_pos_bound (startTime - createTime) SecondsYear ltac:(lia)) as Hmb.
  pose proof (Z.div_mod (endTime - createTime) SecondsYear ltac:(lia)) as Hdm'.
  pose proof (Z.mod_pos_bound (endTime - createTime) SecondsYear ltac:(lia)) as Hmb'.
  set (q := (startTime - createTime) / SecondsYear) in *.
  set (q' := (endTime - createTime) / SecondsYear) in *.
  rewrite (u64_small (q' + 1)) by (unfold is_u64; lia).
  rewrite (covered_from createTime startTime endTime _ q); [|try lia..|reflexivity|done];
    lia.
Qed.
End schedule.

(** ** Reward computations never panic *)
Section no_panic.
Context `{Cacher Address UserMeta} `{GoRuntime} `{Ethereum}.
Implicit Types (s : samaState).

Definition safe {A} (x : outcome A) : Prop := match x with Panic _ => False | _ => True end.

Lemma RewardCurYear_ok s i :
  GetRateSustainYears (st_params s) <> 0 -> exists z, RewardCurYear s i = Ok z.
Proof.
  intros Hr. unfold RewardCurYear, udiv. rewrite (proj2 (Z.eqb_neq _ _)) by done. by eexists.
Qed.

Lemma reword_year_ok s t n a pb pm c st e i acc :
  GetRateSustainYears (st_params s) <> 0 -> 0 < n -> n * SecondsYear < 2 ^ 64 ->
  exists acc', reword_year s t n a pb pm c st e i acc = Ok acc'.
Proof.
  intros Hr Hn Hov. unfold reword_year. destruct acc as [[b m] mi].
  destruct (RewardCurYear_ok s (u32 i) Hr) as [z ->]. cbn [obind].
  assert (u64 n *u SecondsYear <> 0) as Hd.
  { unfold SecondsYear in *. rewrite (u64_small n), u64_small by (unfold is_u64; lia). lia. }
  unfold udiv. rewrite (proj2 (Z.eqb_neq _ _)) by done. cbn [obind].
  case_decide; by eexists.
Qed.

Lemma year_loop_ok {A} (body : Z -> A -> outcome A) n i acc :
  (forall j a, exists a', body j a = Ok a') -> exists a', year_loop body n i acc = Ok a'.
Proof.
  intros Hbody. revert i acc. induction n as [|n IH]; intros i acc; [by eexists|].
  cbn [year_loop]. destruct (Hbody i acc) as [a' ->]. apply IH.
Qed.

Lemma FoundationReword_ok s a e :
  GetRateSustainYears (st_params s) <> 0 ->
  (exists er, FoundationReword s a e = Err er) \/ FoundationReword s a e = Ok 0.
Proof.
  intros Hr. unfold FoundationReword. destruct (e <? _); [left; by eexists|right].
  match goal with |- context [year_loop ?f ?n ?i ?acc] =>
    destruct (year_loop_ok f n i acc) as [z ->]; [|done] end.
  intros j z. unfold foundation_year.
  destruct (RewardCurYear_ok s (u32 j) Hr) as [r ->]. by eexists.
Qed.

Lemma size_pos (M0 : staker_map) a m : M0 !! a = Some m -> 0 < Z.of_nat (size M0).
Proof.
  intros Hm. assert (size M0 <> 0%nat); [|lia].
  intros Hz. apply map_size_empty_inv in Hz. subst. by rewrite lookup_empty in Hm.
Qed.

(** A staker of a type is counted among the stakers of that type. *)
Lemma StakersNum_pos s t a m : GetStakerMeta (st_stakers s) t a = Some m -> 0 < StakersNum s t.
Proof.
  unfold GetStakerMeta, StakersNum, GetStakersNum, cur_stakes, GetCurStakes. intros Hm.
  repeat case_decide; subst; try done; try (by rewrite lookup_empty in Hm);
    by eapply size_pos.
Qed.

(** Computing a reward ends with a value or an error, never with a division by
    zero, when the number of years a rate lasts is not zero and the stakers
    are fewer than 2^64 / SecondsYear. *)
Theorem CalcReward_no_panic s claimerType address endTime :
  GetRateSustainYears (st_params s) <> 0 ->
  StakersNum s claimerType * SecondsYear < 2 ^ 64 ->
  safe (CalcReward s claimerType address endTime).
Proof.
  intros Hr Hov. unfold CalcReward, safe. destruct (decide (claimerType = x00)) as [->|Hne].
  - case_decide; [done|]. destruct (FoundationReword_ok s address endTime Hr) as [[e ->]| ->]; done.
  - destruct (GetStakerMeta (st_stakers s) claimerType address) as [m|] eqn:Hm; [|done].
    destruct (endTime <? _); [done|]. pose proof (StakersNum_pos _ _ _ _ Hm) as Hpos.
    set (n := StakersNum s claimerType) in *. clearbody n. unfold StakerReword.
    destruct (if decide (byte_of_Z (Staker_StakerType m) = stakerTypeRoute) then _ else _)
      as [pb pm].
    destruct (match GetRewardMeta (st_rewards s) (Staker_StakerAddr m) with
              | Some _ => _ | None => _ end) as [[[st b] mr] yr].
    assert (u64 n <> 0) as Hn by
      (rewrite u64_small by (unfold is_u64, SecondsYear in *; lia); lia).
    unfold udiv at 1. rewrite (proj2 (Z.eqb_neq _ _)) by done. cbn [obind].
    match goal with |- context [year_loop ?f ?n ?i ?acc] =>
      destruct (year_loop_ok f n i acc) as [[[b' m'] mi'] ->]; [|done] end.
    intros j acc. by apply reword_year_ok.
Qed.
End no_panic.

(** ** Claims *)
Section claims.
Context `{DatabaseLaws} `{Cacher Address UserMeta} `{GoRuntimeLaws} `{Ethereum} `{ChainCodecLaws}.
Implicit Types (w : world).

Lemma zoom_rewards_run {A} (m : M (rewardState * DB) A) w :
  zoom m w = (over (m (st_rewards (w_sama w), w_db w)).1 w,
              (m (st_rewards (w_sama w), w_db w)).2).
Proof. unfold zoom. cbn [view lens_rewards]. by destruct (m _). Qed.

(** What [UpdateStakerReward] leaves pending for one staker. *)
Definition claimed (address : Address) (txID : ID) (endTime : Z) (m : StakerMeta) w : Prop :=
  Staker_StakeTime m < endTime ->
  exists r, pendingRewardsAdd (st_rewards (w_sama w)) !! Staker_StakerAddr m = Some r /\
    Reward_LastClaimTime r = endTime /\ Reward_LastOprTime r = endTime /\
    Reward_LastClaimTXID r = txID /\
    (address = Staker_StakerAddr m ->
      Reward_BaseReward r = 0 /\ Reward_MeritReward r = 0 /\ Reward_YieldReward r = 0).

Lemma update_staker_ok s n address txID endTime m w w' :
  update_staker s n address txID endTime m w = (w', Ok tt) ->
  (endTime <= Staker_StakeTime m /\ w' = w) \/
  (Staker_StakeTime m < endTime /\ exists r,
    pendingRewardsAdd (st_rewards (w_sama w')) =
      <[Staker_StakerAddr m := r]> (pendingRewardsAdd (st_rewards (w_sama w))) /\
    Reward_RewardAddr r = Staker_StakerAddr m /\
    Reward_LastClaimTime r = endTime /\ Reward_LastOprTime r = endTime /\
    Reward_LastClaimTXID r = txID /\
    (address = Staker_StakerAddr m ->
      Reward_BaseReward r = 0 /\ Reward_MeritReward r = 0 /\ Reward_YieldReward r = 0)).
Proof.
  unfold update_staker. destruct (Z.leb_spec endTime (Staker_StakeTime m)) as [Hle|Hlt].
  { unfold ret. intros [= <-]. by left. }
  intros Hrun. right. split; [done|].
  apply bind_ok in Hrun as (w1 & [[b mr] y] & Hr & Hrun). unfold lift_outcome in Hr.
  injection Hr as <- Hr. rewrite zoom_rewards_run in Hrun.
  set (r := mkRewardMeta y b mr endTime txID endTime txID (Staker_StakerAddr m)) in *.
  exists r. destruct (UpdateOwner_run r (st_rewards (w_sama w)) (w_db w))
    as (r' & Hc & _ & _ & Heq). rewrite Heq in Hrun.
  destruct (Marshal r) as [e|bts]; cbn [fst snd] in Hrun; [done|]. injection Hrun as <-.
  unfold cache_put in Hc. injection Hc as _ Hadd _. split_and!; [exact Hadd|done..|].
  intros Ha. rewrite decide_False in Hr by (intros Hn; by apply Hn). by injection Hr as <- <- <-.
Qed.

Lemma claimed_kept s n address txID endTime m m' w w' :
  update_staker s n address txID endTime m' w = (w', Ok tt) ->
  claimed address txID endTime m w -> claimed address txID endTime m w'.
Proof.
  intros Hrun Hc Hlt. apply update_staker_ok in Hrun as [[_ ->]|(Hlt' & r & Hadd & Ha & Hr)];
    [by apply Hc|].
  rewrite Hadd. destruct (decide (Staker_StakerAddr m' = Staker_StakerAddr m)) as [He|Hne].
  - exists r. rewrite <- He, lookup_insert_eq. done.
  - rewrite lookup_insert_ne by done. by apply Hc.
Qed.

(** One claim claims for everybody: after any staker of a type has claimed,
    every staker of that type has the end time of the claim recorded as the
    time of its own last claim, which is what the seven-day interval between
    claims is measured from.  The claimer's accumulated rewards are reset. *)
Theorem one_claim_marks_all t address txID endTime w w' :
  UpdateStakerReward t address txID endTime w = (w', Ok tt) ->
  GetLastUpdateTime (st_rewards (w_sama w)) < endTime ->
  forall a m, cur_stakes (st_stakers (w_sama w)) t !! a = Some m ->
    StakersNum (w_sama w) t <> 0 -> claimed address txID endTime m w'.
Proof.
  intros Hrun Hlast a m Hm Hnum. unfold UpdateStakerReward in Hrun.
  apply bind_ok in Hrun as (w0 & s & Hg & Hrun). unfold gets in Hg. injection Hg as <- <-.
  rewrite (proj2 (Z.ltb_ge _ _)), (proj2 (Z.eqb_neq _ _)) in Hrun by lia.
  rewrite (proj2 (Z.eqb_neq _ _)) in Hrun by done.
  apply bind_ok in Hrun as (w1 & [] & Hloop & Hrun).
  assert (m ∈ GetStakers (st_stakers (w_sama w)) t) as Hin.
  { unfold GetStakers. apply list_elem_of_fmap. exists (a, m). split; [done|].
    by apply elem_of_map_range. }
  assert (claimed address txID endTime m w1) as Hc.
  { revert m Hin Hm. refine (fun m Hin _ => for_each_establish
      (claimed address txID endTime) _ _ _ _ _ _ Hloop m Hin).
    - intros x s0 s1 _ Hx Hlt. apply update_staker_ok in Hx as [[Hge _]|(_ & r & Hadd & Ha & Hr)];
        [lia|]. exists r. by rewrite Hadd, lookup_insert_eq.
    - intros x y s0 s1 _ _ Hy Hq. by eapply claimed_kept. }
  apply bind_ok in Hrun as (w2 & [] & Hglob & Hy). intros Hlt. specialize (Hc Hlt).
  assert (pendingRewardsAdd (st_rewards (w_sama w')) = pendingRewardsAdd (st_rewards (w_sama w1)))
    as ->; [|done].
  rewrite zoom_rewards_run, UpdateGlobal_run in Hglob.
  destruct (Marshal (mkRewardGlobal endTime txID)) as [e|b]; [done|].
  cbn [fst snd] in Hglob. injection Hglob as <-. unfold zoom in Hy.
  destruct (ModifyYields 0 txID endTime _) as [p r]. by injection Hy as <- _.
Qed.
End claims.

(** ** Confirmation of an action *)
Section confirmation.
Context `{Database} `{Cacher Address UserMeta} `{GoRuntimeLaws} `{Ethereum}.
Implicit Types (w : world).

(** Action [i] is the only one of its type and key. *)
Definition only_action (s : actionsState) (actionType : Z) (key : string) (i : ShortID) : Prop :=
  forall j p, curActions s !! j = Some p ->
    Action_ActionType (load_action s p) = actionType -> Action_Key (load_action s p) = key -> j = i.

Lemma voters_loop_only s t key l i p :
  Action_ActionType (load_action s p) = t -> Action_Key (load_action s p) = key ->
  (i, p) ∈ l ->
  (forall j q, (j, q) ∈ l -> Action_ActionType (load_action s q) = t ->
    Action_Key (load_action s q) = key -> q = p) ->
  voters_loop s t key l =
    inr (Z.of_nat (length (Action_Voters (load_action s p))), Action_ActionID (load_action s p)).
Proof.
  intros Ht Hk. induction l as [|[j q] l IH]; intros Hin Honly; [set_solver|].
  cbn [voters_loop].
  destruct (Z.eqb_spec (Action_ActionType (load_action s q)) t) as [Htq|Htq];
    destruct (String.eqb_spec (Action_Key (load_action s q)) key) as [Hkq|Hkq]; simpl.
  { assert (q = p) as -> by (eapply (Honly j q); [set_solver|done|done]). done. }
  all: apply elem_of_cons in Hin as [[= -> ->]|Hin]; [done|].
  all: apply IH; [done|]; intros j' q' Hj'; apply (Honly j' q'); set_solver.
Qed.

Lemma GetVotersNum_only s t key i p :
  curActions s !! i = Some p -> Action_ActionType (load_action s p) = t ->
  Action_Key (load_action s p) = key -> only_action s t key i ->
  GetVotersNum s t key =
    inr (Z.of_nat (length (Action_Voters (load_action s p))), Action_ActionID (load_action s p)).
Proof.
  intros Hi Ht Hk Honly. apply (voters_loop_only s t key _ i p); [done|done|..].
  - by apply elem_of_map_range.
  - intros j q Hj Htq Hkq. apply elem_of_map_range in Hj.
    assert (j = i) as -> by (by eapply Honly). congruence.
Qed.

(** C35: With three routes or more, an action that is the only one of its type and
    key is confirmed exactly when two thirds of the routes, rounded down, have
    voted for it, in whatever order the node visits its actions. *)
Theorem confirmed_by_quorum t key i p w :
  let s := st_actions (w_sama w) in
  let routes := StakersNum (w_sama w) stakerTypeRoute in
  let votes := Z.of_nat (length (Action_Voters (load_action s p))) in
  curActions s !! i = Some p -> Action_ActionType (load_action s p) = t ->
  Action_Key (load_action s p) = key -> only_action s t key i -> 3 <= routes ->
  IsBeConfirmed t key w =
    (w, Ok (if bool_decide (2 * routes < 3 * votes + 3)
            then (true, Action_ActionID (load_action s p)) else (false, EmptyShortID))).
Proof.
  intros s routes votes Hi Ht Hk Honly Hr. unfold IsBeConfirmed, bind, gets, lift. cbn [of_result].
  fold s. rewrite (GetVotersNum_only s t key i p) by done. cbn [of_result].
  fold routes votes. rewrite (proj2 (Z.ltb_ge _ _)) by lia.
  pose proof (Z.div_mod (routes * 2) 3 ltac:(lia)) as Hdm.
  pose proof (Z.mod_pos_bound (routes * 2) 3 ltac:(lia)) as Hmb.
  destruct (Z.leb_spec (routes * 2 / 3) votes); case_bool_decide; try done; lia.
Qed.
End confirmation.

(** The run time that visits maps the other way round. *)
Definition reversed_runtime (now : Z) : GoRuntime := {|
  map_range K V _ _ m := reverse (map_to_list m);
  time_Now _ := now * 1000000000;
  float_to_uint_oob := 2 ^ 63;
  float_to_int_oob := - 2 ^ 63
|}.
Lemma reversed_runtime_laws now : @GoRuntimeLaws (reversed_runtime now).
Proof.
  split; simpl; [|unfold is_u64; lia]. intros K V EqK CountK m. by rewrite reverse_Permutation.
Qed.

Module TwoActions.
Definition key : string := "candidate".
Definition root : Address := sized_of 20 (String.list_byte_of_string (Genesis_RootAddress DefaultGenesis)).
Definition id1 : ShortID := sized_of 20 [x01].
Definition id2 : ShortID := sized_of 20 [x02].
Definition voted : ActionMeta := mkActionMeta id1 actionTypeAddStaker 0 1000 [] [root] key "".
Definition fresh : ActionMeta := mkActionMeta id2 actionTypeAddStaker 0 1000 [] [] key "".
Definition actions : actionsState :=
  mkActionsState {[1%positive := voted; 2%positive := fresh]} 3 {[id1 := 1%positive; id2 := 2%positive]} ∅ ∅.
Definition w : world :=
  let s := fresh_state DefaultGenesis in
  mkWorld (∅ : gmap bytes bytes) (mkSamaState (st_params s) (st_stakers s) (st_rewards s) (st_pows s)
    (st_yields s) (st_users s) (st_details s) actions (st_userTypes s)) 0.
End TwoActions.

(** When two registrations for the same candidate are open, whether the
    candidate is confirmed depends on the order in which the node happens to
    visit its map of actions: two nodes in the same state disagree. *)
Theorem confirmation_depends_on_map_order :
  let nodeA := sample_runtime 10 in let nodeB := reversed_runtime 10 in
  (@GoRuntimeLaws nodeA /\ @GoRuntimeLaws nodeB) /\
  let confirm (node : GoRuntime) :=
    (@IsBeConfirmed memdb map_cacher node sample_ethereum actionTypeAddStaker TwoActions.key
      TwoActions.w).2 in
  exists i, confirm nodeA = Ok (true, i) /\ confirm nodeB = Ok (false, EmptyShortID) \/
            confirm nodeA = Ok (false, EmptyShortID) /\ confirm nodeB = Ok (true, i).
Proof.
  split; [split; [apply sample_runtime_laws|apply reversed_runtime_laws]|].
  exists TwoActions.id1.
  first [left; split; vm_compute; reflexivity|right; split; vm_compute; reflexivity].
Qed.
