(* ===== verification/Tx.v ===== *)
(** * The transactions: chain/base_tx.go, chain/..._tx.go and chain/tx.go

    One record per transaction type, [UnsignedTransaction] for the interface
    they implement, [..._Execute] for their effect in [M world], and
    [Transaction_Execute] for the checks and the fee around it. *)

From S2P Require Import Prelude External GoStd PendingCache Instances Keys Storage Genesis.
From S2P Require Import Stakers Pows Rewards Actions Users Details SysParams SamaState.

(** ** The data *)

Record BaseTx := mkBaseTx {
  base_BlockID : ID;
  base_Magic : Z;
  base_Price : Z
}.

Record SetTx := mkSetTx { set_BaseTx : BaseTx; set_Value : bytes }.
Record TransferTx := mkTransferTx {
  transfer_BaseTx : BaseTx; transfer_To : Address; transfer_Units : Z }.
Record StakeTx := mkStakeTx {
  stake_BaseTx : BaseTx; stake_StakerType : Z; stake_StakeAmount : Z; stake_StakerAddr : Address }.
Record UnStakeTx := mkUnStakeTx {
  unstake_BaseTx : BaseTx; unstake_RewardAmount : Z; unstake_StakerType : Z; unstake_EndTime : Z }.
Record ClaimTx := mkClaimTx {
  claim_BaseTx : BaseTx; claim_RewardAmount : Z; claim_EndTime : Z }.
Record RegisterTx := mkRegisterTx {
  register_BaseTx : BaseTx; register_ActionID : ShortID; register_StakerType : Z;
  register_Country : string; register_LocalIP : string; register_PublicIP : string;
  register_MinPort : Z; register_MaxPort : Z; register_CheckPort : Z;
  register_WorkKey : string; register_StakerAddr : Address }.
Record RefreshTx := mkRefreshTx {
  refresh_BaseTx : BaseTx; refresh_Country : string; refresh_LocalIP : string;
  refresh_PublicIP : string; refresh_MinPort : Z; refresh_MaxPort : Z;
  refresh_CheckPort : Z; refresh_WorkKey : string }.
Record AddUserTx := mkAddUserTx {
  adduser_BaseTx : BaseTx; adduser_StartTime : Z; adduser_EndTime : Z; adduser_PayAmount : Z;
  adduser_Connections : Z; adduser_UserType : Z; adduser_Address : Address }.
Record GovernTx := mkGovernTx { govern_BaseTx : BaseTx; govern_ActionID : ShortID }.
Record VoteTx := mkVoteTx { vote_BaseTx : BaseTx; vote_ActionID : ShortID }.
Record WithdrawnTx := mkWithdrawnTx { withdrawn_BaseTx : BaseTx; withdrawn_ActionID : ShortID }.
Record ProofTx := mkProofTx {
  proof_BaseTx : BaseTx; proof_Netflow : Z; proof_StartTime : Z; proof_EndTime : Z;
  proof_Ser : Address }.
Record ProposalTx := mkProposalTx {
  proposal_BaseTx : BaseTx; proposal_ActionID : ShortID; proposal_StartTime : Z;
  proposal_EndTime : Z; proposal_ActionType : Z; proposal_Key : string; proposal_NewValue : string }.

Inductive UnsignedTransaction :=
  | USet (t : SetTx) | UTransfer (t : TransferTx) | UStake (t : StakeTx) | UUnStake (t : UnStakeTx)
  | UClaim (t : ClaimTx) | URegister (t : RegisterTx) | URefresh (t : RefreshTx)
  | UAddUser (t : AddUserTx) | UGovern (t : GovernTx) | UVote (t : VoteTx)
  | UWithdrawn (t : WithdrawnTx) | UProof (t : ProofTx) | UProposal (t : ProposalTx).

Definition base (u : UnsignedTransaction) : BaseTx :=
  match u with
  | USet t => set_BaseTx t | UTransfer t => transfer_BaseTx t | UStake t => stake_BaseTx t
  | UUnStake t => unstake_BaseTx t | UClaim t => claim_BaseTx t | URegister t => register_BaseTx t
  | URefresh t => refresh_BaseTx t | UAddUser t => adduser_BaseTx t | UGovern t => govern_BaseTx t
  | UVote t => vote_BaseTx t | UWithdrawn t => withdrawn_BaseTx t | UProof t => proof_BaseTx t
  | UProposal t => proposal_BaseTx t
  end.

Definition GetBlockID (u : UnsignedTransaction) : ID := base_BlockID (base u).
Definition GetMagic (u : UnsignedTransaction) : Z := base_Magic (base u).
Definition GetPrice (u : UnsignedTransaction) : Z := base_Price (base u).

Record Transaction := mkTransaction {
  tx_Unsigned : UnsignedTransaction;
  tx_Signature : bytes;
  tx_digestHash : bytes;
  tx_bytes : bytes;
  tx_id : ID;
  tx_size : Z;
  tx_sender : Address
}.

Record TransactionContext := mkTransactionContext {
  ctx_Genesis : Genesis;
  ctx_BlockTime : Z;
  ctx_TxID : ID;
  ctx_Sender : Address
}.

(** [chain.Context]: what the VM passes to the execution of a block. *)
Record Context_t := mkContext {
  RecentBlockIDs : gset ID;
  RecentTxIDs : gset ID;
  RecentLoadUnits : Z;
  ctx_Prices : list Z;
  ctx_Costs : list Z;
  NextCost : Z;
  NextPrice : Z
}.

(** ** base_tx.go *)

Definition BaseTx_ExecuteBase (b : BaseTx) (g : Genesis) : result unit :=
  if decide (base_BlockID b = EmptyID) then inl ErrInvalidBlockID
  else if negb (base_Magic b =? Genesis_Magic g) then inl ErrInvalidMagic
  else if base_Price b <? Genesis_MinPrice g then inl ErrInvalidPrice
  else inr tt.
Definition BaseTx_FeeUnits (b : BaseTx) (g : Genesis) : Z := Genesis_BaseTxUnits g.
Definition BaseTx_LoadUnits (b : BaseTx) (g : Genesis) : Z := BaseTx_FeeUnits b g.
Definition BaseTx_Copy (b : BaseTx) : BaseTx :=
  mkBaseTx (sized_of 32 (array (base_BlockID b))) (base_Magic b) (base_Price b).

Definition SetTx_FeeUnits (t : SetTx) (g : Genesis) : outcome Z :=
  try! v := valueUnits g (Z.of_nat (length (set_Value t))) in
  Ok (BaseTx_FeeUnits (set_BaseTx t) g +u v).
Definition RefreshTx_FeeUnits (t : RefreshTx) (g : Genesis) : Z := 0.
Definition ProofTx_FeeUnits (t : ProofTx) (g : Genesis) : Z := 0.

(** The method each type has, its own or the one of the embedded [BaseTx]. *)
Definition FeeUnits (u : UnsignedTransaction) (g : Genesis) : outcome Z :=
  match u with
  | USet t => SetTx_FeeUnits t g
  | URefresh t => Ok (RefreshTx_FeeUnits t g)
  | UProof t => Ok (ProofTx_FeeUnits t g)
  | _ => Ok (BaseTx_FeeUnits (base u) g)
  end.
Definition LoadUnits (u : UnsignedTransaction) (g : Genesis) : outcome Z :=
  match u with
  | UTransfer t => Ok (BaseTx_LoadUnits (transfer_BaseTx t) g)
  | _ => FeeUnits u g
  end.

(** ** Copy *)

(** Copying a fixed-size array through a slice of its length. *)
Definition copy_array {n} (a : sized n) : sized n := sized_of n (array a).

Definition SetTx_Copy (t : SetTx) : SetTx := mkSetTx (BaseTx_Copy (set_BaseTx t)) (set_Value t).
Definition TransferTx_Copy (t : TransferTx) : TransferTx :=
  mkTransferTx (BaseTx_Copy (transfer_BaseTx t)) (copy_array (transfer_To t)) (transfer_Units t).
Definition StakeTx_Copy (t : StakeTx) : StakeTx :=
  mkStakeTx (BaseTx_Copy (stake_BaseTx t)) (stake_StakerType t) (stake_StakeAmount t)
    (copy_array (stake_StakerAddr t)).
Definition UnStakeTx_Copy (t : UnStakeTx) : UnStakeTx :=
  mkUnStakeTx (BaseTx_Copy (unstake_BaseTx t)) 0 (unstake_StakerType t) 0.
Definition ClaimTx_Copy (t : ClaimTx) : ClaimTx :=
  mkClaimTx (BaseTx_Copy (claim_BaseTx t)) (claim_RewardAmount t) (claim_EndTime t).
Definition RegisterTx_Copy (t : RegisterTx) : RegisterTx :=
  mkRegisterTx (BaseTx_Copy (register_BaseTx t)) (copy_array (register_ActionID t))
    (register_StakerType t) (register_Country t) (register_LocalIP t) (register_PublicIP t)
    (register_MinPort t) (register_MaxPort t) (register_CheckPort t) (register_WorkKey t)
    (register_StakerAddr t).
Definition RefreshTx_Copy (t : RefreshTx) : RefreshTx :=
  mkRefreshTx (BaseTx_Copy (refresh_BaseTx t)) (refresh_Country t) (refresh_LocalIP t)
    (refresh_PublicIP t) (refresh_MinPort t) (refresh_MaxPort t) (refresh_CheckPort t)
    (refresh_WorkKey t).
Definition AddUserTx_Copy (t : AddUserTx) : AddUserTx :=
  mkAddUserTx (BaseTx_Copy (adduser_BaseTx t)) (adduser_StartTime t) (adduser_EndTime t)
    (adduser_PayAmount t) (adduser_Connections t) (adduser_UserType t) (copy_array (adduser_Address t)).
Definition GovernTx_Copy (t : GovernTx) : GovernTx :=
  mkGovernTx (BaseTx_Copy (govern_BaseTx t)) (govern_ActionID t).
Definition VoteTx_Copy (t : VoteTx) : VoteTx :=
  mkVoteTx (BaseTx_Copy (vote_BaseTx t)) (copy_array (vote_ActionID t)).
Definition WithdrawnTx_Copy (t : WithdrawnTx) : WithdrawnTx :=
  mkWithdrawnTx (BaseTx_Copy (withdrawn_BaseTx t)) (copy_array (withdrawn_ActionID t)).
Definition ProofTx_Copy (t : ProofTx) : ProofTx :=
  mkProofTx (BaseTx_Copy (proof_BaseTx t)) (proof_Netflow t) (proof_StartTime t) (proof_EndTime t)
    (proof_Ser t).
Definition ProposalTx_Copy (t : ProposalTx) : ProposalTx :=
  mkProposalTx (BaseTx_Copy (proposal_BaseTx t)) (proposal_ActionID t) (proposal_StartTime t)
    (proposal_EndTime t) 0 (proposal_Key t) (proposal_NewValue t).

Definition Copy (u : UnsignedTransaction) : UnsignedTransaction :=
  match u with
  | USet t => USet (SetTx_Copy t) | UTransfer t => UTransfer (TransferTx_Copy t)
  | UStake t => UStake (StakeTx_Copy t) | UUnStake t => UUnStake (UnStakeTx_Copy t)
  | UClaim t => UClaim (ClaimTx_Copy t) | URegister t => URegister (RegisterTx_Copy t)
  | URefresh t => URefresh (RefreshTx_Copy t) | UAddUser t => UAddUser (AddUserTx_Copy t)
  | UGovern t => UGovern (GovernTx_Copy t) | UVote t => UVote (VoteTx_Copy t)
  | UWithdrawn t => UWithdrawn (WithdrawnTx_Copy t) | UProof t => UProof (ProofTx_Copy t)
  | UProposal t => UProposal (ProposalTx_Copy t)
  end.
(** [Transaction.Copy] leaves the fields [Init] computes unset. *)
Definition Transaction_Copy (t : Transaction) : Transaction :=
  mkTransaction (Copy (tx_Unsigned t)) (tx_Signature t) [] [] EmptyID 0 zeroAddress.

(** ** Execute *)

Definition EffectiveSecs : Z := 100.
Definition minFlow : Z := 1.
Definition maxFlow : Z := 1000.
Definition minTime : Z := 1.
Definition maxTime : Z := 60.

Definition IsRegistered (d : DetailMeta) (r : RegisterTx) : bool :=
  String.eqb (Detail_PublicIP d) (register_PublicIP r) &&
  String.eqb (Detail_WorkKey d) (register_WorkKey r) &&
  (Detail_StakerType d =? register_StakerType r).
Definition IsRepeated (d : DetailMeta) (r : RefreshTx) : bool :=
  String.eqb (Detail_LocalIP d) (refresh_LocalIP r) && (Detail_MinPort d =? refresh_MinPort r) &&
  (Detail_MaxPort d =? refresh_MaxPort r) && String.eqb (Detail_PublicIP d) (refresh_PublicIP r) &&
  (Detail_CheckPort d =? refresh_CheckPort r) && String.eqb (Detail_Country d) (refresh_Country r) &&
  String.eqb (Detail_WorkKey d) (refresh_WorkKey r).

(** The loop of [WithdrawnTx.Execute]: the first occurrence is cut out. *)
Fixpoint remove_voter (sender : Address) (voters : list Address) : list Address :=
  match voters with
  | [] => []
  | voter :: voters' => if decide (voter = sender) then voters' else voter :: remove_voter sender voters'
  end.

Section execute.
Context `{Database} `{Cacher Address UserMeta} `{GoRuntime} `{Ethereum} `{ChainCodecs}.

(** [uint64(time.Now().Unix())] *)
Definition unix_now : M world Z := let! now := clock in ret (u64 (Unix now)).

Definition SetTx_Execute (s : SetTx) (t : TransactionContext) : M world unit :=
  let g := ctx_Genesis t in
  let len := Z.of_nat (length (set_Value s)) in
  check (len =? 0) ErrValueEmpty ;;;
  check (Genesis_MaxValueSize g <? len) ErrValueTooBig ;;;
  let k := ValueHash (set_Value s) in
  let! exists_ := zoom (GetValueMeta k) in
  check (bool_decide (is_Some exists_)) ErrKeyExists ;;;
  zoom (PutKey k (mkValueMeta len (ctx_TxID t) (ctx_BlockTime t))).

Definition TransferTx_Execute (t : TransferTx) (c : TransactionContext) : M world unit :=
  check (bool_decide (transfer_To t = zeroAddress)) ErrNonActionable ;;;
  check (bool_decide (transfer_To t = ctx_Sender c)) ErrNonActionable ;;;
  check (transfer_Units t =? 0) ErrNonActionable ;;;
  zoom (ModifyBalance (ctx_Sender c) false (transfer_Units t)) ;;;
  zoom (ModifyBalance (transfer_To t) true (transfer_Units t)) ;;;
  ret tt.

Definition StakeTx_Execute (s : StakeTx) (t : TransactionContext) : M world unit :=
  let g := ctx_Genesis t in
  check (negb (stake_StakerType s =? RouteStake) && negb (stake_StakerType s =? SerStake)
         && negb (stake_StakerType s =? ValidatorStake)) ErrStakerType ;;;
  check (negb (stake_StakeAmount s =? Genesis_RouteStake g)
         && negb (stake_StakeAmount s =? Genesis_SerStake g)) ErrStakeAmount ;;;
  check (bool_decide (stake_StakerAddr s = zeroAddress)) ErrNonActionable ;;;
  let! stakers := the st_stakers in
  check (IsStaker stakers (stake_StakerAddr s)).1 (Errorf "have already been staker") ;;;
  let! r := attempt (IsBeConfirmed actionTypeAddStaker (Address_Hex (ctx_Sender t))) in
  let '(ok, actionID) := match r with inr p => p | inl _ => (false, EmptyShortID) end in
  check (negb ok) (Errorf "no be confirmed") ;;;
  zoom (ModifyBalance (ctx_Sender t) false (stake_StakeAmount s)) ;;;
  zoom (ModifyStakeBalance (ctx_Sender t) true (stake_StakeAmount s)) ;;;
  DealStakeTx (mkStakerMeta (ctx_TxID t) (stake_StakerType s) (stake_StakeAmount s)
    (ctx_BlockTime t) (stake_StakerAddr s)) ;;;
  zoom (DelAction actionID).

Definition UnStakeTx_Execute (u : UnStakeTx) (t : TransactionContext) : M world unit :=
  check (negb (unstake_StakerType u =? RouteStake) && negb (unstake_StakerType u =? SerStake))
    ErrStakerType ;;;
  let! now1 := clock in
  check (After_unix now1 (i64 (unstake_EndTime u +u EffectiveSecs))) ErrEndTimeTooEarly ;;;
  let! now2 := clock in
  check (Before_unix now2 (i64 (unstake_EndTime u))) ErrEndTimeTooLate ;;;
  let! s := gets w_sama in
  let stakerType := byte_of_Z (unstake_StakerType u) in
  match GetStakerMeta (st_stakers s) stakerType (ctx_Sender t) with
  | None => fail (Errorf "not found")
  | Some staker =>
      let minTime := GetMinStakeTime (st_params s) in
      let! now3 := clock in
      check (Before_unix now3 (i64 (Staker_StakeTime staker +u minTime)))
        (Errorf "stake time must > 90 days") ;;;
      zoom (ModifyStakeBalance (ctx_Sender t) false (Staker_StakeAmount staker)) ;;;
      let! r := lift_outcome (CalcReward s stakerType (ctx_Sender t) (unstake_EndTime u)) in
      let '(base, merit, yield) := r in
      let totalReward := base +u merit +u yield in
      check (negb (unstake_RewardAmount u =? totalReward)) (Errorf "reward amount is err") ;;;
      zoom (ModifyBalance (ctx_Sender t) true (Staker_StakeAmount staker +u totalReward)) ;;;
      DealUnStakeTx stakerType (ctx_Sender t) (ctx_TxID t) (unstake_EndTime u)
  end.

Definition ClaimTx_Execute (c : ClaimTx) (t : TransactionContext) : M world unit :=
  let! s := gets w_sama in
  let '(ok, claimerType) := CheckClaimAddress s (ctx_Sender t) in
  check (negb ok) (Errorf "sender must staker or foundation") ;;;
  let lastClaimTime := GetLastClaimTime (st_rewards s) (ctx_Sender t) in
  let! now1 := unix_now in
  check (now1 -u lastClaimTime <? Seconds7Day) (Errorf "time interval need > 7 days") ;;;
  let createTime := GetChainCreateTime (st_params s) in
  let! now2 := unix_now in
  let endTime := (now2 -u createTime) / SecondsDay *u SecondsDay +u createTime in
  check (negb (endTime =? claim_EndTime c) && negb (endTime =? claim_EndTime c +u 1))
    (Errorf "end time err") ;;;
  let! r := lift_outcome (CalcReward s claimerType (ctx_Sender t) (claim_EndTime c)) in
  let '(base, merit, yield) := r in
  let totalReward := base +u merit +u yield in
  check (negb (claim_RewardAmount c =? totalReward)) (Errorf "reward amount is err") ;;;
  zoom (ModifyBalance (ctx_Sender t) true totalReward) ;;;
  if decide (claimerType = x00) then
    UpdateFoundationReward (ctx_Sender t) (ctx_TxID t) (claim_EndTime c)
  else UpdateStakerReward claimerType (ctx_Sender t) (ctx_TxID t) (claim_EndTime c).

(** The voters a new action starts with. *)
Definition first_voters (s : samaState) (sender : Address) : list Address :=
  let '(routeNum, _, _) := GetStakersNum (st_stakers s) in
  if decide (sender = HexToAddress (GetRootAddress (st_params s))) then
    if (routeNum <? 3)%nat then [sender]
    else if IsRoute (st_stakers s) sender then [sender] else []
  else if IsRoute (st_stakers s) sender then [sender] else [].

(** [samaState.PutAction(db, id, &ActionMeta{...})] *)
Definition put_new_action (actionID : ShortID) (m : ActionMeta) : M world unit :=
  let! s := the st_actions in
  let '(l, s') := alloc_action m s in
  modify (fun w => over (s', w_db w) w) ;;;
  zoom (PutAction actionID l).

Definition RegisterTx_Execute (r : RegisterTx) (t : TransactionContext) : M world unit :=
  check (bool_decide (register_StakerAddr r = zeroAddress)) ErrNonActionable ;;;
  match hex_DecodeString (register_WorkKey r) with
  | inl e => fail (Wrapf e "work key err")
  | inr pbkb =>
      match UnmarshalPubkey pbkb with
      | inl e => fail (Wrapf e "unmarshalPubkey err")
      | inr pbk =>
          let addr := PubkeyToAddress pbk in
          let! s := gets w_sama in
          check (IsStaker (st_stakers s) (register_StakerAddr r)).1
            (Errorf "have already been staker") ;;;
          match GetDetailMeta (st_details s) addr with
          | Some pmate =>
              check (negb (Detail_StakerType pmate =? register_StakerType r))
                (Errorf "staker type err") ;;;
              check (IsRegistered pmate r) (Errorf "is repeated")
          | None => ret tt
          end ;;;
          put_new_action (register_ActionID r)
            (mkActionMeta (register_ActionID r) actionTypeAddStaker (ctx_BlockTime t)
              (ctx_BlockTime t +u Seconds7Day) [ctx_TxID t] (first_voters s (ctx_Sender t))
              (Address_Hex (register_StakerAddr r)) "") ;;;
          UpdateNodeParams
            (mkDetailMeta (register_StakerType r) (register_Country r) (register_LocalIP r)
              (register_PublicIP r) (register_MinPort r) (register_MaxPort r) (register_CheckPort r)
              (register_WorkKey r) (ctx_TxID t) (ctx_BlockTime t) addr (register_StakerAddr r))
      end
  end.

Definition RefreshTx_Execute (r : RefreshTx) (t : TransactionContext) : M world unit :=
  let! s := gets w_sama in
  let! ok := lift (IsValidWorkAddress s (ctx_Sender t)) in
  check (negb ok.1) (Errorf "sender must route or ser") ;;;
  match GetDetailMeta (st_details s) (ctx_Sender t) with
  | None => fail (Errorf "not found")
  | Some pmate =>
      check (IsRepeated pmate r) (Errorf "is repeated") ;;;
      zoom (PutDetail (ctx_Sender t)
        (mkDetailMeta (Detail_StakerType pmate) (refresh_Country r) (refresh_LocalIP r)
          (refresh_PublicIP r) (refresh_MinPort r) (refresh_MaxPort r) (refresh_CheckPort r)
          (refresh_WorkKey r) (ctx_TxID t) (ctx_BlockTime t) (ctx_Sender t)
          (Detail_StakeAddress pmate)))
  end.

Definition AddUserTx_Execute (a : AddUserTx) (t : TransactionContext) : M world unit :=
  let span := adduser_EndTime a -u adduser_StartTime a in
  check (adduser_EndTime a <? adduser_StartTime a) (Errorf "start time > endtime") ;;;
  check (31 * 24 * 60 * 60 <? span) (Errorf "time > 31 days") ;;;
  check (span <? 28 * 24 * 60 * 60) (Errorf "time < 28 days") ;;;
  let! now := unix_now in
  check (adduser_StartTime a <? now -u 60) (Errorf "start time err") ;;;
  check (bool_decide (adduser_Address a = zeroAddress)) ErrNonActionable ;;;
  let! s := gets w_sama in
  check (negb (CheckUserType (st_userTypes s) (adduser_UserType a))) (Errorf "user type err") ;;;
  check (negb (CheckPayAmount s (adduser_UserType a) (adduser_PayAmount a)
    (adduser_StartTime a) (adduser_EndTime a))) (Errorf "pay amount check fail") ;;;
  let! r := attempt (zoom (GetUserMeta (adduser_Address a))) in
  check (match r with inr (Some _) => true | _ => false end) (Errorf "ueser have already exist ") ;;;
  zoom (ModifyBalance (ctx_Sender t) false (adduser_PayAmount a)) ;;;
  DealAddUserTx (ctx_TxID t) (ctx_BlockTime t)
    (mkUserMeta (adduser_StartTime a) (adduser_EndTime a) (adduser_Connections a)
      (adduser_PayAmount a) [] (adduser_UserType a) (adduser_Address a)).

Definition govern_confirmed (s : samaState) (action : ActionMeta) : bool :=
  let '(routeNum, _, _) := GetStakersNum (st_stakers s) in
  if (routeNum <? 3)%nat then root_voted s (Action_Voters action)
  else (routeNum * 2 / 3 <=? length (Action_Voters action))%nat.

Definition GovernTx_Execute (g : GovernTx) (t : TransactionContext) : M world unit :=
  let! r := get_action (govern_ActionID g) in
  match r with
  | None => fail (Errorf "action not found")
  | Some l =>
      let! s := gets w_sama in
      let action := load_action (st_actions s) l in
      let! now := unix_now in
      check (Action_EndTime action +u Seconds7Day <? now) (Errorf "need < 14 days") ;;;
      check (negb (govern_confirmed s action)) (Errorf "action not be confirmed") ;;;
      let ty := Action_ActionType action in
      if (ty =? actionTypeModifySysParam) || (ty =? actionTypeModifyFoundation) then
        zoom (ModifyParams (Action_Key action) (Action_NewValue action) (ctx_TxID t)
          (ctx_BlockTime t))
      else if (ty =? actionTypeAddUserType) || (ty =? actionTypeModifyUserType) then
        let! userType := lift (ParseUint (Action_Key action)) in
        let! userFee := lift (ParseUint (Action_NewValue action)) in
        zoom (AddUserType (mkUserType "" userType userFee))
      else fail (Errorf "action type err")
  end.

Definition VoteTx_Execute (v : VoteTx) (t : TransactionContext) : M world unit :=
  let! s := gets w_sama in
  (if IsRoute (st_stakers s) (ctx_Sender t) then ret tt
   else
     check (bool_decide (ctx_Sender t <> HexToAddress (GetRootAddress (st_params s))))
       (Errorf "sender is not route node") ;;;
     let '(routeNum, _, _) := GetStakersNum (st_stakers s) in
     check (3 <? routeNum)%nat (Errorf "sender do not have permission")) ;;;
  let! r := get_action (vote_ActionID v) in
  match r with
  | None => fail (Errorf "not found action")
  | Some l =>
      let action := load_action (st_actions s) l in
      check (existsb (fun voter => bool_decide (voter = ctx_Sender t)) (Action_Voters action))
        (Errorf "voter is exist") ;;;
      let! now := unix_now in
      check (Action_EndTime action <? now) (Errorf "action timeout") ;;;
      let pmate := mkActionMeta (Action_ActionID action) (Action_ActionType action)
        (Action_StartTime action) (Action_EndTime action) (Action_TxIDs action ++ [ctx_TxID t])
        (Action_Voters action ++ [ctx_Sender t]) (Action_Key action) (Action_NewValue action) in
      let! _ := attempt (put_new_action (vote_ActionID v) pmate) in
      ret tt
  end.

(** The meta of the action in force is changed through its pointer. *)
Definition WithdrawnTx_Execute (x : WithdrawnTx) (t : TransactionContext) : M world unit :=
  let! s := gets w_sama in
  check (negb (IsRoute (st_stakers s) (ctx_Sender t))) (Errorf "sender is not route node") ;;;
  let! r := get_action (withdrawn_ActionID x) in
  match r with
  | None => fail (Errorf "not found action")
  | Some l =>
      let action := load_action (st_actions s) l in
      let pmate := mkActionMeta (Action_ActionID action) (Action_ActionType action)
        (Action_StartTime action) (Action_EndTime action) (Action_TxIDs action ++ [ctx_TxID t])
        (remove_voter (ctx_Sender t) (Action_Voters action)) (Action_Key action)
        (Action_NewValue action) in
      modify (fun w => over (store_action l pmate (st_actions (w_sama w)), w_db w) w) ;;;
      let! _ := attempt (zoom (PutAction (withdrawn_ActionID x) l)) in
      ret tt
  end.

Definition ProofTx_Execute (p : ProofTx) (t : TransactionContext) : M world unit :=
  let! s := gets w_sama in
  let! r := lift (IsValidWorkAddress s (ctx_Sender t)) in
  let '(ok, powType) := r in
  check (negb ok) (Errorf "sender must route or ser node") ;;;
  let interval := proof_EndTime p -u proof_StartTime p in
  check (proof_Netflow p <? minFlow) (Errorf "netflow too small") ;;;
  check (maxFlow <? proof_Netflow p) (Errorf "netflow too big") ;;;
  check (proof_EndTime p <? proof_StartTime p) (Errorf "start time > endtime") ;;;
  let! now1 := unix_now in
  check (now1 -u 50 <? proof_StartTime p) (Errorf "start time err") ;;;
  let! now2 := unix_now in
  check (now2 <? proof_EndTime p) (Errorf "endtime err") ;;;
  check (interval <? minTime) (Errorf "interval too small") ;;;
  check (maxTime <? interval) (Errorf "interval to big") ;;;
  zoom (PutPow powType (mkProofMeta (proof_Netflow p) (proof_EndTime p -u proof_StartTime p)
    (ctx_Sender t) (ctx_TxID t) (ctx_BlockTime t))).

Definition ProposalTx_Execute (p : ProposalTx) (t : TransactionContext) : M world unit :=
  let! r := attempt (get_action (proposal_ActionID p)) in
  check (match r with inr (Some _) => true | _ => false end) (Errorf "action ID exist") ;;;
  let! s := gets w_sama in
  let ty := proposal_ActionType p in
  (if (ty =? actionTypeModifySysParam) || (ty =? actionTypeModifyFoundation) then
     lift (CompCurParam (st_params s) (proposal_Key p) (proposal_NewValue p))
   else if ty =? actionTypeAddUserType then
     let! newType := lift (ParseUint (proposal_Key p)) in
     check (CheckUserType (st_userTypes s) newType) (Errorf "user type exist")
   else if ty =? actionTypeModifyUserType then
     let! userType := lift (ParseUint (proposal_Key p)) in
     let! userFee := lift (ParseUint (proposal_NewValue p)) in
     check (negb (CheckUserType (st_userTypes s) userType)) (Errorf "user type not exist") ;;;
     check (CheckFee (st_userTypes s) userType userFee) (Errorf "equal")
   else fail (Errorf "action type not exist")) ;;;
  lift (ProposalRepeat (st_actions s) (proposal_ActionID p) (proposal_Key p) (proposal_NewValue p)) ;;;
  put_new_action (proposal_ActionID p)
    (mkActionMeta (proposal_ActionID p) ty (ctx_BlockTime t) (ctx_BlockTime t +u Seconds7Day)
      [ctx_TxID t] (first_voters s (ctx_Sender t)) (proposal_Key p) (proposal_NewValue p)).

Definition Execute (u : UnsignedTransaction) (t : TransactionContext) : M world unit :=
  match u with
  | USet x => SetTx_Execute x t | UTransfer x => TransferTx_Execute x t
  | UStake x => StakeTx_Execute x t | UUnStake x => UnStakeTx_Execute x t
  | UClaim x => ClaimTx_Execute x t | URegister x => RegisterTx_Execute x t
  | URefresh x => RefreshTx_Execute x t | UAddUser x => AddUserTx_Execute x t
  | UGovern x => GovernTx_Execute x t | UVote x => VoteTx_Execute x t
  | UWithdrawn x => WithdrawnTx_Execute x t | UProof x => ProofTx_Execute x t
  | UProposal x => ProposalTx_Execute x t
  end.

(** [Transaction.Execute]; the price is compared with the next price and
    nothing follows, as in the source. *)
Definition Transaction_Execute (tx : Transaction) (g : Genesis) (blkTmstmp : Z) (context : Context_t) :
    M world unit :=
  let u := tx_Unsigned tx in
  lift (BaseTx_ExecuteBase (base u) g) ;;;
  check (bool_decide (GetBlockID u ∉ RecentBlockIDs context)) ErrInvalidBlockID ;;;
  check (bool_decide (tx_id tx ∈ RecentTxIDs context)) ErrDuplicateTx ;;;
  let! units := lift_outcome (FeeUnits u g) in
  zoom (ModifyBalance (tx_sender tx) false (units *u GetPrice u)) ;;;
  Execute u (mkTransactionContext g (u64 blkTmstmp) (tx_id tx) (tx_sender tx)) ;;;
  zoom (SetTransaction (tx_id tx)).
End execute.
