(* ===== verification/TypedTx.v ===== *)
(** * Transactions as typed data: TypedData, decoder.go, crypto.go and Init

    What a wallet signs is the typed data of a transaction; the decoder builds
    the transaction back from it.  [Init] computes the derived fields of a
    signed transaction. *)

From S2P Require Import Prelude External GoStd TData Keys Storage Genesis SamaState Tx.

(** ** The constants of decoder.go *)

Definition Set_ : string := "set".
Definition Transfer : string := "transfer".
Definition Stake : string := "stake".
Definition UnStake : string := "unstake".
Definition AddUser : string := "addUser".
Definition Govern : string := "govern".
Definition Proof_ : string := "proof".
Definition Claim : string := "claim".
Definition Register : string := "register".
Definition Refresh : string := "refresh".
Definition Withdrawn : string := "withdrawn".
Definition Vote : string := "vote".
Definition Proposal : string := "proposal".

Definition tdString : string := "string".
Definition tdUint64 : string := "uint64".
Definition tdBytes : string := "bytes".
Definition tdAddress : string := "address".
Definition tdBlockID : string := "blockID".
Definition tdPrice : string := "price".
Definition tdValue : string := "value".
Definition tdUnits : string := "units".
Definition tdTo : string := "to".
Definition tdStakerType : string := "stakerType".
Definition tdStakeAddr : string := "stakerAddr".
Definition tdAmount : string := "stakeAmount".
Definition tdEndTime : string := "endTime".
Definition tdStartTime : string := "startTime".
Definition tdConnections : string := "connections".
Definition tdActionID : string := "actionID".
Definition tdKey : string := "key".
Definition tdReward : string := "reward".
Definition tdSer : string := "ser".
Definition tdNetflow : string := "netflow".
Definition tdLocalIP : string := "localIP".
Definition tdMinPort : string := "minPort".
Definition tdMaxPort : string := "maxPort".
Definition tdPublicIP : string := "publicIP".
Definition tdCheckPort : string := "checkPort".
Definition tdNewValue : string := "newValue".
Definition tdCountry : string := "country".
Definition tdWorkKey : string := "workKey".
Definition tdUserType : string := "userType".
Definition tdActionType : string := "actionType".

(** ** TypedData *)
Section typed_data.
Context `{Ethereum}.

(** A field of the type and its value in the message. *)
Definition field_string (k s : string) : Type_t * (string * iface) := (mkType k tdString, (k, IString s)).
Definition field_uint64 (k : string) (n : Z) : Type_t * (string * iface) :=
  (mkType k tdUint64, (k, IString (FormatUint n))).
Definition field_address (k : string) (a : Address) : Type_t * (string * iface) :=
  (mkType k tdAddress, (k, IString (Address_Hex a))).
Definition field_bytes (k : string) (b : bytes) : Type_t * (string * iface) :=
  (mkType k tdBytes, (k, IString (hexutil_Encode b))).

(** The last two fields of every type. *)
Definition base_fields (b : BaseTx) : list (Type_t * (string * iface)) :=
  [field_uint64 tdPrice (base_Price b); field_string tdBlockID (ID_String (base_BlockID b))].
Definition typed (b : BaseTx) (txType : string) (fields : list (Type_t * (string * iface))) : TypedData :=
  let fields := fields ++ base_fields b in
  CreateTypedData (base_Magic b) txType fields.*1 fields.*2.

Definition SetTx_TypedData (s : SetTx) : TypedData :=
  typed (set_BaseTx s) Set_ [field_bytes tdValue (set_Value s)].
Definition TransferTx_TypedData (t : TransferTx) : TypedData :=
  typed (transfer_BaseTx t) Transfer
    [field_address tdTo (transfer_To t); field_uint64 tdUnits (transfer_Units t)].
Definition StakeTx_TypedData (s : StakeTx) : TypedData :=
  typed (stake_BaseTx s) Stake
    [field_address tdStakeAddr (stake_StakerAddr s); field_uint64 tdStakerType (stake_StakerType s);
     field_uint64 tdAmount (stake_StakeAmount s)].
Definition UnStakeTx_TypedData (u : UnStakeTx) : TypedData :=
  typed (unstake_BaseTx u) UnStake
    [field_uint64 tdStakerType (unstake_StakerType u); field_uint64 tdAmount (unstake_RewardAmount u)].
Definition ClaimTx_TypedData (c : ClaimTx) : TypedData :=
  typed (claim_BaseTx c) Claim
    [field_uint64 tdReward (claim_RewardAmount c); field_uint64 tdEndTime (claim_EndTime c)].
Definition RegisterTx_TypedData (r : RegisterTx) : TypedData :=
  typed (register_BaseTx r) Register
    [field_string tdActionID (ShortID_String (register_ActionID r));
     field_uint64 tdStakerType (register_StakerType r); field_string tdCountry (register_Country r);
     field_string tdWorkKey (register_WorkKey r); field_string tdLocalIP (register_LocalIP r);
     field_uint64 tdMinPort (register_MinPort r); field_uint64 tdMaxPort (register_MaxPort r);
     field_string tdPublicIP (register_PublicIP r); field_uint64 tdCheckPort (register_CheckPort r);
     field_address tdStakeAddr (register_StakerAddr r)].
Definition RefreshTx_TypedData (r : RefreshTx) : TypedData :=
  typed (refresh_BaseTx r) Refresh
    [field_string tdCountry (refresh_Country r); field_string tdWorkKey (refresh_WorkKey r);
     field_string tdLocalIP (refresh_LocalIP r); field_uint64 tdMinPort (refresh_MinPort r);
     field_uint64 tdMaxPort (refresh_MaxPort r); field_string tdPublicIP (refresh_PublicIP r);
     field_uint64 tdCheckPort (refresh_CheckPort r)].
Definition AddUserTx_TypedData (c : AddUserTx) : TypedData :=
  typed (adduser_BaseTx c) AddUser
    [field_address tdAddress (adduser_Address c); field_uint64 tdStartTime (adduser_StartTime c);
     field_uint64 tdEndTime (adduser_EndTime c); field_uint64 tdAmount (adduser_PayAmount c);
     field_uint64 tdUserType (adduser_UserType c); field_uint64 tdConnections (adduser_Connections c)].
Definition GovernTx_TypedData (g : GovernTx) : TypedData :=
  typed (govern_BaseTx g) Govern [field_string tdActionID (ShortID_String (govern_ActionID g))].
(** The primary type is that of a [GovernTx]. *)
Definition VoteTx_TypedData (v : VoteTx) : TypedData :=
  typed (vote_BaseTx v) Govern [field_string tdActionID (ShortID_String (vote_ActionID v))].
Definition WithdrawnTx_TypedData (w : WithdrawnTx) : TypedData :=
  typed (withdrawn_BaseTx w) Withdrawn
    [field_string tdActionID (ShortID_String (withdrawn_ActionID w))].
Definition ProofTx_TypedData (p : ProofTx) : TypedData :=
  typed (proof_BaseTx p) Proof_
    [field_address tdSer (proof_Ser p); field_uint64 tdStartTime (proof_StartTime p);
     field_uint64 tdEndTime (proof_EndTime p); field_uint64 tdNetflow (proof_Netflow p)].
Definition ProposalTx_TypedData (p : ProposalTx) : TypedData :=
  typed (proposal_BaseTx p) Proposal
    [field_string tdActionID (ShortID_String (proposal_ActionID p)); field_string tdKey (proposal_Key p);
     field_string tdNewValue (proposal_NewValue p); field_uint64 tdStartTime (proposal_StartTime p);
     field_uint64 tdEndTime (proposal_EndTime p); field_uint64 tdActionType (proposal_ActionType p)].

Definition TypedData_of (u : UnsignedTransaction) : TypedData :=
  match u with
  | USet t => SetTx_TypedData t | UTransfer t => TransferTx_TypedData t
  | UStake t => StakeTx_TypedData t | UUnStake t => UnStakeTx_TypedData t
  | UClaim t => ClaimTx_TypedData t | URegister t => RegisterTx_TypedData t
  | URefresh t => RefreshTx_TypedData t | UAddUser t => AddUserTx_TypedData t
  | UGovern t => GovernTx_TypedData t | UVote t => VoteTx_TypedData t
  | UWithdrawn t => WithdrawnTx_TypedData t | UProof t => ProofTx_TypedData t
  | UProposal t => ProposalTx_TypedData t
  end.

(** ** ParseTypedData *)

Definition rbind {A B} (x : result A) (f : A -> result B) : result B :=
  match x with inr a => f a | inl e => inl e end.
#[local] Notation "'res!' x := m 'in' k" := (rbind m (fun x => k))
  (at level 10, x name, m at level 100, k at level 200) : go_scope.

(** [td.Message[k].(string)], or the error that names [what]. *)
Definition parseString (td : TypedData) (k what : string) : result string :=
  match message_at (td_Message td) k with
  | IString s => inr s
  | _ => inl (Wrapf ErrTypedDataKeyMissing what)
  end.
Definition parseUint64Message (td : TypedData) (k : string) : result Z :=
  res! r := parseString td k k in ParseUint r.
Definition parseBaseTx (td : TypedData) : result BaseTx :=
  res! rblockID := parseString td tdBlockID tdBlockID in
  res! blockID := ID_FromString rblockID in
  res! magic := ParseUint (Domain_Magic (td_Domain td)) in
  res! price := parseUint64Message td tdPrice in
  inr (mkBaseTx blockID magic price).
(** [actionID, _ := ids.ShortFromString(s)]. *)
Definition short_id (s : string) : ShortID :=
  match ShortID_FromString s with inr i => i | inl _ => EmptyShortID end.

Definition ParseTypedData (td : TypedData) : result UnsignedTransaction :=
  res! bTx := parseBaseTx td in
  let typ k := String.eqb (td_PrimaryType td) k in
  let str k := parseString td k k in
  let uint k := parseUint64Message td k in
  if typ Set_ then
    res! rvalue := str tdValue in
    res! value := hexutil_Decode rvalue in
    inr (USet (mkSetTx bTx value))
  else if typ Transfer then
    res! to := str tdTo in
    res! units := uint tdUnits in
    inr (UTransfer (mkTransferTx bTx (HexToAddress to) units))
  else if typ Stake then
    res! stakerAddr := str tdStakeAddr in
    res! stakerType := uint tdStakerType in
    res! stakeAmount := uint tdAmount in
    inr (UStake (mkStakeTx bTx stakerType stakeAmount (HexToAddress stakerAddr)))
  else if typ UnStake then
    res! stakerType := uint tdStakerType in
    res! rewardAmount := uint tdAmount in
    res! endTime := uint tdEndTime in
    inr (UUnStake (mkUnStakeTx bTx rewardAmount stakerType endTime))
  else if typ Register then
    res! ractionID := str tdActionID in
    let actionID := short_id ractionID in
    res! localIP := str tdLocalIP in
    res! country := str tdCountry in
    res! workKey := str tdWorkKey in
    res! minPort := uint tdMinPort in
    res! maxPort := uint tdMaxPort in
    res! publicIP := str tdPublicIP in
    res! checkPort := uint tdCheckPort in
    res! stakerType := uint tdStakerType in
    res! stakerAddr := str tdStakeAddr in
    inr (URegister (mkRegisterTx bTx actionID stakerType country localIP publicIP minPort maxPort
      checkPort workKey (HexToAddress stakerAddr)))
  else if typ Refresh then
    res! localIP := str tdLocalIP in
    res! country := str tdCountry in
    res! workKey := str tdWorkKey in
    res! minPort := uint tdMinPort in
    res! maxPort := uint tdMaxPort in
    res! publicIP := str tdPublicIP in
    res! checkPort := uint tdCheckPort in
    inr (URefresh (mkRefreshTx bTx country localIP publicIP minPort maxPort checkPort workKey))
  else if typ Proof_ then
    res! netflow := uint tdNetflow in
    res! startTime := uint tdStartTime in
    res! endTime := uint tdEndTime in
    res! ser := str tdSer in
    inr (UProof (mkProofTx bTx netflow startTime endTime (HexToAddress ser)))
  else if typ Govern then
    res! ractionID := str tdActionID in
    inr (UGovern (mkGovernTx bTx (short_id ractionID)))
  else if typ Proposal then
    res! ractionID := str tdActionID in
    let actionID := short_id ractionID in
    res! key := parseString td tdKey tdTo in
    res! value := str tdNewValue in
    res! startTime := uint tdStartTime in
    res! endTime := uint tdEndTime in
    inr (UProposal (mkProposalTx bTx actionID startTime endTime 0 key value))
  else if typ Claim then
    res! rewardAmount := uint tdAmount in
    res! endTime := uint tdEndTime in
    inr (UClaim (mkClaimTx bTx rewardAmount endTime))
  else if typ Vote then
    res! ractionID := str tdActionID in
    inr (UVote (mkVoteTx bTx (short_id ractionID)))
  else inl ErrInvalidType.

(** ** Input *)

Record Input := mkInput {
  in_Typ : string;
  in_Key : string;
  in_Value : bytes;
  in_To : Address;
  in_Units : Z;
  in_StakerType : Z;
  in_StakerAddr : Address;
  in_StakeAmount : Z;
  in_RewardAmount : Z;
  in_ActionID : ShortID;
  in_LocalIP : string;
  in_MinPort : Z;
  in_MaxPort : Z;
  in_PublicIP : string;
  in_CheckPort : Z;
  in_Netflow : Z;
  in_StartTime : Z;
  in_EndTime : Z;
  in_Ser : Address;
  in_NewValue : string;
  in_Country : string;
  in_WorkKey : string
}.

Definition zeroBaseTx : BaseTx := mkBaseTx EmptyID 0 0.
(** A decoded transaction; [dec_base] is false when its [BaseTx] is the nil
    pointer. *)
Record decoded := mkDecoded { dec_tx : UnsignedTransaction; dec_base : bool }.

Definition Decode (i : Input) : result decoded :=
  let typ k := String.eqb (in_Typ i) k in
  let b := zeroBaseTx in
  if typ Set_ then inr (mkDecoded (USet (mkSetTx b (in_Value i))) true)
  else if typ Transfer then inr (mkDecoded (UTransfer (mkTransferTx b (in_To i) (in_Units i))) true)
  else if typ Stake then
    inr (mkDecoded (UStake (mkStakeTx b (in_StakerType i) (in_StakeAmount i) (in_StakerAddr i))) true)
  else if typ UnStake then
    inr (mkDecoded (UUnStake (mkUnStakeTx b (in_RewardAmount i) (in_StakerType i) 0)) true)
  else if typ Register then
    inr (mkDecoded (URegister (mkRegisterTx b (in_ActionID i) (in_StakerType i) (in_Country i)
      (in_LocalIP i) (in_PublicIP i) (in_MinPort i) (in_MaxPort i) (in_CheckPort i) (in_WorkKey i)
      (in_StakerAddr i))) true)
  else if typ Refresh then
    inr (mkDecoded (URefresh (mkRefreshTx b (in_Country i) (in_LocalIP i) (in_PublicIP i)
      (in_MinPort i) (in_MaxPort i) (in_CheckPort i) (in_WorkKey i))) true)
  else if typ Proof_ then
    inr (mkDecoded (UProof (mkProofTx b (in_Netflow i) (in_StartTime i) (in_EndTime i) (in_Ser i))) true)
  else if typ Govern then inr (mkDecoded (UGovern (mkGovernTx b (in_ActionID i))) true)
  else if typ Claim then
    inr (mkDecoded (UClaim (mkClaimTx b (in_RewardAmount i) (in_EndTime i))) true)
  else if typ Vote then inr (mkDecoded (UVote (mkVoteTx b (in_ActionID i))) false)
  else if typ Proposal then
    inr (mkDecoded (UProposal (mkProposalTx b (in_ActionID i) (in_StartTime i) (in_EndTime i) 0
      (in_Key i) (in_NewValue i))) true)
  else inl ErrInvalidType.

Definition set_base (b : BaseTx) (u : UnsignedTransaction) : UnsignedTransaction :=
  match u with
  | USet t => USet (mkSetTx b (set_Value t))
  | UTransfer t => UTransfer (mkTransferTx b (transfer_To t) (transfer_Units t))
  | UStake t => UStake (mkStakeTx b (stake_StakerType t) (stake_StakeAmount t) (stake_StakerAddr t))
  | UUnStake t =>
      UUnStake (mkUnStakeTx b (unstake_RewardAmount t) (unstake_StakerType t) (unstake_EndTime t))
  | UClaim t => UClaim (mkClaimTx b (claim_RewardAmount t) (claim_EndTime t))
  | URegister t => URegister (mkRegisterTx b (register_ActionID t) (register_StakerType t)
      (register_Country t) (register_LocalIP t) (register_PublicIP t) (register_MinPort t)
      (register_MaxPort t) (register_CheckPort t) (register_WorkKey t) (register_StakerAddr t))
  | URefresh t => URefresh (mkRefreshTx b (refresh_Country t) (refresh_LocalIP t)
      (refresh_PublicIP t) (refresh_MinPort t) (refresh_MaxPort t) (refresh_CheckPort t)
      (refresh_WorkKey t))
  | UAddUser t => UAddUser (mkAddUserTx b (adduser_StartTime t) (adduser_EndTime t)
      (adduser_PayAmount t) (adduser_Connections t) (adduser_UserType t) (adduser_Address t))
  | UGovern t => UGovern (mkGovernTx b (govern_ActionID t))
  | UVote t => UVote (mkVoteTx b (vote_ActionID t))
  | UWithdrawn t => UWithdrawn (mkWithdrawnTx b (withdrawn_ActionID t))
  | UProof t => UProof (mkProofTx b (proof_Netflow t) (proof_StartTime t) (proof_EndTime t) (proof_Ser t))
  | UProposal t => UProposal (mkProposalTx b (proposal_ActionID t) (proposal_StartTime t)
      (proposal_EndTime t) (proposal_ActionType t) (proposal_Key t) (proposal_NewValue t))
  end.

(** [utx.SetBlockID(...)], [SetMagic] and [SetPrice]: they write through the
    embedded pointer. *)
Definition on_base (f : BaseTx -> BaseTx) (d : decoded) : outcome decoded :=
  if dec_base d then Ok (mkDecoded (set_base (f (base (dec_tx d))) (dec_tx d)) true)
  else Panic NilDereference.
Definition SetBlockID (i : ID) : decoded -> outcome decoded :=
  on_base (fun b => mkBaseTx i (base_Magic b) (base_Price b)).
Definition SetMagic (m : Z) : decoded -> outcome decoded :=
  on_base (fun b => mkBaseTx (base_BlockID b) m (base_Price b)).
Definition SetPrice (p : Z) : decoded -> outcome decoded :=
  on_base (fun b => mkBaseTx (base_BlockID b) (base_Magic b) p).
End typed_data.

(** ** Signatures and derived fields: crypto.go, tx.go *)

(** The codec at the types that are sent: a signed transaction is its unsigned
    part and its signature. *)
Class TxCodec := { codec_tx :: Codec (UnsignedTransaction * bytes) }.
Class TxCodecLaws `{TxCodec} : Prop := { codec_laws_tx :: CodecLaws (UnsignedTransaction * bytes) }.

Section init.
Context `{Ethereum} `{EthMath} `{GoRuntime} `{TxCodec}.

Definition vOffset : nat := 64.
Definition legacySigAdj : Z := 27.
Definition SignatureLength : nat := 65.

Definition DeriveSender (dh sig : bytes) : result PublicKey :=
  if decide (length sig <> SignatureLength) then inl ErrInvalidSignature
  else
    let v := Z_of_byte (default x00 (sig !! vOffset)) in
    let sigcpy := if legacySigAdj <=? v then <[vOffset := byte_of_Z (v - legacySigAdj)]> sig else sig in
    SigToPub dh sigcpy.

Definition tx_DigestHash (utx : UnsignedTransaction) : outcome bytes := DigestHash (TypedData_of utx).

Definition NewTx (utx : UnsignedTransaction) (sig : bytes) : Transaction :=
  mkTransaction utx sig [] [] EmptyID 0 zeroAddress.

Definition Init (t : Transaction) (g : Genesis) : outcome Transaction :=
  match Marshal (tx_Unsigned t, tx_Signature t) with
  | inl e => Err e
  | inr stx =>
      match ToID (array (Keccak256 stx)) with
      | inl e => Err e
      | inr id =>
          match tx_DigestHash (tx_Unsigned t) with
          | Err e => Err e
          | Panic p => Panic p
          | Ok dh =>
              match DeriveSender dh (tx_Signature t) with
              | inl e => Err e
              | inr pk =>
                  Ok (mkTransaction (tx_Unsigned t) (tx_Signature t) dh stx id
                    (Z.of_nat (length stx)) (PubkeyToAddress pk))
              end
          end
      end
  end.
End init.
