(* ===== verification/Activity.v ===== *)
(** * Activities: chain/activity.go and the Activity methods

    What the node reports about a transaction it has accepted. *)

From Stdlib Require Import Ascii.
From S2P Require Import Prelude External GoStd TData Keys Storage Genesis SamaState Tx TypedTx.

(** The struct; the constructor takes the fields in their order. *)
Record Activity := mkActivity {
  Tmstmp : Z;
  Activity_TxID : ID;
  Typ : string;
  Activity_Sender : string;
  Key : string;
  To : string;
  Units : Z;
  Activity_StakerType : Z;
  Activity_StakeAmount : Z;
  Activity_StakerAddr : string;
  Activity_RewardAmount : Z;
  Activity_StartTime : Z;
  Activity_EndTime : Z;
  Activity_PayAmount : Z;
  Connections : Z;
  Activity_Address : string;
  Activity_ActionID : ShortID;
  ParamType : Z;
  Activity_Value : string;
  Activity_Netflow : Z;
  Activity_LocalIP : string;
  Activity_MinPort : Z;
  Activity_MaxPort : Z;
  Activity_PublicIP : string;
  Activity_CheckPort : Z;
  Activity_Country : string;
  Activity_WorkKey : string;
  Activity_UserType : Z;
  Activity_ActionType : Z
}.

Section activity.
Context `{Ethereum}.

(** [strings.ToLower] of an ASCII string, which the hexadecimal form is. *)
Definition lower_char (c : Ascii.ascii) : Ascii.ascii :=
  let n := N_of_ascii c in
  if (N.leb 65 n && N.leb n 90)%N then ascii_of_N (n + 32) else c.
Fixpoint ToLower (s : string) : string :=
  match s with "" => "" | String c s' => String (lower_char c) (ToLower s') end.
Definition ValueHashString (v : bytes) : string := ToLower (Hash_Hex (ValueHash v)).

Definition SetTx_Activity (s : SetTx) : Activity :=
  mkActivity 0 EmptyID Set_ "" (ValueHashString (set_Value s)) "" 0 0 0 "" 0 0 0 0 0 "" EmptyShortID
    0 "" 0 "" 0 0 "" 0 "" "" 0 0.
Definition TransferTx_Activity (t : TransferTx) : Activity :=
  mkActivity 0 EmptyID Transfer "" "" (Address_Hex (transfer_To t)) (transfer_Units t) 0 0 "" 0
    0 0 0 0 "" EmptyShortID 0 "" 0 "" 0 0 "" 0 "" "" 0 0.
Definition StakeTx_Activity (s : StakeTx) : Activity :=
  mkActivity 0 EmptyID Stake "" "" "" 0 (stake_StakerType s) (stake_StakeAmount s)
    (Address_Hex (stake_StakerAddr s)) 0 0 0 0 0 "" EmptyShortID 0 "" 0 "" 0 0 "" 0 "" "" 0 0.
Definition UnStakeTx_Activity (u : UnStakeTx) : Activity :=
  mkActivity 0 EmptyID UnStake "" "" "" 0 (unstake_StakerType u) 0 "" (unstake_RewardAmount u)
    0 0 0 0 "" EmptyShortID 0 "" 0 "" 0 0 "" 0 "" "" 0 0.
Definition ClaimTx_Activity (c : ClaimTx) : Activity :=
  mkActivity 0 EmptyID Claim "" "" "" 0 0 0 "" (claim_RewardAmount c) 0 (claim_EndTime c) 0 0 ""
    EmptyShortID 0 "" 0 "" 0 0 "" 0 "" "" 0 0.
Definition RegisterTx_Activity (r : RegisterTx) : Activity :=
  mkActivity 0 EmptyID Register "" "" "" 0 (register_StakerType r) 0
    (Address_Hex (register_StakerAddr r)) 0 0 0 0 0 "" (register_ActionID r) 0 "" 0
    (register_LocalIP r) (register_MinPort r) (register_MaxPort r) (register_PublicIP r)
    (register_CheckPort r) (register_Country r) (register_WorkKey r) 0 0.
Definition RefreshTx_Activity (r : RefreshTx) : Activity :=
  mkActivity 0 EmptyID Refresh "" "" "" 0 0 0 "" 0 0 0 0 0 "" EmptyShortID 0 "" 0
    (refresh_LocalIP r) (refresh_MinPort r) (refresh_MaxPort r) (refresh_PublicIP r)
    (refresh_CheckPort r) (refresh_Country r) (refresh_WorkKey r) 0 0.
Definition AddUserTx_Activity (c : AddUserTx) : Activity :=
  mkActivity 0 EmptyID AddUser "" "" "" 0 0 0 "" 0 (adduser_StartTime c) (adduser_EndTime c)
    (adduser_PayAmount c) (adduser_Connections c) (Address_Hex (adduser_Address c)) EmptyShortID
    0 "" 0 "" 0 0 "" 0 "" "" (adduser_UserType c) 0.
Definition GovernTx_Activity (g : GovernTx) : Activity :=
  mkActivity 0 EmptyID Govern "" "" "" 0 0 0 "" 0 0 0 0 0 "" (govern_ActionID g)
    0 "" 0 "" 0 0 "" 0 "" "" 0 0.
Definition VoteTx_Activity (v : VoteTx) : Activity :=
  mkActivity 0 EmptyID Govern "" "" "" 0 0 0 "" 0 0 0 0 0 "" (vote_ActionID v)
    0 "" 0 "" 0 0 "" 0 "" "" 0 0.
Definition WithdrawnTx_Activity (w : WithdrawnTx) : Activity :=
  mkActivity 0 EmptyID Withdrawn "" "" "" 0 0 0 "" 0 0 0 0 0 "" (withdrawn_ActionID w)
    0 "" 0 "" 0 0 "" 0 "" "" 0 0.
Definition ProofTx_Activity (p : ProofTx) : Activity :=
  mkActivity 0 EmptyID Proof_ "" "" "" 0 0 0 "" 0 (proof_StartTime p) (proof_EndTime p) 0 0
    (Address_Hex (proof_Ser p)) EmptyShortID 0 "" (proof_Netflow p) "" 0 0 "" 0 "" "" 0 0.
Definition ProposalTx_Activity (p : ProposalTx) : Activity :=
  mkActivity 0 EmptyID Proposal "" (proposal_Key p) "" 0 0 0 "" 0 (proposal_StartTime p)
    (proposal_EndTime p) 0 0 "" (proposal_ActionID p) 0 (proposal_NewValue p) 0 "" 0 0 "" 0 "" ""
    0 (proposal_ActionType p).

Definition Activity_of (u : UnsignedTransaction) : Activity :=
  match u with
  | USet t => SetTx_Activity t | UTransfer t => TransferTx_Activity t
  | UStake t => StakeTx_Activity t | UUnStake t => UnStakeTx_Activity t
  | UClaim t => ClaimTx_Activity t | URegister t => RegisterTx_Activity t
  | URefresh t => RefreshTx_Activity t | UAddUser t => AddUserTx_Activity t
  | UGovern t => GovernTx_Activity t | UVote t => VoteTx_Activity t
  | UWithdrawn t => WithdrawnTx_Activity t | UProof t => ProofTx_Activity t
  | UProposal t => ProposalTx_Activity t
  end.

(** [activity.Sender] and [activity.TxID], and in [VM.Accepted] [activity.Tmstmp]. *)
Definition set_origin (sender : string) (id : ID) (a : Activity) : Activity :=
  mkActivity (Tmstmp a) id (Typ a) sender (Key a) (To a) (Units a) (Activity_StakerType a)
    (Activity_StakeAmount a) (Activity_StakerAddr a) (Activity_RewardAmount a)
    (Activity_StartTime a) (Activity_EndTime a) (Activity_PayAmount a) (Connections a)
    (Activity_Address a) (Activity_ActionID a) (ParamType a) (Activity_Value a)
    (Activity_Netflow a) (Activity_LocalIP a) (Activity_MinPort a) (Activity_MaxPort a)
    (Activity_PublicIP a) (Activity_CheckPort a) (Activity_Country a) (Activity_WorkKey a)
    (Activity_UserType a) (Activity_ActionType a).
Definition set_Tmstmp (t : Z) (a : Activity) : Activity :=
  mkActivity t (Activity_TxID a) (Typ a) (Activity_Sender a) (Key a) (To a) (Units a)
    (Activity_StakerType a) (Activity_StakeAmount a) (Activity_StakerAddr a)
    (Activity_RewardAmount a) (Activity_StartTime a) (Activity_EndTime a) (Activity_PayAmount a)
    (Connections a) (Activity_Address a) (Activity_ActionID a) (ParamType a) (Activity_Value a)
    (Activity_Netflow a) (Activity_LocalIP a) (Activity_MinPort a) (Activity_MaxPort a)
    (Activity_PublicIP a) (Activity_CheckPort a) (Activity_Country a) (Activity_WorkKey a)
    (Activity_UserType a) (Activity_ActionType a).

Definition Transaction_Activity (t : Transaction) : Activity :=
  set_origin (Address_Hex (tx_sender t)) (tx_id t) (Activity_of (tx_Unsigned t)).
End activity.
