(* ===== verification/Keystore.v ===== *)
(** * Keys of the users of a node: vm/userkey.go, and Sign of chain/crypto.go

    The receiver of the methods is the database of a user, which may be nil. *)

From S2P Require Import Prelude External GoStd Instances Keys TData Tx TypedTx.

(** [ids.Empty[:]]; addresses are shorter. *)
Definition addressesKey : bytes := array EmptyID.

Section userkey.
Context `{Database} `{Secp} `{!Codec (list Address)}.

Definition address_of (sk : PrivateKey) : Address := PubkeyToAddress (sk_PublicKey sk).

(** A method that starts with the check for a nil database. *)
Definition with_db {A} (m : M DB A) : M (option DB) A := fun u =>
  match u with
  | None => (None, Err errDBNil)
  | Some db => let '(db', r) := m db in (Some db', r)
  end.

Definition getAddresses : M (option DB) (list Address) := with_db (
  let! hasAddresses := Has addressesKey in
  if negb hasAddresses then ret []
  else let! b := Get addressesKey in lift (Unmarshal b)).

Definition controlsAddress (address : Address) : M (option DB) bool := with_db (Has (array address)).

Definition getKey (address : Address) : M (option DB) PrivateKey := with_db (
  let! b := Get (array address) in lift (ToPrivateKey b)).

Definition putAddress (privKey : option PrivateKey) : M (option DB) unit :=
  match privKey with
  | None => fail errKeyNil
  | Some sk =>
      let address := address_of sk in
      let! controls := controlsAddress address in
      if controls : bool then ret tt
      else
        with_db (Put (array address) (sk_Bytes sk)) ;;;
        let! userHasAddresses := with_db (Has addressesKey) in
        let! addresses := (if userHasAddresses : bool then getAddresses else ret []) in
        let! b := lift (Marshal (addresses ++ [address])) in
        with_db (Put addressesKey b)
  end.

Fixpoint keys_of (addrs : list Address) : M (option DB) (list PrivateKey) :=
  match addrs with
  | [] => ret []
  | a :: addrs' => let! key := getKey a in let! keys := keys_of addrs' in ret (key :: keys)
  end.
Definition getKeys : M (option DB) (list PrivateKey) := let! addrs := getAddresses in keys_of addrs.

(** ** Signing *)
Definition Sign (dh : bytes) (priv : PrivateKey) : result bytes :=
  match crypto_Sign dh priv with
  | inl e => inl e
  | inr sig =>
      inr (<[vOffset := byte_of_Z (Z_of_byte (default x00 (sig !! vOffset)) + legacySigAdj)]> sig)
  end.

(** ** A user's database as the list of the keys it holds *)

Fixpoint key_at (ks : list PrivateKey) (a : Address) : option bytes :=
  match ks with
  | [] => None
  | k :: ks' => if decide (address_of k = a) then Some (sk_Bytes k) else key_at ks' a
  end.
Record wallet (db : DB) (ks : list PrivateKey) : Prop := {
  wl_nodup : NoDup (address_of <$> ks);
  wl_key a : db_lookup db (array a) = key_at ks a;
  wl_addresses : match ks with
    | [] => db_lookup db addressesKey = None
    | _ => exists b, db_lookup db addressesKey = Some b /\ Marshal (address_of <$> ks) = inr b
    end
}.
End userkey.

Section wallet_facts.
Context `{DatabaseLaws} `{SecpLaws} `{CodecLaws (list Address)} `{!CodecTotal (list Address)}.
Implicit Types (ks : list PrivateKey).

Lemma address_not_addressesKey (a : Address) : array a <> addressesKey.
Proof. intros Heq. apply (f_equal length) in Heq. unfold addressesKey in Heq. by rewrite !sized_length in Heq. Qed.

Lemma key_at_some ks a : a ∈ address_of <$> ks -> exists k, k ∈ ks /\ address_of k = a /\ key_at ks a = Some (sk_Bytes k).
Proof.
  induction ks as [|k ks IH]; cbn; [by intros ?%elem_of_nil|]. intros Ha.
  destruct (decide (address_of k = a)) as [<-|Hne]; [exists k; split_and!; [left|done|done]|].
  apply elem_of_cons in Ha as [->|Ha]; [done|]. destruct (IH Ha) as (k' & ? & ? & ?).
  exists k'. split_and!; [by right|done|done].
Qed.
Lemma key_at_none ks a : a ∉ address_of <$> ks -> key_at ks a = None.
Proof.
  induction ks as [|k ks IH]; [done|]. cbn. rewrite not_elem_of_cons. intros [Hne Ha].
  rewrite decide_False by congruence. by apply IH.
Qed.
Lemma key_at_snoc ks sk a :
  address_of sk ∉ address_of <$> ks ->
  key_at (ks ++ [sk]) a = if decide (address_of sk = a) then Some (sk_Bytes sk) else key_at ks a.
Proof.
  intros Hn. induction ks as [|k ks IH]; [done|]. cbn in *. apply not_elem_of_cons in Hn as [Hne Hn].
  rewrite (IH Hn). repeat case_decide; congruence.
Qed.

Lemma getAddresses_run db ks :
  wallet db ks -> getAddresses (Some db) = (Some db, Ok (address_of <$> ks)).
Proof.
  intros [_ _ Hl]. unfold getAddresses, with_db. rewrite (bind_run _ _ _ _ _ (Has_run _ _)).
  destruct ks as [|k ks]; [by rewrite Hl|]. destruct Hl as (b & Hb & Hm). rewrite Hb. cbn [negb].
  rewrite bool_decide_eq_true_2 by done. cbn [negb]. unfold bind. rewrite Get_run, Hb. unfold lift.
  by rewrite (Unmarshal_Marshal _ _ Hm).
Qed.

Lemma getKey_run db ks a k :
  wallet db ks -> key_at ks a = Some (sk_Bytes k) -> getKey a (Some db) = (Some db, Ok k).
Proof.
  intros [_ Hk _] Ha. unfold getKey, with_db, bind. rewrite Get_run, Hk, Ha. unfold lift.
  by rewrite ToPrivateKey_Bytes.
Qed.

Lemma wallet_key db ks k : wallet db ks -> k ∈ ks -> key_at ks (address_of k) = Some (sk_Bytes k).
Proof.
  intros [Hnd _ _]. clear -Hnd. induction ks as [|k' ks IH]; [by intros ?%elem_of_nil|]. cbn in *.
  apply NoDup_cons in Hnd as [Hn Hnd]. intros [->|Hk]%elem_of_cons; [by rewrite decide_True|].
  rewrite decide_False; [by apply IH|]. intros Heq. apply Hn. rewrite Heq. by apply list_elem_of_fmap_2.
Qed.
Lemma getKeys_run db ks : wallet db ks -> getKeys (Some db) = (Some db, Ok ks).
Proof.
  intros Hw. unfold getKeys. rewrite (bind_run _ _ _ _ _ (getAddresses_run _ _ Hw)).
  assert (forall l, (forall k, k ∈ l -> k ∈ ks) -> keys_of (address_of <$> l) (Some db) = (Some db, Ok l)) as Hall.
  { induction l as [|k l IH]; intros Hl; [done|]. cbn [fmap list_fmap keys_of].
    rewrite (bind_run _ _ _ _ _ (getKey_run db ks _ k Hw (wallet_key _ _ _ Hw (Hl k (list_elem_of_here _ _))))).
    rewrite (bind_run _ _ _ _ _ (IH (fun x Hx => Hl x (list_elem_of_further _ _ _ Hx)))). done. }
  by apply Hall.
Qed.

Lemma wallet_put db ks sk b :
  wallet db ks -> address_of sk ∉ address_of <$> ks -> Marshal (address_of <$> (ks ++ [sk])) = inr b ->
  wallet (db_set (db_set db (array (address_of sk)) (sk_Bytes sk)) addressesKey b) (ks ++ [sk]).
Proof.
  intros [Hnd Hk Hl] Hn Hm. split.
  - rewrite fmap_app. apply NoDup_app. split_and!; [done| |apply NoDup_singleton].
    intros a Ha ->%list_elem_of_singleton. done.
  - intros a. rewrite lookup_set_ne by (intros Heq; by eapply address_not_addressesKey).
    rewrite key_at_snoc by done. rewrite db_lookup_set, Hk. destruct (decide (address_of sk = a)) as [<-|Hne].
    + by rewrite decide_True.
    + rewrite decide_False; [done|]. intros Heq. by apply Hne, sized_eq.
  - assert (ks ++ [sk] <> []) as Hne by (by destruct ks). destruct (ks ++ [sk]) as [|x l]; [done|].
    exists b. by rewrite lookup_set_eq.
Qed.

(** The database of a user implements a list of keys with different addresses:
    saving a key appends it unless its address is there, and every key can be
    read back, alone or with the others. *)
Theorem putAddress_adds_key db ks sk :
  wallet db ks ->
  let ks' := if decide (address_of sk ∈ address_of <$> ks) then ks else ks ++ [sk] in
  exists db', putAddress (Some sk) (Some db) = (Some db', Ok tt) /\ wallet db' ks' /\
    getKeys (Some db') = (Some db', Ok ks') /\
    forall k, k ∈ ks' -> getKey (address_of k) (Some db') = (Some db', Ok k).
Proof.
  intros Hw ks'.
  assert (exists db', putAddress (Some sk) (Some db) = (Some db', Ok tt) /\ wallet db' ks') as (db' & Hrun & Hw').
  2: { exists db'. split_and!; [done|done|by apply getKeys_run|].
       intros k Hk. eapply getKey_run; [done|by eapply wallet_key]. }
  unfold putAddress. unfold controlsAddress at 1, with_db at 1, bind at 1.
  rewrite Has_run, (wl_key _ _ Hw). subst ks'. case_decide as Ha.
  - destruct (key_at_some _ _ Ha) as (k & _ & _ & ->). by exists db.
  - rewrite (key_at_none _ _ Ha), bool_decide_eq_false_2 by (by intros []).
    unfold with_db at 1, bind at 1. rewrite Put_run. set (db1 := db_set db _ _).
    assert (db_lookup db1 addressesKey = db_lookup db addressesKey) as Hl1
      by (apply lookup_set_ne, address_not_addressesKey).
    unfold with_db at 1, bind at 1. rewrite Has_run, Hl1.
    assert ((if bool_decide (is_Some (db_lookup db addressesKey)) then getAddresses else ret []) (Some db1) =
      (Some db1, Ok (address_of <$> ks))) as Haddrs.
    { pose proof (wl_addresses _ _ Hw) as Hla. destruct ks as [|k ks].
      - rewrite Hla. by rewrite bool_decide_eq_false_2 by (by intros []).
      - destruct Hla as (b & Hb & Hm). rewrite Hb, bool_decide_eq_true_2 by done.
        unfold getAddresses, with_db, bind. rewrite Has_run, Hl1, Hb.
        rewrite bool_decide_eq_true_2 by done. cbn [negb]. rewrite Get_run, Hl1, Hb. unfold lift.
        by rewrite (Unmarshal_Marshal _ _ Hm). }
    rewrite (bind_run _ _ _ _ _ Haddrs).
    destruct (Marshal_total (address_of <$> (ks ++ [sk]))) as [b Hb].
    pose proof Hb as Hb'. rewrite fmap_app in Hb'. unfold lift, bind at 1. cbn [fmap list_fmap] in Hb'. rewrite Hb'.
    cbn [of_result]. unfold with_db. rewrite Put_run. eexists. split; [done|]. by apply wallet_put.
Qed.

(** ** What is signed with a key recovers its address *)
Lemma Sign_DeriveSender dh sk sig : Sign dh sk = inr sig -> DeriveSender dh sig = inr (sk_PublicKey sk).
Proof.
  intros Hs. unfold Sign in Hs. destruct (crypto_Sign dh sk) as [e|raw] eqn:Hraw; [done|].
  destruct (crypto_Sign_spec _ _ _ Hraw) as (rs & v & Hrs & Hv & -> & Hpk). injection Hs as <-.
  unfold vOffset, legacySigAdj. rewrite lookup_app_r, Hrs by lia. cbn [Nat.sub lookup list_lookup default from_option id].
  rewrite insert_app_r_alt, Hrs by lia. cbn [Nat.sub insert list_insert].
  unfold DeriveSender, SignatureLength, vOffset, legacySigAdj. rewrite decide_False by (rewrite length_app, Hrs; cbn; lia).
  rewrite lookup_app_r, Hrs by lia. cbn [Nat.sub lookup list_lookup default from_option id].
  rewrite insert_app_r_alt, Hrs by lia. cbn [Nat.sub insert list_insert].
  destruct Hv as [->| ->]; exact Hpk.
Qed.
Lemma Sign_total dh sk : length dh = 32%nat -> exists sig, Sign dh sk = inr sig.
Proof. intros Hdh. unfold Sign. destruct (crypto_Sign_total dh sk Hdh) as [sig ->]. by eexists. Qed.
End wallet_facts.
