(* ===== verification/TypedTxFacts.v ===== *)
(** * What a signature covers, and what the decoder reads back *)

From S2P Require Import Prelude External GoStd TData Keys Storage Genesis SamaState Tx TypedTx.

(** The machine integers of a transaction are in range. *)
Definition tx_integers (u : UnsignedTransaction) : list Z :=
  base_Magic (base u) :: base_Price (base u) ::
  match u with
  | USet _ | UGovern _ | UVote _ | UWithdrawn _ => []
  | UTransfer t => [transfer_Units t]
  | UStake t => [stake_StakerType t; stake_StakeAmount t]
  | UUnStake t => [unstake_RewardAmount t; unstake_StakerType t; unstake_EndTime t]
  | UClaim t => [claim_RewardAmount t; claim_EndTime t]
  | URegister t =>
      [register_StakerType t; register_MinPort t; register_MaxPort t; register_CheckPort t]
  | URefresh t => [refresh_MinPort t; refresh_MaxPort t; refresh_CheckPort t]
  | UAddUser t => [adduser_StartTime t; adduser_EndTime t; adduser_PayAmount t;
      adduser_Connections t; adduser_UserType t]
  | UProof t => [proof_Netflow t; proof_StartTime t; proof_EndTime t]
  | UProposal t => [proposal_StartTime t; proposal_EndTime t; proposal_ActionType t]
  end.
Definition tx_ok (u : UnsignedTransaction) : Prop := Forall is_u64 (tx_integers u).

Section facts.
Context `{EthereumLaws} `{EthMath} `{!EthMathLaws} `{GoRuntime}.

Lemma parseString_at td k what s :
  message_at (td_Message td) k = IString s -> parseString td k what = inr s.
Proof. unfold parseString. by intros ->. Qed.
Lemma parseUint64_at td k n :
  is_u64 n -> message_at (td_Message td) k = IString (FormatUint n) -> parseUint64Message td k = inr n.
Proof.
  intros Hn Hk. unfold parseUint64Message, rbind. rewrite (parseString_at _ _ _ _ Hk).
  by apply ParseUint_FormatUint.
Qed.
Lemma parseBaseTx_at td b :
  is_u64 (base_Magic b) -> is_u64 (base_Price b) ->
  td_Domain td = samaDomain (base_Magic b) ->
  message_at (td_Message td) tdPrice = IString (FormatUint (base_Price b)) ->
  message_at (td_Message td) tdBlockID = IString (ID_String (base_BlockID b)) ->
  parseBaseTx td = inr b.
Proof.
  intros Hm Hp Hd Hpr Hid. unfold parseBaseTx, rbind. rewrite (parseString_at _ _ _ _ Hid).
  rewrite ID_FromString_String, Hd. cbn [samaDomain Domain_Magic].
  rewrite ParseUint_FormatUint by done. rewrite (parseUint64_at td tdPrice (base_Price b)) by done.
  by destruct b.
Qed.
Lemma short_id_String i : short_id (ShortID_String i) = i.
Proof. unfold short_id. by rewrite ShortID_FromString_String. Qed.

(** The base of every transaction is read back. *)
Lemma parse_base u : tx_ok u -> parseBaseTx (TypedData_of u) = inr (base u).
Proof.
  intros Hok. pose proof (Forall_cons_1 _ _ _ Hok) as [Hm Hok'].
  pose proof (Forall_cons_1 _ _ _ Hok') as [Hp _].
  apply parseBaseTx_at; [done|done|by destruct u|by destruct u|by destruct u].
Qed.

(** What the decoder makes of the typed data of a transaction. *)
Definition read_back (u : UnsignedTransaction) : result UnsignedTransaction :=
  match u with
  | USet _ | UTransfer _ | UStake _ | URegister _ | URefresh _ | UProof _ | UGovern _ => inr u
  | UVote v => inr (UGovern (mkGovernTx (vote_BaseTx v) (vote_ActionID v)))
  | UProposal p => inr (UProposal (mkProposalTx (proposal_BaseTx p) (proposal_ActionID p)
      (proposal_StartTime p) (proposal_EndTime p) 0 (proposal_Key p) (proposal_NewValue p)))
  | UUnStake _ => inl (Wrapf ErrTypedDataKeyMissing tdEndTime)
  | UClaim _ => inl (Wrapf ErrTypedDataKeyMissing tdAmount)
  | UAddUser _ | UWithdrawn _ => inl ErrInvalidType
  end.

(** C23: Parsing the typed data of a transaction gives the transaction back for
    seven of the thirteen types.  A vote comes back as a [GovernTx], a proposal
    without its action type, and the other four are refused: the end time of
    an [UnStakeTx] is not in its typed data, a [ClaimTx] writes its reward under
    another key than the decoder reads, and [AddUserTx] and [WithdrawnTx] have
    no case. *)
Theorem ParseTypedData_TypedData u : tx_ok u -> ParseTypedData (TypedData_of u) = read_back u.
Proof.
  intros Hok. unfold ParseTypedData. rewrite (parse_base u Hok). cbn [rbind].
  apply Forall_cons_1 in Hok as [_ Hok]. apply Forall_cons_1 in Hok as [_ Hok].
  destruct u as [t|t|t|t|t|t|t|t|t|t|t|t|t]; cbn [tx_integers] in Hok; decompose_Forall_hyps.
  all: lazy -[ParseUint FormatUint EmptyShortID HexToAddress Address_Hex hexutil_Decode hexutil_Encode
    ShortID_FromString ShortID_String base].
  all: repeat (rewrite ParseUint_FormatUint by assumption).
  all: rewrite ?hexutil_Decode_Encode, ?HexToAddress_Hex, ?ShortID_FromString_String.
  all: try (destruct t; reflexivity).
Qed.

(** ** Digests *)

(** A field whose value can be encoded. *)
Definition encodable (t : Types) (data : TypedDataMessage) (field : Type_t) : Prop :=
  forall rec, exists b, encode_field rec t data field = Ok b.

Lemma append_all_ok {A} (f : A -> outcome bytes) l buffer :
  (forall x, x ∈ l -> exists b, f x = Ok b) -> exists b, append_all f l buffer = Ok b.
Proof.
  revert buffer. induction l as [|x l IH]; intros buffer Hf; [by eexists|]. cbn [append_all].
  destruct (Hf x (list_elem_of_here _ _)) as [b ->]. apply IH. intros y Hy. apply Hf.
  by apply list_elem_of_further.
Qed.
Lemma HashStruct_ok t primaryType data :
  (length data <= length (types_at t primaryType))%nat ->
  (forall field, field ∈ types_at t primaryType -> encodable t data field) ->
  exists h : Hash, HashStruct t primaryType data = Ok (array h).
Proof.
  intros Hlen Hf. unfold HashStruct. cbn [map_depth EncodeData].
  rewrite (proj2 (Nat.ltb_ge _ _)) by done.
  destruct (append_all_ok (encode_field (EncodeData (list_max (map (fun kv => map_depth kv.2) data)) t) t data)
    (types_at t primaryType) (TypeHash t primaryType)) as [b ->]; [|by eexists].
  intros field Hin. apply (Hf field Hin).
Qed.

Lemma encode_uint64 n :
  is_u64 n -> EncodePrimitiveValue "uint64" (IString (FormatUint n)) = inr (U256Bytes n).
Proof.
  intros Hn. unfold EncodePrimitiveValue, parseInteger. rewrite HexOrDecimal256_FormatUint by done.
  change (int_length "uint64") with (inr (A := error) 64). cbn -[BitLen].
  assert (BitLen n <= 64) as Hlen.
  { unfold BitLen, is_u64 in *. destruct (Z.eqb_spec n 0); [lia|]. rewrite Z.abs_eq by lia.
    assert (Z.log2 n < 64) by (apply Z.log2_lt_pow2; lia). lia. }
  rewrite (proj2 (Z.ltb_ge 64 (BitLen n))) by done. unfold is_u64 in Hn.
  by rewrite (proj2 (Z.ltb_ge n 0)) by lia.
Qed.
Lemma encode_address a :
  EncodePrimitiveValue "address" (IString (Address_Hex a)) = inr (address_word a).
Proof. unfold EncodePrimitiveValue. cbn. by rewrite IsHexAddress_Hex, HexToAddress_Hex. Qed.
Lemma encode_bytes b :
  EncodePrimitiveValue "bytes" (IString (hexutil_Encode b)) = inr (array (Keccak256 b)).
Proof. unfold EncodePrimitiveValue. cbn. by rewrite hexutil_Decode_Encode. Qed.

(** A field as [TypedData] writes them. *)
Inductive good_field : Type_t * (string * iface) -> Prop :=
  | good_string k s : good_field (field_string k s)
  | good_uint64 k n : is_u64 n -> good_field (field_uint64 k n)
  | good_address k a : good_field (field_address k a)
  | good_bytes k b : good_field (field_bytes k b).

Lemma message_at_field (fs : list (Type_t * (string * iface))) f :
  NoDup (map (fun f => f.2.1) fs) -> f ∈ fs -> message_at fs.*2 f.2.1 = f.2.2.
Proof.
  induction fs as [|g fs IH]; intros Hnd Hin; [by apply elem_of_nil in Hin|].
  cbn in Hnd. apply NoDup_cons in Hnd as [Hnot Hnd]. apply elem_of_cons in Hin as [->|Hin].
  - destruct g as [t [k v]]. cbn. by rewrite String.eqb_refl.
  - destruct g as [t [k v]]. cbn. destruct (String.eqb_spec k f.2.1) as [->|Hne]; [|by apply IH].
    destruct Hnot. apply list_elem_of_fmap. by exists f.
Qed.

Definition no_struct (t : Types) : Prop :=
  forall k, k ∈ [tdString; tdUint64; tdAddress; tdBytes] -> t !! k = None.

Lemma good_field_encodable t (fs : list (Type_t * (string * iface))) f :
  no_struct t -> NoDup (map (fun f => f.2.1) fs) -> f ∈ fs -> good_field f -> encodable t fs.*2 f.1.
Proof.
  intros Ht Hnd Hin Hf rec. pose proof (message_at_field fs f Hnd Hin) as Hm.
  assert (Type_Name f.1 = f.2.1) as Hname by (by destruct Hf).
  unfold encode_field. rewrite Hname, Hm. unfold has_type.
  destruct Hf as [k s|k n Hn|k a|k b]; cbn [fst snd field_string field_uint64 field_address
    field_bytes Type_Type]; cbn [last_char tdString tdUint64 tdAddress tdBytes]; cbn [Ascii.eqb Bool.eqb].
  - rewrite (Ht tdString) by set_solver. rewrite bool_decide_eq_false_2 by (by intros [? ?]).
    by eexists.
  - rewrite (Ht tdUint64) by set_solver. rewrite bool_decide_eq_false_2 by (by intros [? ?]).
    rewrite encode_uint64 by done. by eexists.
  - rewrite (Ht tdAddress) by set_solver. rewrite bool_decide_eq_false_2 by (by intros [? ?]).
    rewrite encode_address. by eexists.
  - rewrite (Ht tdBytes) by set_solver. rewrite bool_decide_eq_false_2 by (by intros [? ?]).
    rewrite encode_bytes. by eexists.
Qed.

Definition domain_fields (m : Z) : list (Type_t * (string * iface)) :=
  [field_string "name" "Sama"; field_uint64 "magic" m].

Lemma DigestHash_typed b txType fields :
  is_u64 (base_Magic b) -> txType ∉ [tdString; tdUint64; tdAddress; tdBytes; "EIP712Domain"%string] ->
  NoDup (map (fun f => f.2.1) (fields ++ base_fields b)) -> Forall good_field (fields ++ base_fields b) ->
  exists h : Hash, DigestHash (typed b txType fields) = Ok (array h).
Proof.
  intros Hm Htype Hnd Hgood. unfold typed, CreateTypedData, DigestHash.
  set (fs := fields ++ base_fields b) in *. cbn [td_Types td_PrimaryType td_Message td_Domain].
  set (t := <["EIP712Domain" := EIP712Domain]> _ : Types).
  assert (no_struct t) as Ht.
  { intros k Hk. unfold t. rewrite lookup_insert_ne by (intros <-; set_solver).
    apply lookup_singleton_ne. intros <-. apply Htype. set_solver. }
  assert (types_at t txType = fs.*1) as Htx.
  { unfold types_at, t. rewrite lookup_insert_ne by (intros <-; set_solver).
    by rewrite lookup_singleton_eq. }
  destruct (HashStruct_ok t txType fs.*2) as [h ->].
  { by rewrite Htx, !length_fmap. }
  { intros field Hin. rewrite Htx in Hin. apply list_elem_of_fmap in Hin as (f & -> & Hin).
    apply good_field_encodable; [done..|]. by eapply Forall_forall in Hgood. }
  destruct (HashStruct_ok t "EIP712Domain" (TypedDataDomain_Map (samaDomain (base_Magic b)))) as [h' ->].
  { unfold types_at, t. by rewrite lookup_insert_eq. }
  { intros field Hin. unfold types_at, t in Hin. rewrite lookup_insert_eq in Hin. fold t in Hin.
    change (default [] (Some EIP712Domain)) with (domain_fields (base_Magic b)).*1 in Hin.
    change (TypedDataDomain_Map _) with (domain_fields (base_Magic b)).*2.
    apply list_elem_of_fmap in Hin as (f & -> & Hin).
    apply good_field_encodable; [done| |done|].
    - apply (bool_decide_eq_true_1 _). reflexivity.
    - apply elem_of_cons in Hin as [->|Hin]; [constructor|].
      apply list_elem_of_singleton in Hin as ->. by constructor. }
  by eexists.
Qed.

(** C31: Every transaction whose integers are in range can be digested, whatever its
    strings, addresses and values: signing never meets a type error. *)
Theorem every_transaction_has_a_digest u :
  tx_ok u -> exists dh : Hash, tx_DigestHash u = Ok (array dh).
Proof.
  intros Hok. unfold tx_DigestHash.
  pose proof (Forall_cons_1 _ _ _ Hok) as [Hm Hok']. pose proof (Forall_cons_1 _ _ _ Hok') as [Hp Hrest].
  destruct u as [t|t|t|t|t|t|t|t|t|t|t|t|t]; cbn [tx_integers] in Hrest; decompose_Forall_hyps;
    cbn [TypedData_of]; apply DigestHash_typed; try done.
  all: try (apply (bool_decide_eq_true_1 _); reflexivity).
  all: cbn [base_fields app]; repeat (constructor; try done).
Qed.
End facts.

(** ** Signatures *)
Section signatures.
Context `{EthereumLaws} `{EthMath} `{GoRuntime} `{TxCodecLaws}.

(** [Init] succeeds exactly when the digest and the public key can be computed. *)
Lemma Init_ok u sig g t :
  Init (NewTx u sig) g = Ok t ->
  exists dh pk stx, tx_DigestHash u = Ok dh /\ DeriveSender dh sig = inr pk /\
    Marshal (u, sig) = inr stx /\
    t = mkTransaction u sig dh stx (Keccak256 stx) (Z.of_nat (length stx)) (PubkeyToAddress pk).
Proof.
  unfold Init, NewTx; cbn [tx_Unsigned tx_Signature].
  destruct (Marshal (u, sig)) as [e|stx] eqn:Hm; [done|]. rewrite ToID_array.
  destruct (tx_DigestHash u) as [dh|e|p] eqn:Hd; [|done..].
  destruct (DeriveSender dh sig) as [e|pk] eqn:Hs; [done|]. intros [= <-].
  by exists dh, pk, stx.
Qed.
Lemma Init_run u sig g dh pk stx :
  tx_DigestHash u = Ok dh -> DeriveSender dh sig = inr pk -> Marshal (u, sig) = inr stx ->
  Init (NewTx u sig) g =
    Ok (mkTransaction u sig dh stx (Keccak256 stx) (Z.of_nat (length stx)) (PubkeyToAddress pk)).
Proof.
  intros Hd Hs Hm. unfold Init, NewTx; cbn [tx_Unsigned tx_Signature]. by rewrite Hm, ToID_array, Hd, Hs.
Qed.

(** A signature is good for every transaction with the same typed data that can
    be marshalled. *)
Lemma signature_of_typed_data u u' sig g t stx' :
  TypedData_of u' = TypedData_of u -> Marshal (u', sig) = inr stx' -> Init (NewTx u sig) g = Ok t ->
  exists t', Init (NewTx u' sig) g = Ok t' /\ tx_Unsigned t' = u' /\ tx_sender t' = tx_sender t.
Proof.
  intros Htd Hm' (dh & pk & stx & Hd & Hs & _ & ->)%Init_ok.
  assert (tx_DigestHash u' = Ok dh) as Hd' by (unfold tx_DigestHash; by rewrite Htd).
  rewrite (Init_run u' sig g dh pk stx' Hd' Hs Hm'). by eexists.
Qed.

(** The end time of an [UnStakeTx] is not signed: whoever holds a signed one can
    replace it, and the reward with it, and the sender stays the same. *)
Theorem unstake_end_time_is_unsigned b amount ty endTime endTime' sig g t stx' :
  Marshal (UUnStake (mkUnStakeTx b amount ty endTime'), sig) = inr stx' ->
  Init (NewTx (UUnStake (mkUnStakeTx b amount ty endTime)) sig) g = Ok t ->
  exists t', Init (NewTx (UUnStake (mkUnStakeTx b amount ty endTime')) sig) g = Ok t' /\
    tx_Unsigned t' = UUnStake (mkUnStakeTx b amount ty endTime') /\ tx_sender t' = tx_sender t.
Proof. intros Hm. by apply (signature_of_typed_data _ _ _ _ _ stx'). Qed.

(** The typed data of a vote is that of the [GovernTx] of the same action: the
    signature of a vote also signs the execution of the action. *)
Theorem vote_signature_signs_govern b i sig g t stx' :
  Marshal (UGovern (mkGovernTx b i), sig) = inr stx' ->
  Init (NewTx (UVote (mkVoteTx b i)) sig) g = Ok t ->
  exists t', Init (NewTx (UGovern (mkGovernTx b i)) sig) g = Ok t' /\
    tx_Unsigned t' = UGovern (mkGovernTx b i) /\ tx_sender t' = tx_sender t.
Proof. intros Hm. by apply (signature_of_typed_data _ _ _ _ _ stx'). Qed.

(** The recovery byte of a signature in its other form. *)
Definition unadjusted (sig : bytes) : bytes :=
  <[vOffset := byte_of_Z (Z_of_byte (default x00 (sig !! vOffset)) - legacySigAdj)]> sig.

Lemma DeriveSender_unadjusted dh sig v :
  length sig = SignatureLength -> sig !! vOffset = Some v ->
  legacySigAdj <= Z_of_byte v < 2 * legacySigAdj ->
  DeriveSender dh (unadjusted sig) = DeriveSender dh sig /\ unadjusted sig <> sig.
Proof.
  intros Hlen Hv Hrange. pose proof (Z_of_byte_range v) as Hb. unfold legacySigAdj in *.
  assert (unadjusted sig !! vOffset = Some (byte_of_Z (Z_of_byte v - 27))) as Hu.
  { unfold unadjusted, legacySigAdj. rewrite Hv. apply list_lookup_insert_eq.
    rewrite Hlen. unfold vOffset, SignatureLength. lia. }
  assert (Z_of_byte (byte_of_Z (Z_of_byte v - 27)) = Z_of_byte v - 27) as Hz.
  { rewrite Z_of_byte_of_Z, Z.mod_small by lia. done. }
  split.
  - unfold DeriveSender at 1. rewrite decide_False by (intros Hn; apply Hn; unfold unadjusted; by rewrite length_insert).
    rewrite Hu. cbn [from_option id]. rewrite Hz. unfold legacySigAdj.
    rewrite (proj2 (Z.leb_gt 27 (Z_of_byte v - 27))) by lia.
    unfold DeriveSender. rewrite decide_False by (intros Hn; by apply Hn).
    unfold unadjusted. rewrite Hv. cbn [from_option id]. unfold legacySigAdj.
    by rewrite (proj2 (Z.leb_le 27 (Z_of_byte v))) by lia.
  - intros Heq. rewrite Heq, Hv in Hu. injection Hu as Hu. rewrite <- Hu in Hz. lia.
Qed.

(** Every signed transaction has a twin: with the recovery byte in its other
    form it has the same sender and does the same, but its bytes, of which its
    id is the hash, differ; the check against replays compares ids. *)
Theorem signed_transactions_have_twins u sig v g t stx' :
  Marshal (u, unadjusted sig) = inr stx' ->
  sig !! vOffset = Some v -> legacySigAdj <= Z_of_byte v < 2 * legacySigAdj ->
  Init (NewTx u sig) g = Ok t ->
  exists t', Init (NewTx u (unadjusted sig)) g = Ok t' /\ tx_Unsigned t' = tx_Unsigned t /\
    tx_sender t' = tx_sender t /\ tx_bytes t' <> tx_bytes t.
Proof.
  intros Hm' Hv Hrange (dh & pk & stx & Hd & Hs & Hm & ->)%Init_ok.
  assert (length sig = SignatureLength) as Hlen.
  { unfold DeriveSender in Hs. destruct (decide (length sig <> SignatureLength)); [done|]. lia. }
  destruct (DeriveSender_unadjusted dh sig v Hlen Hv Hrange) as [Hd' Hne]. rewrite <- Hd' in Hs.
  rewrite (Init_run u (unadjusted sig) g dh pk stx' Hd Hs Hm').
  eexists. split_and!; [done..|]. cbn [tx_bytes]. intros ->.
  pose proof (Marshal_inj _ _ _ Hm Hm') as Heq. injection Heq as Heq. by apply Hne.
Qed.
End signatures.
