(* ===== verification/Block.v ===== *)
(** * Blocks: chain/block.go and the block store of chain/storage.go

    [StatefulBlock] is what is sent and stored; [StatelessBlock] wraps one with
    what the node computes: its id, bytes and status, its children in the block
    tree and the overlay its transactions have written.  Stateless blocks are
    shared by pointer, so the node keeps them in a store (VM.v) and [children]
    holds locations. *)

From S2P Require Import Prelude External GoStd TData Keys Storage Genesis SamaState Tx TypedTx.

(** ** Data *)

Inductive Status := Unset | Processing | Rejected | Accepted.
#[global] Instance Status_eq_dec : EqDecision Status.
Proof. solve_decision. Defined.

Record StatefulBlock := mkStatefulBlock {
  Prnt : ID;
  blk_Tmstmp : Z;
  Hght : Z;
  Price : Z;
  Cost : Z;
  AccessProof : Hash;
  Txs : list Transaction
}.
Definition set_Txs (l : list Transaction) (b : StatefulBlock) : StatefulBlock :=
  mkStatefulBlock (Prnt b) (blk_Tmstmp b) (Hght b) (Price b) (Cost b) (AccessProof b) l.

Abbreviation block_loc := positive.
Record StatelessBlock `{Database} := mkStatelessBlock {
  sb_block : StatefulBlock;
  sb_id : ID;
  sb_st : Status;
  sb_t : Z;
  sb_bytes : bytes;
  sb_children : list block_loc;
  sb_onAcceptDB : option DB
}.
Arguments StatelessBlock {_}.
Arguments mkStatelessBlock {_}.

(** [time.Time{}.Unix()]. *)
Definition zeroTime : Z := - unixToInternal.
Definition futureBound : Z := 10 * ns_per_sec.

(** ** The wire form

    A transaction is sent as its unsigned part and its signature; what [Init]
    computes is not. *)
Definition tx_wire (t : Transaction) : UnsignedTransaction * bytes := (tx_Unsigned t, tx_Signature t).
Definition wire_tx (p : UnsignedTransaction * bytes) : Transaction := NewTx p.1 p.2.

Abbreviation block_wire := (ID * Z * Z * Z * Z * Hash * list (UnsignedTransaction * bytes))%type.
Definition to_wire (b : StatefulBlock) : block_wire :=
  (Prnt b, blk_Tmstmp b, Hght b, Price b, Cost b, AccessProof b, tx_wire <$> Txs b).
Definition of_wire (w : block_wire) : StatefulBlock :=
  let '(p, t, h, pr, c, a, l) := w in mkStatefulBlock p t h pr c a (wire_tx <$> l).

Class BlockCodec := { codec_block :: Codec block_wire }.
Class BlockCodecLaws `{BlockCodec} : Prop := { codec_laws_block :: CodecLaws block_wire }.

Section block.
Context `{Database} `{Ethereum} `{EthMath} `{GoRuntime} `{TxCodec} `{BlockCodec}.

(** ** Creation and parsing *)

Definition NewBlock (parent : StatelessBlock) (tmstp : Z) (context : Context_t) : StatelessBlock :=
  mkStatelessBlock
    (mkStatefulBlock (sb_id parent) tmstp (Hght (sb_block parent) +u 1)
      (NextPrice context) (NextCost context) (sized_of 32 []) [])
    EmptyID Processing zeroTime [] [] None.

(** The loop [for _, tx := range blk.Txs { tx.Init(g) }]. *)
Fixpoint init_txs (g : Genesis) (l : list Transaction) : outcome (list Transaction) :=
  match l with
  | [] => Ok []
  | tx :: l' =>
      try! tx' := Init tx g in
      try! rest := init_txs g l' in
      Ok (tx' :: rest)
  end.

Definition ParseStatefulBlock (blk : StatefulBlock) (source : bytes) (status : Status) (g : Genesis) :
    outcome StatelessBlock :=
  try! source := (if bool_decide (length source = 0%nat) then of_result (Marshal (to_wire blk))
                  else Ok source) in
  try! id := of_result (ToID (array (Keccak256 source))) in
  try! txs := init_txs g (Txs blk) in
  Ok (mkStatelessBlock (set_Txs txs blk) id status (blk_Tmstmp blk) source [] None).

Definition ParseBlock (source : bytes) (status : Status) (g : Genesis) : outcome StatelessBlock :=
  try! w := of_result (Unmarshal source) in
  ParseStatefulBlock (of_wire w) source status g.

(** [init]. *)
Definition block_init (b : StatelessBlock) (g : Genesis) : outcome StatelessBlock :=
  try! bytes := of_result (Marshal (to_wire (sb_block b))) in
  try! id := of_result (ToID (array (Keccak256 bytes))) in
  try! txs := init_txs g (Txs (sb_block b)) in
  Ok (mkStatelessBlock (set_Txs txs (sb_block b)) id (sb_st b) (blk_Tmstmp (sb_block b)) bytes
    (sb_children b) (sb_onAcceptDB b)).

Definition addChild (c : block_loc) (b : StatelessBlock) : StatelessBlock :=
  mkStatelessBlock (sb_block b) (sb_id b) (sb_st b) (sb_t b) (sb_bytes b) (sb_children b ++ [c])
    (sb_onAcceptDB b).
Definition set_st (st : Status) (b : StatelessBlock) : StatelessBlock :=
  mkStatelessBlock (sb_block b) (sb_id b) st (sb_t b) (sb_bytes b) (sb_children b) (sb_onAcceptDB b).
Definition set_onAcceptDB (db : DB) (b : StatelessBlock) : StatelessBlock :=
  mkStatelessBlock (sb_block b) (sb_id b) (sb_st b) (sb_t b) (sb_bytes b) (sb_children b) (Some db).
Definition set_block (x : StatefulBlock) (b : StatelessBlock) : StatelessBlock :=
  mkStatelessBlock x (sb_id b) (sb_st b) (sb_t b) (sb_bytes b) (sb_children b) (sb_onAcceptDB b).

(** The database the children of the block read: the node's own one once the
    block is accepted, and for a block of height zero. *)
Definition onAccept (b : StatelessBlock) (state : DB) : result DB :=
  if bool_decide (sb_st b = Accepted) || (Hght (sb_block b) =? 0) then inr state
  else match sb_onAcceptDB b with
       | Some db => inr db
       | None => inl ErrParentBlockNotVerified
       end.

(** [DummyBlock] runs one transaction; execution reads its timestamp only. *)
Definition DummyBlock (tmstp : Z) (tx : Transaction) : StatelessBlock :=
  mkStatelessBlock (mkStatefulBlock EmptyID tmstp 0 0 0 (sized_of 32 []) [tx])
    EmptyID Unset zeroTime [] [] None.

(** ** The block store

    [linkValues] writes through the transactions of the block: the loop keeps
    what it has replaced, and the originals it returns, in [before]. *)

Definition with_Value (v : bytes) (t : SetTx) (tx : Transaction) : Transaction :=
  mkTransaction (USet (mkSetTx (set_BaseTx t) v)) (tx_Signature tx) (tx_digestHash tx) (tx_bytes tx)
    (tx_id tx) (tx_size tx) (tx_sender tx).

Fixpoint link_loop (g : Genesis) (before : list Transaction) (l : list Transaction) :
    M (DB * StatefulBlock) (list Transaction) :=
  match l with
  | [] => ret []
  | tx :: l' =>
      match tx_Unsigned tx with
      | USet t =>
          if bool_decide (length (set_Value t) = 0%nat) then
            let! og := link_loop g (before ++ [tx]) l' in ret (tx :: og)
          else
            let! cptx := lift_outcome (Init (Transaction_Copy tx) g) in
            zoom (Put (PrefixTxValueKey (tx_id tx)) (set_Value t)) ;;;
            let tx' := with_Value (array (tx_id tx)) t tx in
            modify (fun p => (p.1, set_Txs (before ++ tx' :: l') p.2)) ;;;
            let! og := link_loop g (before ++ [tx']) l' in ret (cptx :: og)
      | _ => let! og := link_loop g (before ++ [tx]) l' in ret (tx :: og)
      end
  end.
Definition linkValues (g : Genesis) : M (DB * StatefulBlock) (list Transaction) :=
  let! txs := gets (fun p => Txs p.2) in link_loop g [] txs.

Fixpoint restore_loop (l : list Transaction) : M DB (list Transaction) :=
  match l with
  | [] => ret []
  | tx :: l' =>
      let! tx' := (match tx_Unsigned tx with
        | USet t =>
            if bool_decide (length (set_Value t) = 0%nat) then ret tx
            else
              let! txID := lift (ToID (set_Value t)) in
              let! b := Get (PrefixTxValueKey txID) in
              ret (with_Value b t tx)
        | _ => ret tx
        end) in
      let! rest := restore_loop l' in
      ret (tx' :: rest)
  end.
Definition restoreValues (block : StatefulBlock) : M DB StatefulBlock :=
  let! txs := restore_loop (Txs block) in ret (set_Txs txs block).

Definition SetLastAccepted (g : Genesis) (bid : ID) : M (DB * StatefulBlock) unit :=
  zoom (Put lastAccepted (array bid)) ;;;
  let! ogTxs := linkValues g in
  let! linked := gets snd in
  let! sbytes := lift (Marshal (to_wire linked)) in
  zoom (Put (PrefixBlockKey bid) sbytes) ;;;
  modify (fun p => (p.1, set_Txs ogTxs p.2)).

Definition GetBlock (bid : ID) : M DB StatefulBlock :=
  let! b := Get (PrefixBlockKey bid) in
  let! w := lift (Unmarshal b) in
  restoreValues (of_wire w).
End block.
