(* ===== verification/BlockFacts.v ===== *)
(** * Storing and parsing blocks *)

From S2P Require Import Prelude External GoStd TData Keys Storage Genesis SamaState Tx TypedTx Block.

Section facts.
Context `{DatabaseLaws} `{EthereumLaws} `{EthMath} `{GoRuntime}.
Context `{TxCodec} `{BlockCodecLaws}.
Implicit Types (g : Genesis) (tx : Transaction) (l : list Transaction).

(** ** Initialised transactions and blocks *)

(** The computed fields of a transaction are those [Init] computes. *)
Definition tx_ready g tx : Prop := Init (NewTx (tx_Unsigned tx) (tx_Signature tx)) g = Ok tx.
Definition block_ready g (b : StatelessBlock) : Prop :=
  Marshal (to_wire (sb_block b)) = inr (sb_bytes b) /\ sb_id b = Keccak256 (sb_bytes b) /\
  sb_t b = blk_Tmstmp (sb_block b) /\ Forall (tx_ready g) (Txs (sb_block b)).

Lemma Init_wire tx g : Init tx g = Init (NewTx (tx_Unsigned tx) (tx_Signature tx)) g.
Proof. done. Qed.
Lemma Init_keeps tx g tx' :
  Init tx g = Ok tx' -> tx_Unsigned tx' = tx_Unsigned tx /\ tx_Signature tx' = tx_Signature tx.
Proof.
  unfold Init. destruct (Marshal _) as [e|stx]; [done|]. destruct (ToID _) as [e|id]; [done|].
  destruct (tx_DigestHash _) as [dh|e|p]; [|done..]. destruct (DeriveSender _ _); [done|].
  by intros [= <-].
Qed.
Lemma Init_ready tx g tx' : Init tx g = Ok tx' -> tx_ready g tx' /\ tx_wire tx' = tx_wire tx.
Proof.
  intros Hi. destruct (Init_keeps _ _ _ Hi) as [Hu Hs]. unfold tx_ready, tx_wire.
  rewrite Hu, Hs. split; [|done]. by rewrite <- Init_wire.
Qed.
Lemma init_txs_ready g l l' :
  init_txs g l = Ok l' -> Forall (tx_ready g) l' /\ tx_wire <$> l' = tx_wire <$> l.
Proof.
  revert l'. induction l as [|tx l IH]; intros l' Hi; cbn [init_txs] in Hi; [by injection Hi as <-|].
  destruct (Init tx g) as [tx'|e|p] eqn:Htx; [|done..]. apply Init_ready in Htx as [Hr Hw].
  unfold obind in Hi. destruct (init_txs g l) as [r|e|p]; [|done..]. injection Hi as <-.
  destruct (IH r eq_refl) as [Hrs Hws]. split; [by constructor|]. cbn. by rewrite Hw, Hws.
Qed.
Lemma init_txs_of_ready g l : Forall (tx_ready g) l -> init_txs g (wire_tx <$> (tx_wire <$> l)) = Ok l.
Proof.
  induction 1 as [|tx l Htx _ IH]; [done|]. cbn [fmap list_fmap init_txs].
  unfold wire_tx at 1, tx_wire at 1. cbn [fst snd]. rewrite Htx. cbn [obind].
  replace (init_txs g _) with (@Ok _ l) by (symmetry; exact IH). done.
Qed.

Lemma to_wire_txs b l : tx_wire <$> l = tx_wire <$> Txs b -> to_wire (set_Txs l b) = to_wire b.
Proof. intros Hl. unfold to_wire. by rewrite <- Hl. Qed.
Lemma of_to_wire b : of_wire (to_wire b) = set_Txs (wire_tx <$> (tx_wire <$> Txs b)) b.
Proof. done. Qed.
Lemma set_Txs_id b : set_Txs (Txs b) b = b.
Proof. by destruct b. Qed.

Lemma ParseStatefulBlock_ready blk source st g b :
  (source <> [] -> Marshal (to_wire blk) = inr source) ->
  ParseStatefulBlock blk source st g = Ok b ->
  block_ready g b /\ sb_st b = st /\ to_wire (sb_block b) = to_wire blk /\ sb_children b = [] /\
  sb_onAcceptDB b = None.
Proof.
  intros Hsrc Hp. unfold ParseStatefulBlock in Hp.
  assert (exists s, (if bool_decide (length source = 0%nat) then of_result (Marshal (to_wire blk))
    else Ok source) = Ok s /\ Marshal (to_wire blk) = inr s \/
    (forall s, (if bool_decide (length source = 0%nat) then of_result (Marshal (to_wire blk))
    else Ok source) <> Ok s)) as [s [[Hs Hm]|Hno]].
  { case_bool_decide as Hl.
    - destruct (Marshal (to_wire blk)) as [e|s]; [exists []; by right|exists s; by left].
    - exists source. left. split; [done|]. apply Hsrc. by intros ->. }
  - rewrite Hs in Hp. cbn [obind] in Hp. rewrite ToID_array in Hp. cbn [of_result obind] in Hp.
    destruct (init_txs g (Txs blk)) as [l|e|p] eqn:Hi; [|done..]. injection Hp as <-.
    apply init_txs_ready in Hi as [Hr Hw]. cbn [sb_st sb_block sb_children sb_onAcceptDB].
    unfold block_ready. cbn [sb_block sb_bytes sb_id sb_t]. rewrite to_wire_txs by done. done.
  - destruct (if bool_decide _ then _ else _) as [s'|e|p]; [by destruct (Hno s')|done..].
Qed.
(** ** Linked values *)

Definition linked_value tx : option bytes :=
  match tx_Unsigned tx with
  | USet t => if bool_decide (length (set_Value t) = 0%nat) then None else Some (set_Value t)
  | _ => None
  end.
Definition link tx : Transaction :=
  match tx_Unsigned tx with
  | USet t => if bool_decide (length (set_Value t) = 0%nat) then tx
              else with_Value (array (tx_id tx)) t tx
  | _ => tx
  end.
Definition link_one tx (db : DB) : DB :=
  match linked_value tx with Some v => db_set db (PrefixTxValueKey (tx_id tx)) v | None => db end.
Fixpoint link_db l (db : DB) : DB :=
  match l with [] => db | tx :: l' => link_db l' (link_one tx db) end.

(** Transactions of one id store one value: the ids do not collide. *)
Definition ids_agree l : Prop :=
  forall tx tx', tx ∈ l -> tx' ∈ l -> tx_id tx = tx_id tx' -> linked_value tx = linked_value tx'.

Lemma link_db_other l db k :
  (forall tx v, tx ∈ l -> linked_value tx = Some v -> PrefixTxValueKey (tx_id tx) <> k) ->
  db_lookup (link_db l db) k = db_lookup db k.
Proof.
  revert db. induction l as [|tx l IH]; intros db Hno; [done|]. cbn [link_db].
  rewrite IH by (intros tx' v' Hin; apply Hno; by right). unfold link_one.
  destruct (linked_value tx) as [v|] eqn:Hv; [|done].
  apply lookup_set_ne, (Hno tx v); [left|done].
Qed.
Lemma link_db_kept l db id v :
  (forall tx v', tx ∈ l -> linked_value tx = Some v' -> tx_id tx = id -> v' = v) ->
  db_lookup db (PrefixTxValueKey id) = Some v ->
  db_lookup (link_db l db) (PrefixTxValueKey id) = Some v.
Proof.
  revert db. induction l as [|tx l IH]; intros db Hsame Hdb; [done|].
  cbn [link_db]. apply IH; [intros tx' v' Hin; apply Hsame; by right|]. unfold link_one.
  destruct (linked_value tx) as [v'|] eqn:Hv; [|done]. rewrite db_lookup_set.
  case_decide as Heq; [|done]. apply (inj PrefixTxValueKey) in Heq.
  f_equal. by apply (Hsame tx); [left| |].
Qed.
Lemma link_db_value l db tx v :
  ids_agree l -> tx ∈ l -> linked_value tx = Some v ->
  db_lookup (link_db l db) (PrefixTxValueKey (tx_id tx)) = Some v.
Proof.
  revert db. induction l as [|tx0 l IH]; intros db Hag Hin Hv; [by apply elem_of_nil in Hin|].
  cbn [link_db]. apply elem_of_cons in Hin as [->|Hin].
  - unfold link_one at 1. rewrite Hv. apply link_db_kept; [|by rewrite lookup_set_eq].
    intros tx v' Hin Hv' Hid. pose proof (Hag tx tx0 ltac:(by right) ltac:(by left) Hid). congruence.
  - apply IH; [|done..]. intros ? ? ? ?. apply Hag; by right.
Qed.

Lemma SetTx_Copy_id t : SetTx_Copy t = t.
Proof.
  destruct t as [[i m p] v]. unfold SetTx_Copy, BaseTx_Copy. cbn. by rewrite sized_of_array.
Qed.
Lemma link_loop_run g before l db b :
  Forall (tx_ready g) l -> Txs b = before ++ l ->
  link_loop g before l (db, b) = ((link_db l db, set_Txs (before ++ (link <$> l)) b), Ok l).
Proof.
  intros Hl. revert before db b. induction Hl as [|tx l Htx Hl IH]; intros before db b Hb.
  { cbn. rewrite app_nil_r in *. by rewrite <- Hb, set_Txs_id. }
  cbn [link_loop link_db fmap list_fmap]. unfold link at 1, link_one, linked_value.
  assert (forall tx' db' b', Txs b' = before ++ tx' :: l -> (forall x, set_Txs x b' = set_Txs x b) ->
    bind (link_loop g (before ++ [tx']) l) (fun og => ret (tx :: og)) (db', b') =
      ((link_db l db', set_Txs (before ++ tx' :: (link <$> l)) b), Ok (tx :: l))) as Hrest.
  { intros tx' db' b' Hb' Hset. assert (Txs b' = (before ++ [tx']) ++ l) as Hb''
      by (by rewrite <- app_assoc).
    rewrite (bind_run _ _ _ _ _ (IH _ db' b' Hb'')), <- app_assoc, Hset. done. }
  destruct (tx_Unsigned tx) as [t|t|t|t|t|t|t|t|t|t|t|t|t] eqn:Hu; try (by apply Hrest).
  case_bool_decide as Hlen; [by apply Hrest|].
  assert (Init (Transaction_Copy tx) g = Ok tx) as Hcopy.
  { rewrite Init_wire. unfold Transaction_Copy. cbn [tx_Unsigned tx_Signature]. rewrite Hu. cbn [Copy].
    rewrite SetTx_Copy_id. unfold tx_ready in Htx. by rewrite Hu in Htx. }
  unfold lift_outcome, bind at 1. rewrite Hcopy. unfold zoom, bind at 1. cbn [view lens_fst fst].
  rewrite Put_run. unfold modify, bind at 1. cbn [over lens_fst fst snd].
  by apply Hrest.
Qed.

Lemma link_wire tx :
  tx_wire (link tx) = match linked_value tx, tx_Unsigned tx with
    | Some v, USet t => (USet (mkSetTx (set_BaseTx t) (array (tx_id tx))), tx_Signature tx)
    | _, _ => tx_wire tx
    end.
Proof. unfold link, linked_value. destruct (tx_Unsigned tx); try done. by case_bool_decide. Qed.

Lemma restore_loop_run l db :
  (forall tx v, tx ∈ l -> linked_value tx = Some v ->
    db_lookup db (PrefixTxValueKey (tx_id tx)) = Some v) ->
  restore_loop (wire_tx <$> (tx_wire <$> (link <$> l))) db =
    (db, Ok (wire_tx <$> (tx_wire <$> l))).
Proof.
  induction l as [|tx l IH]; intros Hdb; [done|]. cbn [fmap list_fmap restore_loop].
  assert (forall tx', tx' = wire_tx (tx_wire tx) ->
    bind (restore_loop (wire_tx <$> (tx_wire <$> (link <$> l)))) (fun rest => ret (tx' :: rest)) db =
      (db, Ok (wire_tx (tx_wire tx) :: (wire_tx <$> (tx_wire <$> l))))) as Hrest.
  { intros tx' ->. by rewrite (bind_run _ _ _ _ _ (IH (fun _ _ Hin => Hdb _ _ (list_elem_of_further _ _ _ Hin)))). }
  rewrite link_wire. unfold linked_value.
  assert (wire_tx (tx_wire tx) = NewTx (tx_Unsigned tx) (tx_Signature tx)) as Hw by done.
  rewrite Hw in *. destruct (tx_Unsigned tx) as [t|t|t|t|t|t|t|t|t|t|t|t|t] eqn:Hu;
    try (unfold wire_tx at 1 2, NewTx at 1 2, tx_wire at 1 2; rewrite Hu; cbn [fst snd tx_Unsigned];
         unfold ret at 1, bind at 1; by apply Hrest).
  case_bool_decide as Hlen.
  - unfold wire_tx at 1 2, NewTx at 1 2, tx_wire at 1 2. rewrite Hu. cbn [fst snd tx_Unsigned].
    rewrite bool_decide_eq_true_2 by done. unfold ret at 1, bind at 1. by apply Hrest.
  - unfold wire_tx at 1 2, NewTx at 1 2. cbn [fst snd tx_Unsigned set_Value set_BaseTx].
    rewrite bool_decide_eq_false_2 by (by rewrite sized_length).
    rewrite ToID_array. unfold lift, of_result, bind at 1 2 3. rewrite Get_run.
    rewrite (Hdb tx (set_Value t)); [|left|unfold linked_value; rewrite Hu; by rewrite bool_decide_eq_false_2].
    unfold ret at 1. apply Hrest. unfold with_Value, NewTx. cbn. by destruct t.
Qed.

(** A block that is stored and read back, from any database with the contents
    that were stored, is the same block, with the same bytes and id, although
    the values of its [SetTx] are stored apart; the block in memory is
    unchanged, it is the last accepted one, the values are in the database, and
    nothing else of it is touched. *)
Lemma stored_block_is_read_back g (b : StatelessBlock) db p :
  block_ready g b -> ids_agree (Txs (sb_block b)) ->
  SetLastAccepted g (sb_id b) (db, sb_block b) = (p, Ok tt) ->
  exists db', p = (db', sb_block b) /\
    (forall db2, db2 ≡ db' ->
      db_lookup db2 lastAccepted = Some (array (sb_id b)) /\
      exists blk, GetBlock (sb_id b) db2 = (db2, Ok blk) /\
        ParseStatefulBlock blk [] Accepted g =
          Ok (mkStatelessBlock (sb_block b) (sb_id b) Accepted (sb_t b) (sb_bytes b) [] None)) /\
    (forall k, k <> lastAccepted -> k <> PrefixBlockKey (sb_id b) ->
      (forall id, k <> PrefixTxValueKey id) -> db_lookup db' k = db_lookup db k) /\
    (forall tx v, tx ∈ Txs (sb_block b) -> linked_value tx = Some v ->
      db_lookup db' (PrefixTxValueKey (tx_id tx)) = Some v).
Proof.
  intros (Hm & Hid & Ht & Hready) Hag Hrun. set (txs := Txs (sb_block b)) in *.
  set (db1 := link_db txs (db_set db lastAccepted (array (sb_id b)))).
  unfold SetLastAccepted in Hrun. unfold zoom at 1, bind at 1 in Hrun.
  cbn [view lens_fst fst] in Hrun. rewrite Put_run in Hrun. cbn [over lens_fst snd] in Hrun.
  unfold linkValues, gets, bind at 1 2 in Hrun. cbn [snd] in Hrun.
  rewrite link_loop_run in Hrun by done. unfold gets, bind at 1 in Hrun.
  unfold lift, bind at 1 in Hrun. cbn [snd] in Hrun. fold db1 txs in Hrun. cbn [app] in Hrun.
  destruct (Marshal _) as [e|s] eqn:Hs in Hrun; [done|]. cbn [of_result] in Hrun.
  unfold zoom, bind at 1 in Hrun. cbn [view lens_fst fst] in Hrun. rewrite Put_run in Hrun.
  unfold modify in Hrun. cbn [over lens_fst fst snd] in Hrun. injection Hrun as <-.
  exists (db_set db1 (PrefixBlockKey (sb_id b)) s).
  assert (forall id, PrefixBlockKey (sb_id b) <> PrefixTxValueKey id) as Hne by done.
  assert (forall id, PrefixTxValueKey id <> lastAccepted) as Hne' by done.
  assert (lastAccepted <> PrefixBlockKey (sb_id b)) as Hne2 by done.
  split; [|split; [|split]].
  - change (set_Txs txs (set_Txs _ (sb_block b))) with (set_Txs txs (sb_block b)).
    unfold txs. by rewrite set_Txs_id.
  - intros db2 Hdb2. split.
    { rewrite Hdb2, lookup_set_ne by done. unfold db1. rewrite link_db_other by done. apply lookup_set_eq. }
    exists (set_Txs (wire_tx <$> (tx_wire <$> txs)) (sb_block b)). split.
    + unfold GetBlock, bind at 1. rewrite Get_run, Hdb2, lookup_set_eq.
      unfold lift, bind at 1. rewrite (Unmarshal_Marshal _ _ Hs). cbn [of_result].
      rewrite of_to_wire. unfold restoreValues. cbn [Txs set_Txs].
      unfold bind. change (Txs (set_Txs (link <$> txs) (sb_block b))) with (link <$> txs).
      rewrite restore_loop_run; [done|].
      intros tx v Hin Hv. rewrite Hdb2, lookup_set_ne by done. by apply link_db_value.
    + unfold ParseStatefulBlock. rewrite bool_decide_eq_true_2 by done. rewrite to_wire_txs.
      2: { unfold txs. rewrite <- !list_fmap_compose. by apply list_fmap_ext. }
      rewrite Hm. cbn [of_result obind]. rewrite ToID_array. cbn [of_result obind Txs set_Txs].
      rewrite init_txs_of_ready by done. cbn [obind]. rewrite Hid, Ht.
      change (set_Txs txs (set_Txs _ (sb_block b))) with (set_Txs txs (sb_block b)).
      unfold txs. by rewrite set_Txs_id.
  - intros k Hla Hbk Hvk. rewrite lookup_set_ne by done. unfold db1.
    rewrite link_db_other by (intros tx v _ _ Heq; by destruct (Hvk (tx_id tx))).
    by rewrite lookup_set_ne.
  - intros tx v Hin Hv. rewrite lookup_set_ne by done. by apply link_db_value.
Qed.
End facts.
