(* ===== verification/Mempool.v ===== *)
(** * mempool/tx_heap.go and mempool/mempool.go

    A [txHeap] holds pointers to entries twice, in [items] and in [lookup]; the
    entries carry their index in [items], which [Swap] writes through the
    pointers, so the entries live in a store of the heap.  The mempool keeps the
    same transactions in a heap with the highest price at its root and in one
    with the lowest. *)

From S2P Require Import Prelude External GoStd Heap Keys Storage Genesis SamaState Tx.

(** ** tx_heap.go *)

Abbreviation entry_loc := positive.
Record txEntry := mkTxEntry {
  te_id : ID;
  te_tx : Transaction;
  te_price : Z;
  te_index : nat
}.
Definition set_index (i : nat) (e : txEntry) : txEntry :=
  mkTxEntry (te_id e) (te_tx e) (te_price e) i.

Record txHeap := mkTxHeap {
  th_isMinHeap : bool;
  th_items : list entry_loc;
  th_lookup : gmap ID entry_loc;
  th_entries : gmap entry_loc txEntry;
  th_next : entry_loc
}.

(** [make] fixes the capacity only. *)
Definition newTxHeap (items : Z) (isMinHeap : bool) : txHeap := mkTxHeap isMinHeap [] ∅ ∅ 1.

Definition txHeap_Len (th : txHeap) : nat := length (th_items th).

(** [th.items[i]], dereferenced. *)
Definition item_at (i : nat) : M txHeap (entry_loc * txEntry) := fun th =>
  match th_items th !! i with
  | None => (th, Panic IndexOutOfRange)
  | Some p =>
      match th_entries th !! p with
      | None => (th, Panic NilDereference)
      | Some e => (th, Ok (p, e))
      end
  end.

Definition txHeap_Less (i j : nat) : M txHeap bool :=
  let! min := gets th_isMinHeap in
  let! x := item_at i in
  let! y := item_at j in
  if min : bool then ret (te_price x.2 <? te_price y.2) else ret (te_price y.2 <? te_price x.2).

Definition set_items (l : list entry_loc) (th : txHeap) : txHeap :=
  mkTxHeap (th_isMinHeap th) l (th_lookup th) (th_entries th) (th_next th).
Definition store_entry (p : entry_loc) (e : txEntry) (th : txHeap) : txHeap :=
  mkTxHeap (th_isMinHeap th) (th_items th) (th_lookup th) (<[p := e]> (th_entries th)) (th_next th).

Definition txHeap_Swap (i j : nat) : M txHeap unit :=
  let! x := item_at i in
  let! y := item_at j in
  modify (fun th => set_items (<[j := x.1]> (<[i := y.1]> (th_items th))) th) ;;;
  let! x' := item_at i in
  modify (store_entry x'.1 (set_index i x'.2)) ;;;
  let! y' := item_at j in
  modify (store_entry y'.1 (set_index j y'.2)).

Definition txHeap_Get (th : txHeap) (id : ID) : option entry_loc := th_lookup th !! id.
Definition txHeap_Has (th : txHeap) (id : ID) : bool := bool_decide (is_Some (txHeap_Get th id)).

(** The caller's [&txEntry{...}] is allocated here; a push of a known id leaves
    the heap alone. *)
Definition txHeap_Push (entry : txEntry) : M txHeap unit := fun th =>
  if txHeap_Has th (te_id entry) then (th, Ok tt)
  else
    let p := th_next th in
    (mkTxHeap (th_isMinHeap th) (th_items th ++ [p]) (<[te_id entry := p]> (th_lookup th))
      (<[p := entry]> (th_entries th)) (Pos.succ p), Ok tt).

Definition txHeap_Pop : M txHeap txEntry :=
  let! n := gets txHeap_Len in
  let! item := item_at (n - 1) in
  modify (fun th => mkTxHeap (th_isMinHeap th) (take (n - 1) (th_items th))
    (delete (te_id item.2) (th_lookup th)) (th_entries th) (th_next th)) ;;;
  ret item.2.

#[export] Instance txHeap_interface : HeapInterface txHeap txEntry := {|
  Len := txHeap_Len;
  Less := txHeap_Less;
  Swap := txHeap_Swap;
  slice_Push := txHeap_Push;
  slice_Pop := txHeap_Pop
|}.

(** ** mempool.go

    [Pending] says whether the channel of length one has its item. *)
Record Mempool := mkMempool {
  mp_g : Genesis;
  mp_maxSize : Z;
  mp_maxHeap : txHeap;
  mp_minHeap : txHeap;
  mp_Pending : bool;
  mp_newTxs : list Transaction
}.

Definition Mempool_New (g : Genesis) (maxSize : Z) : Mempool :=
  mkMempool g maxSize (newTxHeap maxSize false) (newTxHeap maxSize true) false [].

Definition on_max {A} (m : M txHeap A) : M Mempool A := fun th =>
  let '(h, r) := m (mp_maxHeap th) in
  (mkMempool (mp_g th) (mp_maxSize th) h (mp_minHeap th) (mp_Pending th) (mp_newTxs th), r).
Definition on_min {A} (m : M txHeap A) : M Mempool A := fun th =>
  let '(h, r) := m (mp_minHeap th) in
  (mkMempool (mp_g th) (mp_maxSize th) (mp_maxHeap th) h (mp_Pending th) (mp_newTxs th), r).

(** A pointer the heap gave out, dereferenced. *)
Definition deref (p : entry_loc) : M txHeap txEntry := fun th =>
  match th_entries th !! p with Some e => (th, Ok e) | None => (th, Panic NilDereference) end.

(** [remove]: [None] is the nil transaction. *)
Definition remove (id : ID) : M Mempool (option Transaction) :=
  let! maxEntry := gets (fun th => txHeap_Get (mp_maxHeap th) id) in
  match maxEntry with
  | None => ret None
  | Some p =>
      let! e := on_max (deref p) in
      let! _ := on_max (Remove (te_index e)) in
      let! minEntry := gets (fun th => txHeap_Get (mp_minHeap th) id) in
      match minEntry with
      | None => ret None
      | Some q =>
          let! e' := on_min (deref q) in
          let! txe := on_min (Remove (te_index e')) in
          ret (Some (te_tx txe))
      end
  end.

Definition popMin : M Mempool (option Transaction * Z) :=
  let! item := on_min (item_at 0) in
  let! t := remove (te_id item.2) in
  ret (t, te_price item.2).

Definition PeekMax : M Mempool (Transaction * Z) :=
  let! item := on_max (item_at 0) in ret (te_tx item.2, te_price item.2).
Definition PeekMin : M Mempool (Transaction * Z) :=
  let! item := on_min (item_at 0) in ret (te_tx item.2, te_price item.2).
Definition PopMax : M Mempool (option Transaction * Z) :=
  let! item := on_max (item_at 0) in
  let! t := remove (te_id item.2) in
  ret (t, te_price item.2).
Definition PopMin : M Mempool (option Transaction * Z) := popMin.
Definition Mempool_Remove (id : ID) : M Mempool (option Transaction) := remove id.
Definition Mempool_Len (th : Mempool) : nat := txHeap_Len (mp_maxHeap th).
Definition Mempool_Get (id : ID) : M Mempool (option Transaction) :=
  let! p := gets (fun th => txHeap_Get (mp_maxHeap th) id) in
  match p with
  | None => ret None
  | Some p => let! e := on_max (deref p) in ret (Some (te_tx e))
  end.
Definition Mempool_Has (th : Mempool) (id : ID) : bool := txHeap_Has (mp_maxHeap th) id.

(** A send on the channel that does not block. *)
Definition addPending : M Mempool unit := modify (fun th =>
  mkMempool (mp_g th) (mp_maxSize th) (mp_maxHeap th) (mp_minHeap th) true (mp_newTxs th)).

Definition set_newTxs (l : list Transaction) (th : Mempool) : Mempool :=
  mkMempool (mp_g th) (mp_maxSize th) (mp_maxHeap th) (mp_minHeap th) (mp_Pending th) l.

Definition Mempool_Add (tx : Transaction) : M Mempool bool :=
  let txID := tx_id tx in
  let price := GetPrice (tx_Unsigned tx) in
  let! has := gets (fun th => txHeap_Has (mp_maxHeap th) txID) in
  if has : bool then ret false
  else
    let! oldLen := gets Mempool_Len in
    on_max (Push (mkTxEntry txID tx price oldLen)) ;;;
    on_min (Push (mkTxEntry txID tx price oldLen)) ;;;
    let! full := gets (fun th => mp_maxSize th <? Z.of_nat (Mempool_Len th)) in
    let! stop := (
      if full : bool then
        let! r := popMin in
        match r.1 with
        | None => panics NilDereference
        | Some t => ret (bool_decide (tx_id t = txID))
        end
      else ret false) in
    if stop : bool then ret false
    else
      modify (fun th => set_newTxs (mp_newTxs th ++ [tx]) th) ;;;
      addPending ;;;
      ret true.

(** The ids are collected first and removed afterwards. *)
Fixpoint prune_ids (validHashes : gset ID) (l : list entry_loc) : M Mempool (list ID) :=
  match l with
  | [] => ret []
  | p :: l' =>
      let! txE := on_max (deref p) in
      let! rest := prune_ids validHashes l' in
      ret (if bool_decide (GetBlockID (tx_Unsigned (te_tx txE)) ∈ validHashes) then rest
           else te_id txE :: rest)
  end.
Definition Prune (validHashes : gset ID) : M Mempool unit :=
  let! items := gets (fun th => th_items (mp_maxHeap th)) in
  let! toRemove := prune_ids validHashes items in
  for_each (fun txID => let! _ := Mempool_Remove txID in ret tt) toRemove.

(** The loop of [NewTxs]: what it has selected, and the transactions it leaves. *)
Fixpoint newTxs_loop (th : Mempool) (maxUnits units : Z) (l : list Transaction) :
    outcome (list Transaction * list Transaction) :=
  match l with
  | [] => Ok ([], [])
  | tx :: l' =>
      if negb (Mempool_Has th (tx_id tx)) then newTxs_loop th maxUnits units l'
      else
        try! txUnits := LoadUnits (tx_Unsigned tx) (mp_g th) in
        if maxUnits -u units <? txUnits then Ok ([], tx :: l')
        else
          try! r := newTxs_loop th maxUnits (units +u txUnits) l' in
          Ok (tx :: r.1, r.2)
  end.
Definition NewTxs (maxUnits : Z) : M Mempool (list Transaction) := fun th =>
  match newTxs_loop th maxUnits 0 (mp_newTxs th) with
  | Ok (selected, rest) => (set_newTxs rest th, Ok selected)
  | Err e => (th, Err e)
  | Panic p => (th, Panic p)
  end.
