(* ===== verification/VM.v ===== *)
(** * The virtual machine: vm/vm.go, vm/chain_vm.go, vm/helpers.go and the
    methods of chain/block.go and chain/builder.go that call it

    [VM] is the struct with the block objects it shares by pointer
    ([vm_objects]) and the count of the clock readings so far ([vm_tick]).
    [chain.VM] is the interface of this one implementation, so the methods of
    a block take the VM as their state. *)

From S2P Require Import Prelude External GoStd TData Builder Keys Storage Genesis.
From S2P Require Import Stakers Pows Rewards Actions Users Details SysParams SamaState.
From S2P Require Import Tx TypedTx Activity Block Mempool.

Record VM `{Database} `{Cacher Address UserMeta} `{Cacher ID block_loc} := mkVM {
  vm_db : DB;
  vm_ActivityCacheSize : Z;
  vm_genesis : Genesis;
  vm_mempool : Mempool;
  vm_blocks : Cache_t ID block_loc;
  vm_verifiedBlocks : gmap ID block_loc;
  vm_builder : TimeBuilder;
  vm_preferred : ID;
  vm_lastAccepted : block_loc;
  vm_activityCacheCursor : Z;
  vm_activityCache : list (option Activity);
  vm_targetRangeUnits : Z;
  vm_samaState : samaState;
  vm_objects : gmap block_loc StatelessBlock;
  vm_next : block_loc;
  vm_tick : nat
}.
Arguments VM {_ _ _}.
Arguments mkVM {_ _ _}.

Definition feePercentile : Z := 60.
Definition blocksLRUSize : Z := 128.

Section vm.
Context `{Database} `{Cacher Address UserMeta} `{Cacher ID block_loc}.
Context `{Ethereum} `{EthMath} `{GoRuntime} `{ChainCodecs} `{TxCodec} `{BlockCodec}.
(** The channel to the engine, and [config.BuildInterval]. *)
Variables (capacity : nat) (BuildInterval : Z).

(** ** The fields that change *)

Definition put_db (db : DB) (v : VM) : VM :=
  mkVM db (vm_ActivityCacheSize v) (vm_genesis v) (vm_mempool v) (vm_blocks v) (vm_verifiedBlocks v)
    (vm_builder v) (vm_preferred v) (vm_lastAccepted v) (vm_activityCacheCursor v)
    (vm_activityCache v) (vm_targetRangeUnits v) (vm_samaState v) (vm_objects v) (vm_next v) (vm_tick v).
Definition put_mempool (m : Mempool) (v : VM) : VM :=
  mkVM (vm_db v) (vm_ActivityCacheSize v) (vm_genesis v) m (vm_blocks v) (vm_verifiedBlocks v)
    (vm_builder v) (vm_preferred v) (vm_lastAccepted v) (vm_activityCacheCursor v)
    (vm_activityCache v) (vm_targetRangeUnits v) (vm_samaState v) (vm_objects v) (vm_next v) (vm_tick v).
Definition put_blocks (c : Cache_t ID block_loc) (verified : gmap ID block_loc) (v : VM) : VM :=
  mkVM (vm_db v) (vm_ActivityCacheSize v) (vm_genesis v) (vm_mempool v) c verified
    (vm_builder v) (vm_preferred v) (vm_lastAccepted v) (vm_activityCacheCursor v)
    (vm_activityCache v) (vm_targetRangeUnits v) (vm_samaState v) (vm_objects v) (vm_next v) (vm_tick v).
Definition put_builder (b : TimeBuilder) (v : VM) : VM :=
  mkVM (vm_db v) (vm_ActivityCacheSize v) (vm_genesis v) (vm_mempool v) (vm_blocks v)
    (vm_verifiedBlocks v) b (vm_preferred v) (vm_lastAccepted v) (vm_activityCacheCursor v)
    (vm_activityCache v) (vm_targetRangeUnits v) (vm_samaState v) (vm_objects v) (vm_next v) (vm_tick v).
Definition put_preferred (id : ID) (v : VM) : VM :=
  mkVM (vm_db v) (vm_ActivityCacheSize v) (vm_genesis v) (vm_mempool v) (vm_blocks v)
    (vm_verifiedBlocks v) (vm_builder v) id (vm_lastAccepted v) (vm_activityCacheCursor v)
    (vm_activityCache v) (vm_targetRangeUnits v) (vm_samaState v) (vm_objects v) (vm_next v) (vm_tick v).
Definition put_lastAccepted (l : block_loc) (v : VM) : VM :=
  mkVM (vm_db v) (vm_ActivityCacheSize v) (vm_genesis v) (vm_mempool v) (vm_blocks v)
    (vm_verifiedBlocks v) (vm_builder v) (vm_preferred v) l (vm_activityCacheCursor v)
    (vm_activityCache v) (vm_targetRangeUnits v) (vm_samaState v) (vm_objects v) (vm_next v) (vm_tick v).
Definition put_activity (cursor : Z) (cache : list (option Activity)) (v : VM) : VM :=
  mkVM (vm_db v) (vm_ActivityCacheSize v) (vm_genesis v) (vm_mempool v) (vm_blocks v)
    (vm_verifiedBlocks v) (vm_builder v) (vm_preferred v) (vm_lastAccepted v) cursor
    cache (vm_targetRangeUnits v) (vm_samaState v) (vm_objects v) (vm_next v) (vm_tick v).
Definition put_sama (s : samaState) (tick : nat) (v : VM) : VM :=
  mkVM (vm_db v) (vm_ActivityCacheSize v) (vm_genesis v) (vm_mempool v) (vm_blocks v)
    (vm_verifiedBlocks v) (vm_builder v) (vm_preferred v) (vm_lastAccepted v) (vm_activityCacheCursor v)
    (vm_activityCache v) (vm_targetRangeUnits v) s (vm_objects v) (vm_next v) tick.
Definition put_objects (o : gmap block_loc StatelessBlock) (next : block_loc) (v : VM) : VM :=
  mkVM (vm_db v) (vm_ActivityCacheSize v) (vm_genesis v) (vm_mempool v) (vm_blocks v)
    (vm_verifiedBlocks v) (vm_builder v) (vm_preferred v) (vm_lastAccepted v) (vm_activityCacheCursor v)
    (vm_activityCache v) (vm_targetRangeUnits v) (vm_samaState v) o next (vm_tick v).

#[export] Instance lens_mempool : Lens VM Mempool := {| view := vm_mempool; over := put_mempool |}.
#[export] Instance lens_vm_db : Lens VM DB := {| view := vm_db; over := put_db |}.

(** *** Block objects *)

Definition block_at (l : block_loc) : M VM StatelessBlock := fun v =>
  match vm_objects v !! l with Some b => (v, Ok b) | None => (v, Panic NilDereference) end.
Definition new_block (b : StatelessBlock) : M VM block_loc := fun v =>
  (put_objects (<[vm_next v := b]> (vm_objects v)) (Pos.succ (vm_next v)) v, Ok (vm_next v)).
Definition update_block (l : block_loc) (f : StatelessBlock -> StatelessBlock) : M VM unit :=
  modify (fun v => put_objects (alter f l (vm_objects v)) (vm_next v) v).

(** *** Execution on an overlay: the overlay is the database, the state of the
    chain is the node's own one.  Both are kept when there is an error. *)
Definition on_overlay {A} (db : DB) (m : M world A) : M VM (DB * result A) := fun v =>
  let '(w, r) := m (mkWorld db (vm_samaState v) (vm_tick v)) in
  let v' := put_sama (w_sama w) (w_tick w) v in
  match r with
  | Ok a => (v', Ok (w_db w, inr a))
  | Err e => (v', Ok (w_db w, inl e))
  | Panic p => (v', Panic p)
  end.
Definition vm_now : M VM Z := fun v =>
  (put_sama (vm_samaState v) (S (vm_tick v)) v, Ok (time_Now (vm_tick v))).
Definition sama_Abort : M VM unit :=
  modify (fun v => put_sama (samaState_Abort (vm_samaState v)) (vm_tick v) v).
Definition sama_Commit : M VM unit :=
  modify (fun v => put_sama (samaState_Commit (vm_samaState v)) (vm_tick v) v).

(** ** Finding blocks *)

Definition GetStatelessBlock (blkID : ID) : M VM block_loc :=
  let! hit := (fun v => let '(c, hit) := cache_Get (vm_blocks v) blkID in
                        (put_blocks c (vm_verifiedBlocks v) v, Ok hit)) in
  match hit with
  | Some l => ret l
  | None =>
      let! verified := gets vm_verifiedBlocks in
      match verified !! blkID with
      | Some l => ret l
      | None =>
          let! stBlk := zoom (GetBlock blkID) in
          let! g := gets vm_genesis in
          let! b := lift_outcome (ParseStatefulBlock stBlk [] Accepted g) in
          new_block b
      end
  end.

Definition vm_ParseBlock (source : bytes) : M VM block_loc :=
  let! g := gets vm_genesis in
  let! newBlk := lift_outcome (ParseBlock source Processing g) in
  let! oldBlk := attempt (GetStatelessBlock (sb_id newBlk)) in
  match oldBlk with
  | inr l => ret l
  | inl _ => new_block newBlk
  end.

(** [lookback]: [f] is called on every block of the window, from the youngest
    on, with the values its closure has accumulated.  The loop visits a block
    at most once unless parent links have a cycle, so the number of blocks the
    node knows is fuel enough. *)
Section lookback.
Context {A : Type} (f : StatelessBlock -> A -> outcome (bool * A)).
Variables (currTime : Z) (lastID : ID).

Fixpoint lookback_loop (fuel : nat) (curr : block_loc) (acc : A) : M VM A :=
  match fuel with
  | O => panics OutOfFuel
  | S fuel' =>
      let! b := block_at curr in
      let! window := gets (fun v => Genesis_LookbackWindow (vm_genesis v)) in
      if (i64 (currTime - blk_Tmstmp (sb_block b)) <=? window) || bool_decide (sb_id b = lastID) then
        let! r := lift_outcome (f b acc) in
        if negb r.1 then ret r.2
        else if Hght (sb_block b) =? 0 then ret r.2
        else
          let! next := GetStatelessBlock (Prnt (sb_block b)) in
          lookback_loop fuel' next r.2
      else ret acc
  end.
Definition lookback_fuel (v : VM) : nat :=
  S (size (vm_verifiedBlocks v) + length (db_iter_prefix (vm_db v) [blockPrefix; ByteDelimiter])).
Definition lookback (acc : A) : M VM A :=
  let! curr := GetStatelessBlock lastID in
  let! fuel := gets lookback_fuel in
  lookback_loop fuel curr acc.
End lookback.

(** ** The fee market: ExecutionContext *)

(** What the closure passed to [lookback] accumulates. *)
Record recent := mkRecent {
  rc_BlockIDs : gset ID;
  rc_TxIDs : gset ID;
  rc_Units : Z;
  rc_prices : list Z;
  rc_costs : list Z
}.
Definition no_recent : recent := mkRecent ∅ ∅ 0 [] [].

Fixpoint recent_txs (g : Genesis) (l : list Transaction) (ids : gset ID) (units : Z) :
    outcome (gset ID * Z) :=
  match l with
  | [] => Ok (ids, units)
  | tx :: l' =>
      try! load := LoadUnits (tx_Unsigned tx) g in
      recent_txs g l' ({[tx_id tx]} ∪ ids) (units +u load)
  end.
Definition recent_block (g : Genesis) (b : StatelessBlock) (r : recent) : outcome (bool * recent) :=
  try! t := recent_txs g (Txs (sb_block b)) (rc_TxIDs r) (rc_Units r) in
  Ok (true, mkRecent ({[sb_id b]} ∪ rc_BlockIDs r) t.1 t.2
    (rc_prices r ++ [Price (sb_block b)]) (rc_costs r ++ [Cost (sb_block b)])).

Definition next_cost (g : Genesis) (last : StatefulBlock) (secondsSinceLast : Z) : Z :=
  if negb (Genesis_BlockCostEnabled g) then Cost last
  else if secondsSinceLast <? Genesis_TargetBlockRate g then
    Cost last +u u64 (i64 (Genesis_TargetBlockRate g - secondsSinceLast))
  else
    let possibleDiff := u64 (i64 (secondsSinceLast - Genesis_TargetBlockRate g)) in
    if (MinBlockCost <=? Cost last) && (possibleDiff <? Cost last -u MinBlockCost)
    then Cost last -u possibleDiff
    else MinBlockCost.

Definition next_price (g : Genesis) (last : StatefulBlock) (secondsSinceLast recentUnits target : Z) :
    outcome Z :=
  if target <? recentUnits then Ok (Price last +u 1)
  else if recentUnits <? target then
    if Genesis_LookbackWindow g =? 0 then Panic DivideByZero
    else
      let elapsedWindows := u64 (Z.quot secondsSinceLast (Genesis_LookbackWindow g)) +u 1 in
      if (Genesis_MinPrice g <=? Price last) && (elapsedWindows <? Price last -u Genesis_MinPrice g)
      then Ok (Price last -u elapsedWindows)
      else Ok (Genesis_MinPrice g)
  else Ok (Price last).

Definition ExecutionContext (currTime : Z) (lastBlock : StatelessBlock) : M VM Context_t :=
  let! g := gets vm_genesis in
  let! r := lookback (recent_block g) currTime (sb_id lastBlock) no_recent in
  let secondsSinceLast := i64 (currTime - blk_Tmstmp (sb_block lastBlock)) in
  let nextCost := next_cost g (sb_block lastBlock) secondsSinceLast in
  let! target := gets vm_targetRangeUnits in
  let! nextPrice := lift_outcome (next_price g (sb_block lastBlock) secondsSinceLast (rc_Units r) target) in
  ret (mkContext (rc_BlockIDs r) (rc_TxIDs r) (rc_Units r) (rc_prices r) (rc_costs r) nextCost nextPrice).

Definition ValidBlockID (blockID : ID) : M VM bool :=
  let! now := vm_now in
  let! preferred := gets vm_preferred in
  lookback (fun b found => Ok (if bool_decide (sb_id b = blockID) then (false, true) else (true, found)))
    (Unix now) preferred false.

(** [sort.Slice] on numbers, and the element at the percentile. *)
Definition percentile (l : list Z) : outcome Z :=
  match merge_sort Z.le l !! Z.to_nat (Z.quot ((Z.of_nat (length l) - 1) * feePercentile) 100) with
  | Some z => Ok z
  | None => Panic IndexOutOfRange
  end.

Definition SuggestedFee : M VM (Z * Z) :=
  let! preferred := gets vm_preferred in
  let! l := GetStatelessBlock preferred in
  let! parent := block_at l in
  let! now := vm_now in
  let! ctx := ExecutionContext (Unix now) parent in
  let! g := gets vm_genesis in
  let! p := lift_outcome (percentile (ctx_Prices ctx)) in
  let pPrice := if p <? Genesis_MinPrice g then Genesis_MinPrice g else p in
  let! c := lift_outcome (percentile (ctx_Costs ctx)) in
  let pCost := if c <? MinBlockCost then MinBlockCost else c in
  let recentTxs := Z.of_nat (size (RecentTxIDs ctx)) in
  if recentTxs =? 0 then ret (pPrice, pCost)
  else
    let blocks := Z.of_nat (size (RecentBlockIDs ctx)) in
    if blocks =? 0 then panics DivideByZero
    else
      let cPerTx := pCost / recentTxs / blocks in
      ret (pPrice, if cPerTx <? MinBlockCost then MinBlockCost else cPerTx).

(** ** The consensus decisions: chain_vm.go *)

Definition Verified (l : block_loc) : M VM unit :=
  let! b := block_at l in
  modify (fun v => put_blocks (vm_blocks v) (<[sb_id b := l]> (vm_verifiedBlocks v)) v) ;;;
  for_each (fun tx => let! _ := zoom (Mempool_Remove (tx_id tx)) in ret tt) (Txs (sb_block b)).

Definition vm_Rejected (l : block_loc) : M VM unit :=
  let! b := block_at l in
  modify (fun v => put_blocks (vm_blocks v) (delete (sb_id b) (vm_verifiedBlocks v)) v) ;;;
  for_each (fun tx => let! _ := zoom (Mempool_Add tx) in ret tt) (Txs (sb_block b)).

Definition record_activity (tmstmp cs : Z) (tx : Transaction) : M VM unit := fun v =>
  let i := Z.to_nat (vm_activityCacheCursor v `mod` cs) in
  if bool_decide (length (vm_activityCache v) <= i)%nat then (v, Panic IndexOutOfRange)
  else (put_activity (vm_activityCacheCursor v +u 1)
          (<[i := Some (set_Tmstmp tmstmp (Transaction_Activity tx))]> (vm_activityCache v)) v, Ok tt).
Definition vm_Accepted (l : block_loc) : M VM unit :=
  let! b := block_at l in
  modify (fun v => put_blocks (cache_Put (vm_blocks v) (sb_id b) l)
                     (delete (sb_id b) (vm_verifiedBlocks v)) v) ;;;
  modify (put_lastAccepted l) ;;;
  let! size := gets vm_ActivityCacheSize in
  if size =? 0 then ret tt
  else for_each (record_activity (blk_Tmstmp (sb_block b)) (u64 size)) (Txs (sb_block b)).

(** ** block.go: verification *)

(** The loop that sums up the load. *)
Fixpoint block_size (g : Genesis) (l : list Transaction) (size : Z) : outcome Z :=
  match l with
  | [] => Ok size
  | tx :: l' =>
      try! load := LoadUnits (tx_Unsigned tx) g in
      let size := size +u load in
      if Genesis_MaxBlockSize g <? size then Err ErrBlockTooBig else block_size g l' size
  end.

(** The loop that executes the transactions and sums up what they pay above the
    price of the block. *)
Fixpoint execute_txs (g : Genesis) (blk : StatefulBlock) (context : Context_t)
    (l : list Transaction) (surplusFee : Z) : M world Z :=
  match l with
  | [] => ret surplusFee
  | tx :: l' =>
      Transaction_Execute tx g (blk_Tmstmp blk) context ;;;
      let! units := lift_outcome (FeeUnits (tx_Unsigned tx) g) in
      execute_txs g blk context l'
        (surplusFee +u (GetPrice (tx_Unsigned tx) -u Price blk) *u units)
  end.

(** [verify]: the parent and the overlay. *)
Definition verify (b : StatelessBlock) : M VM (block_loc * DB) :=
  let blk := sb_block b in
  let! g := gets vm_genesis in
  check (bool_decide (length (Txs blk) = 0%nat)) ErrNoTxs ;;;
  let! now := vm_now in
  check (Unix (now + futureBound) <=? sb_t b) ErrTimestampTooLate ;;;
  let! _ := lift_outcome (block_size g (Txs blk) 0) in
  let! pl := GetStatelessBlock (Prnt blk) in
  let! parent := block_at pl in
  check (sb_t b <? sb_t parent) ErrTimestampTooEarly ;;;
  let! context := ExecutionContext (blk_Tmstmp blk) parent in
  check (negb (Cost blk =? NextCost context)) ErrInvalidCost ;;;
  check (negb (Price blk =? NextPrice context)) ErrInvalidPrice ;;;
  let! state := gets vm_db in
  let! parentState := lift (onAccept parent state) in
  let onAcceptDB := versiondb_New parentState in
  check (bool_decide (AccessProof blk <> generateAccessProof onAcceptDB (sb_id parent) (Hght blk)))
    ErrInvalidAccessProof ;;;
  let! r := on_overlay onAcceptDB (execute_txs g blk context (Txs blk) 0) in
  let! surplusFee := lift r.2 in
  check (surplusFee <? Price blk *u Cost blk) (Wrapf ErrInsufficientSurplus "required") ;;;
  ret (pl, r.1).

Definition Verify (l : block_loc) : M VM unit :=
  let! b := block_at l in
  let! r := verify b in
  let '(parent, onAcceptDB) := r in
  let! g := gets vm_genesis in
  let '((db, blk), stored) := SetLastAccepted g (sb_id b) (onAcceptDB, sb_block b) in
  update_block l (fun b => set_block blk (set_onAcceptDB db b)) ;;;
  lift_outcome stored ;;;
  update_block parent (addChild l) ;;;
  Verified l.

(** [child.onAcceptDB.SetDatabase(db)]. *)
Definition set_child_db (db : DB) (child : block_loc) : M VM unit :=
  let! c := block_at child in
  match sb_onAcceptDB c with
  | None => panics NilDereference
  | Some overlay =>
      let '(overlay', r) := versiondb_SetDatabase overlay db in
      update_block child (set_onAcceptDB overlay') ;;;
      lift r
  end.

Definition Accept (l : block_loc) : M VM unit :=
  let! b := block_at l in
  match sb_onAcceptDB b with
  | None => panics NilDereference
  | Some overlay =>
      let! state := gets vm_db in
      let '(db, r) := versiondb_Commit overlay state in
      modify (put_db db) ;;;
      lift r ;;;
      for_each (set_child_db db) (sb_children b) ;;;
      update_block l (set_st Accepted) ;;;
      vm_Accepted l ;;;
      sama_Commit
  end.

Definition Reject (l : block_loc) : M VM unit :=
  update_block l (set_st Rejected) ;;;
  vm_Rejected l.

Definition SetChildrenDB (l : block_loc) (db : DB) : M VM unit :=
  let! b := block_at l in for_each (set_child_db db) (sb_children b).

(** ** builder.go *)

Record build_state := mkBuildState {
  bs_Txs : list Transaction;
  bs_units : Z;
  bs_vdb : DB;
  bs_unusable : list Transaction
}.

(** The body of the loop of [BuildBlock], whose next pass is [next_pass].  The
    error is that of a failed commit, which ends [BuildBlock]. *)
Definition build_pass (next_pass : build_state -> M VM (build_state * result unit)) (g : Genesis)
    (blk : StatefulBlock) (context : Context_t) (s : build_state) : M VM (build_state * result unit) :=
  let! popped := zoom PopMax in
  match popped.1 with
  | None => panics NilDereference
  | Some next =>
      if popped.2 <? Price blk then
        let! _ := zoom (Mempool_Add next) in ret (s, inr tt)
      else
        let! nextLoad := lift_outcome (LoadUnits (tx_Unsigned next) g) in
        if Genesis_MaxBlockSize g <? bs_units s +u nextLoad then
          next_pass (mkBuildState (bs_Txs s) (bs_units s) (bs_vdb s) (bs_unusable s ++ [next]))
        else
          let! r := on_overlay (versiondb_New (bs_vdb s))
            (Transaction_Execute next g (blk_Tmstmp blk) context) in
          match r.2 with
          | inl _ => next_pass s
          | inr _ =>
              let '(vdb, committed) := versiondb_Commit r.1 (bs_vdb s) in
              match committed with
              | inl e => ret (s, inl e)
              | inr _ => next_pass
                  (mkBuildState (bs_Txs s ++ [next]) (bs_units s +u nextLoad) vdb (bs_unusable s))
              end
          end
  end.

(** Every pass takes a transaction out of the mempool or ends the loop, so the
    length of the mempool is fuel enough. *)
Fixpoint build_loop (fuel : nat) (g : Genesis) (blk : StatefulBlock) (context : Context_t)
    (s : build_state) : M VM (build_state * result unit) :=
  let! len := gets (fun v => Mempool_Len (vm_mempool v)) in
  if bool_decide (len = 0%nat) then ret (s, inr tt)
  else
    match fuel with
    | O => panics OutOfFuel
    | S fuel' => build_pass (build_loop fuel' g blk context) g blk context s
    end.

Definition set_AccessProof (p : Hash) (l : list Transaction) (b : StatelessBlock) : StatelessBlock :=
  let x := sb_block b in
  set_block (mkStatefulBlock (Prnt x) (blk_Tmstmp x) (Hght x) (Price x) (Cost x) p l) b.

(** What follows the loop: the block is completed and verified. *)
Definition finish_block (b : StatelessBlock) (g : Genesis) (s : build_state) (r : result unit) :
    M VM StatelessBlock :=
  lift r ;;;
  sama_Abort ;;;
  let! b := lift_outcome (block_init (set_block (set_Txs (bs_Txs s) (sb_block b)) b) g) in
  let! _ := verify b in
  sama_Abort ;;;
  ret b.

(** [BuildBlock]; the unusable transactions go back whatever its outcome. *)
Definition BuildBlock (preferred : ID) : M VM block_loc :=
  let! g := gets vm_genesis in
  let! now := vm_now in
  let nextTime := Unix now in
  let! pl := GetStatelessBlock preferred in
  let! parent := block_at pl in
  let! context := ExecutionContext nextTime parent in
  let b := NewBlock parent nextTime context in
  zoom (Prune (RecentBlockIDs context)) ;;;
  let! state := gets vm_db in
  let! parentDB := lift (onAccept parent state) in
  let vdb := versiondb_New parentDB in
  let b := set_AccessProof (generateAccessProof vdb (sb_id parent) (Hght (sb_block b))) [] b in
  let! len := gets (fun v => Mempool_Len (vm_mempool v)) in
  let! built := build_loop len g (sb_block b) context (mkBuildState [] 0 vdb []) in
  let! r := attempt (finish_block b g built.1 built.2) in
  for_each (fun tx => let! _ := zoom (Mempool_Add tx) in ret tt) (bs_unusable built.1) ;;;
  let! b := lift r in
  new_block b.

(** [VM.BuildBlock]. *)
Definition vm_BuildBlock : M VM block_loc :=
  let! preferred := gets vm_preferred in
  let! r := attempt (BuildBlock preferred) in
  modify (fun v => put_builder
    (HandleGenerateBlock BuildInterval (Mempool_Len (vm_mempool v)) (vm_builder v)) v) ;;;
  lift r.

(** ** Transactions from clients and from the network *)

Definition submit (tx : Transaction) (db : DB) (blkTime : Z) (ctx : Context_t) :
    M VM (DB * result unit) :=
  let! g := gets vm_genesis in
  match Init tx g with
  | Panic p => panics p
  | Err e => ret (db, inl e)
  | Ok tx =>
      match BaseTx_ExecuteBase (base (tx_Unsigned tx)) g with
      | inl e => ret (db, inl e)
      | inr _ =>
          let dummy := DummyBlock blkTime tx in
          let! r := on_overlay db (Transaction_Execute tx g (blk_Tmstmp (sb_block dummy)) ctx) in
          match r.2 with
          | inl e => ret (r.1, inl e)
          | inr _ => let! _ := zoom (Mempool_Add tx) in ret (r.1, inr tt)
          end
      end
  end.

(** The overlay is emptied after a transaction that was accepted, not after one
    that failed. *)
Fixpoint submit_loop (vdb : DB) (now : Z) (ctx : Context_t) (txs : list Transaction) :
    M VM (list error) :=
  match txs with
  | [] => ret []
  | tx :: txs' =>
      let! r := submit tx vdb now ctx in
      match r.2 with
      | inl e => let! errs := submit_loop r.1 now ctx txs' in ret (e :: errs)
      | inr _ => let! state := gets vm_db in submit_loop (versiondb_New state) now ctx txs'
      end
  end.

Definition Submit (txs : list Transaction) : M VM (list error) :=
  let! preferred := gets vm_preferred in
  let! r := attempt (let! l := GetStatelessBlock preferred in block_at l) in
  match r with
  | inl e => ret [e]
  | inr blk =>
      let! now := vm_now in
      let! c := attempt (ExecutionContext (Unix now) blk) in
      match c with
      | inl e => ret [e]
      | inr ctx =>
          let! state := gets vm_db in
          let! errs := submit_loop (versiondb_New state) (Unix now) ctx txs in
          sama_Abort ;;;
          ret errs
      end
  end.

Definition SetPreference (id : ID) : M VM unit := modify (put_preferred id).
Definition LastAccepted : M VM ID :=
  let! l := gets vm_lastAccepted in let! b := block_at l in ret (sb_id b).

(** ** Initialize

    The configuration and the genesis are read from JSON by the caller. *)
Definition StatefulBlock_of_genesis (g : Genesis) : StatefulBlock :=
  mkStatefulBlock EmptyID 0 0 (Genesis_MinPrice g) MinBlockCost (sized_of 32 []) [].

(** The struct before the state is loaded; the nil state is empty here, and
    nothing reads it before it is set. *)
Definition vm_zero (db : DB) (MempoolSize ActivityCacheSize : Z) (g : Genesis) (target : Z)
    (nil_state : samaState) (tick : nat) : VM :=
  mkVM db ActivityCacheSize g (Mempool_New g MempoolSize) cache_New ∅ (NewTimeBuilder 0) EmptyID 1
    0 (replicate (Z.to_nat ActivityCacheSize) None) target nil_state ∅ 1 tick.

Definition load_last (g : Genesis) (airdropData : bytes)
    (parse_airdrop : bytes -> result (list Address)) (has : bool) : M VM unit :=
  if has then
    let! blkID := zoom GetLastAccepted in
    let! l := GetStatelessBlock blkID in
    modify (put_preferred blkID) ;;; modify (put_lastAccepted l)
  else
    let! genesisBlk := lift_outcome (ParseStatefulBlock (StatefulBlock_of_genesis g) [] Accepted g) in
    zoom (Genesis_Load g airdropData parse_airdrop) ;;;
    let! state := gets vm_db in
    let '((db, blk), stored) := SetLastAccepted g (sb_id genesisBlk) (state, sb_block genesisBlk) in
    modify (put_db db) ;;;
    lift_outcome stored ;;;
    let! l := new_block (set_block blk genesisBlk) in
    modify (put_preferred (sb_id genesisBlk)) ;;; modify (put_lastAccepted l).

Definition Initialize (db : DB) (config : result (Z * Z)) (genesis : result Genesis)
    (airdropData : bytes) (parse_airdrop : bytes -> result (list Address))
    (nil_state : samaState) (tick : nat) : outcome VM :=
  try! sizes := of_result config in
  if sizes.2 <? 0 then Panic MakeSliceOutOfRange else
  try! has := (HasLastAccepted db).2 in
  try! g := of_result genesis in
  try! _ := of_result (Genesis_Verify g) in
  if u64 (Genesis_TargetBlockRate g) =? 0 then Panic DivideByZero
  else if sizes.1 <? 0 then Panic MakeSliceOutOfRange
  else
    let targetUnitsPerSecond := Genesis_TargetBlockSize g / u64 (Genesis_TargetBlockRate g) in
    let target := targetUnitsPerSecond *u u64 (Genesis_LookbackWindow g) in
    let '(v, r) := load_last g airdropData parse_airdrop has
      (vm_zero db sizes.1 sizes.2 g target nil_state tick) in
    try! _ := r in
    try! state := SamaNew (vm_db v) g (vm_tick v) in
    Ok (put_sama state (vm_tick v) v).
End vm.
