(* ===== verification/Config.v ===== *)
(** * Configuration and genesis of a node as bytes: vm/config.go

    [Initialize] of VM.v starts from parsed values; here it is given the bytes
    the node is started with.  [encoding/json] writes into a value that has its
    defaults, so [config_Unmarshal] and [genesis_Unmarshal] take that value. *)

From S2P Require Import Prelude External GoStd Builder Keys Storage Genesis.
From S2P Require Import Stakers Pows Rewards Actions Users Details SysParams SamaState.
From S2P Require Import Tx TypedTx Activity Block Mempool VM.

(** Durations in nanoseconds. *)
Record Config := mkConfig {
  BuildInterval : Z;
  GossipInterval : Z;
  RegossipInterval : Z;
  MempoolSize : Z;
  ActivityCacheSize : Z
}.
Definition SetDefaults (c : Config) : Config :=
  mkConfig (500 * 1000000) (1 * ns_per_sec) (30 * ns_per_sec) 1024 128.

Class NodeJSON := {
  config_Unmarshal : Config -> bytes -> result Config;
  genesis_Unmarshal : Genesis -> bytes -> result Genesis;
  genesis_Marshal : Genesis -> result bytes;
  allocations_Unmarshal : bytes -> result (list CustomAllocation)
}.
(** The text forms lose nothing of a struct whose strings are ASCII: every field
    is written, so the defaults do not show through. *)
Definition ascii_text (s : string) : Prop := Forall (fun b => Z_of_byte b < 128) (String.list_byte_of_string s).
Record plain_genesis (g : Genesis) : Prop := {
  pg_hash : ascii_text (Genesis_AirdropHash g);
  pg_root : ascii_text (Genesis_RootAddress g);
  pg_foundation : ascii_text (Genesis_FoundationAddr g)
}.
Class NodeJSONLaws `{NodeJSON} : Prop := {
  genesis_Marshal_total g : exists b, genesis_Marshal g = inr b;
  genesis_Unmarshal_Marshal d g b : plain_genesis g -> genesis_Marshal g = inr b -> genesis_Unmarshal d b = inr g
}.

Section config.
Context `{Database} `{Cacher Address UserMeta} `{Cacher ID block_loc} `{Ethereum} `{!EthMath}.
Context `{GoRuntime} `{ChainCodecs} `{TxCodec} `{BlockCodec} `{NodeJSON}.

(** The zero value of the struct, as it is in a new [VM]. *)
Definition load_config (configBytes : bytes) : result Config :=
  let config := SetDefaults (mkConfig 0 0 0 0 0) in
  if bool_decide (configBytes = []) then inr config
  else
    match config_Unmarshal config configBytes with
    | inl e => inl (Wrapf e "failed to unmarshal config")
    | inr c => inr c
    end.

(** [Initialize] from the bytes it is given. *)
Definition InitializeBytes (db : DB) (configBytes genesisBytes airdropData : bytes)
    (parse_airdrop : bytes -> result (list Address)) (nil_state : samaState) (tick : nat) : outcome VM :=
  let config := match load_config configBytes with
    | inl e => inl e
    | inr c => inr (MempoolSize c, ActivityCacheSize c)
    end in
  Initialize db config (genesis_Unmarshal DefaultGenesis genesisBytes) airdropData parse_airdrop nil_state tick.
End config.
