(* ===== verification/Service.v ===== *)
(** * The JSON-RPC service: vm/public_service.go

    A handler is an operation on the service, with its arguments as parameters
    and the reply as its value; the transport and the JSON forms are left out,
    and the reply of a call that fails is dropped.  [svc_linked] is the
    package-level cache of chain/storage.go, [svc_ks] the key store of the node,
    [svc_rand] the number of random numbers drawn so far. *)

From S2P Require Import Prelude External GoStd TData Builder Keys Storage Genesis.
From S2P Require Import Stakers Pows Rewards Actions Users Details SysParams SamaState.
From S2P Require Import Tx TypedTx Activity Keystore Block Mempool VM.

(** The identifiers of a node in [snow.Context]; [rand.Intn] of math/rand and
    [ids.ToShortID]. *)
Class SnowContext := { ctx_NetworkID : Z; ctx_SubnetID : ID; ctx_ChainID : ID }.
Class Randomness := { rand_Intn : nat -> nat -> nat; ToShortID : bytes -> result ShortID }.
Class RandomnessLaws `{Randomness} : Prop := {
  rand_Intn_range i n : (0 < n)%nat -> (rand_Intn i n < n)%nat;
  ToShortID_length b : length b = 20%nat -> ToShortID b = inr (sized_of 20 b)
}.

(** ** Arguments and replies *)

Record LocalParams := mkLocalParams {
  lp_Country : string; lp_LocalIP : string; lp_PublicIP : string;
  lp_MinPort : Z; lp_MaxPort : Z; lp_CheckPort : Z;
  lp_WorkKey : string; lp_WorkAddress : Address
}.
Record ResolveReply := mkResolveReply {
  rr_Exists : bool; rr_Value : bytes; rr_ValueMeta : option ValueMeta
}.
Record APIStake := mkAPIStake {
  as_TxID : ID; as_StakerType : string; as_StakerAddr : Address;
  as_StakeAmount : Z; as_StakeTime : Z
}.
Record APINode := mkAPINode {
  an_TxID : ID; an_StakerType : string; an_StakerAddr : Address; an_Country : string;
  an_WorkKey : string; an_LocalIP : string; an_MinPort : Z; an_MaxPort : Z;
  an_PublicIP : string; an_CheckPort : Z; an_WorkAddr : Address
}.
Record APIAction := mkAPIAction {
  aa_TxID : ID; aa_ActionID : ShortID; aa_ActionType : Z; aa_StartTime : Z; aa_EndTime : Z;
  aa_Key : string; aa_NewValue : string; aa_Voters : list Address
}.
Record APIUser := mkAPIUser {
  au_TxID : ID; au_StartTime : Z; au_EndTime : Z; au_Address : Address
}.
Record APIPow := mkAPIPow {
  ap_TotalTime : Z; ap_Totalflow : Z; ap_LastUpdateTime : Z; ap_LastUpdateTXID : ID; ap_Miner : Address
}.

(** [NoReply] stands for a reply that is left as it was. *)
Record PublicService `{Database} `{Cacher Address UserMeta} `{Cacher ID block_loc}
    `{Cacher bytes bytes} `{!Keystore} := mkPublicService {
  svc_vm : VM;
  svc_Cache : gmap string LocalParams;
  svc_linked : Cache_t bytes bytes;
  svc_ks : KS;
  svc_rand : nat
}.
Arguments PublicService {_ _ _ _ _}.
Arguments mkPublicService {_ _ _ _ _}.

(** [strType]. *)
Definition role_name (stakerType : Z) : string :=
  if stakerType =? RouteStake then "Route"
  else if stakerType =? SerStake then "Ser" else "normal".

Definition letterBytes : bytes := String.list_byte_of_string "1234567890abcdefghijklmnopqrstuvwxyz".

Section service.
Context `{Database} `{Cacher Address UserMeta} `{Cacher ID block_loc} `{Cacher bytes bytes} `{!Keystore}.
Context `{Ethereum} `{!EthMath} `{GoRuntime} `{ChainCodecs} `{TxCodec} `{BlockCodec}.
Context `{!Secp} `{!Codec (list Address)} `{SnowContext} `{Randomness}.

#[export] Instance lens_svc_vm : Lens PublicService VM := {|
  view := svc_vm;
  over v s := mkPublicService v (svc_Cache s) (svc_linked s) (svc_ks s) (svc_rand s) |}.
(** The state of the chain together with the database of the node. *)
#[export] Instance lens_vm_world : Lens VM world := {|
  view v := mkWorld (vm_db v) (vm_samaState v) (vm_tick v);
  over w v := put_db (w_db w) (put_sama (w_sama w) (w_tick w) v) |}.
#[export] Instance lens_svc_linked : Lens PublicService (Cache_t bytes bytes * DB) := {|
  view s := (svc_linked s, vm_db (svc_vm s));
  over p s := mkPublicService (put_db p.2 (svc_vm s)) (svc_Cache s) p.1 (svc_ks s) (svc_rand s) |}.

Definition on_vm {A} (m : M VM A) : M PublicService A := zoom m.
Definition on_db {A} (m : M DB A) : M PublicService A := on_vm (zoom (T := DB) m).
Definition on_world {A} (m : M world A) : M PublicService A := on_vm (zoom (T := world) m).
Definition sama {A} (f : samaState -> A) : M PublicService A := gets (fun s => f (vm_samaState (svc_vm s))).
Definition genesis : M PublicService Genesis := gets (fun s => vm_genesis (svc_vm s)).
(** [fmt.Errorf("...: %w", err)] around an error. *)
Definition wrapping {A} (msg : string) (m : M PublicService A) : M PublicService A :=
  let! r := attempt m in
  match r with inl e => fail (Wrapf e msg) | inr a => ret a end.

(** ** The chain *)

Definition svc_Ping : M PublicService bool := ret true.
Definition svc_Network : M PublicService (Z * ID * ID) := ret (ctx_NetworkID, ctx_SubnetID, ctx_ChainID).
Definition svc_Genesis : M PublicService Genesis := genesis.

(** What follows [Submit] in the handlers that issue transactions. *)
Definition issued {A} (a : A) (errs : list error) : M PublicService A :=
  match errs with
  | [] => ret a
  | [e] => fail e
  | _ => fail (Errorf "%v")
  end.

Definition svc_IssueRawTx (b : bytes) : M PublicService ID :=
  let! p := lift (Unmarshal b) in
  let! g := genesis in
  let! tx := lift_outcome (Init (wire_tx p) g) in
  let! errs := on_vm (Submit [tx]) in
  issued (tx_id tx) errs.

Definition svc_IssueTx (td : option TypedData) (sig : bytes) : M PublicService ID :=
  match td with
  | None => fail ErrTypedDataIsNil
  | Some td =>
      let! utx := lift (ParseTypedData td) in
      let! g := genesis in
      let! tx := lift_outcome (Init (NewTx utx sig) g) in
      let! errs := on_vm (Submit [tx]) in
      issued (tx_id tx) errs
  end.

Definition svc_HasTx (txID : ID) : M PublicService bool := on_db (HasTransaction txID).

Definition last_block : M PublicService StatelessBlock :=
  on_vm (let! l := gets vm_lastAccepted in block_at l).
Definition svc_LastAccepted : M PublicService (Z * ID) :=
  let! la := last_block in ret (Hght (sb_block la), sb_id la).

(** [price += cost / fu]. *)
Definition with_cost (price cost fu : Z) : Z := if fu =? 0 then price else price +u cost / fu.
(** [SetBlockID], [SetMagic] and [SetPrice] one after the other. *)
Definition set_meta (la : ID) (g : Genesis) (price : Z) (d : decoded) : outcome decoded :=
  try! d := SetBlockID la d in
  try! d := SetMagic (Genesis_Magic g) d in
  SetPrice price d.

Definition svc_SuggestedFee (input : option Input) : M PublicService (TypedData * Z) :=
  match input with
  | None => fail ErrInputIsNil
  | Some input =>
      let! utx := lift (Decode input) in
      let! f := on_vm SuggestedFee in
      let! g := genesis in
      let! fu := lift_outcome (FeeUnits (dec_tx utx) g) in
      let price := with_cost f.1 f.2 fu in
      let! la := last_block in
      let! utx := lift_outcome (set_meta (sb_id la) g price utx) in
      ret (TypedData_of (dec_tx utx), fu *u price)
  end.
Definition svc_SuggestedRawFee : M PublicService (Z * Z) := on_vm SuggestedFee.

Definition svc_Resolve (key : Hash) : M PublicService ResolveReply :=
  let! vmeta := on_db (GetValueMeta key) in
  match vmeta with
  | None => ret (mkResolveReply false [] None)
  | Some m =>
      let! v := zoom (T := Cache_t bytes bytes * DB) (GetValue key) in
      match v with
      | None => fail ErrCorruption
      | Some v => ret (mkResolveReply true v (Some m))
      end
  end.

Definition svc_Balance (a : Address) : M PublicService Z := on_db (GetBalance a).
Definition svc_StakeBalance (a : Address) : M PublicService Z := on_db (GetStakeBalance a).

(** The loop of [RecentActivity], [start - i] of its entries done. *)
Fixpoint activity_loop (fuel : nat) (cs start i : Z) (cache : list (option Activity)) :
    outcome (list Activity) :=
  if (0 <? i) && (start -u i <? cs) then
    match fuel with
    | O => Panic OutOfFuel
    | S fuel' =>
        match cache !! Z.to_nat ((i - 1) `mod` cs) with
        | None => Panic IndexOutOfRange
        | Some None => Ok []
        | Some (Some item) => try! rest := activity_loop fuel' cs start (i - 1) cache in Ok (item :: rest)
        end
    end
  else Ok [].
Definition svc_RecentActivity : M PublicService (list Activity) :=
  let! v := gets svc_vm in
  let cs := u64 (vm_ActivityCacheSize v) in
  if cs =? 0 then ret []
  else
    let start := vm_activityCacheCursor v in
    lift_outcome (activity_loop (length (vm_activityCache v)) cs start start (vm_activityCache v)).

(** ** The state of the chain *)

Definition api_stake (m : StakerMeta) : APIStake :=
  mkAPIStake (Staker_TxID m) (role_name (Staker_StakerType m)) (Staker_StakerAddr m)
    (Staker_StakeAmount m) (Staker_StakeTime m).
Definition svc_GetStakers (stakerType : Z) (a : Address) : M PublicService (list APIStake) :=
  check (negb (stakerType =? RouteStake) && negb (stakerType =? SerStake)) (Errorf "type err %d") ;;;
  let! stakers := sama st_stakers in
  if decide (a = zeroAddress) then ret (api_stake <$> GetStakers stakers (byte_of_Z stakerType))
  else
    match GetStakerMeta stakers (byte_of_Z stakerType) a with
    | None => fail (Errorf "not found")
    | Some m => ret [api_stake m]
    end.

Definition svc_CalcReward (stakerType : Z) (a : Address) (endTime : Z) : M PublicService (Z * Z * Z) :=
  let! now := on_vm vm_now in
  check (Before_unix now (i64 endTime)) (Errorf "too late %d-%d ") ;;;
  let! s := sama id in
  wrapping "calc reward error" (lift_outcome (CalcReward s (byte_of_Z stakerType) a endTime)).

Definition api_node (m : DetailMeta) : APINode :=
  mkAPINode (Detail_TxID m) (role_name (Detail_StakerType m)) (Detail_StakeAddress m)
    (Detail_Country m) (Detail_WorkKey m) (Detail_LocalIP m) (Detail_MinPort m) (Detail_MaxPort m)
    (Detail_PublicIP m) (Detail_CheckPort m) (Detail_WorkAddress m).
(** Whether a node is left out of the reply. *)
Definition unconfirmed (stakers : stakerState) (m : DetailMeta) : bool :=
  if Detail_StakerType m =? RouteStake then negb (IsRoute stakers (Detail_StakeAddress m))
  else if Detail_StakerType m =? SerStake then negb (IsSer stakers (Detail_StakeAddress m))
  else false.
Definition svc_GetNodes (a : Address) (isConfirmed : bool) : M PublicService (list APINode) :=
  let! details := sama st_details in
  let! stakers := sama st_stakers in
  let skip m := isConfirmed && unconfirmed stakers m in
  if decide (a = zeroAddress) then
    ret (api_node <$> filter (fun m => skip m = false) (GetDetails details))
  else
    match GetDetailMeta details a with
    | None => fail (Errorf "not found")
    | Some m => if skip m then ret [] else ret [api_node m]
    end.

(** [action.TxIDs[0]] panics on an action without transactions. *)
Definition api_action (m : ActionMeta) : outcome APIAction :=
  match Action_TxIDs m with
  | [] => Panic IndexOutOfRange
  | tx :: _ => Ok (mkAPIAction tx (Action_ActionID m) (Action_ActionType m) (Action_StartTime m)
      (Action_EndTime m) (Action_Key m) (Action_NewValue m) (Action_Voters m))
  end.
Fixpoint api_actions (l : list ActionMeta) : outcome (list APIAction) :=
  match l with
  | [] => Ok []
  | m :: l' => try! x := api_action m in try! xs := api_actions l' in Ok (x :: xs)
  end.
Definition svc_GetActions (actionType : Z) (actionID : ShortID) : M PublicService (list APIAction) :=
  check (negb (CheckActionType actionType)) (Errorf "action type err") ;;;
  let! actions := sama st_actions in
  if decide (actionID = EmptyShortID) then lift_outcome (api_actions (GetActions actions))
  else
    let! action := wrapping "GetActionMeta error" (on_world (get_action actionID)) in
    match action with
    | None => fail (Errorf "not found")
    | Some l => let! x := lift_outcome (api_action (load_action actions l)) in ret [x]
    end.

Definition svc_GetUserFee (userType startTime endTime : Z) : M PublicService Z :=
  let! types := sama st_userTypes in
  match GetUserType types userType with
  | None => fail (Errorf "user type not found")
  | Some user => ret (UserType_FeeUnits user)
  end.

Definition api_user (u : UserMeta) : outcome APIUser :=
  match User_TxsID u with
  | [] => Panic IndexOutOfRange
  | tx :: _ => Ok (mkAPIUser tx (User_StartTime u) (User_EndTime u) (User_Address u))
  end.
Fixpoint api_users (l : list UserMeta) : outcome (list APIUser) :=
  match l with
  | [] => Ok []
  | u :: l' => try! x := api_user u in try! xs := api_users l' in Ok (x :: xs)
  end.
Definition svc_GetUsers (a : Address) : M PublicService (list APIUser) :=
  if decide (a = zeroAddress) then
    let! db := gets (fun s => vm_db (svc_vm s)) in
    let! users := wrapping "couldn't GetUsers" (lift (GetUsers db)) in
    lift_outcome (api_users users)
  else
    let! user := wrapping "GetUserMeta error" (on_world (zoom (GetUserMeta a))) in
    match user with
    | None => fail (Errorf "not found")
    | Some u => let! x := lift_outcome (api_user u) in ret [x]
    end.

Definition svc_GetChainYields : M PublicService Z := sama (fun s => GetChainYields (st_yields s)).
Definition svc_GetChainCreateTime : M PublicService Z := sama (fun s => GetChainCreateTime (st_params s)).
Definition svc_GetSysParams : M PublicService SysParamsMeta := sama (fun s => GetSysParams (st_params s)).

(** The second question is the first one again. *)
Definition svc_GetStakerType (a : Address) : M PublicService Z :=
  check (bool_decide (a = zeroAddress)) (Errorf "address error") ;;;
  let! stakers := sama st_stakers in
  if negb (IsRoute stakers a) then
    if negb (IsRoute stakers a) then fail (Errorf "not found") else ret SerStake
  else ret RouteStake.

Definition api_pow (m : PowMeta) : APIPow :=
  mkAPIPow (Pow_TotalTime m) (Pow_Totalflow m) (Pow_LastUpdateTime m) (Pow_LastUpdateTXID m) (Pow_Miner m).
(** The type of the reply is that of the last proof. *)
Definition svc_GetPows (type : Z) (miner : Address) : M PublicService (string * list APIPow) :=
  check (negb (type =? RouteStake) && negb (type =? SerStake)) (Errorf "type err %d") ;;;
  let! pows := sama st_pows in
  if decide (miner = zeroAddress) then
    let l := GetPows pows (byte_of_Z type) in
    ret (match last l with Some m => role_name (Pow_PowType m) | None => ""%string end, api_pow <$> l)
  else
    match GetPowMeta pows (byte_of_Z type) miner with
    | None => fail (Errorf "not found")
    | Some m => ret (role_name (Pow_PowType m), [api_pow m])
    end.

(** ** Local parameters *)

Definition svc_Register (p : LocalParams) : M PublicService bool :=
  let! pbkb := lift (hex_DecodeString (lp_WorkKey p)) in
  let! pbk := lift (UnmarshalPubkey pbkb) in
  let addr := PubkeyToAddress pbk in
  let params := mkLocalParams (lp_Country p) (lp_LocalIP p) (lp_PublicIP p) (lp_MinPort p) (lp_MaxPort p)
    (lp_CheckPort p) (lp_WorkKey p) addr in
  modify (fun s => mkPublicService (svc_vm s) (<[Address_Hex addr := params]> (svc_Cache s))
    (svc_linked s) (svc_ks s) (svc_rand s)) ;;;
  ret true.
Definition svc_GetLocalParams (a : Address) : M PublicService LocalParams :=
  check (bool_decide (a = zeroAddress)) (Errorf "err Missing Address") ;;;
  let! cache := gets svc_Cache in
  match cache !! Address_Hex a with
  | None => fail (Errorf "not found %s")
  | Some p => ret p
  end.

Fixpoint RandStringRunes (n : nat) : M PublicService bytes :=
  match n with
  | O => ret []
  | S n' =>
      let! i := gets svc_rand in
      modify (fun s => mkPublicService (svc_vm s) (svc_Cache s) (svc_linked s) (svc_ks s) (S i)) ;;;
      match letterBytes !! rand_Intn i (length letterBytes) with
      | None => panics IndexOutOfRange
      | Some b => let! bs := RandStringRunes n' in ret (b :: bs)
      end
  end.
Definition svc_CreateShortID : M PublicService ShortID :=
  let! ub := RandStringRunes 20 in
  wrapping "couldn't parse to id:" (lift (ToShortID ub)).

(** ** Keys, and transactions the node signs *)

(** [db, err := GetDatabase(...)], and the method [m] on the user's database. *)
Definition on_user {A} (user pass : string) (m : M (option DB) A) : M PublicService (result A) :=
  let! ks := gets svc_ks in
  let! db := wrapping "problem retrieving user" (lift (GetDatabase ks user pass)) in
  let '(db', r) := m (Some db) in
  modify (fun s => mkPublicService (svc_vm s) (svc_Cache s) (svc_linked s)
    (match db' with Some db' => ks_store ks user db' | None => ks end) (svc_rand s)) ;;;
  match r with Ok a => ret (inr a) | Err e => ret (inl e) | Panic p => panics p end.

Definition svc_ImportKey (user pass : string) (sk : option PrivateKey) : M PublicService Address :=
  match sk with
  | None => fail (Errorf "err Missing PrivateKey ")
  | Some sk =>
      let! r := on_user user pass (putAddress (Some sk)) in
      match r with
      | inl e => fail (Wrapf e "problem saving key")
      | inr _ => ret (address_of sk)
      end
  end.

Definition ParseEthAddress (addrStr : string) : result Address :=
  if negb (IsHexAddress addrStr) then inl (Errorf "invalid Address") else inr (HexToAddress addrStr).

(** The key of an address given as text, for [ExportKey], [Proof] and [Refresh]. *)
Definition user_key (user pass addrStr : string) : M PublicService PrivateKey :=
  match ParseEthAddress addrStr with
  | inl _ => fail (Errorf "couldn't parse %s to address")
  | inr address =>
      let! r := on_user user pass (getKey address) in
      match r with
      | inl e => fail (Wrapf e "problem retrieving private key:")
      | inr sk => ret sk
      end
  end.
Definition svc_ExportKey (user pass addrStr : string) : M PublicService (PrivateKey * string) :=
  let! sk := user_key user pass addrStr in ret (sk, hexutil_Encode (sk_Bytes sk)).

Definition SignSubmitRawTx (utx : UnsignedTransaction) (priv : PrivateKey) : M PublicService (ID * Z) :=
  let! f := on_vm SuggestedFee in
  let! g := genesis in
  let! fu := lift_outcome (FeeUnits utx g) in
  let price := with_cost f.1 f.2 fu in
  let! la := last_block in
  let blockCost := fu *u price in
  let! d := lift_outcome (set_meta (sb_id la) g (with_cost price blockCost fu) (mkDecoded utx true)) in
  let utx := dec_tx d in
  let! dh := lift_outcome (tx_DigestHash utx) in
  let! sig := lift (Sign dh priv) in
  let! tx := lift_outcome (Init (NewTx utx sig) g) in
  let! errs := on_vm (Submit [tx]) in
  issued (tx_id tx, blockCost) errs.

Definition svc_Proof (user pass address : string) (netflow startTime endTime : Z) : M PublicService ID :=
  let! sk := user_key user pass address in
  let! r := SignSubmitRawTx (UProof (mkProofTx zeroBaseTx netflow startTime endTime zeroAddress)) sk in
  ret r.1.
Definition svc_Refresh (user pass address country localIP publicIP : string) (minPort maxPort checkPort : Z)
    (workKey : string) : M PublicService ID :=
  let! sk := user_key user pass address in
  let! r := SignSubmitRawTx (URefresh (mkRefreshTx zeroBaseTx country localIP publicIP minPort maxPort
    checkPort workKey)) sk in
  ret r.1.
End service.
