(* ===== verification/Client.v ===== *)
(** * The client: client/client.go and client/helper.go

    A request is one of the methods of the service with its arguments, indexed
    by the type of its reply; sending it is third-party code, with a node at the
    other end of which nothing is assumed.  Pointers of a reply that the client
    follows may be nil. *)

From S2P Require Import Prelude External GoStd TData Builder Keys Storage Genesis.
From S2P Require Import Stakers Pows Rewards Actions Users Details SysParams SamaState.
From S2P Require Import Tx TypedTx Activity Keystore Block Mempool VM Service.

(** The methods, by their names after "samavm.". *)
Inductive Request `{Secp} : Type -> Type :=
| req_ping : Request bool
| req_network : Request (Z * ID * ID)
| req_genesis : Request (option Genesis)
| req_lastAccepted : Request (Z * ID)
| req_suggestedRawFee : Request (Z * Z)
| req_issueRawTx (d : bytes) : Request ID
| req_hasTx (txID : ID) : Request bool
| req_suggestedFee (i : option Input) : Request (option TypedData * Z)
| req_issueTx (td : option TypedData) (sig : bytes) : Request ID
| req_resolve (key : Hash) : Request ResolveReply
| req_balance (addr : Address) : Request Z
| req_recentActivity : Request (list Activity)
| req_calcReward (stakerType endTime : Z) (address : Address) : Request (Z * Z * Z)
| req_getUserFee (userType startTime endTime : Z) : Request Z
| req_getStakerType (address : Address) : Request Z
| req_getChainCreateTime : Request Z
| req_getNodes (address : Address) (isConfirmed : bool) : Request (list APINode)
| req_createShortID : Request ShortID
| req_importKey (user pass : string) (sk : option PrivateKey) : Request Address
| req_getLocalParams (address : Address) : Request (option LocalParams).

(** [rpc.EndpointRequester] and the context of the calls.  [pause] is the [select]
    of [PollTx]: whether the second passed before the context was done. *)
Class Requester `{Secp} := {
  Remote : Type;
  SendRequest : forall {R}, Request R -> Remote -> Remote * result R;
  ctx_Err : Remote -> option error;
  pause : Remote -> Remote * bool
}.
(** Time passes: [remaining] bounds the seconds that are left to the context. *)
Class Deadline `{Requester} := {
  remaining : Remote -> nat;
  remaining_SendRequest {R} (q : Request R) w : (remaining (SendRequest q w).1 <= remaining w)%nat;
  remaining_pause w : ctx_Err w = None -> (pause w).2 = true -> (remaining (pause w).1 < remaining w)%nat;
  pause_done w : (pause w).2 = false -> is_Some (ctx_Err (pause w).1)
}.

Section client.
Context `{Ethereum} `{!Secp} `{!Requester} `{!EthMath} `{!GoRuntime}.

(** ** client.go *)

Definition send {R} (q : Request R) : M Remote R := fun w => let '(w', r) := SendRequest q w in (w', of_result r).

Definition cli_Ping : M Remote bool := send req_ping.
Definition cli_Network : M Remote (Z * ID * ID) := send req_network.
Definition cli_Genesis : M Remote (option Genesis) := send req_genesis.
Definition cli_Accepted : M Remote ID := let! r := send req_lastAccepted in ret r.2.
Definition cli_SuggestedRawFee : M Remote (Z * Z) := send req_suggestedRawFee.
Definition cli_IssueRawTx (d : bytes) : M Remote ID := send (req_issueRawTx d).
Definition cli_HasTx (txID : ID) : M Remote bool := send (req_hasTx txID).
Definition cli_SuggestedFee (i : option Input) : M Remote (option TypedData * Z) :=
  send (req_suggestedFee i).
Definition cli_IssueTx (td : option TypedData) (sig : bytes) : M Remote ID := send (req_issueTx td sig).

(** The loop of [PollTx]; the error is that of the context. *)
Fixpoint cli_PollTx (fuel : nat) (txID : ID) : M Remote bool :=
  let! e := gets ctx_Err in
  match e, fuel with
  | Some e, _ => fail e
  | None, O => panics OutOfFuel
  | None, S fuel' =>
      let! ticked := (fun w => let '(w', b) := pause w in (w', Ok b)) in
      if negb ticked then let! e := gets ctx_Err in (match e with Some e => fail e | None => ret false end)
      else
        let! r := attempt (cli_HasTx txID) in
        match r with
        | inr true => ret true
        | _ => cli_PollTx fuel' txID
        end
  end.

(** The reply of a node is believed only as far as its hash. *)
Definition cli_Resolve (key : Hash) : M Remote (bool * bytes * option ValueMeta) :=
  let! resp := send (req_resolve key) in
  if negb (rr_Exists resp) then ret (false, [], None)
  else if bool_decide (key <> ValueHash (rr_Value resp)) then fail ErrIntegrityFailure
  else ret (true, rr_Value resp, rr_ValueMeta resp).

Definition cli_Balance (addr : Address) : M Remote Z := send (req_balance addr).
Definition cli_RecentActivity : M Remote (list Activity) := send req_recentActivity.
Definition cli_CalcReward (stakerType endTime : Z) (address : Address) : M Remote (Z * Z * Z) :=
  send (req_calcReward stakerType endTime address).
Definition cli_GetUserFee (userType startTime endTime : Z) : M Remote Z :=
  send (req_getUserFee userType startTime endTime).
Definition cli_GetStakerType (address : Address) : M Remote Z := send (req_getStakerType address).
Definition cli_GetChainCreateTime : M Remote Z := send req_getChainCreateTime.
(** [resp.Nodes[0]]. *)
Definition cli_GetNodes (address : Address) : M Remote APINode :=
  let! nodes := send (req_getNodes address false) in
  match nodes with [] => panics IndexOutOfRange | n :: _ => ret n end.
Definition cli_CreateShortID : M Remote ShortID := send req_createShortID.
Definition cli_ImportKey (userName userPass privateKey : string) : M Remote unit :=
  match ToPrivateKey (String.list_byte_of_string privateKey) with
  | inl _ => fail (Errorf "to ToPrivateKey err ")
  | inr sk => let! _ := send (req_importKey userName userPass (Some sk)) in ret tt
  end.
Definition cli_GetLocalParams (address : Address) : M Remote (option LocalParams) :=
  send (req_getLocalParams address).

(** ** helper.go *)

Record Op := mkOp { op_pollTx : bool; op_balance : bool }.
Definition applyOpts (opts : list (Op -> Op)) (op : Op) : Op := foldl (fun op opt => opt op) op opts.
Definition WithPollTx (op : Op) : Op := mkOp true (op_balance op).
Definition WithBalance (op : Op) : Op := mkOp (op_pollTx op) true.

(** What is printed is left out; that a transaction is not confirmed is only
    printed. *)
Definition handleConfirmation (fuel : nat) (op : Op) (txID : ID) (priv : PrivateKey) : M Remote unit :=
  (if op_pollTx op then let! _ := cli_PollTx fuel txID in ret tt else ret tt) ;;;
  if op_balance op then let! _ := cli_Balance (address_of priv) in ret tt else ret tt.

Definition deref {S A} (p : option A) : M S A :=
  match p with Some a => ret a | None => panics NilDereference end.

Definition SignIssueTx (fuel : nat) (input : option Input) (priv : PrivateKey) (opts : list (Op -> Op)) :
    M Remote (ID * Z) :=
  let op := applyOpts opts (mkOp false false) in
  let! f := cli_SuggestedFee input in
  let! td := deref f.1 in
  let! r := attempt (lift_outcome (DigestHash td)) in
  match r with
  | inl e => fail (Wrapf e "failed to compute digest hash")
  | inr dh =>
      let! sig := lift (Sign dh priv) in
      let! txID := cli_IssueTx (Some td) sig in
      handleConfirmation fuel op txID priv ;;;
      ret (txID, f.2)
  end.
End client.

Section raw.
Context `{Ethereum} `{!Secp} `{!Requester} `{!EthMath} `{!GoRuntime} `{!TxCodec}.

(** The price is left as it was where there is no fee. *)
Definition suggest_price (price blockCost fu : Z) (d : decoded) : outcome decoded :=
  if fu =? 0 then Ok d else SetPrice (price +u blockCost / fu) d.

Definition SignIssueRawTx (fuel : nat) (utx : decoded) (priv : PrivateKey) (opts : list (Op -> Op)) :
    M Remote (ID * Z) :=
  let op := applyOpts opts (mkOp false false) in
  let! g := cli_Genesis in
  let! la := cli_Accepted in
  let! f := cli_SuggestedRawFee in
  let! utx := lift_outcome (SetBlockID la utx) in
  let! g := deref g in
  let! utx := lift_outcome (SetMagic (Genesis_Magic g) utx) in
  let! fu := lift_outcome (FeeUnits (dec_tx utx) g) in
  let! utx := lift_outcome (suggest_price f.1 f.2 fu utx) in
  let! dh := lift_outcome (tx_DigestHash (dec_tx utx)) in
  let! sig := lift (Sign dh priv) in
  let! tx := lift_outcome (Init (NewTx (dec_tx utx) sig) g) in
  let! _ := lift_outcome (LoadUnits (tx_Unsigned tx) g) in
  let! txID := cli_IssueRawTx (tx_bytes tx) in
  handleConfirmation fuel op txID priv ;;;
  ret (txID, GetPrice (dec_tx utx) *u fu).
End raw.

(** ** The service at the other end *)
Section served.
Context `{Database} `{Cacher Address UserMeta} `{Cacher ID block_loc} `{Cacher bytes bytes} `{!Keystore}.
Context `{Ethereum} `{!EthMath} `{GoRuntime} `{ChainCodecs} `{TxCodec} `{BlockCodec}.
Context `{!Secp} `{!Codec (list Address)} `{SnowContext} `{Randomness}.

(** The handler that a method names. *)
Definition handler {R} (q : Request R) : M PublicService R :=
  match q in Request R return M PublicService R with
  | req_ping => svc_Ping
  | req_network => svc_Network
  | req_genesis => let! g := svc_Genesis in ret (Some g)
  | req_lastAccepted => svc_LastAccepted
  | req_suggestedRawFee => svc_SuggestedRawFee
  | req_issueRawTx d => svc_IssueRawTx d
  | req_hasTx txID => svc_HasTx txID
  | req_suggestedFee i => let! f := svc_SuggestedFee i in ret (Some f.1, f.2)
  | req_issueTx td sig => svc_IssueTx td sig
  | req_resolve key => svc_Resolve key
  | req_balance addr => svc_Balance addr
  | req_recentActivity => svc_RecentActivity
  | req_calcReward t e a => svc_CalcReward t a e
  | req_getUserFee t s e => svc_GetUserFee t s e
  | req_getStakerType a => svc_GetStakerType a
  | req_getChainCreateTime => svc_GetChainCreateTime
  | req_getNodes a c => svc_GetNodes a c
  | req_createShortID => svc_CreateShortID
  | req_importKey u p sk => svc_ImportKey u p sk
  | req_getLocalParams a => let! p := svc_GetLocalParams a in ret (Some p)
  end.
(** The server turns a panic of a handler into an error of the request. *)
Definition serve {R} (q : Request R) (s : PublicService) : PublicService * result R :=
  match handler q s with
  | (s', Ok r) => (s', inr r)
  | (s', Err e) => (s', inl e)
  | (s', Panic _) => (s', inl (ExtError "EOF"))
  end.

(** A node and a client whose context allows a number of pauses; [round] is what
    the chain does in a second. *)
Definition served_by (round : PublicService -> PublicService) : Requester := {|
  Remote := PublicService * nat;
  SendRequest R q w := let '(s, r) := serve q w.1 in ((s, w.2), r);
  ctx_Err w := match w.2 with O => Some (ExtError "context deadline exceeded") | S _ => None end;
  pause w := ((round w.1, pred w.2), true)
|}.
#[export] Program Instance served_deadline round : @Deadline _ _ (served_by round) := {| remaining w := w.2 |}.
Next Obligation. intros round R q [s n]. cbn. destruct (serve q s). cbn. lia. Qed.
Next Obligation. intros round [s [|n]]; cbn; [done|lia]. Qed.
Next Obligation. done. Qed.
End served.
