(* ===== verification/Tree.v ===== *)
(** * Files in chunks: tree/tree.go

    A file is stored as a root, which has the contents of a small file or the
    hashes of the chunks of a large one.  The reader and the writer are
    interfaces of package io, the JSON form of a root that of encoding/json;
    [pf] bounds the polling of the client. *)

From S2P Require Import Prelude External GoStd TData Keys Storage Genesis Tx TypedTx Keystore Service Client.

(** [Read] is given the buffer and leaves its contents, the number of bytes read
    and the error. *)
Class Reader := { Rd : Type; Read : Rd -> bytes -> Rd * (bytes * nat * option error) }.
Class Writer := { Wr : Type; Write : Wr -> bytes -> Wr * result unit }.

Record Root := mkRoot { Contents : bytes; Children : list Hash }.
Class RootJSON := { json_root :: Codec Root }.
Class RootJSONLaws `{RootJSON} : Prop := { json_root_laws :: CodecLaws Root }.

Section tree.
Context `{Ethereum} `{!Secp} `{!Requester} `{!EthMath} `{!GoRuntime} `{!TxCodec}.
Context `{Reader} `{Writer} `{RootJSON}.

Definition set_tx (value : bytes) : decoded := mkDecoded (USet (mkSetTx zeroBaseTx value)) true.
Definition store (pf : nat) (priv : PrivateKey) (value : bytes) : M Remote (ID * Z) :=
  SignIssueRawTx pf (set_tx value) priv [WithPollTx].

(** A chunk that is not known yet is issued; the hashes that are. *)
Definition upload_chunk (pf : nat) (priv : PrivateKey) (chunk : bytes) (uploaded : gset Hash) :
    M Remote (gset Hash) :=
  let k := ValueHash chunk in
  if decide (k ∈ uploaded) then ret uploaded
  else
    let! r := attempt (cli_Resolve k) in
    match r with
    | inr (true, _, _) => ret ({[k]} ∪ uploaded)
    | _ => let! _ := store pf priv chunk in ret ({[k]} ∪ uploaded)
    end.

(** The loop of [Upload]: the hashes of the chunks, and what is left in the
    buffer. *)
Fixpoint upload_loop (fuel pf : nat) (priv : PrivateKey) (chunkSize : nat) (hashes : list Hash)
    (chunk : bytes) (uploaded : gset Hash) : M (Remote * Rd) (list Hash * bytes) :=
  match fuel with
  | O => panics OutOfFuel
  | S fuel' =>
      let! x := zoom (fun f : Rd => let '(f', x) := Read f chunk in (f', Ok x)) in
      let '(chunk, read, err) := x in
      if match err with Some e => errors_is e EOF | None => false end || (read =? 0)%nat
      then ret (hashes, chunk)
      else
        match err with
        | Some e => fail (Wrapf e "read error")
        | None =>
            let shouldExit := (read <? chunkSize)%nat in
            let chunk := if shouldExit then take read chunk else chunk in
            if shouldExit && bool_decide (hashes = []) then ret (hashes, chunk)
            else
              let! uploaded := zoom (upload_chunk pf priv chunk uploaded) in
              let hashes := hashes ++ [ValueHash chunk] in
              if shouldExit then ret (hashes, chunk)
              else upload_loop fuel' pf priv chunkSize hashes chunk uploaded
        end
  end.

Definition Upload (fuel pf : nat) (priv : PrivateKey) (chunkSize : Z) : M (Remote * Rd) Hash :=
  if chunkSize <? 0 then panics MakeSliceOutOfRange
  else
    let n := Z.to_nat chunkSize in
    let! x := upload_loop fuel pf priv n [] (replicate n x00) ∅ in
    let '(hashes, chunk) := x in
    let! r := (if bool_decide (hashes = []) then
                 (if bool_decide (chunk = []) then fail ErrEmpty else ret (mkRoot chunk []))
               else ret (mkRoot [] hashes)) in
    let! rb := lift (Marshal r) in
    let! _ := zoom (store pf priv rb) in
    ret (ValueHash rb).

Definition write (b : bytes) : M (Remote * Wr) unit :=
  zoom (fun f : Wr => let '(f', r) := Write f b in (f', of_result r)).
Definition resolve_part (h : Hash) : M (Remote * Wr) bytes :=
  let! x := zoom (cli_Resolve h) in
  let '(exists_, b, _) := x in
  check (negb exists_) (Wrapf ErrMissing "%v") ;;;
  ret b.
Definition Download (root : Hash) : M (Remote * Wr) unit :=
  let! rb := resolve_part root in
  let! r := lift (Unmarshal rb) in
  if negb (bool_decide (Contents r = [])) then write (Contents r)
  else
    check (bool_decide (Children r = [])) ErrEmpty ;;;
    for_each (fun h => let! b := resolve_part h in write b) (Children r).
End tree.
