(* ===== verification/Cli.v ===== *)
(** * The command line: cmd/sama-cli

    A command is a program over the user's machine and a node.  The machine (its
    files, its clock and its source of random keys) is a class, as is the text
    form of keys and hashes; what a command prints is its value, as far as the
    user needs it for another command.  Parsing of flags is third-party code. *)

From Stdlib Require Import Ascii.
From S2P Require Import Prelude External GoStd TData Builder Keys Storage Genesis.
From S2P Require Import Stakers Pows Rewards Actions Users Details SysParams SamaState.
From S2P Require Import Tx TypedTx Activity Keystore Block Mempool VM Config Service Client Tree.

(** [os], [time.Now] and the key files of go-ethereum's [crypto].  A file that is
    written is given back under its path when it is closed: nothing else looks
    at it in between. *)
Class Machine `{Secp} `{Reader} `{Writer} := {
  Mach : Type;
  Stat : Mach -> string -> option error;
  Open : Mach -> string -> result Rd;
  Create : Mach -> string -> Mach * result Wr;
  Close : Mach -> string -> Wr -> Mach;
  ReadFile : Mach -> string -> result bytes;
  WriteFile : Mach -> string -> bytes -> Mach * result unit;
  LoadECDSA : Mach -> string -> result PrivateKey;
  SaveECDSA : Mach -> string -> PrivateKey -> Mach * result unit;
  GenerateKey : Mach -> Mach * result PrivateKey;
  Now : Mach -> Mach * Z
}.
Class KeyText `{Secp} := {
  HexToHash : string -> Hash;
  HexToECDSA : string -> result PrivateKey;
  FromECDSA : PrivateKey -> bytes;
  FromECDSAPub : PublicKey -> bytes
}.

(** The persistent flags of root.go and genesis.go. *)
Record Flags := mkFlags {
  privateKeyFile : string;
  verbose : bool;
  genesisFile : string;
  minPrice : Z;
  airdropHash : string;
  airdropUnits : Z
}.
Inductive Output :=
  | Done
  | ShowRoot (root : Hash)
  | ShowValue (key : Hash) (value : bytes) (meta : option ValueMeta)
  | ShowNetwork (networkID : Z) (subnetID chainID : ID)
  | ShowActivity (activity : list Activity).

Section cli.
Context `{Ethereum} `{!Secp} `{!Requester} `{!EthMath} `{!GoRuntime} `{!TxCodec}.
Context `{Reader} `{Writer} `{RootJSON} `{!Machine} `{!KeyText} `{NodeJSON}.
(** The fuel of an upload and of the polling. *)
Context (uf pf : nat) (fl : Flags).

Definition of_machine {A} (f : Mach -> result A) : M (Mach * Remote) A :=
  fun s => (s, of_result (f s.1)).
Definition at_machine {A} (f : Mach -> Mach * result A) : M (Mach * Remote) A :=
  fun s => let '(m, r) := f s.1 in ((m, s.2), of_result r).
(** [uint64(time.Now().Unix())]. *)
Definition seconds : M (Mach * Remote) Z := at_machine (fun m => let '(m, t) := Now m in (m, inr (u64 (Unix t)))).
Definition load_key : M (Mach * Remote) PrivateKey := of_machine (fun m => LoadECDSA m (privateKeyFile fl)).
Definition ask {A} (m : M Remote A) : M (Mach * Remote) A := zoom m.

(** The end of every command that sends a transaction. *)
Definition issue (utx : UnsignedTransaction) (priv : PrivateKey) : M (Mach * Remote) Output :=
  let opts := [WithPollTx] ++ (if verbose fl then [WithBalance] else []) in
  let! _ := ask (SignIssueRawTx pf (mkDecoded utx true) priv opts) in
  ret Done.

(** ** Arguments *)

Definition getSetOp (args : list string) : result bytes :=
  match args with
  | [value] => inr (String.list_byte_of_string value)
  | _ => inl (Errorf "expected exactly 1 argument, got %d")
  end.
Definition getTransferOp (args : list string) : result (Address * Z) :=
  match args with
  | [to; units] =>
      match ParseUint units with
      | inl e => inl (Wrapf e "failed to parse units")
      | inr units => inr (HexToAddress to, units)
      end
  | _ => inl (Errorf "expected exactly 2 arguments, got %d")
  end.
(** The error of the first number is dropped. *)
Definition getStakeOp (args : list string) : result (Z * Z * Address) :=
  match args with
  | [stakerType; stakeAmount; stakerAddr] =>
      match ParseUint stakeAmount with
      | inl e => inl (Wrapf e "failed to parse stakeAount")
      | inr n => inr (ParseUint_value stakerType, n, HexToAddress stakerAddr)
      end
  | _ => inl (Errorf "expected exactly 3 argument, got %d")
  end.
Definition getUnStakeOp (args : list string) : result (Z * Address) :=
  match args with
  | [stakerType; sender] =>
      match ParseUint stakerType with
      | inl e => inl (Wrapf e "failed to parse stakerType")
      | inr t => inr (t, HexToAddress sender)
      end
  | _ => inl (Errorf "expected exactly 2 argument, got %d")
  end.
Definition getRegisterOp (args : list string) : result (Z * Address * Address) :=
  let parsed stakerType stakeAddress workAddress :=
    match ParseUint stakerType with
    | inl e => inl (Wrapf e "failed to parse stakerType")
    | inr t => inr (t, stakeAddress, HexToAddress workAddress)
    end in
  match args with
  | [stakerType; workAddress] => parsed stakerType zeroAddress workAddress
  | [stakerType; workAddress; stakeAddress] => parsed stakerType (HexToAddress stakeAddress) workAddress
  | _ => inl (Errorf "expected exactly 2-3argument, got %d")
  end.
(** An id that is not well formed is the empty id. *)
Definition lenient_id (s : string) : ShortID :=
  match ShortID_FromString s with inr id => id | inl _ => sized_of 20 [] end.
Definition getVoteOp (args : list string) : result ShortID :=
  match args with
  | [id] => inr (lenient_id id)
  | _ => inl (Errorf "expected exactly 1 argument, got %d")
  end.
Definition getGovernOp (args : list string) : result ShortID :=
  match args with
  | [id] => inr (lenient_id id)
  | _ => inl (Errorf "expected exactly 1 argument, got %d")
  end.
Definition getAddUserOp (args : list string) : M (Mach * Remote) (Z * Z * Z * Address) :=
  match args with
  | [address; userType] =>
      match ParseUint userType with
      | inl e => fail (Wrapf e "failed to parse userType")
      | inr t =>
          let! startTime := seconds in
          ret (t, startTime, startTime +u SecondsMonth, HexToAddress address)
      end
  | _ => fail (Errorf "expected exactly 2 argument, got %d")
  end.
Definition getProofOp (args : list string) : result (Z * Z * Z) :=
  match args with
  | [netflow; startTime; endTime] =>
      match ParseUint netflow with
      | inl e => inl (Wrapf e "failed to parse netflow")
      | inr n =>
          match ParseUint startTime with
          | inl e => inl (Wrapf e "failed to parse startTime")
          | inr s =>
              match ParseUint endTime with
              | inl e => inl (Wrapf e "failed to parse endTime")
              | inr t => inr (n, s, t)
              end
          end
      end
  | _ => inl (Errorf "expected exactly 3 argument, got %d")
  end.
Definition getProposalOp (args : list string) : result (Z * string * string) :=
  match args with
  | [actionType; key; newValue] =>
      match ParseUint actionType with
      | inl e => inl (Wrapf e "failed to parse actionType")
      | inr t => inr (t, key, newValue)
      end
  | _ => inl (Errorf "expected exactly 3 argument, got %d")
  end.
Definition getRefreshOp (args : list string) : result (string * string) :=
  match args with
  | [key; value] => inr (key, value)
  | _ => inl (Errorf "expected exactly 2 argument, got %d")
  end.
(** Without arguments the default user is not used. *)
Definition getConfigOp (args : list string) : result (string * string * string) :=
  match args with
  | [] => inr (""%string, ""%string, ""%string)
  | [privateKey] => inr (privateKey, "samawork"%string, "sama64854331"%string)
  | [userName; userPass] => inr (""%string, userName, userPass)
  | [privateKey; userName; userPass] => inr (privateKey, userName, userPass)
  | _ => inl (Errorf "expected exactly 0 1 2 3 argument, got %d")
  end.

(** ** Commands that send a transaction *)

Definition setFunc (args : list string) : M (Mach * Remote) Output :=
  let! priv := load_key in
  let! val := lift (getSetOp args) in
  issue (USet (mkSetTx zeroBaseTx val)) priv.
Definition transferFunc (args : list string) : M (Mach * Remote) Output :=
  let! priv := load_key in
  let! x := lift (getTransferOp args) in
  let '(to, units) := x in
  issue (UTransfer (mkTransferTx zeroBaseTx to units)) priv.
Definition stakeFunc (args : list string) : M (Mach * Remote) Output :=
  let! priv := load_key in
  let! x := lift (getStakeOp args) in
  let '(stakerType, stakeAmount, stakerAddr) := x in
  issue (UStake (mkStakeTx zeroBaseTx stakerType stakeAmount stakerAddr)) priv.
Definition unStakeFunc (args : list string) : M (Mach * Remote) Output :=
  let! priv := load_key in
  let! x := lift (getUnStakeOp args) in
  let '(stakerType, address) := x in
  let! endTime := seconds in
  let! r := ask (cli_CalcReward stakerType endTime address) in
  let '(base, merit, yield) := r in
  let rewardAmount := base +u merit +u yield in
  issue (UUnStake (mkUnStakeTx zeroBaseTx rewardAmount stakerType endTime)) priv.
(** The second look at the clock is for what is printed. *)
Definition claimFunc (args : list string) : M (Mach * Remote) Output :=
  let! priv := load_key in
  let address := address_of priv in
  let! stakerType := ask (cli_GetStakerType address) in
  let! createTime := ask cli_GetChainCreateTime in
  let! now := seconds in
  let endTime := (now -u createTime) / SecondsDay *u SecondsDay +u createTime in
  let! _ := seconds in
  let! r := ask (cli_CalcReward stakerType endTime address) in
  let '(base, merit, yield) := r in
  let rewardAmount := base +u merit +u yield in
  issue (UClaim (mkClaimTx zeroBaseTx rewardAmount endTime)) priv.
Definition registerFunc (args : list string) : M (Mach * Remote) Output :=
  let! priv := load_key in
  let! x := lift (getRegisterOp args) in
  let '(stakerType, stakerAddr, workAddr) := x in
  let! actionID := ask cli_CreateShortID in
  let! r := attempt (ask (cli_GetLocalParams workAddr)) in
  match r with
  | inl e => fail (Wrapf e "need start work module")
  | inr params =>
      let stakerAddr := if decide (stakerAddr = zeroAddress) then address_of priv else stakerAddr in
      let! p := deref params in
      issue (URegister (mkRegisterTx zeroBaseTx actionID stakerType (lp_Country p) (lp_LocalIP p)
        (lp_PublicIP p) (lp_MinPort p) (lp_MaxPort p) (lp_CheckPort p) (lp_WorkKey p) stakerAddr)) priv
  end.
Definition voteFunc (args : list string) : M (Mach * Remote) Output :=
  let! priv := load_key in
  let! actionID := lift (getVoteOp args) in
  issue (UVote (mkVoteTx zeroBaseTx actionID)) priv.
Definition governFunc (args : list string) : M (Mach * Remote) Output :=
  let! priv := load_key in
  let! actionID := lift (getGovernOp args) in
  issue (UGovern (mkGovernTx zeroBaseTx actionID)) priv.
(** [Connections] is left at zero. *)
Definition addUserFunc (args : list string) : M (Mach * Remote) Output :=
  let! priv := load_key in
  let! x := getAddUserOp args in
  let '(userType, startTime, endTime, address) := x in
  let! payAmount := ask (cli_GetUserFee userType startTime endTime) in
  issue (UAddUser (mkAddUserTx zeroBaseTx startTime endTime payAmount 0 userType address)) priv.
Definition proofFunc (args : list string) : M (Mach * Remote) Output :=
  let! priv := load_key in
  let! x := lift (getProofOp args) in
  let '(netflow, startTime, endTime) := x in
  issue (UProof (mkProofTx zeroBaseTx netflow startTime endTime zeroAddress)) priv.
Definition proposalFunc (args : list string) : M (Mach * Remote) Output :=
  let! priv := load_key in
  let! x := lift (getProposalOp args) in
  let '(actionType, key, newValue) := x in
  let! actionID := ask cli_CreateShortID in
  let! startTime := seconds in
  let endTime := startTime +u Seconds7Day in
  issue (UProposal (mkProposalTx zeroBaseTx actionID startTime endTime actionType key newValue)) priv.

(** The parameters of a node as they are, and with one of them replaced. *)
Definition refresh_of (n : APINode) : RefreshTx :=
  mkRefreshTx zeroBaseTx (an_Country n) (an_LocalIP n) (an_PublicIP n) (an_MinPort n) (an_MaxPort n)
    (an_CheckPort n) (an_WorkKey n).
Definition refresh_param (key value : string) (t : RefreshTx) : result RefreshTx :=
  let '(mkRefreshTx b country localIP publicIP minPort maxPort checkPort workKey) := t in
  if String.eqb key "localIP" then
    inr (mkRefreshTx b country value publicIP minPort maxPort checkPort workKey)
  else if String.eqb key "minPort" then
    match ParseUint value with
    | inl e => inl (Wrapf e "failed to parse minPort")
    | inr n => inr (mkRefreshTx b country localIP publicIP n maxPort checkPort workKey)
    end
  else if String.eqb key "maxPort" then
    match ParseUint value with
    | inl e => inl (Wrapf e "failed to parse maxPort")
    | inr n => inr (mkRefreshTx b country localIP publicIP minPort n checkPort workKey)
    end
  else if String.eqb key "publicIP" then
    inr (mkRefreshTx b country localIP value minPort maxPort checkPort workKey)
  else if String.eqb key "checkPort" then
    match ParseUint value with
    | inl e => inl (Wrapf e "failed to parse checkPort")
    | inr n => inr (mkRefreshTx b country localIP publicIP minPort maxPort n workKey)
    end
  else if String.eqb key "country" then
    inr (mkRefreshTx b value localIP publicIP minPort maxPort checkPort workKey)
  else inl (Errorf "err key %s").
Definition refreshFunc (args : list string) : M (Mach * Remote) Output :=
  let! priv := load_key in
  let! node := ask (cli_GetNodes (address_of priv)) in
  let! x := lift (getRefreshOp args) in
  let '(key, value) := x in
  let! utx := lift (refresh_param key value (refresh_of node)) in
  issue (URefresh utx) priv.

(** ** Files and values *)

(** A file is closed however the command ends. *)
Definition reading {A} (f : Rd) (body : M (Remote * Rd) A) : M (Mach * Remote) A :=
  fun s => let '((w, _), r) := body (s.2, f) in ((s.1, w), r).
Definition writing {A} (path : string) (f : Wr) (body : M (Remote * Wr) A) : M (Mach * Remote) A :=
  fun s => let '((w, f'), r) := body (s.2, f) in ((Close s.1 path f', w), r).

Definition getSetFileOp (args : list string) : M (Mach * Remote) Rd :=
  match args with
  | [filePath] =>
      let! st := gets (fun s => Stat s.1 filePath) in
      match st with
      | Some e => fail (Wrapf e "file is not accessible")
      | None =>
          let! f := attempt (of_machine (fun m => Open m filePath)) in
          match f with
          | inl e => fail (Wrapf e "failed to open file")
          | inr f => ret f
          end
      end
  | _ => fail (Errorf "expected exactly 1 arguments, got %d")
  end.
(** The size of a chunk is an [int]. *)
Definition setFileFunc (args : list string) : M (Mach * Remote) Output :=
  let! priv := load_key in
  let! f := getSetFileOp args in
  reading f (
    let! g := zoom cli_Genesis in
    let! g := deref g in
    let! root := Upload uf pf priv (i64 (Genesis_MaxValueSize g)) in
    ret (ShowRoot root)).
Definition resolveFileFunc (args : list string) : M (Mach * Remote) Output :=
  match args with
  | [root; filePath] =>
      let! st := gets (fun s => Stat s.1 filePath) in
      check (negb (match st with Some e => errors_is e ErrNotExist | None => false end))
        (Errorf "file %s already exists") ;;;
      let! f := attempt (at_machine (fun m => Create m filePath)) in
      match f with
      | inl _ => fail (Errorf "failed to create file %s")
      | inr f =>
          let root := HexToHash root in
          writing filePath f (Download root) ;;;
          ret (ShowRoot root)
      end
  | _ => fail (Errorf "expected exactly 2 argument, got %d")
  end.
Definition resolveFunc (args : list string) : M (Mach * Remote) Output :=
  match args with
  | [key] =>
      let k := HexToHash key in
      let! x := ask (cli_Resolve k) in
      let '(_, v, vmeta) := x in
      ret (ShowValue k v vmeta)
  | _ => fail (Errorf "expected exactly 1 argument, got %d")
  end.
Definition activityFunc (args : list string) : M (Mach * Remote) Output :=
  check (negb (bool_decide (args = []))) (Errorf "expected exactly 0 arguments, got %d") ;;;
  let! activity := ask cli_RecentActivity in
  ret (ShowActivity activity).
Definition networkFunc (args : list string) : M (Mach * Remote) Output :=
  check (negb (bool_decide (args = []))) (Errorf "expected exactly 0 arguments, got %d") ;;;
  let! x := ask cli_Network in
  let '(networkID, subnetID, chainID) := x in
  ret (ShowNetwork networkID subnetID chainID).

(** ** Keys, users and the genesis *)

(** A command that makes a file refuses when it is there; the key in it is only
    loaded to be named. *)
Definition refuse_existing (filePath : string) : M (Mach * Remote) unit :=
  let! st := gets (fun s => Stat s.1 filePath) in
  match st with
  | None =>
      let! _ := of_machine (fun m => LoadECDSA m filePath) in
      fail ErrExist
  | Some e => check (negb (errors_is e ErrNotExist)) e
  end.
Definition createFunc (args : list string) : M (Mach * Remote) Output :=
  refuse_existing (privateKeyFile fl) ;;;
  let! priv := at_machine GenerateKey in
  at_machine (fun m => SaveECDSA m (privateKeyFile fl) priv) ;;;
  ret Done.

Definition newline : string := String (ascii_of_nat 10) EmptyString.
Definition config_text (userName userPass privateKey : string) (priv : PrivateKey) : string :=
  (("username:" ++ userName) ++ (newline ++ "password:") ++ userPass ++ (newline ++ "privateKey:") ++
   privateKey ++ (newline ++ "publicKey:") ++ hex_EncodeToString (FromECDSAPub (sk_PublicKey priv)) ++
   (newline ++ "address:") ++ Address_Hex (address_of priv) ++ newline)%string.
(** The key is imported as the text that is left in [privateKey]: the hex digits
    of a key that is made here, the bytes of one that is given. *)
Definition configFunc (args : list string) : M (Mach * Remote) Output :=
  let filePath := "./sama-work-pk"%string in
  let! x := lift (getConfigOp args) in
  let '(privateKey, userName, userPass) := x in
  refuse_existing filePath ;;;
  let! k := (if String.eqb privateKey "" then
      let! priv := at_machine GenerateKey in
      at_machine (fun m => SaveECDSA m "work_pk" priv) ;;;
      let privateKey := hex_EncodeToString (FromECDSA priv) in
      ret (priv, privateKey, privateKey)
    else
      let! priv := lift (HexToECDSA privateKey) in
      at_machine (fun m => SaveECDSA m "work_pk" priv) ;;;
      ret (priv, privateKey, String.string_of_list_byte (FromECDSA priv))) in
  let '(priv, written, privateKey) := k in
  let text := config_text userName userPass written priv in
  at_machine (fun m => WriteFile m filePath (String.list_byte_of_string text)) ;;;
  ask (cli_ImportKey userName userPass privateKey) ;;;
  ret Done.

(** [PreRunE] of the genesis command. *)
Definition genesis_magic (args : list string) : result Z :=
  match args with
  | [magic; _] =>
      match ParseUint magic with
      | inl e => inl e
      | inr m => if m =? 0 then inl ErrInvalidMagic else inr m
      end
  | _ => inl (Errorf "invalid args")
  end.
Definition genesis_with (magic price units : Z) (hash : string) (allocs : list CustomAllocation) (g : Genesis) :
    Genesis := {|
  Genesis_Magic := magic;
  Genesis_BaseTxUnits := Genesis_BaseTxUnits g;
  Genesis_ValueUnitSize := Genesis_ValueUnitSize g;
  Genesis_MaxValueSize := Genesis_MaxValueSize g;
  Genesis_MinPrice := price;
  Genesis_LookbackWindow := Genesis_LookbackWindow g;
  Genesis_TargetBlockRate := Genesis_TargetBlockRate g;
  Genesis_TargetBlockSize := Genesis_TargetBlockSize g;
  Genesis_MaxBlockSize := Genesis_MaxBlockSize g;
  Genesis_BlockCostEnabled := Genesis_BlockCostEnabled g;
  Genesis_CustomAllocation := allocs;
  Genesis_AirdropHash := hash;
  Genesis_AirdropUnits := units;
  Genesis_TotalTokens := Genesis_TotalTokens g;
  Genesis_ClaimMinUnits := Genesis_ClaimMinUnits g;
  Genesis_ClaimMinInterval := Genesis_ClaimMinInterval g;
  Genesis_TotalYears := Genesis_TotalYears g;
  Genesis_RateSustainYears := Genesis_RateSustainYears g;
  Genesis_ChainCreateTime := Genesis_ChainCreateTime g;
  Genesis_MinerPerc := Genesis_MinerPerc g;
  Genesis_FoundationPerc := Genesis_FoundationPerc g;
  Genesis_RoutePerc := Genesis_RoutePerc g;
  Genesis_SerPerc := Genesis_SerPerc g;
  Genesis_ValidatorPerc := Genesis_ValidatorPerc g;
  Genesis_BaseSerPerc := Genesis_BaseSerPerc g;
  Genesis_MeritSerPerc := Genesis_MeritSerPerc g;
  Genesis_BaseRoutePerc := Genesis_BaseRoutePerc g;
  Genesis_MeritRoutePerc := Genesis_MeritRoutePerc g;
  Genesis_BurnPerc := Genesis_BurnPerc g;
  Genesis_RouteStake := Genesis_RouteStake g;
  Genesis_SerStake := Genesis_SerStake g;
  Genesis_MonthCard := Genesis_MonthCard g;
  Genesis_SeasonCard := Genesis_SeasonCard g;
  Genesis_AnnualCard := Genesis_AnnualCard g;
  Genesis_MinStakeTime := Genesis_MinStakeTime g;
  Genesis_RootAddress := Genesis_RootAddress g;
  Genesis_FoundationAddr := Genesis_FoundationAddr g
|}.
Definition genesisFunc (args : list string) : M (Mach * Remote) Output :=
  let! magic := lift (genesis_magic args) in
  let g := DefaultGenesis in
  let price := if 0 <=? minPrice fl then u64 (minPrice fl) else Genesis_MinPrice g in
  let airdrop := (0 <? String.length (airdropHash fl))%nat in
  check (airdrop && (airdropUnits fl =? 0)) (Errorf "non-zero airdrop units required") ;;;
  let hash := if airdrop then airdropHash fl else Genesis_AirdropHash g in
  let units := if airdrop then airdropUnits fl else Genesis_AirdropUnits g in
  let! a := of_machine (fun m => ReadFile m (nth 1 args EmptyString)) in
  let! allocs := lift (allocations_Unmarshal a) in
  let! b := lift (genesis_Marshal (genesis_with magic price units hash allocs g)) in
  at_machine (fun m => WriteFile m (genesisFile fl) b) ;;;
  ret Done.

(** ** root.go *)

Inductive Command :=
  | createCmd | genesisCmd | setCmd | resolveCmd | activityCmd | transferCmd | setFileCmd | resolveFileCmd
  | networkCmd | stakeCmd | unStakeCmd | registerCmd | voteCmd | addUserCmd | claimCmd | proofCmd
  | refreshCmd | proposalCmd | governCmd | configCmd.
Definition RunE (c : Command) : list string -> M (Mach * Remote) Output :=
  match c with
  | createCmd => createFunc | genesisCmd => genesisFunc | setCmd => setFunc | resolveCmd => resolveFunc
  | activityCmd => activityFunc | transferCmd => transferFunc | setFileCmd => setFileFunc
  | resolveFileCmd => resolveFileFunc | networkCmd => networkFunc | stakeCmd => stakeFunc
  | unStakeCmd => unStakeFunc | registerCmd => registerFunc | voteCmd => voteFunc
  | addUserCmd => addUserFunc | claimCmd => claimFunc | proofCmd => proofFunc | refreshCmd => refreshFunc
  | proposalCmd => proposalFunc | governCmd => governFunc | configCmd => configFunc
  end.
End cli.
