(* ===== verification/Lookback.v ===== *)
(** * Walking the chain of blocks

    [GetStatelessBlock] and [lookback] as functions of the blocks the node can
    find, with what they change in the VM: they fill in block objects and touch
    the cache, and nothing else. *)

From S2P Require Import Prelude External GoStd TData Builder Keys Storage Genesis.
From S2P Require Import SamaState Users Tx TypedTx Activity Block Mempool VM.

Section lookback_facts.
Context `{Database} `{Cacher Address UserMeta} `{CacherLaws ID block_loc}.
Context `{Ethereum} `{EthMath} `{GoRuntime} `{ChainCodecs} `{TxCodec} `{BlockCodec}.
Implicit Types (v : VM) (b : StatelessBlock) (l : block_loc) (g : Genesis).

(** ** The blocks a node can find *)

Definition object v l : outcome StatelessBlock :=
  match vm_objects v !! l with Some b => Ok b | None => Panic NilDereference end.
Definition find_block v (id : ID) : outcome StatelessBlock :=
  match cached (vm_blocks v) id with
  | Some l => object v l
  | None =>
      match vm_verifiedBlocks v !! id with
      | Some l => object v l
      | None =>
          try! blk := (GetBlock id (vm_db v)).2 in
          ParseStatefulBlock blk [] Accepted (vm_genesis v)
      end
  end.

(** Locations are handed out in order, and the maps hold allocated ones. *)
Record vm_wf v : Prop := {
  wf_next l : (vm_next v <= l)%positive -> vm_objects v !! l = None;
  wf_cached id l : cached (vm_blocks v) id = Some l -> is_Some (vm_objects v !! l);
  wf_verified id l : vm_verifiedBlocks v !! id = Some l -> is_Some (vm_objects v !! l)
}.

(** [v'] is [v] with more block objects and a used cache. *)
Record reads v v' : Prop := {
  rd_db : vm_db v' = vm_db v;
  rd_size : vm_ActivityCacheSize v' = vm_ActivityCacheSize v;
  rd_genesis : vm_genesis v' = vm_genesis v;
  rd_mempool : vm_mempool v' = vm_mempool v;
  rd_blocks id : cached (vm_blocks v') id = cached (vm_blocks v) id;
  rd_verified : vm_verifiedBlocks v' = vm_verifiedBlocks v;
  rd_builder : vm_builder v' = vm_builder v;
  rd_preferred : vm_preferred v' = vm_preferred v;
  rd_lastAccepted : vm_lastAccepted v' = vm_lastAccepted v;
  rd_cursor : vm_activityCacheCursor v' = vm_activityCacheCursor v;
  rd_activity : vm_activityCache v' = vm_activityCache v;
  rd_target : vm_targetRangeUnits v' = vm_targetRangeUnits v;
  rd_sama : vm_samaState v' = vm_samaState v;
  rd_objects : vm_objects v ⊆ vm_objects v';
  rd_tick : vm_tick v' = vm_tick v
}.
#[export] Instance reads_preorder : PreOrder reads.
Proof.
  split.
  - intros v. by split.
  - intros v1 v2 v3 [] []. split; try congruence. by etrans.
Qed.

Lemma find_block_reads v v' id : vm_wf v -> reads v v' -> find_block v' id = find_block v id.
Proof.
  intros Hwf Hr. unfold find_block. rewrite (rd_blocks _ _ Hr), (rd_verified _ _ Hr).
  assert (forall l, is_Some (vm_objects v !! l) -> object v' l = object v l) as Hobj.
  { intros l [b Hb]. unfold object. by rewrite Hb, (lookup_weaken _ _ _ _ Hb (rd_objects _ _ Hr)). }
  destruct (cached (vm_blocks v) id) as [l|] eqn:Hc; [by eapply Hobj, wf_cached|].
  destruct (vm_verifiedBlocks v !! id) as [l|] eqn:Hv; [by eapply Hobj, wf_verified|].
  by rewrite (rd_db _ _ Hr), (rd_genesis _ _ Hr).
Qed.

(** A run and what it is expected to give. *)
Definition agree {A B} (R : A -> B -> Prop) (run : outcome A) (expected : outcome B) : Prop :=
  match run, expected with
  | Ok a, Ok b => R a b
  | Err e, Err e' => e = e'
  | Panic p, Panic p' => p = p'
  | _, _ => False
  end.
Definition looks {A B} (R : VM -> A -> B -> Prop) v (run : VM * outcome A) (expected : outcome B) : Prop :=
  vm_wf run.1 /\ reads v run.1 /\ agree (R run.1) run.2 expected.

Definition read_only {S A} (m : M S A) : Prop := forall s, (m s).1 = s.
Lemma read_only_bind {S A B} (m : M S A) (f : A -> M S B) :
  read_only m -> (forall a, read_only (f a)) -> read_only (bind m f).
Proof.
  intros Hm Hf s. unfold bind. pose proof (Hm s) as Hs. destruct (m s) as [s' [a|e|p]]; cbn in *; subst;
    [apply Hf|done|done].
Qed.
Lemma GetBlock_read_only id : read_only (GetBlock id).
Proof.
  unfold GetBlock, restoreValues. repeat (apply read_only_bind; [done|intros ?]).
  apply read_only_bind; [|done]. generalize (Txs (of_wire a0)). intros l.
  induction l as [|tx l IH]; [done|]. cbn [restore_loop].
  apply read_only_bind; [|intros ?; by apply read_only_bind].
  destruct (tx_Unsigned tx); try done. case_bool_decide; [done|].
  by repeat (apply read_only_bind; [done|intros ?]).
Qed.

Lemma put_db_same v : put_db (vm_db v) v = v.
Proof. by destruct v. Qed.

Definition points_to v l b : Prop := vm_objects v !! l = Some b.
Lemma GetStatelessBlock_run v id :
  vm_wf v -> looks points_to v (GetStatelessBlock id v) (find_block v id).
Proof.
  intros Hwf. unfold GetStatelessBlock, find_block, bind at 1.
  pose proof (fun k => cached_Get (vm_blocks v) id k) as Hget. unfold cached in Hget |- *.
  destruct (cache_Get (vm_blocks v) id) as [c hit] eqn:Hc. cbn [fst snd] in *.
  set (v1 := put_blocks c (vm_verifiedBlocks v) v).
  assert (reads v v1) as Hr1 by (split; try done; intros k; apply Hget).
  assert (vm_wf v1) as Hwf1.
  { destruct Hwf as [Hn Hca Hve]. split; [apply Hn| |apply Hve]. intros k l. unfold cached, v1. cbn.
    rewrite Hget. apply Hca. }
  assert (forall l, is_Some (vm_objects v !! l) -> looks points_to v (v1, Ok l) (object v l)) as Hfound.
  { intros l [b Hb]. split; [done|split; [done|]]. unfold object. by rewrite Hb. }
  destruct hit as [l|]; [apply Hfound, (wf_cached _ Hwf id); unfold cached; by rewrite Hc|].
  unfold gets, bind at 1. change (vm_verifiedBlocks v1) with (vm_verifiedBlocks v).
  destruct (vm_verifiedBlocks v !! id) as [l|] eqn:Hv; [by eapply Hfound, wf_verified|].
  unfold zoom, bind at 1. cbn [view lens_vm_db]. change (vm_db v1) with (vm_db v).
  pose proof (GetBlock_read_only id (vm_db v)) as Hdb.
  destruct (GetBlock id (vm_db v)) as [db r]. cbn [fst snd over lens_vm_db] in *. subst db.
  change (vm_db v) with (vm_db v1) at 1. rewrite put_db_same.
  destruct r as [blk|e|p]; [|done..]. unfold bind at 1, lift_outcome, obind.
  change (vm_genesis v1) with (vm_genesis v).
  destruct (ParseStatefulBlock _ _ _ _) as [b|e|p]; [|done..].
  unfold new_block. cbn [fst snd]. change (vm_objects v1) with (vm_objects v).
  change (vm_next v1) with (vm_next v). destruct Hwf as [Hn Hca Hve].
  assert (vm_objects v !! vm_next v = None) as Hfresh by (apply Hn; lia).
  split; [|split]; cbn [fst snd].
  - split; cbn.
    + intros l Hl. rewrite lookup_insert_ne by lia. apply Hn. lia.
    + intros k l Hk. apply lookup_insert_is_Some'. right. apply (wf_cached _ Hwf1 k l Hk).
    + intros k l Hk. apply lookup_insert_is_Some'. right. apply (Hve k l Hk).
  - etrans; [exact Hr1|]. split; try done. cbn. by apply insert_subseteq.
  - cbn. unfold points_to. cbn. apply lookup_insert_eq.
Qed.

(** ** The loop *)

Section loop.
Context {A : Type} (f : StatelessBlock -> A -> outcome (bool * A)).
Variables (g : Genesis) (currTime : Z) (lastID : ID).

Definition in_window b : bool :=
  (i64 (currTime - blk_Tmstmp (sb_block b)) <=? Genesis_LookbackWindow g) ||
  bool_decide (sb_id b = lastID).

(** The same loop on the blocks the node can find. *)
Fixpoint walk (fuel : nat) (find : ID -> outcome StatelessBlock) (b : StatelessBlock) (acc : A) :
    outcome A :=
  match fuel with
  | O => Panic OutOfFuel
  | S fuel' =>
      if in_window b then
        try! r := f b acc in
        if negb r.1 then Ok r.2
        else if Hght (sb_block b) =? 0 then Ok r.2
        else try! next := find (Prnt (sb_block b)) in walk fuel' find next r.2
      else Ok acc
  end.
End loop.

Lemma looks_trans {A B} (R : VM -> A -> B -> Prop) v v' run expected :
  reads v v' -> looks R v' run expected -> looks R v run expected.
Proof. intros Hr (Hwf & Hr' & Ha). split; [done|]. split; [by etrans|done]. Qed.

Lemma walk_ext {A} (f : StatelessBlock -> A -> outcome (bool * A)) g currTime lastID fuel find find' b acc :
  (forall id, find id = find' id) ->
  walk f g currTime lastID fuel find b acc = walk f g currTime lastID fuel find' b acc.
Proof.
  intros Hfind. revert b acc. induction fuel as [|fuel IH]; intros b acc; [done|].
  cbn [walk]. destruct (in_window _ _ _ _); [|done]. destruct (f b acc) as [r|e|p]; [|done..].
  cbn [obind]. destruct (negb r.1); [done|]. destruct (_ =? 0); [done|]. rewrite Hfind.
  destruct (find' _); [|done..]. apply IH.
Qed.

Lemma lookback_loop_run {A} (f : StatelessBlock -> A -> outcome (bool * A)) currTime lastID fuel v l b acc :
  vm_wf v -> vm_objects v !! l = Some b ->
  looks (fun _ => eq) v (lookback_loop f currTime lastID fuel l acc v)
    (walk f (vm_genesis v) currTime lastID fuel (find_block v) b acc).
Proof.
  revert v l b acc. induction fuel as [|fuel IH]; intros v l b acc Hwf Hl; [done|].
  cbn [lookback_loop walk]. unfold bind at 1. unfold block_at. rewrite Hl.
  unfold gets, bind at 1. fold (in_window (vm_genesis v) currTime lastID b).
  destruct (in_window _ _ _ b); [|done]. unfold bind at 1, lift_outcome, obind.
  destruct (f b acc) as [[c acc']|e|p]; [|done..]. cbn [fst snd].
  destruct (negb c); [done|]. destruct (Hght (sb_block b) =? 0); [done|].
  destruct (GetStatelessBlock_run v (Prnt (sb_block b)) Hwf) as (Hwf' & Hr & Ha). unfold bind.
  destruct (GetStatelessBlock _ v) as [v' [next|e|p]]; cbn [fst snd] in *;
    destruct (find_block v (Prnt (sb_block b))) as [b'|e'|p'] eqn:Hf; try done; cbn [agree] in Ha.
  apply (looks_trans _ v v'); [done|].
  rewrite (walk_ext _ _ _ _ _ (find_block v) (find_block v')) by (intros; symmetry; by apply find_block_reads).
  rewrite <- (rd_genesis _ _ Hr). by apply IH.
Qed.

(** [lookback] in terms of the blocks that can be found. *)
Definition walk_from {A} (f : StatelessBlock -> A -> outcome (bool * A)) v currTime lastID acc : outcome A :=
  try! b := find_block v lastID in
  walk f (vm_genesis v) currTime lastID (lookback_fuel v) (find_block v) b acc.
Lemma lookback_run {A} (f : StatelessBlock -> A -> outcome (bool * A)) currTime lastID v acc :
  vm_wf v ->
  looks (fun _ => eq) v (lookback f currTime lastID acc v) (walk_from f v currTime lastID acc).
Proof.
  intros Hwf. unfold lookback, walk_from.
  destruct (GetStatelessBlock_run v lastID Hwf) as (Hwf' & Hr & Ha). unfold bind, gets.
  destruct (GetStatelessBlock _ v) as [v' [l|e|p]]; cbn [fst snd] in *;
    destruct (find_block v lastID) as [b|e'|p'] eqn:Hf; try done; cbn [agree obind] in *.
  apply (looks_trans _ v v'); [done|].
  rewrite (walk_ext _ _ _ _ _ (find_block v) (find_block v')) by (intros; symmetry; by apply find_block_reads).
  replace (lookback_fuel v) with (lookback_fuel v').
  2: { unfold lookback_fuel. by rewrite (rd_db _ _ Hr), (rd_verified _ _ Hr). }
  rewrite <- (rd_genesis _ _ Hr). by apply lookback_loop_run.
Qed.

(** ** The window of a block *)

(** A path of the block tree: a block that can be found, and its ancestors as
    far as listed. *)
Inductive path v : ID -> list StatelessBlock -> Prop :=
  | path_one id b : find_block v id = Ok b -> path v id [b]
  | path_more id b bs : find_block v id = Ok b -> Hght (sb_block b) <> 0 ->
      path v (Prnt (sb_block b)) bs -> path v id (b :: bs).

Lemma path_head v id bs : path v id bs -> exists b bs', bs = b :: bs' /\ find_block v id = Ok b.
Proof. intros []; by eexists _, _. Qed.

(** Two paths from one block: one is a part of the other. *)
Lemma path_prefix v id bs bs' : path v id bs -> path v id bs' -> bs `prefix_of` bs' \/ bs' `prefix_of` bs.
Proof.
  intros Hp. revert bs'. induction Hp as [id b Hf|id b bs Hf Hh Hp IH]; intros bs' Hp'.
  - destruct Hp' as [id b' Hf'|id b' bs' Hf' Hh' Hp']; rewrite Hf in Hf'; injection Hf' as <-.
    + by left.
    + left. apply prefix_cons, prefix_nil.
  - destruct Hp' as [id b' Hf'|id b' bs' Hf' Hh' Hp']; rewrite Hf in Hf'; injection Hf' as <-.
    + right. apply prefix_cons, prefix_nil.
    + destruct (IH _ Hp') as [?|?]; [left|right]; by apply prefix_cons.
Qed.

(** A loop that never stops early folds over a path, the window. *)
Fixpoint fold_path {A} (f : StatelessBlock -> A -> outcome (bool * A)) (bs : list StatelessBlock) (acc : A) :
    outcome A :=
  match bs with
  | [] => Ok acc
  | b :: bs' => try! r := f b acc in fold_path f bs' r.2
  end.
Lemma walk_window {A} (f : StatelessBlock -> A -> outcome (bool * A)) v g currTime lastID fuel id b acc r :
  (forall b acc c, f b acc = Ok c -> c.1 = true) ->
  find_block v id = Ok b ->
  walk f g currTime lastID fuel (find_block v) b acc = Ok r ->
  (in_window g currTime lastID b = false /\ r = acc) \/
  exists bs, path v id bs /\ fold_path f bs acc = Ok r /\
    Forall (fun x => in_window g currTime lastID x = true) bs.
Proof.
  intros Htrue. revert id b acc. induction fuel as [|fuel IH]; intros id b acc Hf Hw; [done|].
  cbn [walk] in Hw. destruct (in_window g currTime lastID b) eqn:Hin; [right|left; by simplify_eq].
  destruct (f b acc) as [c|e|p] eqn:Hc; [|done..]. cbn [obind] in Hw. rewrite (Htrue _ _ _ Hc) in Hw.
  cbn [negb] in Hw. destruct (Z.eqb_spec (Hght (sb_block b)) 0) as [Hh|Hh].
  { injection Hw as <-. exists [b]. split_and!; [by constructor| |by constructor].
    cbn [fold_path]. by rewrite Hc. }
  destruct (find_block v (Prnt (sb_block b))) as [b'|e|p] eqn:Hf'; [|done..]. cbn [obind] in Hw.
  destruct (IH _ _ _ Hf' Hw) as [[_ ->]|(bs & Hp & Hfold & Hall)].
  - exists [b]. split_and!; [by constructor| |by constructor]. cbn [fold_path]. by rewrite Hc.
  - exists (b :: bs). split_and!; [by constructor| |by constructor]. cbn [fold_path]. by rewrite Hc.
Qed.

(** *** Termination

    Parent links that never lead back: a rank of the ids that falls along them.
    Every block that can be found is verified or on disk. *)
Definition known v : list ID :=
  (map_to_list (vm_verifiedBlocks v)).*1 ++
  ((fun kv => sized_of 32 (drop 2 kv.1)) <$> db_iter_prefix (vm_db v) [blockPrefix; ByteDelimiter]).
Record chain_ok v (rank : ID -> nat) : Prop := {
  co_id id b : find_block v id = Ok b -> sb_id b = id;
  co_known id b : find_block v id = Ok b -> id ∈ known v;
  co_rank id b : find_block v id = Ok b -> Hght (sb_block b) <> 0 ->
    (rank (Prnt (sb_block b)) < rank id)%nat
}.

Lemma known_length v : length (known v) = pred (lookback_fuel v).
Proof. unfold known, lookback_fuel. by rewrite length_app, !length_fmap, length_map_to_list. Qed.

(** Blocks that are looked for never run out of fuel. *)
Lemma Init_panic tx g p : Init tx g = Panic p -> encoder_panic p.
Proof.
  unfold Init. destruct (Marshal _); [done|]. destruct (ToID _); [done|].
  destruct (tx_DigestHash _) as [dh|e|q] eqn:Hd; [by destruct (DeriveSender _ _)|done|].
  intros [= <-]. by eapply DigestHash_panic.
Qed.
Lemma init_txs_panic g txs p : init_txs g txs = Panic p -> encoder_panic p.
Proof.
  induction txs as [|tx l IH]; cbn [init_txs]; [done|].
  destruct (Init tx g) as [t|e|q] eqn:Ht; [|done|intros [= <-]; by eapply Init_panic].
  cbn [obind]. destruct (init_txs g l); done || auto.
Qed.
Lemma ParseStatefulBlock_panic blk source st g p :
  ParseStatefulBlock blk source st g = Panic p -> encoder_panic p.
Proof.
  unfold ParseStatefulBlock.
  destruct (if bool_decide _ then _ else _) as [src|e|q] eqn:Hs; cbn [obind]; [|done|].
  2: { case_bool_decide; [|done]. by destruct (Marshal _). }
  destruct (ToID _) as [e|id]; [done|]. cbn [of_result obind].
  destruct (init_txs g (Txs blk)) eqn:Hi; [done..|]. intros [= <-]. by eapply init_txs_panic.
Qed.
Definition no_panic {S A} (m : M S A) : Prop := forall s p, (m s).2 <> Panic p.
Lemma no_panic_bind {S A B} (m : M S A) (f : A -> M S B) :
  no_panic m -> (forall a, no_panic (f a)) -> no_panic (bind m f).
Proof.
  intros Hm Hf s p. unfold bind. pose proof (Hm s p) as Hs. destruct (m s) as [s' [a|e|q]]; cbn in *;
    [apply Hf|done|congruence].
Qed.
Lemma Get_no_panic k : no_panic (Get k).
Proof. intros s p. unfold Get. cbn. by destruct (db_get s k). Qed.
Lemma lift_no_panic {S A} (r : result A) : no_panic (lift (S := S) r).
Proof. intros s p. cbn. by destruct r. Qed.
Lemma GetBlock_no_panic id : no_panic (GetBlock id).
Proof.
  unfold GetBlock, restoreValues. apply no_panic_bind; [apply Get_no_panic|intros ?].
  apply no_panic_bind; [apply lift_no_panic|intros w]. apply no_panic_bind; [|done].
  generalize (Txs (of_wire w)). intros l. induction l as [|tx l IH]; [done|]. cbn [restore_loop].
  apply no_panic_bind; [|intros ?; by apply no_panic_bind].
  destruct (tx_Unsigned tx); try done. case_bool_decide; [done|].
  apply no_panic_bind; [apply lift_no_panic|intros ?].
  apply no_panic_bind; [apply Get_no_panic|done].
Qed.
Lemma find_block_fuel v id : find_block v id <> Panic OutOfFuel.
Proof.
  unfold find_block. assert (forall l, object v l <> Panic OutOfFuel) as Hobj.
  { intros l. unfold object. by destruct (vm_objects v !! l). }
  destruct (cached _ _); [apply Hobj|]. destruct (vm_verifiedBlocks v !! id); [apply Hobj|].
  pose proof (GetBlock_no_panic id (vm_db v) OutOfFuel) as Hg.
  destruct (GetBlock id (vm_db v)) as [db [blk|e|p]]; cbn [snd obind] in *; [|done|congruence].
  intros Hp. apply ParseStatefulBlock_panic in Hp as [?|?]; done.
Qed.

Lemma walk_fuel {A} (f : StatelessBlock -> A -> outcome (bool * A)) v rank g currTime lastID fuel id b acc seen :
  chain_ok v rank -> (forall b acc, f b acc <> Panic OutOfFuel) -> find_block v id = Ok b ->
  NoDup (id :: seen) -> seen ⊆ known v -> (forall i, i ∈ seen -> (rank id < rank i)%nat) ->
  (length (known v) < fuel + length seen)%nat ->
  walk f g currTime lastID fuel (find_block v) b acc <> Panic OutOfFuel.
Proof.
  intros Hco Hff. revert id b acc seen. induction fuel as [|fuel IH];
    intros id b acc seen Hf Hnd Hsub Hrank Hlen.
  - exfalso. assert (length (id :: seen) <= length (known v))%nat as Hle.
    { apply submseteq_length, NoDup_submseteq; [done|]. intros i [->|Hi]%elem_of_cons;
        [by eapply co_known|by apply Hsub]. }
    cbn in Hle. lia.
  - cbn [walk]. destruct (in_window _ _ _ _); [|done]. pose proof (Hff b acc) as Hfb.
    destruct (f b acc) as [c|e|p]; [|done|cbn [obind]; congruence].
    cbn [obind]. destruct (negb c.1); [done|].
    destruct (Z.eqb_spec (Hght (sb_block b)) 0) as [|Hh]; [done|].
    pose proof (co_rank _ _ Hco _ _ Hf Hh) as Hlt.
    pose proof (find_block_fuel v (Prnt (sb_block b))) as Hnf.
    destruct (find_block v (Prnt (sb_block b))) as [b'|e|p] eqn:Hf'; [|done|cbn [obind]; congruence].
    cbn [obind]. apply (IH (Prnt (sb_block b)) b' c.2 (id :: seen)); [done| | | |cbn; lia].
    + constructor; [|done]. intros [Heq|Hin]%elem_of_cons; [rewrite Heq in Hlt; lia|].
      pose proof (Hrank _ Hin). lia.
    + intros i [->|Hi]%elem_of_cons; [by eapply co_known|by apply Hsub].
    + intros i [->|Hi]%elem_of_cons; [done|]. pose proof (Hrank _ Hi). lia.
Qed.

Lemma lookback_terminates_from {A} (f : StatelessBlock -> A -> outcome (bool * A)) v rank currTime lastID acc :
  vm_wf v -> chain_ok v rank -> (forall b acc, f b acc <> Panic OutOfFuel) ->
  forall fuel b, find_block v lastID = Ok b -> (lookback_fuel v <= fuel)%nat ->
    walk f (vm_genesis v) currTime lastID fuel (find_block v) b acc <> Panic OutOfFuel.
Proof.
  intros Hwf Hco Hf fuel b Hb Hfuel. apply (walk_fuel f v rank _ _ _ _ lastID _ _ []);
    [done..|apply NoDup_singleton| |by intros i ?%elem_of_nil|].
  - intros i ?%elem_of_nil. done.
  - rewrite known_length. unfold lookback_fuel in *. cbn. lia.
Qed.

(** C26: The walk back through the chain ends within the fuel the model gives it,
    however old the window is, as long as parent links have no cycle. *)
Theorem lookback_terminates {A} (f : StatelessBlock -> A -> outcome (bool * A)) v rank currTime lastID acc :
  vm_wf v -> chain_ok v rank -> (forall b acc, f b acc <> Panic OutOfFuel) ->
  (lookback f currTime lastID acc v).2 <> Panic OutOfFuel /\
  forall fuel b, find_block v lastID = Ok b -> (lookback_fuel v <= fuel)%nat ->
    walk f (vm_genesis v) currTime lastID fuel (find_block v) b acc <> Panic OutOfFuel.
Proof.
  intros Hwf Hco Hf.
  pose proof (lookback_terminates_from f v rank currTime lastID acc Hwf Hco Hf) as Hwalk.
  split; [|done]. destruct (lookback_run f currTime lastID v acc Hwf) as (_ & _ & Ha).
  intros Hr. rewrite Hr in Ha. unfold walk_from in Ha.
  pose proof (find_block_fuel v lastID) as Hnf.
  destruct (find_block v lastID) as [b|e|p] eqn:Hb; cbn [obind agree] in Ha; [|done|congruence].
  pose proof (Hwalk _ b eq_refl (le_n _)) as Hw.
  destruct (walk _ _ _ _ _ _ _ _); cbn [agree] in Ha; congruence.
Qed.
End lookback_facts.
