(* ===== verification/FeeMarket.v ===== *)
(** * The fee market

    The price and the cost of the next block and the fee suggested to clients,
    against closed forms. *)

From S2P Require Import Prelude External GoStd TData Builder Keys Storage Genesis.
From S2P Require Import SamaState Users Tx TypedTx Activity Block Mempool VM Lookback.

(** The chain's own limits: every number is a machine integer, windows are
    positive, and clocks are far from the end of time. *)
Record market_ok (g : Genesis) (last : StatefulBlock) (elapsed : Z) : Prop := {
  mk_cost : is_u64 (Cost last);
  mk_price : is_u64 (Price last);
  mk_min : 0 <= Genesis_MinPrice g <= Price last;
  mk_rate : 0 <= Genesis_TargetBlockRate g < 2 ^ 62;
  mk_window : 0 < Genesis_LookbackWindow g < 2 ^ 62;
  mk_elapsed : 0 <= elapsed < 2 ^ 62
}.

Lemma next_cost_max g last elapsed :
  market_ok g last elapsed -> Genesis_BlockCostEnabled g = true ->
  Cost last + Genesis_TargetBlockRate g < 2 ^ 64 ->
  next_cost g last elapsed = Z.max MinBlockCost (Cost last + Genesis_TargetBlockRate g - elapsed).
Proof.
  intros [Hc Hp Hm Hr Hw He] Hen Hov. unfold next_cost, MinBlockCost. rewrite Hen. cbn [negb].
  unfold is_u64 in *. destruct (Z.ltb_spec elapsed (Genesis_TargetBlockRate g)).
  - rewrite i64_small, (u64_small (Genesis_TargetBlockRate g - elapsed)) by (unfold is_u64; lia).
    rewrite u64_small by (unfold is_u64; lia). lia.
  - rewrite i64_small, (u64_small (elapsed - _)), (u64_small (Cost last - 0)) by (unfold is_u64; lia).
    rewrite (proj2 (Z.leb_le 0 (Cost last))) by lia. cbn [andb].
    destruct (Z.ltb_spec (elapsed - Genesis_TargetBlockRate g) (Cost last - 0)); [|lia].
    rewrite u64_small by (unfold is_u64; lia). lia.
Qed.

Lemma next_price_max g last elapsed units target :
  market_ok g last elapsed -> Price last < 2 ^ 64 - 1 ->
  next_price g last elapsed units target =
    Ok (if bool_decide (target < units) then Price last + 1
        else if bool_decide (units < target)
          then Z.max (Genesis_MinPrice g) (Price last - (elapsed / Genesis_LookbackWindow g + 1))
          else Price last).
Proof.
  intros [Hc Hp Hm Hr Hw He] Hov. unfold next_price. unfold is_u64 in *.
  destruct (Z.ltb_spec target units) as [Hlt|Hge].
  { rewrite bool_decide_eq_true_2 by done. rewrite u64_small by (unfold is_u64; lia). done. }
  rewrite bool_decide_eq_false_2 by lia. destruct (Z.ltb_spec units target) as [Hlt|Hge'].
  2: { by rewrite bool_decide_eq_false_2 by lia. }
  rewrite bool_decide_eq_true_2 by done. rewrite (proj2 (Z.eqb_neq _ _)) by lia.
  rewrite Z.quot_div_nonneg by lia.
  assert (0 <= elapsed / Genesis_LookbackWindow g <= elapsed) as Hq.
  { split; [apply Z.div_pos; lia|]. apply Z.div_le_upper_bound; nia. }
  rewrite (u64_small (elapsed / _)), (u64_small (_ + 1)), (u64_small (Price last - Genesis_MinPrice g))
    by (unfold is_u64; lia).
  rewrite (proj2 (Z.leb_le _ _)) by lia. cbn [andb].
  destruct (Z.ltb_spec (elapsed / Genesis_LookbackWindow g + 1) (Price last - Genesis_MinPrice g)).
  - rewrite u64_small by (unfold is_u64; lia). f_equal. lia.
  - f_equal. lia.
Qed.

(** C18: The cost of the next block rises by the seconds it is early and falls by
    those it is late, down to the least cost; its price rises by one when the
    window is over its target and falls by one per window that has passed when
    it is under it, down to the least price.  So a price never falls under the
    least price, and never rises by more than one. *)
Theorem fee_market_closed_form g last elapsed units target :
  market_ok g last elapsed -> Genesis_BlockCostEnabled g = true ->
  Cost last + Genesis_TargetBlockRate g < 2 ^ 64 -> Price last < 2 ^ 64 - 1 ->
  next_cost g last elapsed = Z.max MinBlockCost (Cost last + Genesis_TargetBlockRate g - elapsed) /\
  exists p, next_price g last elapsed units target = Ok p /\
    p = (if bool_decide (target < units) then Price last + 1
         else if bool_decide (units < target)
           then Z.max (Genesis_MinPrice g) (Price last - (elapsed / Genesis_LookbackWindow g + 1))
           else Price last) /\
    Genesis_MinPrice g <= p <= Price last + 1.
Proof.
  intros Hok Hen Hc Hp. split; [by apply next_cost_max|].
  eexists. split; [by apply next_price_max|]. split; [done|]. destruct Hok as [? ? Hm ? Hw He].
  assert (0 <= elapsed / Genesis_LookbackWindow g) by (apply Z.div_pos; lia).
  repeat case_bool_decide; lia.
Qed.

(** A price at the largest [uint64] wraps to zero, under the least price. *)
Lemma price_wraps g last elapsed units target :
  Price last = 2 ^ 64 - 1 -> target < units -> next_price g last elapsed units target = Ok 0.
Proof.
  intros Hp Hlt. unfold next_price. rewrite (proj2 (Z.ltb_lt _ _)) by done. rewrite Hp. done.
Qed.

(** ** The percentile *)

#[local] Instance Zle_total : Total Z.le.
Proof. intros x y. lia. Qed.

Lemma percentile_in l : l <> [] -> exists z, percentile l = Ok z /\ z ∈ l.
Proof.
  intros Hl. unfold percentile, feePercentile.
  set (i := Z.to_nat _). assert (i < length l)%nat as Hi.
  { subst i. destruct l as [|x l]; [done|]. cbn [length]. rewrite Nat2Z.inj_succ.
    rewrite Z.quot_div_nonneg by lia. apply Nat2Z.inj_lt.
    rewrite Z2Nat.id by (apply Z.div_pos; lia).
    apply Z.div_lt_upper_bound; lia. }
  rewrite <- (Permutation_length (merge_sort_Permutation Z.le l)) in Hi.
  destruct (lookup_lt_is_Some_2 _ _ Hi) as [z Hz]. rewrite Hz. exists z. split; [done|].
  apply list_elem_of_lookup_2 in Hz. by rewrite merge_sort_Permutation in Hz.
Qed.

(** ** The execution context *)
Section context.
Context `{Database} `{Cacher Address UserMeta} `{CacherLaws ID block_loc}.
Context `{Ethereum} `{EthMath} `{GoRuntime} `{ChainCodecs} `{TxCodec} `{BlockCodec}.
Implicit Types (v : VM) (b : StatelessBlock) (bs : list StatelessBlock) (g : Genesis).

Lemma recent_block_true g b r c : recent_block g b r = Ok c -> c.1 = true.
Proof. unfold recent_block. destruct (recent_txs _ _ _ _); [by intros [= <-]|done..]. Qed.
Lemma recent_block_fuel g b r : recent_block g b r <> Panic OutOfFuel.
Proof.
  unfold recent_block. assert (forall txs ids units, recent_txs g txs ids units <> Panic OutOfFuel) as Ht.
  { induction txs as [|tx txs IH]; intros ids units; [done|]. cbn [recent_txs].
    assert (LoadUnits (tx_Unsigned tx) g <> Panic OutOfFuel) as Hl.
    { destruct (tx_Unsigned tx); try done. cbn. unfold SetTx_FeeUnits, valueUnits.
      by destruct (Genesis_ValueUnitSize g =? 0). }
    destruct (LoadUnits _ g); cbn [obind]; [apply IH|done|congruence]. }
  pose proof (Ht (Txs (sb_block b)) (rc_TxIDs r) (rc_Units r)).
  destruct (recent_txs _ _ _ _); cbn [obind]; [done|done|congruence].
Qed.

Definition txs_of bs : list Transaction := mjoin ((fun b => Txs (sb_block b)) <$> bs).

Lemma recent_txs_ids g txs ids units r :
  recent_txs g txs ids units = Ok r -> r.1 = ids ∪ list_to_set (tx_id <$> txs).
Proof.
  revert ids units. induction txs as [|tx txs IH]; intros ids units Hr; cbn [recent_txs] in Hr.
  - injection Hr as <-. cbn. set_solver.
  - destruct (LoadUnits _ g) as [z|e|p]; [|done..]. cbn [obind] in Hr. rewrite (IH _ _ Hr). cbn. set_solver.
Qed.
Lemma fold_recent g bs r0 r :
  fold_path (recent_block g) bs r0 = Ok r ->
  rc_BlockIDs r = rc_BlockIDs r0 ∪ list_to_set (sb_id <$> bs) /\
  rc_TxIDs r = rc_TxIDs r0 ∪ list_to_set (tx_id <$> txs_of bs) /\
  rc_prices r = rc_prices r0 ++ ((fun b => Price (sb_block b)) <$> bs) /\
  rc_costs r = rc_costs r0 ++ ((fun b => Cost (sb_block b)) <$> bs).
Proof.
  revert r0. induction bs as [|b bs IH]; intros r0 Hr; cbn [fold_path] in Hr.
  - injection Hr as <-. cbn. rewrite !app_nil_r. split_and!; [set_solver|set_solver|done..].
  - unfold recent_block in Hr at 1.
    destruct (recent_txs _ _ _ _) as [t|e|p] eqn:Ht; [|done..]. cbn [obind snd] in Hr.
    apply recent_txs_ids in Ht. apply IH in Hr as (H1' & H2' & H3' & H4'). cbn in *.
    rewrite H1', H2', H3', H4', Ht. unfold txs_of. cbn. rewrite fmap_app, list_to_set_app_L, <- !app_assoc.
    split_and!; [set_solver|set_solver|done..].
Qed.

(** [ExecutionContext] as a function of the blocks that can be found. *)
Definition context_of v (currTime : Z) (last : StatelessBlock) : outcome Context_t :=
  let g := vm_genesis v in
  try! r := walk_from (recent_block g) v currTime (sb_id last) no_recent in
  let elapsed := i64 (currTime - blk_Tmstmp (sb_block last)) in
  try! p := next_price g (sb_block last) elapsed (rc_Units r) (vm_targetRangeUnits v) in
  Ok (mkContext (rc_BlockIDs r) (rc_TxIDs r) (rc_Units r) (rc_prices r) (rc_costs r)
    (next_cost g (sb_block last) elapsed) p).

Lemma ExecutionContext_run v currTime last :
  vm_wf v -> looks (fun _ => eq) v (ExecutionContext currTime last v) (context_of v currTime last).
Proof.
  intros Hwf. unfold ExecutionContext, context_of, gets, bind at 1.
  destruct (lookback_run (recent_block (vm_genesis v)) currTime (sb_id last) v no_recent Hwf)
    as (Hwf' & Hr & Ha). unfold bind at 1.
  destruct (lookback _ _ _ _ v) as [v' [r|e|p]]; cbn [fst snd] in *;
    destruct (walk_from _ _ _ _ _) as [r'|e'|p']; try done; cbn [agree obind] in *; subst.
  unfold bind at 1, lift_outcome. rewrite (rd_target _ _ Hr). unfold bind.
  by destruct (next_price _ _ _ _ _).
Qed.

(** The window of a context: a path from the last block on, itself included. *)
Lemma context_window v currTime last ctx :
  (forall b, find_block v (sb_id last) = Ok b -> sb_id b = sb_id last) ->
  context_of v currTime last = Ok ctx ->
  exists bs, path v (sb_id last) bs /\
    Forall (fun b => in_window (vm_genesis v) currTime (sb_id last) b = true) bs /\
    RecentBlockIDs ctx = list_to_set (sb_id <$> bs) /\
    RecentTxIDs ctx = list_to_set (tx_id <$> txs_of bs) /\
    ctx_Prices ctx = (fun b => Price (sb_block b)) <$> bs /\
    ctx_Costs ctx = (fun b => Cost (sb_block b)) <$> bs.
Proof.
  intros Hid Hc. unfold context_of, walk_from in Hc.
  destruct (find_block v (sb_id last)) as [b|e|p] eqn:Hf; [|done..]. cbn [obind] in Hc.
  destruct (walk _ _ _ _ _ _ _ _) as [r|e|p] eqn:Hw; [|done..]. cbn [obind] in Hc.
  destruct (next_price _ _ _ _ _) as [z|e|p]; [|done..]. cbn [obind] in Hc. injection Hc as <-.
  apply (walk_window _ v _ _ _ _ (sb_id last)) in Hw as [[Hin _]|(bs & Hp & Hfold & Hall)];
    [| |intros ? ? ?; apply recent_block_true|done].
  { unfold in_window in Hin. apply orb_false_iff in Hin as [_ Hin].
    rewrite bool_decide_eq_true_2 in Hin by auto. done. }
  apply fold_recent in Hfold as (H1' & H2' & H3' & H4'). exists bs.
  cbn [RecentBlockIDs RecentTxIDs ctx_Prices ctx_Costs].
  rewrite H1', H2', H3', H4'. unfold no_recent. cbn. split_and!; [done|done|set_solver|set_solver|done..].
Qed.
Lemma path_nonempty v id bs : path v id bs -> bs <> [].
Proof. by intros []. Qed.

Lemma put_tick_wf v s n : vm_wf v -> vm_wf (put_sama s n v).
Proof. by intros []. Qed.
(** Looking for blocks, and the state of the chain, do not change a context. *)
Lemma context_of_reads v v' s n currTime last :
  vm_wf v -> reads v v' -> context_of (put_sama s n v') currTime last = context_of v currTime last.
Proof.
  intros Hwf Hr. unfold context_of, walk_from.
  change (find_block (put_sama s n v')) with (find_block v').
  change (vm_genesis (put_sama s n v')) with (vm_genesis v').
  change (lookback_fuel (put_sama s n v')) with (lookback_fuel v').
  change (vm_targetRangeUnits (put_sama s n v')) with (vm_targetRangeUnits v').
  rewrite (rd_genesis _ _ Hr), (rd_target _ _ Hr), (find_block_reads v v') by done.
  replace (lookback_fuel v') with (lookback_fuel v)
    by (unfold lookback_fuel; by rewrite (rd_db _ _ Hr), (rd_verified _ _ Hr)).
  destruct (find_block v (sb_id last)); cbn [obind]; [|done..].
  by rewrite (walk_ext _ _ _ _ _ (find_block v') (find_block v)) by (intros; by apply find_block_reads).
Qed.

(** *** The context of a chain without gaps

    Every parent is there, up to the genesis block. *)
Definition chain_complete v : Prop := forall id b, find_block v id = Ok b -> Hght (sb_block b) <> 0 ->
  exists parent, find_block v (Prnt (sb_block b)) = Ok parent.

Lemma LoadUnits_total u g : Genesis_ValueUnitSize g <> 0 -> exists z, LoadUnits u g = Ok z.
Proof.
  intros Hz. destruct u; try by eexists. cbn. unfold SetTx_FeeUnits, valueUnits.
  rewrite (proj2 (Z.eqb_neq _ _)) by done. by eexists.
Qed.
Lemma recent_txs_total g txs ids units :
  Genesis_ValueUnitSize g <> 0 -> 0 <= units -> exists r, recent_txs g txs ids units = Ok r /\ 0 <= r.2.
Proof.
  intros Hz. revert ids units. induction txs as [|tx txs IH]; intros ids units Hu; [by eexists|].
  cbn [recent_txs]. destruct (LoadUnits_total (tx_Unsigned tx) g Hz) as [z ->]. cbn [obind]. apply IH.
  apply u64_range.
Qed.
Lemma recent_block_total g b r :
  Genesis_ValueUnitSize g <> 0 -> 0 <= rc_Units r ->
  exists c, recent_block g b r = Ok c /\ 0 <= rc_Units c.2.
Proof.
  intros Hz Hr. unfold recent_block.
  destruct (recent_txs_total g (Txs (sb_block b)) (rc_TxIDs r) (rc_Units r) Hz Hr) as (t & -> & Ht).
  by eexists.
Qed.
Lemma walk_complete v currTime lastID fuel b r :
  chain_complete v -> Genesis_ValueUnitSize (vm_genesis v) <> 0 -> 0 <= rc_Units r ->
  (exists id, find_block v id = Ok b) ->
  let out := walk (recent_block (vm_genesis v)) (vm_genesis v) currTime lastID fuel (find_block v) b r in
  out = Panic OutOfFuel \/ exists r', out = Ok r' /\ 0 <= rc_Units r'.
Proof.
  intros Hco Hz. cbv zeta. revert b r. induction fuel as [|fuel IH]; intros b r Hr [id Hf]; [by left|].
  cbn [walk]. destruct (in_window _ _ _ b); [|right; by exists r].
  destruct (recent_block_total (vm_genesis v) b r Hz Hr) as (c & -> & Hc). cbn [obind].
  destruct (negb c.1); [right; by eexists|].
  destruct (Z.eqb_spec (Hght (sb_block b)) 0) as [|Hh]; [right; by eexists|].
  destruct (Hco id b Hf Hh) as [parent Hp]. rewrite Hp. cbn [obind]. apply IH; [done|]. by eexists.
Qed.
Lemma context_of_total v rank currTime last :
  vm_wf v -> chain_ok v rank -> chain_complete v -> find_block v (sb_id last) = Ok last ->
  Genesis_ValueUnitSize (vm_genesis v) <> 0 ->
  (Genesis_LookbackWindow (vm_genesis v) = 0 -> vm_targetRangeUnits v = 0) ->
  exists ctx, context_of v currTime last = Ok ctx.
Proof.
  intros Hwf Hco Hcomplete Hf Hz Hw. unfold context_of, walk_from. rewrite Hf. cbn [obind].
  pose proof (lookback_terminates_from (recent_block (vm_genesis v)) v rank currTime (sb_id last) no_recent Hwf Hco
    (recent_block_fuel _) (lookback_fuel v) last Hf (le_n _)) as Hfuel.
  destruct (walk_complete v currTime (sb_id last) (lookback_fuel v) last no_recent Hcomplete Hz ltac:(cbn; lia)
    ltac:(by eexists)) as [Hpanic|(r & -> & Hr)]; [done|]. cbn [obind].
  assert (exists p, next_price (vm_genesis v) (sb_block last) (i64 (currTime - blk_Tmstmp (sb_block last)))
    (rc_Units r) (vm_targetRangeUnits v) = Ok p) as [p ->]; [|by eexists].
  unfold next_price. destruct (_ <? rc_Units r); [by eexists|].
  destruct (Z.ltb_spec (rc_Units r) (vm_targetRangeUnits v)) as [Hlt|]; [|by eexists].
  rewrite (proj2 (Z.eqb_neq _ _)) by (intros H0'; specialize (Hw H0'); lia). destruct (_ && _); by eexists.
Qed.

(** C29: On a node whose chain has no gaps a fee is always suggested: the walk over
    the recent blocks ends, the percentile is inside the window, no division is by
    zero, and neither number is under its minimum.  The length of the window may
    be zero, since the target that a node computes from it is zero then; the size
    of a unit of value may not. *)
Theorem SuggestedFee_total v rank parent :
  vm_wf v -> chain_ok v rank -> chain_complete v -> find_block v (vm_preferred v) = Ok parent ->
  Genesis_ValueUnitSize (vm_genesis v) <> 0 ->
  (Genesis_LookbackWindow (vm_genesis v) = 0 -> vm_targetRangeUnits v = 0) ->
  exists ctx, context_of v (Unix (time_Now (vm_tick v))) parent = Ok ctx /\
  exists v' price cost, SuggestedFee v = (v', Ok (price, cost)) /\
    Genesis_MinPrice (vm_genesis v) <= price /\ MinBlockCost <= cost /\
    (price = Genesis_MinPrice (vm_genesis v) \/ price ∈ ctx_Prices ctx).
Proof.
  intros Hwf Hco Hcomplete Hf Hz Hw. pose proof (co_id _ _ Hco _ _ Hf) as Hid.
  destruct (context_of_total v rank (Unix (time_Now (vm_tick v))) parent) as [ctx Hctx]; try done; [by rewrite Hid|].
  exists ctx. split; [done|]. unfold SuggestedFee, gets, bind at 1.
  destruct (GetStatelessBlock_run v (vm_preferred v) Hwf) as (Hwf1 & Hr1 & Ha1). unfold bind at 1.
  rewrite Hf in Ha1. destruct (GetStatelessBlock _ v) as [v1 [l|e|p]]; [|done..]. cbn [fst snd agree] in *.
  unfold bind at 1, block_at. unfold points_to in Ha1. rewrite Ha1. unfold bind at 1, vm_now.
  rewrite (rd_tick _ _ Hr1). set (v2 := put_sama (vm_samaState v1) (S (vm_tick v)) v1).
  assert (vm_wf v2) as Hwf2 by (by apply put_tick_wf).
  assert (context_of v2 (Unix (time_Now (vm_tick v))) parent = Ok ctx) as Hctx2
    by (rewrite <- Hctx; by apply context_of_reads).
  destruct (ExecutionContext_run v2 (Unix (time_Now (vm_tick v))) parent Hwf2) as (Hwf3 & Hr3 & Ha3).
  unfold bind at 1. rewrite Hctx2 in Ha3.
  destruct (ExecutionContext _ _ v2) as [v3 [c|e|p]]; [|done..]. cbn [fst snd agree] in *. subst c.
  destruct (context_window v (Unix (time_Now (vm_tick v))) parent ctx) as
    (bs & Hp & _ & Hids & _ & Hprices & Hcosts); [intros b; rewrite Hid, Hf; congruence|done|].
  apply path_nonempty in Hp. unfold bind at 1.
  assert (vm_genesis v3 = vm_genesis v) as ->.
  { rewrite (rd_genesis _ _ Hr3). exact (rd_genesis _ _ Hr1). }
  destruct (percentile_in (ctx_Prices ctx)) as (p & Hpp & Hpin); [rewrite Hprices; by destruct bs|].
  destruct (percentile_in (ctx_Costs ctx)) as (c & Hpc & _); [rewrite Hcosts; by destruct bs|].
  unfold lift_outcome, bind at 1. rewrite Hpp. unfold bind at 1. rewrite Hpc.
  assert (size (RecentBlockIDs ctx) <> 0%nat) as Hsz.
  { rewrite Hids. destruct bs as [|b0 bs]; [done|]. intros Hse%size_empty_inv. cbn in Hse. set_solver. }
  set (pp := if p <? _ then _ else _). set (cc := if c <? _ then _ else _).
  assert (Genesis_MinPrice (vm_genesis v) <= pp /\
    (pp = Genesis_MinPrice (vm_genesis v) \/ pp ∈ ctx_Prices ctx)) as [Hpp1 Hpp2].
  { subst pp. destruct (Z.ltb_spec p (Genesis_MinPrice (vm_genesis v))); auto with lia. }
  assert (MinBlockCost <= cc) as Hcc by (subst cc; destruct (Z.ltb_spec c MinBlockCost); lia).
  destruct (_ =? 0); [by eexists _, _, _|]. rewrite (proj2 (Z.eqb_neq _ _)) by lia.
  eexists _, _, _. split; [done|]. split; [done|]. split; [|done].
  destruct (Z.ltb_spec (cc / Z.of_nat (size (RecentTxIDs ctx)) / Z.of_nat (size (RecentBlockIDs ctx))) MinBlockCost); lia.
Qed.
End context.
