(* ===== verification/MempoolFacts.v ===== *)
(** * The mempool implements a finite map with prices

    [txHeap] meets the contract of the interface of container/heap; the two
    heaps of the mempool stay in step; every operation acts on the transactions
    in the pool as a map operation. *)

From S2P Require Import Prelude External GoStd Heap Keys Storage Genesis SamaState Tx Mempool.

(** ** The heap of pointers *)

(** An element as the order sees it: id, transaction, price. *)
Abbreviation item := (ID * Transaction * Z)%type.
Definition entry_item (e : txEntry) : item := (te_id e, te_tx e, te_price e).
Definition price_le (isMinHeap : bool) (x y : item) : Prop :=
  if isMinHeap then x.2 <= y.2 else y.2 <= x.2.
#[export] Instance price_le_preorder b : PreOrder (price_le b).
Proof. split; [intros x|intros x y z]; destruct b; unfold price_le; lia. Qed.

Definition zero_tx : Transaction :=
  mkTransaction (UTransfer (mkTransferTx (mkBaseTx EmptyID 0 0) zeroAddress 0)) [] [] [] EmptyID 0
    zeroAddress.
Definition heap_view (th : txHeap) : list item :=
  (fun p => entry_item (default (mkTxEntry EmptyID zero_tx 0 0) (th_entries th !! p))) <$> th_items th.

(** Every pointer of [items] leads to an entry that knows its index, [lookup]
    finds exactly these pointers, and the next address is fresh. *)
Record heap_inv (b : bool) (th : txHeap) : Prop := {
  hi_kind : th_isMinHeap th = b;
  hi_items i p : th_items th !! i = Some p -> exists e, th_entries th !! p = Some e /\
    te_index e = i /\ th_lookup th !! te_id e = Some p;
  hi_lookup id p : th_lookup th !! id = Some p -> exists i e, th_items th !! i = Some p /\
    th_entries th !! p = Some e /\ te_id e = id;
  hi_fresh p : is_Some (th_entries th !! p) -> (p < th_next th)%positive
}.

Lemma heap_inv_new b n : heap_inv b (newTxHeap n b).
Proof. split; [done|done|done|]. intros p [e He]. done. Qed.

Section tx_heap.
Context (b : bool).
Implicit Types (th : txHeap).

Lemma length_heap_view th : length (heap_view th) = length (th_items th).
Proof. apply length_fmap. Qed.
Lemma heap_view_at th i p e :
  th_items th !! i = Some p -> th_entries th !! p = Some e -> heap_view th !! i = Some (entry_item e).
Proof. intros Hp He. unfold heap_view. rewrite list_lookup_fmap, Hp. cbn. by rewrite He. Qed.
Lemma heap_view_lookup th i x :
  heap_inv b th -> heap_view th !! i = Some x ->
  exists p e, th_items th !! i = Some p /\ th_entries th !! p = Some e /\ x = entry_item e /\
    te_index e = i /\ th_lookup th !! te_id e = Some p.
Proof.
  intros Hi Hx. unfold heap_view in Hx. rewrite list_lookup_fmap in Hx.
  destruct (th_items th !! i) as [p|] eqn:Hp; [|done].
  destruct (hi_items b th Hi i p Hp) as (e & He & Hidx & Hl). exists p, e.
  injection Hx as <-. by rewrite He.
Qed.
Lemma item_at_run th i x :
  heap_inv b th -> heap_view th !! i = Some x ->
  exists p e, item_at i th = (th, Ok (p, e)) /\ x = entry_item e /\
    th_items th !! i = Some p /\ th_entries th !! p = Some e /\ te_index e = i /\
    th_lookup th !! te_id e = Some p.
Proof.
  intros Hi Hx. destruct (heap_view_lookup th i x Hi Hx) as (p & e & Hp & He & -> & Hidx & Hl).
  exists p, e. unfold item_at. by rewrite Hp, He.
Qed.
Lemma item_at_eq i th p e :
  th_items th !! i = Some p -> th_entries th !! p = Some e -> item_at i th = (th, Ok (p, e)).
Proof. unfold item_at. by intros -> ->. Qed.
Lemma items_inj th i j p : heap_inv b th -> th_items th !! i = Some p -> th_items th !! j = Some p -> i = j.
Proof.
  intros Hi Hip Hjp. destruct (hi_items b th Hi i p Hip) as (e & He & <- & _).
  destruct (hi_items b th Hi j p Hjp) as (e' & He' & <- & _). by simplify_eq.
Qed.

Lemma txHeap_Less_run th i j x y :
  heap_inv b th -> heap_view th !! i = Some x -> heap_view th !! j = Some y ->
  exists r : bool, txHeap_Less i j th = (th, Ok r) /\ if r then price_le b x y else price_le b y x.
Proof.
  intros Hi Hx Hy. destruct (item_at_run th i x Hi Hx) as (p & e & Hrx & -> & _).
  destruct (item_at_run th j y Hi Hy) as (q & f & Hry & -> & _).
  unfold txHeap_Less, gets, bind at 1. rewrite (hi_kind b th Hi).
  rewrite (bind_run _ _ _ _ _ Hrx), (bind_run _ _ _ _ _ Hry). cbn [fst snd].
  unfold price_le, entry_item. cbn [fst snd].
  destruct b; eexists; (split; [reflexivity|]); destruct (Z.ltb_spec (te_price e) (te_price f));
    destruct (Z.ltb_spec (te_price f) (te_price e)); lia.
Qed.

Lemma txHeap_Swap_run th i j :
  heap_inv b th -> (i < length (heap_view th))%nat -> (j < length (heap_view th))%nat ->
  exists th', txHeap_Swap i j th = (th', Ok tt) /\ heap_inv b th' /\
    heap_view th' = list_swap i j (heap_view th).
Proof.
  intros Hi Hlt Hlt'. destruct (lookup_lt_is_Some_2 _ _ Hlt) as [x Hx].
  destruct (lookup_lt_is_Some_2 _ _ Hlt') as [y Hy].
  destruct (item_at_run th i x Hi Hx) as (p & e & Hrx & -> & Hp & He & Hie & Hle).
  destruct (item_at_run th j y Hi Hy) as (q & f & Hry & -> & Hq & Hf & Hjf & Hlf).
  rewrite length_heap_view in Hlt, Hlt'.
  set (l' := <[j := p]> (<[i := q]> (th_items th))).
  assert (forall k, l' !! k = if decide (k = j) then Some p else if decide (k = i) then Some q
    else th_items th !! k) as Hl'.
  { intros k. unfold l'. destruct (decide (k = j)) as [->|Hkj].
    { apply list_lookup_insert_eq. by rewrite length_insert. }
    rewrite list_lookup_insert_ne by done. destruct (decide (k = i)) as [->|Hki].
    { by apply list_lookup_insert_eq. }
    by rewrite list_lookup_insert_ne. }
  (* the entries after the two writes of the index *)
  set (E1 := <[q := set_index i f]> (th_entries th)).
  assert (exists e1, E1 !! p = Some e1 /\ entry_item e1 = entry_item e /\ te_id e1 = te_id e)
    as (e1 & He1 & Hit1 & Hid1).
  { unfold E1. destruct (decide (q = p)) as [->|Hne].
    - rewrite lookup_insert_eq. simplify_eq. by eexists.
    - rewrite lookup_insert_ne by done. by eexists. }
  set (E2 := <[p := set_index j e1]> E1).
  set (th' := mkTxHeap (th_isMinHeap th) l' (th_lookup th) E2 (th_next th)).
  assert (txHeap_Swap i j th = (th', Ok tt)) as Hrun.
  { unfold txHeap_Swap. rewrite (bind_run _ _ _ _ _ Hrx), (bind_run _ _ _ _ _ Hry). cbn [fst snd].
    assert (l' !! i = Some q) as Hli.
    { rewrite Hl'. destruct (decide (i = j)) as [->|]; [congruence|by rewrite decide_True]. }
    assert (l' !! j = Some p) as Hlj by (by rewrite Hl', decide_True).
    rewrite (bind_run _ _ _ (set_items l' th) tt) by done.
    rewrite (bind_run _ _ _ _ _ (item_at_eq i (set_items l' th) q f Hli Hf)). cbn [fst snd].
    rewrite (bind_run _ _ _ (store_entry q (set_index i f) (set_items l' th)) tt) by done.
    rewrite (bind_run _ _ _ _ _ (item_at_eq j (store_entry q (set_index i f) (set_items l' th)) p e1 Hlj He1)). reflexivity. }
  (* each entry keeps its item; those at [i] and [j] change their index *)
  assert (forall r g, th_entries th !! r = Some g -> exists g', E2 !! r = Some g' /\
    entry_item g' = entry_item g /\ te_id g' = te_id g /\
    te_index g' = if decide (r = p) then j else if decide (r = q) then i else te_index g) as HE2.
  { intros r g Hg. unfold E2. destruct (decide (r = p)) as [->|Hrp].
    { rewrite lookup_insert_eq. assert (g = e) as -> by congruence.
      exists (set_index j e1). split_and!; [done|exact Hit1|exact Hid1|done]. }
    rewrite lookup_insert_ne by done. unfold E1. destruct (decide (r = q)) as [->|Hrq].
    { rewrite lookup_insert_eq. assert (g = f) as -> by congruence. by exists (set_index i f). }
    rewrite lookup_insert_ne by done. by exists g. }
  exists th'. split_and!; [done| |].
  - constructor; cbn [th_isMinHeap th_items th_entries th_lookup th_next th'].
    + apply Hi.
    + intros k r. rewrite Hl'. intros Hr.
      assert (exists g, th_entries th !! r = Some g /\ th_lookup th !! te_id g = Some r /\
        k = if decide (r = p) then j else if decide (r = q) then i else te_index g)
        as (g & Hg & Hlg & Hk).
      { destruct (decide (k = j)) as [->|Hkj].
        { injection Hr as <-. exists e. by rewrite decide_True. }
        destruct (decide (k = i)) as [->|Hki].
        { injection Hr as <-. exists f. destruct (decide (q = p)) as [->|Hqp].
          - destruct Hkj. by eapply items_inj.
          - by rewrite decide_True. }
        destruct (hi_items b th Hi k r Hr) as (g & Hg & Hidx & Hlg). exists g.
        split_and!; [done..|]. destruct (decide (r = p)) as [->|Hrp];
          [destruct Hki; by eapply items_inj|].
        destruct (decide (r = q)) as [->|Hrq]; [destruct Hkj; by eapply items_inj|done]. }
      destruct (HE2 r g Hg) as (g' & Hg' & _ & Hid & Hidx). exists g'.
      split_and!; [done| |by rewrite Hid]. by rewrite Hidx.
    + intros id r Hr. destruct (hi_lookup b th Hi id r Hr) as (k & g & Hk & Hg & <-).
      destruct (HE2 r g Hg) as (g' & Hg' & _ & Hid & _).
      exists (if decide (r = p) then j else if decide (r = q) then i else k), g'.
      split_and!; [|done..]. rewrite Hl'. destruct (decide (r = p)) as [->|Hrp];
        [by rewrite decide_True|].
      destruct (decide (r = q)) as [->|Hrq].
      * destruct (decide (i = j)) as [->|Hij]; [by simplify_eq|by rewrite decide_True].
      * by rewrite !decide_False by (intros ->; congruence).
    + intros r [g Hg]. apply (hi_fresh b th Hi). unfold E2, E1 in Hg.
      destruct (decide (r = p)) as [->|Hrp]; [by eexists|]. rewrite lookup_insert_ne in Hg by done.
      destruct (decide (r = q)) as [->|Hrq]; [by eexists|].
      rewrite lookup_insert_ne in Hg by done. by eexists.
  - apply list_eq. intros k. rewrite lookup_list_swap by (by rewrite length_heap_view).
    rewrite Hx, Hy. destruct (HE2 p e He) as (e' & He' & <- & _).
    destruct (HE2 q f Hf) as (f' & Hf' & <- & _).
    destruct (decide (k = i)) as [->|Hki].
    { apply (heap_view_at th' i q f'); [|done]. cbn. rewrite Hl'.
      destruct (decide (i = j)) as [->|]; [congruence|by rewrite decide_True]. }
    destruct (decide (k = j)) as [->|Hkj].
    { apply (heap_view_at th' j p e'); [|done]. cbn. by rewrite Hl', decide_True. }
    destruct (th_items th !! k) as [r|] eqn:Hr.
    + destruct (hi_items b th Hi k r Hr) as (g & Hg & _).
      destruct (HE2 r g Hg) as (g' & Hg' & Hit & _).
      rewrite (heap_view_at th k r g), <- Hit by done.
      apply (heap_view_at th' k r g'); [|done]. cbn. by rewrite Hl', !decide_False.
    + unfold heap_view. rewrite !list_lookup_fmap. cbn [th_items th'].
      by rewrite Hl', !decide_False, Hr by done.
Qed.

(** Adding an entry whose id is new. *)
Lemma txHeap_Push_run th entry :
  heap_inv b th -> txHeap_Has th (te_id entry) = false -> te_index entry = txHeap_Len th ->
  exists th', txHeap_Push entry th = (th', Ok tt) /\ heap_inv b th' /\
    heap_view th' = heap_view th ++ [entry_item entry].
Proof.
  intros Hi Hhas Hidx. unfold txHeap_Push. rewrite Hhas.
  assert (th_lookup th !! te_id entry = None) as Hnew.
  { unfold txHeap_Has, txHeap_Get in Hhas. apply bool_decide_eq_false in Hhas.
    by apply eq_None_not_Some. }
  assert (forall r, is_Some (th_entries th !! r) -> r <> th_next th) as Hfr.
  { intros r Hr ->. apply (hi_fresh b th Hi) in Hr. lia. }
  eexists. split; [done|]. split; [constructor|]; cbn [th_isMinHeap th_items th_entries th_lookup th_next].
  - apply Hi.
  - intros k r Hk. apply lookup_app_Some in Hk as [Hk|[Hlen Hk]].
    + destruct (hi_items b th Hi k r Hk) as (g & Hg & Hgi & Hgl). exists g.
      rewrite !lookup_insert_ne; [done|congruence|]. intros Heq. symmetry in Heq. revert Heq.
      apply Hfr. by eexists.
    + apply list_lookup_singleton_Some in Hk as [Hk <-]. exists entry.
      rewrite !lookup_insert_eq. split_and!; [done| |done]. rewrite Hidx. unfold txHeap_Len. lia.
  - intros id r Hr. apply lookup_insert_Some in Hr as [[<- <-]|[Hne Hr]].
    + exists (length (th_items th)), entry. rewrite lookup_insert_eq. split_and!; [|done..].
      apply list_lookup_middle. done.
    + destruct (hi_lookup b th Hi id r Hr) as (k & g & Hk & Hg & Hid). exists k, g.
      split_and!; [by apply lookup_app_l_Some| |done]. rewrite lookup_insert_ne; [done|].
      intros Heq. symmetry in Heq. revert Heq. apply Hfr. by eexists.
  - intros r Hr. destruct (decide (r = th_next th)) as [->|Hne]; [lia|].
    rewrite lookup_insert_ne in Hr by done. apply (hi_fresh b th Hi) in Hr. lia.
  - unfold heap_view. cbn [th_items th_entries]. rewrite fmap_app. f_equal.
    + apply list_fmap_ext. intros k r Hk. destruct (hi_items b th Hi k r Hk) as (g & Hg & _).
      rewrite lookup_insert_ne; [done|]. intros Heq. symmetry in Heq. revert Heq. apply Hfr.
      by eexists.
    + cbn. by rewrite lookup_insert_eq.
Qed.

Lemma txHeap_Pop_run th l x :
  heap_inv b th -> heap_view th = l ++ [x] ->
  exists th' e, txHeap_Pop th = (th', Ok e) /\ heap_inv b th' /\ heap_view th' = l /\
    entry_item e = x.
Proof.
  intros Hi Hv. assert (txHeap_Len th = S (length l)) as Hlen.
  { unfold txHeap_Len. rewrite <- length_heap_view, Hv, length_app. cbn. lia. }
  unfold txHeap_Pop, gets, bind at 1. rewrite Hlen.
  replace (S (length l) - 1)%nat with (length l) by lia.
  destruct (item_at_run th (length l) x Hi) as (p & e & Hrun & -> & Hp & He & Hidx & Hl).
  { rewrite Hv. by apply list_lookup_middle. }
  rewrite (bind_run _ _ _ _ _ Hrun). unfold modify, bind, ret. cbn [snd].
  eexists _, e. split; [reflexivity|]. split_and!; [constructor| |done];
    cbn [th_isMinHeap th_items th_entries th_lookup th_next].
  - apply Hi.
  - intros k r Hk. apply lookup_take_Some in Hk as [Hk Hlt].
    destruct (hi_items b th Hi k r Hk) as (g & Hg & Hgi & Hgl). exists g.
    split_and!; [done..|]. rewrite lookup_delete_ne; [done|]. intros Hid. rewrite Hid, Hgl in Hl.
    assert (g = e) as -> by congruence. lia.
  - intros id r Hr. apply lookup_delete_Some in Hr as [Hne Hr].
    destruct (hi_lookup b th Hi id r Hr) as (k & g & Hk & Hg & Hid). exists k, g.
    split_and!; [|done..]. rewrite lookup_take_lt; [done|].
    assert (k < txHeap_Len th)%nat by (by eapply lookup_lt_Some).
    destruct (decide (k = length l)) as [->|]; [|lia]. destruct Hne. congruence.
  - apply Hi.
  - unfold heap_view in *. cbn [th_items th_entries]. rewrite fmap_take, Hv. by apply take_app_length.
Qed.

(** The contract of container/heap. *)
#[export] Instance txHeap_laws : HeapLaws txHeap txEntry (price_le b).
Proof.
  refine {| h_view := heap_view; h_inv := heap_inv b; h_elem := entry_item |}.
  - intros th. symmetry. apply length_heap_view.
  - intros th i j x y. apply txHeap_Less_run.
  - intros th i j. apply txHeap_Swap_run.
  - intros th l x. apply txHeap_Pop_run.
Defined.
End tx_heap.

(** ** One heap *)
Section good.
Context (b : bool).
Implicit Types (th : txHeap).

Definition heap_good th : Prop :=
  heap_inv b th /\ ordered_to (price_le b) (length (heap_view th)) (heap_view th).

Lemma heap_good_new n : heap_good (newTxHeap n b).
Proof. split; [apply heap_inv_new|]. intros k Hk. cbn in Hk. lia. Qed.

Lemma Get_view th id p :
  heap_inv b th -> txHeap_Get th id = Some p ->
  exists e, th_entries th !! p = Some e /\ te_id e = id /\
    heap_view th !! te_index e = Some (entry_item e).
Proof.
  intros Hi Hp. destruct (hi_lookup b th Hi id p Hp) as (i & e & Hip & He & Hid). exists e.
  split_and!; [done..|]. destruct (hi_items b th Hi i p Hip) as (e' & He' & Hidx & _).
  assert (e' = e) as -> by congruence. rewrite Hidx. by eapply heap_view_at.
Qed.
Lemma heap_view_ids th : heap_inv b th -> NoDup ((fun x : item => x.1.1) <$> heap_view th).
Proof.
  intros Hi. apply NoDup_alt. intros i j id. rewrite !list_lookup_fmap.
  destruct (heap_view th !! i) as [x|] eqn:Hx; [|done].
  destruct (heap_view th !! j) as [y|] eqn:Hy; [|done]. cbn. intros [= <-] [= Heq].
  destruct (heap_view_lookup b th i x Hi Hx) as (p & e & Hp & He & -> & <- & Hl).
  destruct (heap_view_lookup b th j y Hi Hy) as (q & f & Hq & Hf & -> & <- & Hl').
  cbn in Heq. rewrite Heq in Hl'. congruence.
Qed.
Lemma Has_view th id :
  heap_inv b th -> txHeap_Has th id = true <-> id ∈ ((fun x : item => x.1.1) <$> heap_view th).
Proof.
  intros Hi. unfold txHeap_Has. rewrite bool_decide_eq_true. split.
  - intros [p Hp]. destruct (Get_view th id p Hi Hp) as (e & He & <- & Hv).
    apply list_elem_of_fmap. exists (entry_item e). split; [done|]. by eapply list_elem_of_lookup_2.
  - intros Hid. apply list_elem_of_fmap in Hid as (x & -> & Hx).
    apply list_elem_of_lookup in Hx as [i Hx].
    destruct (heap_view_lookup b th i x Hi Hx) as (p & e & Hp & He & -> & Hidx & Hl). by exists p.
Qed.

Lemma heap_take_out th id p :
  heap_good th -> txHeap_Get th id = Some p ->
  exists e th' x, deref p th = (th, Ok e) /\ te_id e = id /\ Remove (te_index e) th = (th', Ok x) /\
    entry_item x = entry_item e /\ heap_good th' /\ heap_view th ≡ₚ entry_item e :: heap_view th'.
Proof.
  intros [Hi Ho] Hp. destruct (Get_view th id p Hi Hp) as (e & He & Hid & Hv).
  destruct (Remove_run (HeapLaws0 := txHeap_laws b) (price_le b) th (te_index e) (entry_item e) Hi Ho Hv)
    as (th' & x & Hrun & Hx & Hi' & Hperm & Ho').
  exists e, th', x. split_and!; [|done..]. unfold deref. by rewrite He.
Qed.
Lemma heap_put_in th entry :
  heap_good th -> txHeap_Has th (te_id entry) = false -> te_index entry = txHeap_Len th ->
  exists th', Push entry th = (th', Ok tt) /\ heap_good th' /\
    heap_view th' ≡ₚ entry_item entry :: heap_view th.
Proof.
  intros [Hi Ho] Hhas Hidx.
  destruct (txHeap_Push_run b th entry Hi Hhas Hidx) as (th1 & Hrun & Hi1 & Hv1).
  destruct (Push_run (HeapLaws0 := txHeap_laws b) (price_le b) th entry th1 (entry_item entry) Hrun Hi1 Hv1 Ho)
    as (th' & Hrun' & Hi' & Hperm & Ho'). by exists th'.
Qed.
(** The root, and that no element is before it. *)
Lemma heap_root th x :
  heap_good th -> x ∈ heap_view th ->
  exists p e, item_at 0 th = (th, Ok (p, e)) /\ entry_item e ∈ heap_view th /\
    forall y, y ∈ heap_view th -> price_le b (entry_item e) y.
Proof.
  intros [Hi Ho] Hx. destruct (heap_view th !! 0%nat) as [r|] eqn:Hr.
  - destruct (item_at_run b th 0 r Hi Hr) as (p & e & Hrun & -> & _). exists p, e.
    split_and!; [done|by eapply list_elem_of_lookup_2|]. intros y Hy.
    pose proof (ordered_root (price_le b) _ y Ho Hy) as Hle. by rewrite Hr in Hle.
  - destruct (heap_view th); [by apply elem_of_nil in Hx|done].
Qed.
End good.

(** ** The pool *)

Definition item_of (tx : Transaction) : item := (tx_id tx, tx, GetPrice (tx_Unsigned tx)).

(** The heaps are in order and hold the same items, the entry of a transaction
    under its id and with its price. *)
Record mempool_sync (m : Mempool) : Prop := {
  ms_max : heap_good false (mp_maxHeap m);
  ms_min : heap_good true (mp_minHeap m);
  ms_same : heap_view (mp_minHeap m) ≡ₚ heap_view (mp_maxHeap m);
  ms_items x : x ∈ heap_view (mp_maxHeap m) -> x = item_of x.1.2
}.
Definition mempool_inv (m : Mempool) : Prop :=
  mempool_sync m /\ Z.of_nat (Mempool_Len m) <= mp_maxSize m.

(** What the mempool is for: the transactions by id. *)
Definition pool_of (l : list item) : gmap ID Transaction := list_to_map l.*1.
Definition pool (m : Mempool) : gmap ID Transaction := pool_of (heap_view (mp_maxHeap m)).

Lemma pool_of_cons x l l' :
  NoDup ((fun x : item => x.1.1) <$> l) -> l ≡ₚ x :: l' ->
  pool_of l = <[x.1.1 := x.1.2]> (pool_of l') /\ pool_of l' !! x.1.1 = None.
Proof.
  intros Hnd Hperm.
  assert (NoDup ((l.*1).*1)) as Hnd1 by (by rewrite <- list_fmap_compose).
  assert (l.*1 ≡ₚ x.1 :: l'.*1) as Hp1 by (by rewrite Hperm).
  split.
  - unfold pool_of. rewrite (list_to_map_proper _ _ Hnd1 Hp1). by destruct x as [[i t] p].
  - unfold pool_of. apply not_elem_of_list_to_map_1. rewrite Hp1 in Hnd1. cbn in Hnd1.
    by apply NoDup_cons in Hnd1 as [? _].
Qed.
Lemma pool_of_lookup l id tx :
  NoDup ((fun x : item => x.1.1) <$> l) ->
  pool_of l !! id = Some tx <-> exists p, (id, tx, p) ∈ l.
Proof.
  intros Hnd. assert (NoDup ((l.*1).*1)) as Hnd1 by (by rewrite <- list_fmap_compose).
  unfold pool_of. rewrite <- elem_of_list_to_map by done. rewrite list_elem_of_fmap. split.
  - intros ([[i t] p] & Heq & Hin). cbn in Heq. injection Heq as -> ->. by exists p.
  - intros [p Hin]. by exists (id, tx, p).
Qed.

Section mempool.
Implicit Types (m : Mempool).

Lemma pool_lookup m id tx :
  mempool_sync m -> pool m !! id = Some tx <-> tx_id tx = id /\ item_of tx ∈ heap_view (mp_maxHeap m).
Proof.
  intros Hm. unfold pool. rewrite pool_of_lookup by (eapply heap_view_ids, Hm). split.
  - intros [p Hin]. pose proof (ms_items m Hm _ Hin) as Heq. injection Heq as -> ->. done.
  - intros [<- Hin]. by exists (GetPrice (tx_Unsigned tx)).
Qed.
Lemma pool_size m : mempool_sync m -> size (pool m) = Mempool_Len m.
Proof.
  intros Hm. pose proof (heap_view_ids false _ (proj1 (ms_max m Hm))) as Hnd.
  unfold Mempool_Len, txHeap_Len. rewrite <- length_heap_view. unfold pool, pool_of.
  rewrite <- length_map_to_list, map_to_list_to_map.
  - apply length_fmap.
  - by rewrite <- list_fmap_compose.
Qed.
Lemma Mempool_Has_pool m id : mempool_sync m -> Mempool_Has m id = true <-> is_Some (pool m !! id).
Proof.
  intros Hm. unfold Mempool_Has. rewrite (Has_view false) by apply Hm. rewrite list_elem_of_fmap. split.
  - intros (x & -> & Hx). rewrite (ms_items m Hm x Hx) in Hx |- *. exists x.1.2. by apply pool_lookup.
  - intros [tx Htx]. apply pool_lookup in Htx as [<- Hin]; [|done]. by exists (item_of tx).
Qed.
Lemma Mempool_Has_false m id : mempool_sync m -> Mempool_Has m id = false <-> pool m !! id = None.
Proof.
  intros Hm. rewrite <- not_true_iff_false, Mempool_Has_pool by done. by rewrite eq_None_not_Some.
Qed.

(** What an operation leaves alone. *)
Definition same_rest m m' : Prop :=
  mp_g m' = mp_g m /\ mp_maxSize m' = mp_maxSize m /\ mp_newTxs m' = mp_newTxs m.

Lemma remove_run m id :
  mempool_sync m ->
  exists m', remove id m = (m', Ok (pool m !! id)) /\ mempool_sync m' /\
    pool m' = delete id (pool m) /\ same_rest m m' /\ mp_Pending m' = mp_Pending m.
Proof.
  intros Hm. unfold remove, gets, bind at 1. destruct (txHeap_Get (mp_maxHeap m) id) as [p|] eqn:Hp.
  - destruct (heap_take_out false (mp_maxHeap m) id p (ms_max m Hm) Hp)
      as (e & h & x & Hderef & Hid & Hrun & Hx & Hgood & Hperm).
    assert (is_Some (txHeap_Get (mp_minHeap m) id)) as [q Hq].
    { pose proof (Has_view true (mp_minHeap m) id (proj1 (ms_min m Hm))) as Hhas.
      unfold txHeap_Has in Hhas. rewrite bool_decide_eq_true in Hhas. apply Hhas.
      rewrite (ms_same m Hm), Hperm. cbn. rewrite Hid. apply list_elem_of_here. }
    destruct (heap_take_out true (mp_minHeap m) id q (ms_min m Hm) Hq)
      as (f & h' & y & Hderef' & Hid' & Hrun' & Hy & Hgood' & Hperm').
    assert (entry_item e = item_of (te_tx e)) as Hie
      by (apply (ms_items m Hm); rewrite Hperm; apply list_elem_of_here).
    assert (entry_item f = entry_item e) as Hfe.
    { assert (entry_item f ∈ heap_view (mp_maxHeap m)) as Hin
        by (rewrite <- (ms_same m Hm), Hperm'; apply list_elem_of_here).
      pose proof (heap_view_ids false _ (proj1 (ms_max m Hm))) as Hnd. rewrite Hperm in Hin, Hnd.
      apply elem_of_cons in Hin as [Hin|Hin]; [done|]. cbn in Hnd. apply NoDup_cons in Hnd as [Hnot _].
      destruct Hnot. apply list_elem_of_fmap. exists (entry_item f). split; [|done]. cbn. congruence. }
    set (m' := mkMempool (mp_g m) (mp_maxSize m) h h' (mp_Pending m) (mp_newTxs m)).
    pose proof (pool_of_cons (entry_item e) _ _ (heap_view_ids false _ (proj1 (ms_max m Hm))) Hperm)
      as [Hpool Hnone]. cbn [entry_item fst snd] in Hpool, Hnone. rewrite Hid in Hpool, Hnone.
    fold (pool m) in Hpool. change (pool_of (heap_view h)) with (pool m') in Hpool, Hnone.
    exists m'. split_and!; [| | |done..].
    + rewrite Hpool, lookup_insert_eq. unfold on_max, on_min, bind, ret.
      rewrite Hderef. cbn [mp_g mp_maxSize mp_maxHeap mp_minHeap mp_Pending mp_newTxs].
      rewrite Hrun. cbn [mp_g mp_maxSize mp_maxHeap mp_minHeap mp_Pending mp_newTxs]. rewrite Hq.
      cbn [mp_g mp_maxSize mp_maxHeap mp_minHeap mp_Pending mp_newTxs]. rewrite Hderef'.
      cbn [mp_g mp_maxSize mp_maxHeap mp_minHeap mp_Pending mp_newTxs]. rewrite Hrun'.
      unfold m'. do 3 f_equal. rewrite <- Hy in Hfe. by injection Hfe as _ ->.
    + constructor; cbn [m' mp_maxHeap mp_minHeap]; [done|done| |].
      * apply (Permutation.Permutation_cons_inv (a := entry_item e)).
        rewrite <- Hperm, <- (ms_same m Hm), Hperm'. by rewrite Hfe.
      * intros z Hz. apply (ms_items m Hm). rewrite Hperm. by apply list_elem_of_further.
    + by rewrite Hpool, delete_insert_id.
  - exists m. assert (pool m !! id = None) as Hnone.
    { apply Mempool_Has_false; [done|]. unfold Mempool_Has, txHeap_Has. by rewrite Hp. }
    split_and!; [by rewrite Hnone|done|by rewrite delete_id|done..].
Qed.

Definition price (tx : Transaction) : Z := GetPrice (tx_Unsigned tx).
(** [v] is in the pool under its id and no price is lower (higher). *)
Definition is_min (P : gmap ID Transaction) (v : Transaction) : Prop :=
  P !! tx_id v = Some v /\ forall i t, P !! i = Some t -> price v <= price t.
Definition is_max (P : gmap ID Transaction) (v : Transaction) : Prop :=
  P !! tx_id v = Some v /\ forall i t, P !! i = Some t -> price t <= price v.

Lemma pool_nonempty m : mempool_sync m -> pool m <> ∅ -> exists x, x ∈ heap_view (mp_maxHeap m).
Proof.
  intros Hm Hne. destruct (map_choose _ Hne) as (id & tx & Htx).
  apply pool_lookup in Htx as [_ Hin]; [|done]. by eexists.
Qed.

Lemma popMin_run m :
  mempool_sync m -> pool m <> ∅ ->
  exists m' v, popMin m = (m', Ok (Some v, price v)) /\ is_min (pool m) v /\ mempool_sync m' /\
    pool m' = delete (tx_id v) (pool m) /\ same_rest m m' /\ mp_Pending m' = mp_Pending m.
Proof.
  intros Hm Hne. destruct (pool_nonempty m Hm Hne) as [x Hx]. rewrite <- (ms_same m Hm) in Hx.
  destruct (heap_root true (mp_minHeap m) x (ms_min m Hm) Hx) as (p & e & Hrun & He & Hmin).
  rewrite (ms_same m Hm) in He. pose proof (ms_items m Hm _ He) as Hie. cbn in Hie.
  assert (te_id e = tx_id (te_tx e) /\ te_price e = price (te_tx e)) as [Hid Hpr]
    by (by injection Hie as -> ->).
  destruct (remove_run m (te_id e) Hm) as (m' & Hrem & Hm' & Hpool & Hrest & Hpend).
  assert (pool m !! te_id e = Some (te_tx e)) as Hlk
    by (apply pool_lookup; [done|]; by rewrite <- Hie).
  exists m', (te_tx e). rewrite <- Hid. split_and!; [| |done..].
  - unfold popMin, on_min, bind. rewrite Hrun. cbn [snd].
    destruct m as [mg ms mx mn mp mt]. cbn [mp_g mp_maxSize mp_maxHeap mp_minHeap mp_Pending mp_newTxs] in *.
    rewrite Hrem, Hlk. unfold ret. by rewrite Hpr.
  - split; [by rewrite <- Hid|]. intros i t Ht. apply pool_lookup in Ht as [<- Hin]; [|done].
    rewrite <- (ms_same m Hm) in Hin. specialize (Hmin _ Hin). unfold price_le, item_of in Hmin.
    cbn in Hmin. rewrite Hpr in Hmin. exact Hmin.
Qed.

Lemma PopMax_run m :
  mempool_sync m -> pool m <> ∅ ->
  exists m' v, PopMax m = (m', Ok (Some v, price v)) /\ is_max (pool m) v /\ mempool_sync m' /\
    pool m' = delete (tx_id v) (pool m) /\ same_rest m m' /\ mp_Pending m' = mp_Pending m.
Proof.
  intros Hm Hne. destruct (pool_nonempty m Hm Hne) as [x Hx].
  destruct (heap_root false (mp_maxHeap m) x (ms_max m Hm) Hx) as (p & e & Hrun & He & Hmax).
  pose proof (ms_items m Hm _ He) as Hie. cbn in Hie.
  assert (te_id e = tx_id (te_tx e) /\ te_price e = price (te_tx e)) as [Hid Hpr]
    by (by injection Hie as -> ->).
  destruct (remove_run m (te_id e) Hm) as (m' & Hrem & Hm' & Hpool & Hrest & Hpend).
  assert (pool m !! te_id e = Some (te_tx e)) as Hlk
    by (apply pool_lookup; [done|]; by rewrite <- Hie).
  exists m', (te_tx e). rewrite <- Hid. split_and!; [| |done..].
  - unfold PopMax, on_max, bind. rewrite Hrun. cbn [snd].
    destruct m as [mg ms mx mn mp mt]. cbn [mp_g mp_maxSize mp_maxHeap mp_minHeap mp_Pending mp_newTxs] in *.
    rewrite Hrem, Hlk. unfold ret. by rewrite Hpr.
  - split; [by rewrite <- Hid|]. intros i t Ht. apply pool_lookup in Ht as [<- Hin]; [|done].
    specialize (Hmax _ Hin). unfold price_le, item_of in Hmax.
    cbn in Hmax. rewrite Hpr in Hmax. exact Hmax.
Qed.

(** The two pushes of [Add]. *)
Lemma push_both_run m tx :
  mempool_sync m -> pool m !! tx_id tx = None ->
  let entry := mkTxEntry (tx_id tx) tx (GetPrice (tx_Unsigned tx)) (Mempool_Len m) in
  exists m1, (on_max (Push entry) ;;; on_min (Push entry)) m = (m1, Ok tt) /\
    mempool_sync m1 /\ pool m1 = <[tx_id tx := tx]> (pool m) /\ same_rest m m1.
Proof.
  intros Hm Hnone entry. apply Mempool_Has_false in Hnone as Hhas; [|done].
  destruct (heap_put_in false (mp_maxHeap m) entry (ms_max m Hm) Hhas eq_refl)
    as (h & Hrun & Hgood & Hperm).
  assert (txHeap_Len (mp_minHeap m) = txHeap_Len (mp_maxHeap m)) as Hlen
    by (unfold txHeap_Len; rewrite <- !length_heap_view; by rewrite (ms_same m Hm)).
  assert (txHeap_Has (mp_minHeap m) (tx_id tx) = false) as Hhas'.
  { apply not_true_is_false. rewrite (Has_view true) by apply Hm. rewrite (ms_same m Hm).
    rewrite <- (Has_view false) by apply Hm. unfold Mempool_Has in Hhas. by rewrite Hhas. }
  destruct (heap_put_in true (mp_minHeap m) entry (ms_min m Hm) Hhas' (eq_sym Hlen))
    as (h' & Hrun' & Hgood' & Hperm').
  set (m1 := mkMempool (mp_g m) (mp_maxSize m) h h' (mp_Pending m) (mp_newTxs m)).
  exists m1. split_and!; [| | |done].
  - unfold on_max, on_min, bind. rewrite Hrun.
    cbn [mp_g mp_maxSize mp_maxHeap mp_minHeap mp_Pending mp_newTxs]. by rewrite Hrun'.
  - constructor; cbn [m1 mp_maxHeap mp_minHeap]; [done|done| |].
    + by rewrite Hperm, Hperm', (ms_same m Hm).
    + intros x Hx. rewrite Hperm in Hx. apply elem_of_cons in Hx as [->|Hx]; [done|].
      by apply (ms_items m Hm).
  - apply (pool_of_cons (entry_item entry)); [|done]. by eapply heap_view_ids, Hgood.
Qed.

Lemma is_min_in P v : is_min P v -> is_Some (P !! tx_id v).
Proof. intros [-> _]. by eexists. Qed.

(** What [Add] answers and leaves. *)
Definition add_spec (maxSize : Z) (P : gmap ID Transaction) (tx : Transaction) (r : bool)
    (P' : gmap ID Transaction) : Prop :=
  if decide (is_Some (P !! tx_id tx)) then r = false /\ P' = P
  else
    let P1 := <[tx_id tx := tx]> P in
    if decide (Z.of_nat (size P1) <= maxSize) then r = true /\ P' = P1
    else exists v, is_min P1 v /\ P' = delete (tx_id v) P1 /\ r = bool_decide (tx_id v <> tx_id tx).

Lemma add_spec_dup n P tx : is_Some (P !! tx_id tx) -> add_spec n P tx false P.
Proof. intros Hin. unfold add_spec. by rewrite decide_True. Qed.
Lemma add_spec_fits n P tx :
  P !! tx_id tx = None -> Z.of_nat (size (<[tx_id tx := tx]> P)) <= n ->
  add_spec n P tx true (<[tx_id tx := tx]> P).
Proof.
  intros Hnone Hn. unfold add_spec. rewrite decide_False by (rewrite Hnone; by intros [? ?]).
  cbv zeta. by rewrite decide_True.
Qed.
Lemma add_spec_full n P tx v :
  P !! tx_id tx = None -> n < Z.of_nat (size (<[tx_id tx := tx]> P)) ->
  is_min (<[tx_id tx := tx]> P) v ->
  add_spec n P tx (bool_decide (tx_id v <> tx_id tx)) (delete (tx_id v) (<[tx_id tx := tx]> P)).
Proof.
  intros Hnone Hn Hv. unfold add_spec. rewrite decide_False by (rewrite Hnone; by intros [? ?]).
  cbv zeta. rewrite decide_False by lia. by exists v.
Qed.

(** The part of [Add] after the pushes. *)
Lemma Add_split m tx m1 :
  Mempool_Has m (tx_id tx) = false ->
  (on_max (Push (mkTxEntry (tx_id tx) tx (GetPrice (tx_Unsigned tx)) (Mempool_Len m))) ;;;
   on_min (Push (mkTxEntry (tx_id tx) tx (GetPrice (tx_Unsigned tx)) (Mempool_Len m)))) m = (m1, Ok tt) ->
  Mempool_Add tx m =
    (let! stop := (
      if mp_maxSize m1 <? Z.of_nat (Mempool_Len m1) then
        let! r := popMin in
        match r.1 with
        | None => panics NilDereference
        | Some t => ret (bool_decide (tx_id t = tx_id tx))
        end
      else ret false) in
    if stop : bool then ret false
    else modify (fun th => set_newTxs (mp_newTxs th ++ [tx]) th) ;;; addPending ;;; ret true) m1.
Proof.
  intros Hhas Hpush. unfold Mempool_Add, gets, bind at 1. fold (Mempool_Has m (tx_id tx)).
  rewrite Hhas. unfold bind at 1. apply bind_ok in Hpush as (s & [] & H1 & H2).
  rewrite (bind_run _ _ _ _ _ H1), (bind_run _ _ _ _ _ H2). reflexivity.
Qed.

Lemma Add_run m tx :
  mempool_sync m ->
  exists m' r, Mempool_Add tx m = (m', Ok r) /\ add_spec (mp_maxSize m) (pool m) tx r (pool m') /\
    mempool_sync m' /\ mp_g m' = mp_g m /\ mp_maxSize m' = mp_maxSize m /\
    mp_newTxs m' = (if r then mp_newTxs m ++ [tx] else mp_newTxs m).
Proof.
  intros Hm. destruct (Mempool_Has m (tx_id tx)) eqn:Hhas.
  { exists m, false. unfold Mempool_Add, gets, bind at 1. fold (Mempool_Has m (tx_id tx)).
    rewrite Hhas. apply Mempool_Has_pool in Hhas; [|done].
    split_and!; [done|by apply add_spec_dup|done..]. }
  apply Mempool_Has_false in Hhas as Hnone; [|done].
  destruct (push_both_run m tx Hm Hnone) as (m1 & Hpush & Hm1 & Hpool1 & Hg1 & Hs1 & Hn1).
  rewrite (Add_split m tx m1 Hhas Hpush). pose proof (pool_size m1 Hm1) as Hsize.
  rewrite Hpool1 in Hsize.
  destruct (Z.ltb_spec (mp_maxSize m1) (Z.of_nat (Mempool_Len m1))) as [Hlt|Hge].
  - assert (pool m1 <> ∅) as Hne by (rewrite Hpool1; apply insert_non_empty).
    destruct (popMin_run m1 Hm1 Hne)
      as (m2 & v & Hpop & Hmin & Hm2 & Hpool2 & (Hg2 & Hs2 & Hn2) & _).
    rewrite Hpool1 in Hmin, Hpool2.
    pose proof (add_spec_full (mp_maxSize m) (pool m) tx v Hnone ltac:(lia) Hmin) as Hspec.
    rewrite <- Hpool2 in Hspec.
    unfold bind at 1. rewrite (bind_run _ _ _ _ _ Hpop). cbn [fst]. unfold ret at 1.
    destruct (decide (tx_id v = tx_id tx)) as [Hv|Hv].
    + rewrite (bool_decide_eq_true_2 _ Hv). rewrite bool_decide_eq_false_2 in Hspec by (by intros []).
      exists m2, false. split_and!; [done|done|done|congruence..].
    + rewrite (bool_decide_eq_false_2 _ Hv). rewrite bool_decide_eq_true_2 in Hspec by done.
      eexists _, true. split_and!; [reflexivity|exact Hspec|by destruct Hm2
        |exact (eq_trans Hg2 Hg1)|exact (eq_trans Hs2 Hs1)|].
      cbn. by rewrite Hn2, Hn1.
  - pose proof (add_spec_fits (mp_maxSize m) (pool m) tx Hnone ltac:(lia)) as Hspec.
    rewrite <- Hpool1 in Hspec.
    eexists _, true. split_and!; [reflexivity|exact Hspec|by destruct Hm1|exact Hg1|exact Hs1|].
    cbn. by rewrite Hn1.
Qed.

(** *** Prune *)

Definition recent (valid : gset ID) (tx : Transaction) : Prop := GetBlockID (tx_Unsigned tx) ∈ valid.
#[export] Instance recent_dec valid tx : Decision (recent valid tx).
Proof. unfold recent. apply _. Defined.

Lemma prune_ids_run m valid l :
  mempool_sync m -> (forall p, p ∈ l -> p ∈ th_items (mp_maxHeap m)) ->
  exists ids, prune_ids valid l m = (m, Ok ids) /\
    (forall id, id ∈ ids -> exists tx, pool m !! id = Some tx /\ ~ recent valid tx) /\
    (forall p e, p ∈ l -> th_entries (mp_maxHeap m) !! p = Some e -> ~ recent valid (te_tx e) -> te_id e ∈ ids).
Proof.
  intros Hm. induction l as [|p l IH]; intros Hl.
  { exists []. split_and!; [done| |]; [intros id Hid|intros p e Hp]; by apply elem_of_nil in Hid || apply elem_of_nil in Hp. }
  destruct IH as (ids & Hrun & Hsound & Hcomp); [intros q Hq; apply Hl; by apply list_elem_of_further|].
  destruct (list_elem_of_lookup_1 _ p (Hl p (list_elem_of_here _ _))) as [i Hi].
  destruct (hi_items false _ (proj1 (ms_max m Hm)) i p Hi) as (e & He & _ & _).
  assert (item_of (te_tx e) ∈ heap_view (mp_maxHeap m) /\ te_id e = tx_id (te_tx e)) as [Hin Hid].
  { pose proof (list_elem_of_lookup_2 _ _ _ (heap_view_at _ _ _ _ Hi He)) as Hv.
    pose proof (ms_items m Hm _ Hv) as Heq. cbn in Heq. rewrite <- Heq. split; [done|].
    by injection Heq as ->. }
  exists (if bool_decide (recent valid (te_tx e)) then ids else te_id e :: ids).
  cbn [prune_ids]. split_and!.
  - unfold on_max, deref at 1, bind at 1. rewrite He.
    destruct m as [mg ms mx mn mp mt]. cbn [mp_g mp_maxSize mp_maxHeap mp_minHeap mp_Pending mp_newTxs] in *.
    by rewrite (bind_run _ _ _ _ _ Hrun).
  - intros id. destruct (bool_decide (recent valid (te_tx e))) eqn:Hr; [apply Hsound|].
    apply bool_decide_eq_false in Hr. rewrite elem_of_cons. intros [->|Hids]; [|by apply Hsound].
    exists (te_tx e). split; [|done]. rewrite Hid. by apply pool_lookup.
  - intros q f Hq Hf Hold. apply elem_of_cons in Hq as [->|Hq].
    + assert (f = e) as -> by congruence. rewrite bool_decide_eq_false_2 by done.
      apply list_elem_of_here.
    + pose proof (Hcomp q f Hq Hf Hold). destruct (bool_decide _); [done|by apply list_elem_of_further].
Qed.

Lemma remove_all_run m ids :
  mempool_sync m ->
  exists m', for_each (fun txID => let! _ := Mempool_Remove txID in ret tt) ids m = (m', Ok tt) /\
    mempool_sync m' /\ pool m' = filter (fun kv => kv.1 ∉ ids) (pool m) /\ same_rest m m' /\
    mp_Pending m' = mp_Pending m.
Proof.
  revert m. induction ids as [|id ids IH]; intros m Hm.
  { exists m. split_and!; [done|done| |done..]. symmetry. apply map_filter_id. intros i x _. cbn.
    apply not_elem_of_nil. }
  destruct (remove_run m id Hm) as (m1 & Hrun & Hm1 & Hpool1 & (Hg1 & Hs1 & Hn1) & Hp1).
  destruct (IH m1 Hm1) as (m' & Hrun' & Hm' & Hpool' & (Hg & Hs & Hn) & Hp').
  exists m'. split_and!; [|done| |split_and!; congruence|congruence].
  - cbn [for_each]. unfold bind at 1. unfold Mempool_Remove at 1.
    by rewrite (bind_run _ _ _ _ _ Hrun).
  - rewrite Hpool', Hpool1. apply map_eq. intros i. rewrite !map_lookup_filter.
    destruct (decide (i = id)) as [->|Hne].
    + rewrite lookup_delete_eq. destruct (pool m !! id); [|done]. cbn.
      rewrite option_guard_False; [done|]. intros Hnot. apply Hnot, list_elem_of_here.
    + rewrite lookup_delete_ne by done. destruct (pool m !! i); [|done]. cbn.
      apply option_guard_iff. rewrite not_elem_of_cons. naive_solver.
Qed.

Lemma Prune_run m valid :
  mempool_sync m ->
  exists m', Prune valid m = (m', Ok tt) /\ mempool_sync m' /\
    pool m' = filter (fun kv => recent valid kv.2) (pool m) /\ same_rest m m' /\
    mp_Pending m' = mp_Pending m.
Proof.
  intros Hm. destruct (prune_ids_run m valid (th_items (mp_maxHeap m)) Hm)
    as (ids & Hids & Hsound & Hcomp); [done|].
  destruct (remove_all_run m ids Hm) as (m' & Hrun & Hm' & Hpool & Hrest).
  exists m'. split_and!; [|done| |apply Hrest..].
  - unfold Prune, gets, bind at 1. by rewrite (bind_run _ _ _ _ _ Hids).
  - rewrite Hpool. apply map_filter_ext. intros i tx Htx. cbn. split.
    + intros Hnot. destruct (decide (recent valid tx)) as [|Hold]; [done|]. destruct Hnot.
      apply pool_lookup in Htx as [<- Hin]; [|done]. apply list_elem_of_lookup in Hin as [k Hk].
      destruct (heap_view_lookup false _ k _ (proj1 (ms_max m Hm)) Hk)
        as (p & e & Hp & He & Heq & _). injection Heq as Hid Htx Hpr. rewrite Hid.
      apply (Hcomp p e); [by eapply list_elem_of_lookup_2|done|by rewrite <- Htx].
    + intros Hrec Hin. apply Hsound in Hin as (tx' & Htx' & Hold). congruence.
Qed.
End mempool.

(** ** Refinement *)

Inductive mempool_op :=
  | OpAdd (tx : Transaction) | OpRemove (id : ID) | OpPopMax | OpPopMin
  | OpPrune (validHashes : gset ID).
Inductive mempool_answer :=
  | AnsBool (b : bool) | AnsTx (tx : option Transaction) | AnsPop (tx : option Transaction) (price : Z)
  | AnsNone.

Definition run_op (op : mempool_op) : M Mempool mempool_answer :=
  match op with
  | OpAdd tx => let! b := Mempool_Add tx in ret (AnsBool b)
  | OpRemove id => let! t := Mempool_Remove id in ret (AnsTx t)
  | OpPopMax => let! r := PopMax in ret (AnsPop r.1 r.2)
  | OpPopMin => let! r := PopMin in ret (AnsPop r.1 r.2)
  | OpPrune valid => Prune valid ;;; ret AnsNone
  end.

(** The abstract mempool: a finite map from ids to transactions that never holds
    more than [maxSize], of which [Add] drops a cheapest one when it is full. *)
Inductive pool_step (maxSize : Z) (P : gmap ID Transaction) :
    mempool_op -> mempool_answer -> gmap ID Transaction -> Prop :=
  | step_add tx r P' : add_spec maxSize P tx r P' -> pool_step maxSize P (OpAdd tx) (AnsBool r) P'
  | step_remove id : pool_step maxSize P (OpRemove id) (AnsTx (P !! id)) (delete id P)
  | step_pop_max v : is_max P v ->
      pool_step maxSize P OpPopMax (AnsPop (Some v) (price v)) (delete (tx_id v) P)
  | step_pop_min v : is_min P v ->
      pool_step maxSize P OpPopMin (AnsPop (Some v) (price v)) (delete (tx_id v) P)
  | step_prune valid :
      pool_step maxSize P (OpPrune valid) AnsNone (filter (fun kv => recent valid kv.2) P).

Definition op_ready (P : gmap ID Transaction) (op : mempool_op) : Prop :=
  match op with OpPopMax | OpPopMin => P <> ∅ | _ => True end.

Lemma Mempool_New_inv g n : 0 <= n -> mempool_inv (Mempool_New g n).
Proof.
  intros Hn. split; [constructor|cbn; done].
  - apply heap_good_new.
  - apply heap_good_new.
  - done.
  - intros x Hx. by apply elem_of_nil in Hx.
Qed.

Lemma size_le_inv m m' :
  mempool_sync m -> mempool_sync m' -> (size (pool m') <= size (pool m))%nat ->
  mp_maxSize m' = mp_maxSize m -> mempool_inv m -> mempool_inv m'.
Proof. intros Hm Hm' Hle Hs [_ Hn]. split; [done|]. rewrite !pool_size in Hle by done. lia. Qed.

Lemma add_spec_size n P tx r P' :
  add_spec n P tx r P' -> Z.of_nat (size P) <= n -> Z.of_nat (size P') <= n.
Proof.
  unfold add_spec. destruct (decide (is_Some (P !! tx_id tx))) as [Hin|Hnot]; [by intros [_ ->]|].
  cbv zeta. destruct (decide _) as [Hle|Hgt]; [by intros [_ ->]|].
  intros (v & Hv & -> & _) Hn. rewrite map_size_delete_Some by by apply is_min_in.
  rewrite map_size_insert_None by (by apply eq_None_not_Some). lia.
Qed.

(** C11: Every operation of the mempool on an invariant state is the step of the
    abstract pool, without a panic, and keeps the invariant: both heaps in
    order and in step, no more than [maxSize] transactions. *)
Theorem mempool_refines_pool m op :
  mempool_inv m -> op_ready (pool m) op ->
  exists m' a, run_op op m = (m', Ok a) /\ pool_step (mp_maxSize m) (pool m) op a (pool m') /\
    mempool_inv m' /\ mp_maxSize m' = mp_maxSize m.
Proof.
  intros Hinv Hready. assert (mempool_sync m) as Hm by apply Hinv. destruct op as [tx|id| | |valid].
  - destruct (Add_run m tx Hm) as (m' & r & Hrun & Hspec & Hm' & _ & Hs & _).
    exists m', (AnsBool r). split_and!; [by unfold run_op; rewrite (bind_run _ _ _ _ _ Hrun)
      |by constructor|split; [done|]|done].
    rewrite <- pool_size, Hs by done. eapply add_spec_size; [exact Hspec|].
    rewrite pool_size by done. apply Hinv.
  - destruct (remove_run m id Hm) as (m' & Hrun & Hm' & Hpool & (_ & Hs & _) & _).
    eexists m', _. split_and!; [unfold run_op, Mempool_Remove; by rewrite (bind_run _ _ _ _ _ Hrun)
      |rewrite Hpool; constructor| |done].
    eapply (size_le_inv m); [done..| |done|done]. rewrite Hpool. apply map_subseteq_size, delete_subseteq.
  - destruct (PopMax_run m Hm Hready) as (m' & v & Hrun & Hv & Hm' & Hpool & (_ & Hs & _) & _).
    eexists m', _. split_and!; [unfold run_op; by rewrite (bind_run _ _ _ _ _ Hrun)
      |rewrite Hpool; by constructor| |done].
    eapply (size_le_inv m); [done..| |done|done]. rewrite Hpool. apply map_subseteq_size, delete_subseteq.
  - destruct (popMin_run m Hm Hready) as (m' & v & Hrun & Hv & Hm' & Hpool & (_ & Hs & _) & _).
    eexists m', _. split_and!; [unfold run_op, PopMin; by rewrite (bind_run _ _ _ _ _ Hrun)
      |rewrite Hpool; by constructor| |done].
    eapply (size_le_inv m); [done..| |done|done]. rewrite Hpool. apply map_subseteq_size, delete_subseteq.
  - destruct (Prune_run m valid Hm) as (m' & Hrun & Hm' & Hpool & (_ & Hs & _) & _).
    eexists m', _. split_and!; [unfold run_op; by rewrite (bind_run _ _ _ _ _ Hrun)
      |rewrite Hpool; constructor| |done].
    eapply (size_le_inv m); [done..| |done|done]. rewrite Hpool. apply map_subseteq_size, map_filter_subseteq.
Qed.

(** ** Gossip *)

Definition load (g : Genesis) (tx : Transaction) : Z :=
  match LoadUnits (tx_Unsigned tx) g with Ok z => z | _ => 0 end.
Fixpoint total_load (g : Genesis) (l : list Transaction) : Z :=
  match l with [] => 0 | tx :: l' => load g tx + total_load g l' end.

Lemma LoadUnits_ok g u :
  Genesis_ValueUnitSize g <> 0 -> is_u64 (Genesis_BaseTxUnits g) ->
  exists z, LoadUnits u g = Ok z /\ is_u64 z.
Proof.
  intros Hv Hb. assert (is_u64 0) by (unfold is_u64; lia).
  destruct u; cbn [LoadUnits FeeUnits]; try (by eexists).
  unfold SetTx_FeeUnits, valueUnits, obind. rewrite (proj2 (Z.eqb_neq _ _) Hv).
  eexists. split; [done|apply u64_range].
Qed.

(** The transactions of [l] that are still in the mempool. *)
Definition live (m : Mempool) (l : list Transaction) : list Transaction :=
  filter (fun tx => Mempool_Has m (tx_id tx) = true) l.

Lemma newTxs_loop_run m maxUnits units l :
  Genesis_ValueUnitSize (mp_g m) <> 0 -> is_u64 (Genesis_BaseTxUnits (mp_g m)) ->
  is_u64 maxUnits -> 0 <= units <= maxUnits ->
  exists sel rest, newTxs_loop m maxUnits units l = Ok (sel, rest) /\
    live m l = sel ++ live m rest /\ rest `suffix_of` l /\
    units + total_load (mp_g m) sel <= maxUnits /\
    (forall tx rest', rest = tx :: rest' -> Mempool_Has m (tx_id tx) = true /\
      maxUnits < units + total_load (mp_g m) sel + load (mp_g m) tx).
Proof.
  intros Hv Hb Hmax. revert units. induction l as [|tx l IH]; intros units Hu.
  { exists [], []. split_and!; [done..|cbn; lia|done]. }
  cbn [newTxs_loop]. unfold live. rewrite filter_cons.
  destruct (Mempool_Has m (tx_id tx)) eqn:Hhas; cbn [negb].
  - rewrite decide_True by done. destruct (LoadUnits_ok (mp_g m) (tx_Unsigned tx) Hv Hb) as (z & Hz & Hz64).
    assert (load (mp_g m) tx = z) as Hload by (unfold load; by rewrite Hz).
    rewrite Hz. cbn [obind]. rewrite u64_small by (unfold is_u64 in *; lia).
    destruct (Z.ltb_spec (maxUnits - units) z) as [Hlt|Hge].
    + exists [], (tx :: l). split_and!; [done| |done|cbn; lia|].
      * by rewrite app_nil_l, filter_cons, decide_True by done.
      * intros tx' rest' [= <- <-]. split; [done|]. cbn. lia.
    + rewrite u64_small by (unfold is_u64 in *; lia).
      destruct (IH (units + z)) as (sel & rest & Hrun & Hlive & Hsuf & Hle & Hfirst);
        [unfold is_u64 in *; lia|].
      rewrite Hrun. cbn [obind fst snd]. exists (tx :: sel), rest.
      split_and!; [done| |by apply suffix_cons_r|cbn; lia|].
      * unfold live in Hlive. by rewrite Hlive.
      * intros tx' rest' Heq. destruct (Hfirst tx' rest' Heq). split; [done|]. cbn. lia.
  - rewrite decide_False by done. destruct (IH units Hu) as (sel & rest & Hrun & Hlive & Hsuf & Hrest).
    exists sel, rest. split_and!; [done|done|by apply suffix_cons_r|apply Hrest..].
Qed.

(** The batches of new transactions to gossip: in order, of at most [maxUnits]
    load units each, and every transaction still in the mempool is either in
    the batch or waits for the next one; a batch ends early only before a
    transaction that does not fit. *)
Theorem NewTxs_batch m maxUnits :
  Genesis_ValueUnitSize (mp_g m) <> 0 -> is_u64 (Genesis_BaseTxUnits (mp_g m)) -> is_u64 maxUnits ->
  exists m' batch, NewTxs maxUnits m = (m', Ok batch) /\
    (mp_maxHeap m' = mp_maxHeap m /\ mp_minHeap m' = mp_minHeap m) /\
    live m (mp_newTxs m) = batch ++ live m (mp_newTxs m') /\
    mp_newTxs m' `suffix_of` mp_newTxs m /\
    total_load (mp_g m) batch <= maxUnits /\
    (forall tx rest, mp_newTxs m' = tx :: rest ->
      maxUnits < total_load (mp_g m) batch + load (mp_g m) tx).
Proof.
  intros Hv Hb Hmax.
  destruct (newTxs_loop_run m maxUnits 0 (mp_newTxs m) Hv Hb Hmax)
    as (sel & rest & Hrun & Hlive & Hsuf & Hle & Hfirst); [unfold is_u64 in *; lia|].
  exists (set_newTxs rest m), sel. unfold NewTxs. rewrite Hrun.
  split_and!; [done..|]. intros tx rest' Heq. by destruct (Hfirst tx rest' Heq).
Qed.
