(* ===== verification/BuildFacts.v ===== *)
(** * Building a block empties the mempool in finitely many passes *)

From S2P Require Import Prelude External GoStd Heap TData Builder Keys Storage Genesis.
From S2P Require Import SamaState Users Tx TypedTx Activity Block Mempool MempoolFacts VM.

Section build.
Context `{Database} `{Cacher Address UserMeta} `{Cacher ID block_loc}.
Context `{Ethereum} `{EthMath} `{GoRuntime} `{ChainCodecs} `{TxCodec} `{BlockCodec}.
Variables (g : Genesis) (blk : StatefulBlock) (ctx : Context_t).
Implicit Types (v : VM) (s : build_state).

Definition pool_len v : nat := Mempool_Len (vm_mempool v).
Definition synced v : Prop := mempool_sync (vm_mempool v).

Lemma on_overlay_mempool {A} (db : DB) (m : M world A) v : vm_mempool (on_overlay db m v).1 = vm_mempool v.
Proof. unfold on_overlay. by destruct (m _) as [w [a|e|p]]. Qed.

(** The next passes start with fewer transactions. *)
Lemma build_pass_ext r1 r2 s v :
  synced v -> (0 < pool_len v)%nat ->
  (forall s' v', synced v' -> (pool_len v' < pool_len v)%nat -> r1 s' v' = r2 s' v') ->
  build_pass r1 g blk ctx s v = build_pass r2 g blk ctx s v.
Proof.
  intros Hm Hlen Hr. unfold build_pass.
  assert (pool (vm_mempool v) <> ∅) as Hne.
  { intros Hempty. unfold pool_len in Hlen. rewrite <- pool_size, Hempty in Hlen by done.
    rewrite map_size_empty in Hlen. lia. }
  destruct (PopMax_run _ Hm Hne) as (m' & tx & Hrun & Hmax & Hm' & Hpool & _).
  set (v1 := put_mempool m' v).
  assert (zoom PopMax v = (v1, Ok (Some tx, price tx))) as Hpop
    by (unfold zoom; cbn [view lens_mempool]; by rewrite Hrun).
  rewrite !(bind_run _ _ _ _ _ Hpop). cbn [fst snd].
  assert (synced v1 /\ (pool_len v1 < pool_len v)%nat) as [Hs1 Hl1].
  { split; [done|]. unfold pool_len. change (vm_mempool v1) with m'.
    rewrite <- !pool_size, Hpool by done.
    assert (is_Some (pool (vm_mempool v) !! tx_id tx)) as Hin by (exists tx; apply Hmax).
    rewrite map_size_delete_Some by done. apply map_size_non_empty_iff in Hne. lia. }
  destruct (_ <? Price blk); [done|]. unfold lift_outcome, bind.
  destruct (LoadUnits _ _) as [z|e|p]; [|done..]. destruct (_ <? _); [by apply Hr|]. pose proof (on_overlay_mempool (versiondb_New (bs_vdb s))
    (Transaction_Execute tx g (blk_Tmstmp blk) ctx) v1) as Hmp.
  destruct (on_overlay _ _ v1) as [v2 [r|e|p]]; [|done..]. cbn [fst] in Hmp.
  assert (synced v2 /\ (pool_len v2 < pool_len v)%nat) as [Hs2 Hl2]
    by (unfold synced, pool_len in *; by rewrite Hmp).
  destruct r.2; [by apply Hr|]. destruct (versiondb_Commit _ _) as [db [e|[]]]; [done|by apply Hr].
Qed.

Lemma build_loop_fuel n s v :
  synced v -> (pool_len v <= n)%nat -> build_loop n g blk ctx s v = build_loop (pool_len v) g blk ctx s v.
Proof.
  revert s v. induction n as [n IH] using lt_wf_ind. intros s v Hm Hn.
  destruct (decide (pool_len v = 0%nat)) as [Hz|Hz].
  { rewrite Hz. destruct n; [done|]. cbn [build_loop]. unfold gets, bind. fold (pool_len v). rewrite Hz. done. }
  destruct n as [|n]; [lia|]. destruct (pool_len v) as [|k] eqn:Hk; [done|].
  cbn [build_loop]. unfold gets, bind. fold (pool_len v). rewrite Hk.
  rewrite bool_decide_eq_false_2 by done. apply build_pass_ext; [done|lia|].
  intros s' v' Hm' Hl. rewrite (IH n) by (done || lia).
  destruct (decide (k = n)) as [->|]; [by rewrite (IH n) by (done || lia)|].
  by rewrite (IH k) by (done || lia).
Qed.

(** The loop of [BuildBlock] ends: with the length of the mempool as fuel the
    model is the unbounded loop, for it satisfies the loop's own equation, in
    which fuel plays no part. *)
Theorem build_loop_is_the_loop s v :
  let loop s v := build_loop (pool_len v) g blk ctx s v in
  synced v ->
  loop s v = if decide (pool_len v = 0%nat) then (v, Ok (s, inr tt))
             else build_pass loop g blk ctx s v.
Proof.
  intros loop Hm. subst loop. cbv beta. destruct (decide (pool_len v = 0%nat)) as [Hz|Hz].
  - rewrite Hz. cbn [build_loop]. unfold gets, bind. fold (pool_len v). rewrite Hz. done.
  - destruct (pool_len v) as [|n] eqn:Hn; [done|]. cbn [build_loop]. unfold gets, bind.
    fold (pool_len v). rewrite Hn. rewrite bool_decide_eq_false_2 by done.
    apply build_pass_ext; [done|lia|]. intros s' v' Hm' Hl. apply build_loop_fuel; [done|lia].
Qed.
End build.
