(* ===== verification/Network.v ===== *)
(** * Gossip: vm/network.go

    [connected] says whether the node has an app sender; the messages handed to
    it are kept in [pn_sent]. *)

From S2P Require Import Prelude External GoStd Heap TData Builder Keys Storage Genesis.
From S2P Require Import SamaState Users Tx TypedTx Activity Block Mempool MempoolFacts VM.

(** [common.AppSender], and the codec at a slice of transactions. *)
Class AppSender := { SendAppGossip : bytes -> result unit }.
Class GossipCodec := { codec_gossip :: Codec (list (UnsignedTransaction * bytes)) }.

Record PushNetwork `{Cacher ID unit} := mkPushNetwork {
  pn_gossipedTxs : Cache_t ID unit;
  pn_sent : list bytes
}.
Arguments PushNetwork {_}.
Arguments mkPushNetwork {_}.
Definition gossipedTxsLRUSize : Z := 512.

Section network.
Context `{Database} `{Cacher Address UserMeta} `{Cacher ID block_loc} `{Cacher ID unit}.
Context `{Ethereum} `{EthMath} `{GoRuntime} `{ChainCodecs} `{TxCodec} `{BlockCodec} `{GossipCodec}.
Context `{AppSender}.
Variable (connected : bool).

Definition NewPushNetwork : PushNetwork := mkPushNetwork cache_New [].

Definition sendTxs (txs : list Transaction) : M (VM * PushNetwork) unit :=
  if bool_decide (length txs = 0%nat) then ret tt
  else
    let! b := lift (Marshal (tx_wire <$> txs)) in
    modify (fun p => (p.1, mkPushNetwork (pn_gossipedTxs p.2) (pn_sent p.2 ++ [b]))) ;;;
    lift (SendAppGossip b).

Definition gossiped (id : ID) : M (VM * PushNetwork) bool := fun p =>
  let '(c, hit) := cache_Get (pn_gossipedTxs p.2) id in
  ((p.1, mkPushNetwork c (pn_sent p.2)), Ok (bool_decide (is_Some hit))).
Definition mark_gossiped (id : ID) : M (VM * PushNetwork) unit :=
  modify (fun p => (p.1, mkPushNetwork (cache_Put (pn_gossipedTxs p.2) id tt) (pn_sent p.2))).

Fixpoint new_to_gossip (newTxs : list Transaction) : M (VM * PushNetwork) (list Transaction) :=
  match newTxs with
  | [] => ret []
  | tx :: newTxs' =>
      let! exists_ := gossiped (tx_id tx) in
      if exists_ : bool then new_to_gossip newTxs'
      else
        mark_gossiped (tx_id tx) ;;;
        let! rest := new_to_gossip newTxs' in
        ret (tx :: rest)
  end.
Definition GossipNewTxs (newTxs : list Transaction) : M (VM * PushNetwork) unit :=
  if negb connected then ret tt
  else let! txs := new_to_gossip newTxs in sendTxs txs.

(** Every pass takes a transaction out of the mempool. *)
Fixpoint regossip_loop (fuel : nat) (g : Genesis) (txs : list Transaction) (units : Z) :
    M (VM * PushNetwork) (list Transaction) :=
  let! len := gets (fun p => Mempool_Len (vm_mempool p.1)) in
  if bool_decide (len = 0%nat) || (Genesis_TargetBlockSize g <=? units) then ret txs
  else
    match fuel with
    | O => panics OutOfFuel
    | S fuel' =>
        let! popped := zoom (zoom PopMax) in
        match popped.1 with
        | None => panics NilDereference
        | Some tx =>
            mark_gossiped (tx_id tx) ;;;
            let! load := lift_outcome (LoadUnits (tx_Unsigned tx) g) in
            regossip_loop fuel' g (txs ++ [tx]) (units +u load)
        end
    end.
Definition RegossipTxs : M (VM * PushNetwork) unit :=
  if negb connected then ret tt
  else
    let! len := gets (fun p => Mempool_Len (vm_mempool p.1)) in
    let! g := gets (fun p => vm_genesis p.1) in
    let! txs := regossip_loop len g [] 0 in
    sendTxs txs.

(** A tick of the gossip loop of the builder. *)
Definition gossip_tick : M (VM * PushNetwork) (result unit) :=
  let! g := gets (fun p => vm_genesis p.1) in
  let! newTxs := zoom (zoom (NewTxs (Genesis_TargetBlockSize g))) in
  attempt (GossipNewTxs newTxs).

(** Messages that do not parse, and transactions that are refused, are dropped. *)
Definition AppGossip (msg : bytes) : M VM unit :=
  match Unmarshal msg with
  | inl _ => ret tt
  | inr txs => let! _ := Submit (wire_tx <$> txs) in ret tt
  end.

(** ** Regossip forgets *)

Definition net_pool (p : VM * PushNetwork) : gmap ID Transaction := pool (vm_mempool p.1).
Definition net_len (p : VM * PushNetwork) : nat := Mempool_Len (vm_mempool p.1).

Lemma regossip_pass p :
  mempool_sync (vm_mempool p.1) -> net_len p <> 0%nat ->
  exists p' tx, zoom (zoom PopMax) p = (p', Ok (Some tx, price tx)) /\
    mempool_sync (vm_mempool p'.1) /\ net_pool p !! tx_id tx = Some tx /\
    net_pool p' = delete (tx_id tx) (net_pool p) /\ p'.2 = p.2 /\ S (net_len p') = net_len p.
Proof.
  intros Hm Hlen. assert (pool (vm_mempool p.1) <> ∅) as Hne.
  { intros Hempty. unfold net_len in Hlen. rewrite <- pool_size, Hempty, map_size_empty in Hlen by done. done. }
  destruct (PopMax_run _ Hm Hne) as (m' & tx & Hrun & Hmax & Hm' & Hpool & _).
  exists ((put_mempool m' p.1), p.2), tx. split_and!; [|done|apply Hmax|done|done|].
  - unfold zoom. cbn [view lens_fst lens_mempool fst]. by rewrite Hrun.
  - unfold net_len. cbn [fst]. change (vm_mempool (put_mempool m' p.1)) with m'.
    rewrite <- !pool_size, Hpool by done.
    rewrite map_size_delete_Some by (exists tx; apply Hmax). apply map_size_non_empty_iff in Hne. lia.
Qed.

Lemma regossip_loop_run fuel g txs units p :
  Genesis_ValueUnitSize g <> 0 -> is_u64 (Genesis_BaseTxUnits g) ->
  mempool_sync (vm_mempool p.1) -> (net_len p <= fuel)%nat ->
  exists p' sent, regossip_loop fuel g txs units p = (p', Ok (txs ++ sent)) /\
    mempool_sync (vm_mempool p'.1) /\
    (forall tx, tx ∈ sent -> net_pool p !! tx_id tx = Some tx /\ net_pool p' !! tx_id tx = None) /\
    (forall id tx, net_pool p !! id = Some tx -> tx ∈ sent \/ net_pool p' !! id = Some tx) /\
    net_pool p' ⊆ net_pool p /\
    (sent = [] -> net_len p = 0%nat \/ Genesis_TargetBlockSize g <= units).
Proof.
  intros Hv Hb. revert txs units p. induction fuel as [|fuel IH]; intros txs units p Hm Hlen.
  all: cbn [regossip_loop]; unfold gets, bind at 1; fold (net_len p).
  { assert (net_len p = 0%nat) as Hz by lia. rewrite Hz. rewrite bool_decide_eq_true_2 by done.
    exists p, []. rewrite app_nil_r. split_and!; [done|done|by intros ? ?%elem_of_nil|auto|done|auto]. }
  destruct (bool_decide (net_len p = 0%nat) || (Genesis_TargetBlockSize g <=? units)) eqn:Hstop.
  { exists p, []. rewrite app_nil_r. split_and!; [done|done|by intros ? ?%elem_of_nil|auto|done|].
    intros _. apply orb_true_iff in Hstop as [Hz%bool_decide_eq_true|Hu%Z.leb_le]; auto. }
  apply orb_false_iff in Hstop as [Hz%bool_decide_eq_false Hu%Z.leb_gt].
  destruct (regossip_pass p Hm Hz) as (p1 & tx & Hpop & Hm1 & Htx & Hp1 & _ & Hl1).
  rewrite (bind_run _ _ _ _ _ Hpop). cbn [fst]. unfold mark_gossiped, modify, bind at 1.
  set (p2 := (p1.1, _)). destruct (LoadUnits_ok g (tx_Unsigned tx) Hv Hb) as (z & Hload & _).
  unfold lift_outcome, bind at 1. rewrite Hload.
  destruct (IH (txs ++ [tx]) (units +u z) p2 Hm1) as (p' & sent & Hrun & Hm' & Hsent & Hall & Hsub & _).
  { unfold net_len in *. cbn [p2 fst]. lia. }
  assert (net_pool p2 = delete (tx_id tx) (net_pool p)) as Hp2 by done. rewrite Hp2 in *.
  exists p', (tx :: sent). rewrite <- app_assoc in Hrun. split_and!; [done|done| | | |done].
  - intros x [->|Hx]%elem_of_cons.
    + split; [done|]. apply eq_None_not_Some. intros [y Hy]. eapply lookup_weaken in Hy; [|done].
      by rewrite lookup_delete_eq in Hy.
    + destruct (Hsent x Hx) as [Hin Hout]. split; [|done]. by apply lookup_delete_Some in Hin as [_ ?].
  - intros id x Hx. destruct (decide (id = tx_id tx)) as [->|Hne]; [left; rewrite elem_of_cons; left; congruence|].
    destruct (Hall id x) as [?|?]; [by rewrite lookup_delete_ne by done|left; by right|by right].
  - etrans; [done|apply delete_subseteq].
Qed.

(** Gossiping the pending transactions again takes them out of the mempool of
    the node that holds them: what has been put into the message is gone, and
    unless the mempool was empty something has. *)
Theorem regossip_forgets v n :
  connected = true -> mempool_sync (vm_mempool v) -> net_len (v, n) <> 0%nat ->
  Genesis_ValueUnitSize (vm_genesis v) <> 0 -> is_u64 (Genesis_BaseTxUnits (vm_genesis v)) ->
  0 < Genesis_TargetBlockSize (vm_genesis v) ->
  exists v' n1 sent, RegossipTxs (v, n) = sendTxs sent (v', n1) /\ sent <> [] /\
    forall tx, tx ∈ sent -> pool (vm_mempool v) !! tx_id tx = Some tx /\
      pool (vm_mempool (RegossipTxs (v, n)).1.1) !! tx_id tx = None.
Proof.
  intros Hc Hm Hlen Hv Hb Ht. unfold RegossipTxs. rewrite Hc. cbn [negb].
  unfold gets, bind at 1 2 4 5. cbn [fst].
  destruct (regossip_loop_run (net_len (v, n)) (vm_genesis v) [] 0 (v, n) Hv Hb Hm (le_n _))
    as ([v' n1] & sent & Hrun & _ & Hsent & _ & _ & Hsome).
  fold (net_len (v, n)). rewrite !(bind_run _ _ _ _ _ Hrun). cbn [app].
  exists v', n1, sent. split; [done|]. split.
  { intros Hnil. destruct (Hsome Hnil); [done|lia]. }
  intros tx Htx. destruct (Hsent tx Htx) as [Hin Hout]. split; [done|].
  replace ((sendTxs sent (v', n1)).1.1) with v'; [done|].
  unfold sendTxs. case_bool_decide; [done|]. unfold lift, bind, modify.
  by destruct (Marshal _).
Qed.
End network.
