(* ===== verification/Codec.v ===== *)
(** * chain/codec.go: what the codec of the package can send

    The registration of the package's types with avalanchego's linear codec, and
    the codecs of transactions, of lists of them and of blocks that the rest of
    the development takes as parameters, as instances of the registered one. *)

From S2P Require Import Prelude External GoStd TData Keys Storage Genesis SamaState.
From S2P Require Import Users Tx TypedTx Block BlockFacts Mempool VM Network.

(** The struct types of the package that are registered or sent in the place of
    an interface. *)
Inductive go_type :=
  | GBaseTx | GSetTx | GTransferTx | GTransaction | GStatefulBlock | GCustomAllocation | GAirdrop
  | GGenesis | GStakeTx | GUnStakeTx | GClaimTx | GRegisterTx | GRefreshTx | GAddUserTx
  | GGovernTx | GVoteTx | GProofTx | GProposalTx | GWithdrawnTx.
#[global] Instance go_type_eq : EqDecision go_type.
Proof. solve_decision. Defined.

(** The dynamic type of a transaction behind the interface. *)
Definition type_of (u : UnsignedTransaction) : go_type :=
  match u with
  | USet _ => GSetTx | UTransfer _ => GTransferTx | UStake _ => GStakeTx | UUnStake _ => GUnStakeTx
  | UClaim _ => GClaimTx | URegister _ => GRegisterTx | URefresh _ => GRefreshTx
  | UAddUser _ => GAddUserTx | UGovern _ => GGovernTx | UVote _ => GVoteTx
  | UWithdrawn _ => GWithdrawnTx | UProof _ => GProofTx | UProposal _ => GProposalTx
  end.

(** What is marshalled that holds values of interface type, and the dynamic types
    of these. *)
Inductive shape := STx | STxs | SBlock.
Definition carrier (s : shape) : Type :=
  match s with
  | STx => UnsignedTransaction * bytes
  | STxs => list (UnsignedTransaction * bytes)
  | SBlock => block_wire
  end.
Definition types_in (s : shape) : carrier s -> list go_type :=
  match s with
  | STx => fun w => [type_of w.1]
  | STxs => fun l => (fun w => type_of w.1) <$> l
  | SBlock => fun w => (fun x => type_of x.1) <$> w.2
  end.

(** ** avalanchego's linear codec, codec manager and error collector

    [codec_types] are the types a codec knows, [manager_codec] the codec a
    manager has for a version, [manager_max] the size it was made for. *)
Class Linearcodec := {
  linearcodec : Type;
  NewDefault : linearcodec;
  RegisterType : go_type -> linearcodec -> linearcodec * result unit;
  codec_types : linearcodec -> list go_type;
  Manager : Type;
  NewManager : Z -> Manager;
  RegisterCodec : Z -> linearcodec -> Manager -> Manager * result unit;
  manager_codec : Manager -> Z -> option linearcodec;
  manager_max : Manager -> Z;
  manager_Marshal : Manager -> Z -> forall s, carrier s -> result bytes;
  manager_Unmarshal : Manager -> bytes -> forall s, result (Z * carrier s);
  Errs : Type;
  no_Errs : Errs;
  Errs_Add : list (result unit) -> Errs -> Errs;
  Errored : Errs -> option error
}.

(** The first of some errors. *)
Fixpoint first_error (l : list (result unit)) : option error :=
  match l with
  | [] => None
  | inl e :: _ => Some e
  | inr _ :: l' => first_error l'
  end.

(** A type is registered once; what is marshalled holds registered types only and
    is no longer than the manager allows. *)
Class LinearcodecLaws `{Linearcodec} : Prop := {
  NewDefault_types : codec_types NewDefault = [];
  RegisterType_new t c : t ∉ codec_types c ->
    exists c', RegisterType t c = (c', inr tt) /\ codec_types c' = codec_types c ++ [t];
  RegisterType_again t c : t ∈ codec_types c -> exists e, RegisterType t c = (c, inl e);
  RegisterCodec_new v c n : exists m, RegisterCodec v c (NewManager n) = (m, inr tt) /\
    manager_codec m v = Some c /\ manager_max m = n;
  manager_Marshal_ok m v s (a : carrier s) b : manager_Marshal m v s a = inr b ->
    Z.of_nat (length b) <= manager_max m /\
    exists c, manager_codec m v = Some c /\ Forall (fun t => t ∈ codec_types c) (types_in s a);
  manager_Unmarshal_Marshal m v s (a : carrier s) b :
    manager_Marshal m v s a = inr b -> manager_Unmarshal m b s = inr (v, a);
  Errored_Add l : Errored (Errs_Add l no_Errs) = first_error l
}.

(** ** codec.go *)
Section codec.
Context `{Linearcodec}.

Definition codecVersion : Z := 0.
Definition maxSize : Z := 4 * (1024 * 1024).

(** The types [init] registers, in its order. *)
Definition registered : list go_type :=
  [GBaseTx; GSetTx; GTransferTx; GTransaction; GStatefulBlock; GCustomAllocation; GAirdrop; GGenesis;
   GStakeTx; GUnStakeTx; GClaimTx; GRegisterTx; GRefreshTx; GAddUserTx; GGovernTx; GVoteTx; GProofTx;
   GProposalTx].

(** The arguments of [errs.Add] are evaluated one after the other. *)
Fixpoint register_types (l : list go_type) (c : linearcodec) : linearcodec * list (result unit) :=
  match l with
  | [] => (c, [])
  | t :: l' =>
      let '(c', r) := RegisterType t c in
      let '(c'', rs) := register_types l' c' in (c'', r :: rs)
  end.

(** [init]; what it leaves is [codecManager]. *)
Definition codec_init : outcome Manager :=
  let '(c, rs) := register_types registered NewDefault in
  let '(m, r) := RegisterCodec codecVersion c (NewManager maxSize) in
  match Errored (Errs_Add (rs ++ [r]) no_Errs) with
  | Some e => Panic (PanicError e)
  | None => Ok m
  end.

(** [Marshal] and [Unmarshal] of the package, with its manager. *)
Definition codec_Marshal (codecManager : Manager) (s : shape) (source : carrier s) : result bytes :=
  manager_Marshal codecManager codecVersion s source.
Definition codec_Unmarshal (codecManager : Manager) (s : shape) (source : bytes) :
    result (Z * carrier s) :=
  manager_Unmarshal codecManager source s.

(** The parameters of the other files, for this manager. *)
Definition package_codec (m : Manager) (s : shape) : Codec (carrier s) := {|
  Marshal := codec_Marshal m s;
  Unmarshal source := match codec_Unmarshal m s source with inr (_, a) => inr a | inl e => inl e end
|}.
Definition package_tx_codec (m : Manager) : TxCodec := {| codec_tx := package_codec m STx |}.
Definition package_block_codec (m : Manager) : BlockCodec := {| codec_block := package_codec m SBlock |}.
Definition package_gossip_codec (m : Manager) : GossipCodec := {| codec_gossip := package_codec m STxs |}.
End codec.

(** ** The registered codec *)
Section facts.
Context `{LinearcodecLaws}.

Lemma register_types_new l c :
  NoDup l -> (forall t, t ∈ l -> t ∉ codec_types c) ->
  exists c', register_types l c = (c', replicate (length l) (inr tt)) /\ codec_types c' = codec_types c ++ l.
Proof.
  revert c. induction l as [|t l IH]; intros c Hnd Hnew; [exists c; by rewrite app_nil_r|].
  apply NoDup_cons in Hnd as [Ht Hnd]. cbn [register_types length replicate].
  destruct (RegisterType_new t c) as (c1 & -> & Hc1); [apply Hnew, list_elem_of_here|].
  destruct (IH c1 Hnd) as (c2 & -> & Hc2).
  - intros t' Hin. rewrite Hc1, elem_of_app, list_elem_of_singleton.
    intros [Hold| ->]; [|done]. by apply (Hnew t'); [apply list_elem_of_further|].
  - exists c2. split; [done|]. by rewrite Hc2, Hc1, <- app_assoc.
Qed.

Lemma first_error_none l : Forall (fun r : result unit => r = inr tt) l -> first_error l = None.
Proof. induction 1 as [|r l -> _ IH]; [done|exact IH]. Qed.

Lemma registered_nodup : NoDup registered.
Proof. apply (bool_decide_eq_true_1 _). reflexivity. Qed.

(** [init] does not panic, and leaves a manager that knows the types of the list
    and no others. *)
Lemma codec_init_run :
  exists m c, codec_init = Ok m /\ manager_codec m codecVersion = Some c /\
    codec_types c = registered /\ manager_max m = maxSize.
Proof.
  destruct (register_types_new registered NewDefault registered_nodup) as (c & Hreg & Hc).
  { intros t _. rewrite NewDefault_types. apply not_elem_of_nil. }
  destruct (RegisterCodec_new codecVersion c maxSize) as (m & Hm & Hcm & Hmax).
  exists m, c. unfold codec_init. rewrite Hreg, Hm, Errored_Add, first_error_none.
  - split_and!; [done|done| |done]. by rewrite Hc, NewDefault_types.
  - apply Forall_app_2; [|by constructor]. by repeat constructor.
Qed.

Lemma package_codec_laws m s : @CodecLaws (carrier s) (package_codec m s).
Proof.
  intros a b Hb. cbn in *. unfold codec_Unmarshal, codec_Marshal in *.
  by rewrite (manager_Unmarshal_Marshal _ _ _ _ _ Hb).
Qed.

Lemma package_tx_codec_laws m : @TxCodecLaws (package_tx_codec m).
Proof. split. apply (package_codec_laws m STx). Qed.
Lemma package_block_codec_laws m : @BlockCodecLaws (package_block_codec m).
Proof. split. apply (package_codec_laws m SBlock). Qed.

(** Every type of transaction is registered but one. *)
Lemma type_registered u : type_of u ∈ registered <-> forall x, u <> UWithdrawn x.
Proof.
  split.
  - intros Hin x ->. revert Hin. apply (bool_decide_eq_false_1 (GWithdrawnTx ∈ registered)). reflexivity.
  - intros Hne. destruct u; try (apply (bool_decide_eq_true_1 _); reflexivity). by destruct (Hne t).
Qed.
End facts.

(** ** What the chain can hold *)
Section travel.
Context `{LinearcodecLaws} `{Database} `{Ethereum} `{!EthMath} `{GoRuntime}.

Lemma Init_marshalled `{TxCodec} tx g t :
  Init tx g = Ok t -> Marshal (tx_Unsigned tx, tx_Signature tx) = inr (tx_bytes t) /\
    tx_Unsigned t = tx_Unsigned tx /\ tx_size t = Z.of_nat (length (tx_bytes t)).
Proof.
  unfold Init. destruct (Marshal _) as [|stx]; [done|]. destruct (ToID _); [done|].
  destruct (tx_DigestHash _); [|done..]. destruct (DeriveSender _ _); [done|]. by intros [= <-].
Qed.
Lemma init_txs_each `{TxCodec} g l l' t :
  init_txs g l = Ok l' -> t ∈ l' -> exists tx, tx ∈ l /\ Init tx g = Ok t.
Proof.
  revert l'. induction l as [|tx l IH]; intros l' Hrun Ht; cbn in Hrun.
  { injection Hrun as <-. by apply elem_of_nil in Ht. }
  destruct (Init tx g) as [tx'|e|p] eqn:Hi; [|done..]. cbn in Hrun.
  destruct (init_txs g l) as [l1|e|p] eqn:Hl; [|done..]. injection Hrun as <-.
  apply elem_of_cons in Ht as [->|Ht].
  - exists tx. split; [apply list_elem_of_here|done].
  - destruct (IH l1 eq_refl Ht) as (tx0 & Hin & Hx). exists tx0. split; [by apply list_elem_of_further|done].
Qed.

(** A transaction that [Init] takes is of a registered type and within the size
    the codec was made for. *)
Definition sendable (t : Transaction) : Prop :=
  type_of (tx_Unsigned t) ∈ registered /\ tx_size t <= maxSize.

Lemma Init_sendable m c tx g t :
  manager_codec m codecVersion = Some c -> codec_types c = registered -> manager_max m = maxSize ->
  @Init _ _ _ (package_tx_codec m) tx g = Ok t -> sendable t.
Proof.
  intros Hc Hreg Hmax Hi. pose proof (@Init_marshalled (package_tx_codec m) _ _ _ Hi) as (Hm & Hu & Hs).
  cbn in Hm. unfold codec_Marshal in Hm. apply manager_Marshal_ok in Hm as (Hlen & c' & Hc' & Hin).
  rewrite Hc in Hc'. injection Hc' as <-. rewrite Hreg in Hin. split.
  - rewrite Hu. by inversion Hin.
  - by rewrite Hs, <- Hmax.
Qed.

(** C38: The codec of the package is set up without a panic, and then every type
    of transaction but one can travel: a transaction the VM initialises has a
    registered type and at most 4 MiB, so has every transaction of a block that
    parses, and a [WithdrawnTx] is neither, although it can be executed. *)
Theorem only_withdrawals_cannot_travel :
  exists m, codec_init = Ok m /\
  (forall u, type_of u ∈ registered <-> forall x, u <> UWithdrawn x) /\
  (forall tx g t, @Init _ _ _ (package_tx_codec m) tx g = Ok t ->
    tx_size t <= maxSize /\ forall x, tx_Unsigned tx <> UWithdrawn x) /\
  (forall source st g b,
    @ParseBlock _ _ _ _ (package_tx_codec m) (package_block_codec m) source st g = Ok b ->
    forall t, t ∈ Txs (sb_block b) -> tx_size t <= maxSize /\ forall x, tx_Unsigned t <> UWithdrawn x).
Proof.
  destruct codec_init_run as (m & c & Hrun & Hc & Hreg & Hmax). exists m.
  split; [done|]. split; [apply type_registered|]. split.
  - intros tx g t Hi. destruct (Init_sendable m c tx g t Hc Hreg Hmax Hi) as [Ht Hs].
    split; [done|]. apply Init_marshalled in Hi as (_ & <- & _). by apply type_registered.
  - intros source st g b Hp t Ht. unfold ParseBlock, ParseStatefulBlock in Hp.
    destruct (Unmarshal source) as [|w]; [done|]. cbn in Hp.
    destruct (if bool_decide _ then _ else _) as [src|e|p]; [|done..]. cbn [obind] in Hp.
    destruct (of_result (ToID _)) as [id|e|p]; [|done..]. cbn [obind] in Hp.
    destruct (init_txs g _) as [txs|e|p] eqn:Htxs; [|done..]. injection Hp as <-.
    destruct (init_txs_each _ _ _ _ Htxs Ht) as (tx & _ & Hi).
    destruct (Init_sendable m c tx g t Hc Hreg Hmax Hi) as [Hty Hs]. split; [done|].
    by apply type_registered.
Qed.
End travel.
