(* ===== verification/Frames.v ===== *)
(** * What each operation can write

    [touches Q m]: whatever [m] does, and however it ends, it changes the
    database at keys of [Q] only.  The predicate is composed along the structure
    of the code; the tactic [touch] does it, and leaves the keys of the [Put]s
    and [Delete]s. *)

From S2P Require Import Prelude External GoStd PendingCache Instances Keys Storage Genesis.
From S2P Require Import Stakers Pows Rewards Actions Users Details SysParams SamaState Tx.

(** The database inside a state, and lenses that carry it. *)
Class HasDB `{Database} (S : Type) := get_db : S -> DB.
Class LensDB (S T : Type) `{Database, Lens S T, !HasDB S, !HasDB T} : Prop := {
  get_db_view s : get_db (view s) = get_db s;
  get_db_over t s : get_db (over t s) = get_db t
}.

Section touches.
Context `{Database}.

#[export] Instance db_has_db : HasDB DB := fun db => db.
#[export] Instance pair_has_db {C} : HasDB (C * DB) := snd.

Definition touches {S} `{!HasDB S} {A} (Q : bytes -> Prop) (m : M S A) : Prop := forall s k,
  ~ Q k -> db_lookup (get_db (m s).1) k = db_lookup (get_db s) k.

Context {S : Type} `{!HasDB S}.
Implicit Types (Q : bytes -> Prop).

Lemma touches_ret {A} Q (a : A) : touches Q (ret a).
Proof. done. Qed.
Lemma touches_fail {A} Q e : touches Q (fail (A := A) e).
Proof. done. Qed.
Lemma touches_panics {A} Q p : touches Q (panics (A := A) p).
Proof. done. Qed.
Lemma touches_gets {A} Q (f : S -> A) : touches Q (gets f).
Proof. done. Qed.
Lemma touches_lift {A} Q (r : result A) : touches Q (lift r).
Proof. done. Qed.
Lemma touches_lift_outcome {A} Q (r : outcome A) : touches Q (lift_outcome r).
Proof. done. Qed.
Lemma touches_check Q b e : touches Q (check b e).
Proof. by destruct b. Qed.
Lemma touches_modify Q (f : S -> S) : (forall s, get_db (f s) = get_db s) -> touches Q (modify f).
Proof. intros Hf s k Hk. simpl. by rewrite Hf. Qed.

Lemma touches_bind {A B} Q (m : M S A) (f : A -> M S B) :
  touches Q m -> (forall a, touches Q (f a)) -> touches Q (bind m f).
Proof.
  intros Hm Hf s k Hk. unfold bind. specialize (Hm s k Hk).
  destruct (m s) as [s1 [a|e|p]]; simpl in *; [|done|done].
  rewrite (Hf a s1 k Hk). exact Hm.
Qed.
Lemma touches_attempt {A} Q (m : M S A) : touches Q m -> touches Q (attempt m).
Proof.
  intros Hm s k Hk. unfold attempt. specialize (Hm s k Hk).
  by destruct (m s) as [s1 [a|e|p]].
Qed.
Lemma touches_for_each {A} Q (body : A -> M S unit) l :
  (forall x, touches Q (body x)) -> touches Q (for_each body l).
Proof.
  intros Hb. induction l as [|x l IH]; [apply touches_ret|]. by apply touches_bind.
Qed.
Lemma touches_zoom {T A} `{Lens S T} `{!HasDB T} `{!LensDB S T} Q (m : M T A) :
  touches Q m -> touches Q (zoom m).
Proof.
  intros Hm s k Hk. unfold zoom. specialize (Hm (view s) k Hk).
  rewrite get_db_view in Hm. destruct (m (view s)) as [t r]; simpl in *.
  by rewrite get_db_over.
Qed.
Lemma touches_weaken {A} Q Q' (m : M S A) : (forall k, Q k -> Q' k) -> touches Q m -> touches Q' m.
Proof. intros HQ Hm s k Hk. apply Hm. auto. Qed.
End touches.

#[export] Instance pair_lens_db {C} `{Database} : LensDB (C * DB) DB.
Proof. by split. Qed.

Section world_db.
Context `{Database} `{Cacher Address UserMeta}.
#[export] Instance world_has_db : HasDB world := w_db.
#[export] Instance world_lens_db : LensDB world DB.
Proof. by split. Qed.
#[export] Instance params_lens_db : LensDB world (sysParams * DB).
Proof. by split. Qed.
#[export] Instance stakers_lens_db : LensDB world (stakerState * DB).
Proof. by split. Qed.
#[export] Instance rewards_lens_db : LensDB world (rewardState * DB).
Proof. by split. Qed.
#[export] Instance pows_lens_db : LensDB world (powState * DB).
Proof. by split. Qed.
#[export] Instance yields_lens_db : LensDB world (yieldsState * DB).
Proof. by split. Qed.
#[export] Instance users_lens_db : LensDB world (usersState * DB).
Proof. by split. Qed.
#[export] Instance details_lens_db : LensDB world (detailsState * DB).
Proof. by split. Qed.
#[export] Instance actions_lens_db : LensDB world (actionsState * DB).
Proof. by split. Qed.
#[export] Instance user_types_lens_db : LensDB world (userTypesState * DB).
Proof. by split. Qed.
End world_db.

Section touches_db.
Context `{DatabaseLaws}.
Implicit Types (Q : bytes -> Prop).

Lemma touches_Put Q k v : Q k -> touches Q (Put k v).
Proof.
  intros HQ db k' Hk'. rewrite Put_run. simpl. apply lookup_set_ne. by intros ->.
Qed.
Lemma touches_Delete Q k : Q k -> touches Q (Delete k).
Proof.
  intros HQ db k' Hk'. rewrite Delete_run. simpl. apply lookup_del_ne. by intros ->.
Qed.
Lemma touches_Get Q k : touches Q (Get k).
Proof. done. Qed.
Lemma touches_Has Q k : touches Q (Has k).
Proof. done. Qed.
End touches_db.

Create HintDb touch discriminated.

(** Follows the structure of the code down to the writes. *)
Ltac touch_step :=
  lazymatch goal with
  | |- touches _ (bind _ _) => apply touches_bind; [|intros ?]
  | |- touches _ (ret _) => apply touches_ret
  | |- touches _ (fail _) => apply touches_fail
  | |- touches _ (panics _) => apply touches_panics
  | |- touches _ (gets _) => apply touches_gets
  | |- touches _ (the _) => apply touches_gets
  | |- touches _ clock => by intros ? ? ?
  | |- touches _ (lift _) => apply touches_lift
  | |- touches _ (lift_outcome _) => apply touches_lift_outcome
  | |- touches _ (check _ _) => apply touches_check
  | |- touches _ (modify _) => apply touches_modify; by intros []
  | |- touches _ (attempt _) => apply touches_attempt
  | |- touches _ (for_each _ _) => apply touches_for_each; intros ?
  | |- touches _ (Get _) => apply touches_Get
  | |- touches _ (Has _) => apply touches_Has
  | |- touches _ (Put _ _) => apply touches_Put
  | |- touches _ (Delete _) => apply touches_Delete
  | |- touches _ (zoom _) => apply touches_zoom
  | |- touches _ (match ?x with _ => _ end) => destruct x
  | |- touches _ (let '_ := ?x in _) => destruct x
  end.
Ltac touch := cbv zeta; repeat (touch_step || (progress cbv beta zeta) || solve [eauto with touch]).

(** ** The operations of the sub-states *)
Section components.
Context `{DatabaseLaws} `{Cacher Address UserMeta} `{GoRuntime} `{Ethereum} `{ChainCodecs}.
Implicit Types (Q : bytes -> Prop).

(** The keys of the accounts are written by [ModifyBalance] and
    [ModifyStakeBalance] only. *)
Definition not_account (k : bytes) : Prop := ~ account_key k.

Lemma not_account_render k :
  (forall a, k <> KBalance a) -> (forall a, k <> KStake a) -> key_ok k -> not_account (render k).
Proof.
  intros Hb Hs Hok (a & [Heq|Heq]).
  - apply (render_inj_ok k (KBalance a)) in Heq; [by eapply Hb|done|done].
  - apply (render_inj_ok k (KStake a)) in Heq; [by eapply Hs|done|done].
Qed.

Lemma staker_not_account t a : not_account (PrefixStaker4Key t a).
Proof. by apply (not_account_render (KStaker t a)). Qed.
Lemma pow_not_account t a : not_account (PrefixPowKey t a).
Proof. by apply (not_account_render (KPow t a)). Qed.
Lemma reward_not_account a : not_account (PrefixRewardKey a).
Proof. by apply (not_account_render (KReward a)). Qed.
Lemma global_not_account : not_account RewardGlobalPrefix.
Proof. by apply (not_account_render KRewardGlobal). Qed.
Lemma yields_not_account : not_account PrefixYieldsKey.
Proof. by apply (not_account_render KYields). Qed.
Lemma detail_not_account a : not_account (PrefixDetailsKey a).
Proof. by apply (not_account_render (KDetail a)). Qed.
Lemma user_not_account a : not_account (PrefixUsersKey a).
Proof. by apply (not_account_render (KUser a)). Qed.
Lemma user_type_not_account i : not_account (PrefixUserTypesKey i).
Proof. intros (a & [Heq|Heq]); discriminate Heq. Qed.
Lemma params_not_account : not_account PrefixSysParamsKey.
Proof. by apply (not_account_render KSysParams). Qed.
Lemma action_not_account i : not_account (PrefixActionsKey i).
Proof. by apply (not_account_render (KAction i)). Qed.
Lemma value_not_account h : not_account (ValueKey h).
Proof. by apply (not_account_render (KValue h)). Qed.
Lemma tx_not_account i : not_account (PrefixTxKey i).
Proof. by apply (not_account_render (KTx i)). Qed.
End components.

#[export] Hint Resolve staker_not_account pow_not_account reward_not_account global_not_account
  yields_not_account detail_not_account user_not_account user_type_not_account params_not_account
  action_not_account value_not_account tx_not_account : touch.

Section execute_frames.
Context `{DatabaseLaws} `{Cacher Address UserMeta} `{GoRuntime} `{Ethereum} `{ChainCodecs}.

Lemma UpdateOwner_frame m : touches not_account (UpdateOwner m).
Proof. unfold UpdateOwner. touch. Qed.
Lemma UpdateGlobal_frame g : touches not_account (UpdateGlobal g).
Proof. unfold UpdateGlobal. touch. Qed.
Lemma ModifyYields_frame y i t : touches not_account (ModifyYields y i t).
Proof. unfold ModifyYields. touch. Qed.
Lemma PutStaker_frame m : touches not_account (PutStaker m).
Proof. unfold PutStaker. touch. Qed.
Lemma DelStaker_frame t a : touches not_account (DelStaker t a).
Proof. unfold DelStaker. touch. Qed.
Lemma PutPow_frame t p : touches not_account (PutPow t p).
Proof. unfold PutPow. touch. Qed.
Lemma PutUser_frame m : touches not_account (PutUser m).
Proof. unfold PutUser. touch. Qed.
Lemma GetUserMeta_frame a : touches not_account (GetUserMeta a).
Proof. unfold GetUserMeta. touch. Qed.
Lemma PutDetail_frame a m : touches not_account (PutDetail a m).
Proof. unfold PutDetail. touch. Qed.
Lemma PutAction_frame i l : touches not_account (PutAction i l).
Proof. unfold PutAction. touch. Qed.
Lemma DelAction_frame i : touches not_account (DelAction i).
Proof. unfold DelAction. touch. Qed.
Lemma AddUserType_frame m : touches not_account (AddUserType m).
Proof. unfold AddUserType. touch. Qed.
Lemma ModifyParams_frame k v i t : touches not_account (ModifyParams k v i t).
Proof. unfold ModifyParams. touch. Qed.
Lemma PutKey_frame h m : touches not_account (PutKey h m).
Proof. unfold PutKey. touch. Qed.
Lemma GetValueMeta_frame h : touches not_account (GetValueMeta h).
Proof. unfold GetValueMeta. touch. Qed.
Lemma SetTransaction_frame i : touches not_account (SetTransaction i).
Proof. unfold SetTransaction. touch. Qed.
End execute_frames.

#[export] Hint Resolve UpdateOwner_frame UpdateGlobal_frame ModifyYields_frame PutStaker_frame
  DelStaker_frame PutPow_frame PutUser_frame GetUserMeta_frame PutDetail_frame PutAction_frame
  DelAction_frame AddUserType_frame ModifyParams_frame PutKey_frame GetValueMeta_frame
  SetTransaction_frame : touch.

(** ** The operations of state.go and the transactions *)
Section transactions.
Context `{DatabaseLaws} `{Cacher Address UserMeta} `{GoRuntime} `{Ethereum} `{ChainCodecs}.

Lemma get_action_frame i : touches not_account (get_action i).
Proof. unfold get_action. touch. Qed.
Lemma UpdateFoundationReward_frame a i e : touches not_account (UpdateFoundationReward a i e).
Proof. unfold UpdateFoundationReward. touch. Qed.
Lemma update_staker_frame s n a i e m : touches not_account (update_staker s n a i e m).
Proof. unfold update_staker. touch. Qed.
#[local] Hint Resolve get_action_frame UpdateFoundationReward_frame update_staker_frame : touch.
Lemma UpdateStakerReward_frame t a i e : touches not_account (UpdateStakerReward t a i e).
Proof. unfold UpdateStakerReward. touch. Qed.
#[local] Hint Resolve UpdateStakerReward_frame : touch.
Lemma DealStakeTx_frame m : touches not_account (DealStakeTx m).
Proof. unfold DealStakeTx. touch. Qed.
Lemma DealUnStakeTx_frame t a i e : touches not_account (DealUnStakeTx t a i e).
Proof. unfold DealUnStakeTx. touch. Qed.
Lemma DealAddUserTx_frame i b u : touches not_account (DealAddUserTx i b u).
Proof. unfold DealAddUserTx. touch. Qed.
Lemma UpdateNodeParams_frame d : touches not_account (UpdateNodeParams d).
Proof. unfold UpdateNodeParams. touch. Qed.
Lemma IsBeConfirmed_frame t k : touches not_account (IsBeConfirmed t k).
Proof. unfold IsBeConfirmed. touch. Qed.
Lemma unix_now_frame : touches not_account unix_now.
Proof. unfold unix_now. touch. Qed.
Lemma put_new_action_frame i m : touches not_account (put_new_action i m).
Proof.
  unfold put_new_action. apply touches_bind; [touch|intros s].
  destruct (alloc_action m s) as [l s']. touch.
Qed.
#[local] Hint Resolve DealStakeTx_frame DealUnStakeTx_frame DealAddUserTx_frame
  UpdateNodeParams_frame IsBeConfirmed_frame unix_now_frame put_new_action_frame : touch.

Lemma ModifyBalance_frame (Q : bytes -> Prop) a add n :
  Q (PrefixBalanceKey a) -> touches Q (ModifyBalance a add n).
Proof. intros HQ. unfold ModifyBalance, GetBalance, SetBalance. touch. Qed.
Lemma ModifyStakeBalance_frame (Q : bytes -> Prop) a add n :
  Q (PrefixStakeKey a) -> touches Q (ModifyStakeBalance a add n).
Proof. intros HQ. unfold ModifyStakeBalance, GetStakeBalance, SetStakeBalance. touch. Qed.

(** The accounts a transaction of [sender] may write: its own balance and
    stake, and the balance a transfer goes to. *)
Definition own_account (u : UnsignedTransaction) (sender : Address) (k : bytes) : Prop :=
  k = PrefixBalanceKey sender \/ k = PrefixStakeKey sender \/
  (exists t, u = UTransfer t /\ k = PrefixBalanceKey (transfer_To t)) \/ not_account k.

Lemma own_balance u a : own_account u a (PrefixBalanceKey a).
Proof. by left. Qed.
Lemma own_stake u a : own_account u a (PrefixStakeKey a).
Proof. by right; left. Qed.
Lemma own_receiver t a : own_account (UTransfer t) a (PrefixBalanceKey (transfer_To t)).
Proof. right; right; left. by exists t. Qed.
Lemma own_weaken {S A} `{!HasDB S} u a (m : M S A) :
  touches not_account m -> touches (own_account u a) m.
Proof. apply touches_weaken. unfold own_account. auto. Qed.
#[local] Hint Resolve own_balance own_stake own_receiver ModifyBalance_frame
  ModifyStakeBalance_frame : touch.
#[local] Hint Extern 5 (touches (own_account _ _) _) =>
  apply own_weaken; solve [eauto with touch nocore] : touch.

Lemma Execute_frame u t : touches (own_account u (ctx_Sender t)) (Execute u t).
Proof.
  destruct u as [x|x|x|x|x|x|x|x|x|x|x|x|x]; cbn [Execute].
  - unfold SetTx_Execute. touch.
  - unfold TransferTx_Execute. touch.
  - unfold StakeTx_Execute. touch.
  - unfold UnStakeTx_Execute. touch.
  - unfold ClaimTx_Execute. touch.
  - unfold RegisterTx_Execute. touch.
  - unfold RefreshTx_Execute. touch.
  - unfold AddUserTx_Execute. touch.
  - unfold GovernTx_Execute. touch.
  - unfold VoteTx_Execute. touch.
  - unfold WithdrawnTx_Execute. touch.
  - unfold ProofTx_Execute. touch.
  - unfold ProposalTx_Execute. touch.
Qed.

Lemma Transaction_Execute_frame tx g b c :
  touches (own_account (tx_Unsigned tx) (tx_sender tx)) (Transaction_Execute tx g b c).
Proof.
  unfold Transaction_Execute.
  pose proof (Execute_frame (tx_Unsigned tx)
    (mkTransactionContext g (u64 b) (tx_id tx) (tx_sender tx))) as Hx. cbn [ctx_Sender] in Hx.
  touch.
Qed.

(** C10: No transaction changes an account of somebody else: whatever its type,
    whether it succeeds, fails or panics half-way, only the sender's balance
    and stake and the receiver of a transfer can change. *)
Theorem other_accounts_untouched tx g b c w a :
  a <> tx_sender tx -> (forall t, tx_Unsigned tx = UTransfer t -> transfer_To t <> a) ->
  let w' := (Transaction_Execute tx g b c w).1 in
  balance (w_db w') a = balance (w_db w) a /\
  stake_balance (w_db w') a = stake_balance (w_db w) a.
Proof.
  intros Ha Hto w'.
  assert (forall k, ~ own_account (tx_Unsigned tx) (tx_sender tx) k ->
    db_lookup (w_db w') k = db_lookup (w_db w) k) as Hf
    by exact (Transaction_Execute_frame tx g b c w).
  unfold balance, stake_balance, amount_at. split.
  - rewrite (Hf (PrefixBalanceKey a)); [done|].
    intros [Heq|[Heq|[(t & Ht & Heq)|Hn]]].
    + by apply (inj PrefixBalanceKey) in Heq.
    + discriminate Heq.
    + apply (inj PrefixBalanceKey) in Heq. by eapply Hto.
    + apply Hn. exists a. by left.
  - rewrite (Hf (PrefixStakeKey a)); [done|].
    intros [Heq|[Heq|[(t & Ht & Heq)|Hn]]].
    + discriminate Heq.
    + by apply (inj PrefixStakeKey) in Heq.
    + discriminate Heq.
    + apply Hn. exists a. by right.
Qed.
End transactions.

(** ** Parts of the state an operation leaves alone

    [keeps f m]: however [m] ends, [f] of the state is what it was. *)
Section keeps.
Context {S X : Type} (f : S -> X).

Definition keeps {A} (m : M S A) : Prop := forall s, f (m s).1 = f s.

Lemma keeps_ret {A} (a : A) : keeps (ret a).
Proof. done. Qed.
Lemma keeps_fail {A} e : keeps (fail (A := A) e).
Proof. done. Qed.
Lemma keeps_panics {A} p : keeps (panics (A := A) p).
Proof. done. Qed.
Lemma keeps_gets {A} (g : S -> A) : keeps (gets g).
Proof. done. Qed.
Lemma keeps_lift {A} (r : result A) : keeps (lift r).
Proof. done. Qed.
Lemma keeps_lift_outcome {A} (r : outcome A) : keeps (lift_outcome r).
Proof. done. Qed.
Lemma keeps_check b e : keeps (check b e).
Proof. by destruct b. Qed.
Lemma keeps_bind {A B} (m : M S A) (g : A -> M S B) :
  keeps m -> (forall a, keeps (g a)) -> keeps (bind m g).
Proof.
  intros Hm Hg s. unfold bind. specialize (Hm s).
  destruct (m s) as [s1 [a|e|p]]; simpl in *; [|done|done]. by rewrite Hg.
Qed.
Lemma keeps_attempt {A} (m : M S A) : keeps m -> keeps (attempt m).
Proof. intros Hm s. unfold attempt. specialize (Hm s). by destruct (m s) as [s1 [a|e|p]]. Qed.
Lemma keeps_for_each {A} (body : A -> M S unit) l :
  (forall x, keeps (body x)) -> keeps (for_each body l).
Proof. intros Hb. induction l as [|x l IH]; [apply keeps_ret|]. by apply keeps_bind. Qed.
Lemma keeps_zoom {T A} `{Lens S T} (m : M T A) :
  (forall t s, f (over t s) = f s) -> keeps (zoom m).
Proof. intros Hf s. unfold zoom. destruct (m (view s)); apply Hf. Qed.
End keeps.

Lemma keeps_attempt_state {S A} (m : M S A) s : (attempt m s).1 = (m s).1.
Proof. unfold attempt. by destruct (m s) as [s1 [a|e|p]]. Qed.

Ltac keep_step :=
  lazymatch goal with
  | |- keeps _ (bind _ _) => apply keeps_bind; [|intros ?]
  | |- keeps _ (ret _) => apply keeps_ret
  | |- keeps _ (fail _) => apply keeps_fail
  | |- keeps _ (panics _) => apply keeps_panics
  | |- keeps _ (gets _) => apply keeps_gets
  | |- keeps _ (the _) => apply keeps_gets
  | |- keeps _ clock => by intros ?
  | |- keeps _ (lift _) => apply keeps_lift
  | |- keeps _ (lift_outcome _) => apply keeps_lift_outcome
  | |- keeps _ (check _ _) => apply keeps_check
  | |- keeps _ (attempt _) => apply keeps_attempt
  | |- keeps _ (for_each _ _) => apply keeps_for_each; intros ?
  | |- keeps _ (zoom _) => apply keeps_zoom; by intros ? ?
  | |- keeps _ (match ?x with _ => _ end) => destruct x
  end.
Ltac keep := cbv zeta; repeat (keep_step || (progress cbv beta zeta) || solve [eauto with touch]).

Section kept.
Context `{DatabaseLaws} `{Cacher Address UserMeta} `{GoRuntime} `{Ethereum} `{ChainCodecs}.

Definition stakers_of (w : world) : stakerState := st_stakers (w_sama w).
Definition actions_of (w : world) : actionsState := st_actions (w_sama w).

Lemma UpdateStakerReward_keeps_stakers t a i e : keeps stakers_of (UpdateStakerReward t a i e).
Proof. unfold UpdateStakerReward, update_staker. keep. Qed.
Lemma IsBeConfirmed_keeps_sama t k : keeps w_sama (IsBeConfirmed t k).
Proof. unfold IsBeConfirmed, get_action. keep. Qed.
Lemma IsBeConfirmed_keeps_db t k : keeps w_db (IsBeConfirmed t k).
Proof. unfold IsBeConfirmed, get_action. keep. Qed.
(** Reading the clock and looking an action up change neither the state nor the
    database. *)
Lemma clock_run w : clock w = (mkWorld (w_db w) (w_sama w) (S (w_tick w)), Ok (time_Now (w_tick w))).
Proof. done. Qed.

Lemma get_action_ok i w w' r :
  get_action i w = (w', Ok r) ->
  w_sama w' = w_sama w /\ w_db w' = w_db w /\ r = curActions (st_actions (w_sama w)) !! i.
Proof.
  intros Hrun. unfold get_action in Hrun. apply bind_ok in Hrun as (? & s & Hc & Hrun).
  unfold the, gets in Hc. injection Hc as <- <-.
  destruct (curActions (st_actions (w_sama w)) !! i) as [l|] eqn:Hl.
  - apply bind_ok in Hrun as (w1 & now & Hc & Hrun). rewrite clock_run in Hc. injection Hc as <- <-.
    unfold lift, GetActionMeta in Hrun. rewrite Hl in Hrun.
    destruct (Action_EndTime _ <? _); [done|]. by injection Hrun as <- <-.
  - unfold ret in Hrun. by injection Hrun as <- <-.
Qed.

Lemma unix_now_ok w w' z : unix_now w = (w', Ok z) -> w_sama w' = w_sama w /\ w_db w' = w_db w.
Proof. unfold unix_now, bind, ret. rewrite clock_run. by intros [= <- _]. Qed.

End kept.
