(* ===== verification/Areas.v ===== *)
(** * The areas of the database

    Each component owns the keys of one area.  [in_area A kb] says that [kb] is
    a key of area [A]; every operation is shown to write the area of its own
    component only. *)

From S2P Require Import Prelude External GoStd PendingCache Keys Storage Genesis.
From S2P Require Import Stakers Pows Rewards Actions Users Details SysParams SamaState Tx Frames.

Inductive area :=
  | ALedger | AStakers | APows | ARewards | AYields | ADetails | AUsers | AUserTypes
  | AParams | AActions.
#[export] Instance area_eq_dec : EqDecision area.
Proof. solve_decision. Defined.

Definition area_of (k : dbkey) : area :=
  match k with
  | KBlock _ | KTx _ | KTxValue _ | KValue _ | KBalance _ | KStake _ | KLastAccepted => ALedger
  | KStaker _ _ => AStakers
  | KPow _ _ => APows
  | KReward _ | KRewardGlobal => ARewards
  | KYields => AYields
  | KDetail _ => ADetails
  | KUser _ => AUsers
  | KUserType _ => AUserTypes
  | KSysParams => AParams
  | KAction _ => AActions
  end.

Definition in_area (A : area) (kb : bytes) : Prop :=
  exists k, key_ok k /\ area_of k = A /\ kb = render k.

Lemma in_area_render k : key_ok k -> in_area (area_of k) (render k).
Proof. by exists k. Qed.
Lemma in_area_unique A A' kb : in_area A kb -> in_area A' kb -> A = A'.
Proof.
  intros (k & Hk & <- & ->) (k' & Hk' & <- & Heq). by apply render_inj_ok in Heq as ->.
Qed.
Lemma in_area_own A kb : in_area A kb -> exists k, key_ok k /\ kb = render k.
Proof. intros (k & Hk & _ & ->). by exists k. Qed.

#[export] Instance in_area_dec A kb : Decision (in_area A kb).
Proof.
  destruct (classify kb) as [k|] eqn:Hc.
  - destruct (decide (key_ok k /\ area_of k = A /\ kb = render k)) as [Hk|Hk]; [left; by exists k|].
    right. intros (k' & Hok & Ha & ->). rewrite classify_render in Hc by done. naive_solver.
  - right. intros (k & Hok & _ & ->). by rewrite classify_render in Hc.
Defined.

(** The id of a user type is rendered modulo 2^64. *)
Lemma le_bytes_mod n z : le_bytes n (z `mod` 256 ^ Z.of_nat n) = le_bytes n z.
Proof.
  revert z. induction n as [|n IH]; intros z; [done|]. cbn [le_bytes].
  rewrite Nat2Z.inj_succ, Z.pow_succ_r by lia.
  assert (0 < 256 ^ Z.of_nat n) by lia.
  rewrite Z.rem_mul_r by lia. f_equal.
  - unfold byte_of_Z. do 3 f_equal. rewrite Z.mul_comm, Z_mod_plus_full. apply Z.mod_mod. lia.
  - rewrite <- (IH (z / 256)). f_equal.
    rewrite Z.mul_comm, Z.div_add by lia. rewrite (Z.div_small (z `mod` 256)); [lia|].
    apply Z.mod_pos_bound. lia.
Qed.
Lemma user_type_key_u64 i : PrefixUserTypesKey i = PrefixUserTypesKey (u64 i).
Proof. unfold PrefixUserTypesKey, be_PutUint64, u64. by rewrite <- (le_bytes_mod 8 i). Qed.

Lemma staker_area t a : in_area AStakers (PrefixStaker4Key t a).
Proof. by exists (KStaker t a). Qed.
Lemma pow_area t a : in_area APows (PrefixPowKey t a).
Proof. by exists (KPow t a). Qed.
Lemma reward_area a : in_area ARewards (PrefixRewardKey a).
Proof. by exists (KReward a). Qed.
Lemma global_area : in_area ARewards RewardGlobalPrefix.
Proof. by exists KRewardGlobal. Qed.
Lemma yields_area : in_area AYields PrefixYieldsKey.
Proof. by exists KYields. Qed.
Lemma detail_area a : in_area ADetails (PrefixDetailsKey a).
Proof. by exists (KDetail a). Qed.
Lemma user_area a : in_area AUsers (PrefixUsersKey a).
Proof. by exists (KUser a). Qed.
Lemma user_type_area i : in_area AUserTypes (PrefixUserTypesKey i).
Proof.
  rewrite user_type_key_u64. exists (KUserType (u64 i)). split; [apply u64_range|done].
Qed.
Lemma params_area : in_area AParams PrefixSysParamsKey.
Proof. by exists KSysParams. Qed.
Lemma action_area i : in_area AActions (PrefixActionsKey i).
Proof. by exists (KAction i). Qed.
Lemma value_area h : in_area ALedger (ValueKey h).
Proof. by exists (KValue h). Qed.
Lemma tx_area i : in_area ALedger (PrefixTxKey i).
Proof. by exists (KTx i). Qed.
Lemma balance_area a : in_area ALedger (PrefixBalanceKey a).
Proof. by exists (KBalance a). Qed.
Lemma stake_area a : in_area ALedger (PrefixStakeKey a).
Proof. by exists (KStake a). Qed.

#[export] Hint Resolve staker_area pow_area reward_area global_area yields_area detail_area
  user_area user_type_area params_area action_area value_area tx_area balance_area stake_area : area.

(** ** What each operation writes *)
Section areas.
Context `{DatabaseLaws} `{Cacher Address UserMeta} `{GoRuntime} `{Ethereum} `{ChainCodecs}.
#[local] Hint Resolve staker_area pow_area reward_area global_area yields_area detail_area
  user_area user_type_area params_area action_area value_area tx_area balance_area stake_area : touch.

Lemma UpdateOwner_area m : touches (in_area ARewards) (UpdateOwner m).
Proof. unfold UpdateOwner. touch. Qed.
Lemma UpdateGlobal_area g : touches (in_area ARewards) (UpdateGlobal g).
Proof. unfold UpdateGlobal. touch. Qed.
Lemma ModifyYields_area y i t : touches (in_area AYields) (ModifyYields y i t).
Proof. unfold ModifyYields. touch. Qed.
Lemma PutStaker_area m : touches (in_area AStakers) (PutStaker m).
Proof. unfold PutStaker. touch. Qed.
Lemma DelStaker_area t a : touches (in_area AStakers) (DelStaker t a).
Proof. unfold DelStaker. touch. Qed.
Lemma PutPow_area t p : touches (in_area APows) (PutPow t p).
Proof. unfold PutPow. touch. Qed.
Lemma PutUser_area m : touches (in_area AUsers) (PutUser m).
Proof. unfold PutUser. touch. Qed.
Lemma GetUserMeta_area a : touches (in_area AUsers) (GetUserMeta a).
Proof. unfold GetUserMeta. touch. Qed.
Lemma PutDetail_area a m : touches (in_area ADetails) (PutDetail a m).
Proof. unfold PutDetail. touch. Qed.
Lemma PutAction_area i l : touches (in_area AActions) (PutAction i l).
Proof. unfold PutAction. touch. Qed.
Lemma DelAction_area i : touches (in_area AActions) (DelAction i).
Proof. unfold DelAction. touch. Qed.
Lemma AddUserType_area m : touches (in_area AUserTypes) (AddUserType m).
Proof. unfold AddUserType. touch. Qed.
Lemma ModifyParams_area k v i t : touches (in_area AParams) (ModifyParams k v i t).
Proof. unfold ModifyParams. touch. Qed.
Lemma PutKey_area h m : touches (in_area ALedger) (PutKey h m).
Proof. unfold PutKey. touch. Qed.
Lemma GetValueMeta_area h : touches (in_area ALedger) (GetValueMeta h).
Proof. unfold GetValueMeta. touch. Qed.
Lemma SetTransaction_area i : touches (in_area ALedger) (SetTransaction i).
Proof. unfold SetTransaction. touch. Qed.
Lemma ModifyBalance_area a add n : touches (in_area ALedger) (ModifyBalance a add n).
Proof. unfold ModifyBalance, GetBalance, SetBalance. touch. Qed.
Lemma ModifyStakeBalance_area a add n : touches (in_area ALedger) (ModifyStakeBalance a add n).
Proof. unfold ModifyStakeBalance, GetStakeBalance, SetStakeBalance. touch. Qed.
End areas.

#[export] Hint Resolve UpdateOwner_area UpdateGlobal_area ModifyYields_area PutStaker_area
  DelStaker_area PutPow_area PutUser_area GetUserMeta_area PutDetail_area PutAction_area
  DelAction_area AddUserType_area ModifyParams_area PutKey_area GetValueMeta_area
  SetTransaction_area ModifyBalance_area ModifyStakeBalance_area : area.
