(* ===== verification/Coherence.v ===== *)
(** * The caches agree with the database

    [chain_inv] says that every in-memory part of the state, read through its
    pending maps, is what the database holds.  Each operation is shown to keep
    it on its own area ([..._ok]), the others by the frame of areas, and
    [preserves] is composed along the code of the transactions. *)

From S2P Require Import Prelude External GoStd PendingCache Keys Storage Genesis.
From S2P Require Import Stakers Pows Rewards Actions Users Details SysParams SamaState Tx Frames Areas.

(** ** The invariant of each part *)
Section invariants.
Context `{DatabaseLaws} `{CacherLaws Address UserMeta} `{GoRuntimeLaws} `{Ethereum}
  `{ChainCodecs} `{!ChainCodecLaws} `{!ChainCodecTotal}.
Implicit Types (db : DB) (w : world).

Definition same_in (A : area) db db' : Prop :=
  forall kb, in_area A kb -> db_lookup db' kb = db_lookup db kb.

Lemma coherent_same {K V} `{Countable K} `{Codec V} (key : K -> bytes) A db db' (m : gmap K V) :
  (forall k, in_area A (key k)) -> same_in A db db' -> coherent key db m -> coherent key db' m.
Proof. intros HA Hs Hc k. specialize (Hc k). by rewrite (Hs _ (HA k)). Qed.

Definition stakers_inv db (s : stakerState) : Prop := stakers_coherent db s /\ stakers_keyed s.
Lemma stakers_inv_same db db' s : same_in AStakers db db' -> stakers_inv db s -> stakers_inv db' s.
Proof.
  intros Hs [Hc Hk]. split; [|done]. intros t Ht.
  eapply (coherent_same _ AStakers); [intros; apply staker_area|exact Hs|by apply Hc].
Qed.

Definition pows_inv db (s : powState) : Prop :=
  pows_coherent db s /\ pows_keyed s /\ pow_updateTime s = 0.
Lemma pows_inv_same db db' s : same_in APows db db' -> pows_inv db s -> pows_inv db' s.
Proof.
  intros Hs [Hc Hk]. split; [|done]. intros t Ht.
  eapply (coherent_same _ APows); [intros; apply pow_area|exact Hs|by apply Hc].
Qed.

Definition rewards_inv db (r : rewardState) : Prop :=
  rewards_coherent db r /\ rewards_keyed r /\
  forall b, db_lookup db RewardGlobalPrefix = Some b -> exists g : RewardGlobal, Marshal g = inr b.
Lemma rewards_inv_same db db' r : same_in ARewards db db' -> rewards_inv db r -> rewards_inv db' r.
Proof.
  intros Hs (Hc & Hk & Hg). split_and!; [|done|].
  - eapply (coherent_same _ ARewards); [intros; apply reward_area|exact Hs|exact Hc].
  - rewrite (Hs _ global_area). exact Hg.
Qed.

(** The yields in force after the next commit are the stored ones; a stored total
    of zero, which a sum that wraps around can give, is not taken over. *)
Definition yields_inv db (y : yieldsState) : Prop :=
  match db_lookup db PrefixYieldsKey with
  | Some b => exists m : YieldMeta, Marshal m = inr b /\ (m = curYields (CacheYieldsCommit y) \/ Yield_Total m = 0)
  | None => curYields (CacheYieldsCommit y) = mkYieldMeta 0 0 0 EmptyID
  end.
Lemma yields_inv_same db db' y : same_in AYields db db' -> yields_inv db y -> yields_inv db' y.
Proof. intros Hs Hy. unfold yields_inv. by rewrite (Hs _ yields_area). Qed.

Definition details_inv db (d : detailsState) : Prop := details_coherent db d.
Lemma details_inv_same db db' d : same_in ADetails db db' -> details_inv db d -> details_inv db' d.
Proof. apply coherent_same. intros; apply detail_area. Qed.

(** The parameters in force after the next commit are the stored ones, or those
    of the genesis while nothing is stored. *)
Definition params_inv (g : Genesis) db (s : sysParams) : Prop :=
  Sys_TotalTokens (curParams s) <> 0 /\
  match db_lookup db PrefixSysParamsKey with
  | Some b => Marshal (curParams (CacheParamsCommit s)) = inr b
  | None => curParams (CacheParamsCommit s) = params_of_genesis g
  end.
Lemma params_inv_same g db db' s : same_in AParams db db' -> params_inv g db s -> params_inv g db' s.
Proof. intros Hs. unfold params_inv. by rewrite (Hs _ params_area). Qed.

Definition user_types_inv db (s : userTypesState) : Prop :=
  forall i m, cache_view (user_type_cache s) !! i = Some m ->
    is_Some (db_lookup db (PrefixUserTypesKey i)).
Lemma user_types_inv_same db db' s :
  same_in AUserTypes db db' -> user_types_inv db s -> user_types_inv db' s.
Proof. intros Hs Hu i m Hm. rewrite (Hs _ (user_type_area i)). by eapply Hu. Qed.

Definition users_inv db (s : usersState) : Prop :=
  users_fresh_but db s /\
  forall a b, db_lookup db (PrefixUsersKey a) = Some b ->
    exists m : UserMeta, Marshal m = inr b /\ User_Address m = a.
Lemma users_inv_same db db' s : same_in AUsers db db' -> users_inv db s -> users_inv db' s.
Proof.
  intros Hs ([Hc Ha] & Hk). split; [split|].
  - intros a m. rewrite (Hs _ (user_area a)). apply Hc.
  - intros a m. rewrite (Hs _ (user_area a)). apply Ha.
  - intros a b. rewrite (Hs _ (user_area a)). apply Hk.
Qed.

(** Every action behind a pointer is filed under its own id. *)
Definition actions_filed (s : actionsState) : Prop :=
  forall i l, (curActions s !! i = Some l \/ pendingActionsAdd s !! i = Some l) ->
    Action_ActionID (load_action s l) = i.
Definition actions_inv db (s : actionsState) : Prop :=
  actions_wf s /\ actions_coherent db s /\ actions_filed s.
Lemma actions_inv_same db db' s : same_in AActions db db' -> actions_inv db s -> actions_inv db' s.
Proof.
  intros Hs (Hwf & Hc & Hk). split_and!; [done| |done].
  eapply (coherent_same _ AActions); [intros; apply action_area|exact Hs|exact Hc].
Qed.

Record chain_inv (g : Genesis) (w : world) : Prop := {
  inv_own : own_keys (fun k => is_Some (db_lookup (w_db w) k));
  inv_stakers : stakers_inv (w_db w) (st_stakers (w_sama w));
  inv_pows : pows_inv (w_db w) (st_pows (w_sama w));
  inv_rewards : rewards_inv (w_db w) (st_rewards (w_sama w));
  inv_yields : yields_inv (w_db w) (st_yields (w_sama w));
  inv_details : details_inv (w_db w) (st_details (w_sama w));
  inv_params : params_inv g (w_db w) (st_params (w_sama w));
  inv_user_types : user_types_inv (w_db w) (st_userTypes (w_sama w));
  inv_users : users_inv (w_db w) (st_users (w_sama w));
  inv_actions : actions_inv (w_db w) (st_actions (w_sama w))
}.

(** ** Operations that keep the invariant, however they end *)
Definition preserves g {A} (m : M world A) : Prop := forall w, chain_inv g w -> chain_inv g (m w).1.

Lemma area_own A db db' :
  (forall kb, ~ in_area A kb -> db_lookup db' kb = db_lookup db kb) ->
  own_keys (fun k => is_Some (db_lookup db k)) -> own_keys (fun k => is_Some (db_lookup db' k)).
Proof.
  intros Hs Hown kb Hkb. destruct (decide (in_area A kb)) as [Hin|Hout].
  - by eapply in_area_own.
  - apply Hown. by rewrite <- (Hs kb Hout).
Qed.
Lemma area_same A A' db db' :
  A <> A' -> (forall kb, ~ in_area A kb -> db_lookup db' kb = db_lookup db kb) -> same_in A' db db'.
Proof. intros Hne Hs kb Hkb. apply Hs. intros Hkb'. by apply Hne, (in_area_unique _ _ kb). Qed.
End invariants.

(** An operation on one part that writes its own area and keeps its own
    invariant keeps the whole. *)
Ltac on_part :=
  let w := fresh "w" in
  intros Ht Hm w [Hown Hst Hpo Hre Hyi Hde Hpa Hut Hus Hac]; unfold zoom;
  cbn [view lens_stakers lens_pows lens_rewards lens_yields lens_details lens_params lens_user_types
    lens_users lens_actions];
  match type of Ht with
  | touches (in_area ?A) ?m =>
      match goal with
      | |- context [m ?p] =>
          pose proof (Ht p) as Hk; pose proof (Hm p.1 p.2) as Hown';
          cbn [fst snd] in Hown';
          destruct (m p) as [[s' db'] r]; cbn [fst snd get_db pair_has_db] in Hk, Hown';
          constructor; cbn;
      first
        [ by apply Hown'
        | by eapply area_own
        | eapply stakers_inv_same; [by apply (area_same A)|done]
        | eapply pows_inv_same; [by apply (area_same A)|done]
        | eapply rewards_inv_same; [by apply (area_same A)|done]
        | eapply yields_inv_same; [by apply (area_same A)|done]
        | eapply details_inv_same; [by apply (area_same A)|done]
        | eapply params_inv_same; [by apply (area_same A)|done]
        | eapply user_types_inv_same; [by apply (area_same A)|done]
        | eapply users_inv_same; [by apply (area_same A)|done]
        | eapply actions_inv_same; [by apply (area_same A)|done] ]
      end
  end.

Section parts.
Context `{DatabaseLaws} `{CacherLaws Address UserMeta} `{GoRuntimeLaws} `{Ethereum}
  `{ChainCodecs} `{!ChainCodecLaws} `{!ChainCodecTotal}.
Context (g : Genesis).

(** [m] keeps [I] between a state and its database. *)
Definition keeps_inv {C A} (I : DB -> C -> Prop) (m : M (C * DB) A) : Prop :=
  forall s db, I db s -> I (m (s, db)).1.2 (m (s, db)).1.1.

Lemma on_stakers {A} (m : M (stakerState * DB) A) :
  touches (in_area AStakers) m -> keeps_inv stakers_inv m -> preserves g (zoom m).
Proof. on_part. Qed.
Lemma on_pows {A} (m : M (powState * DB) A) :
  touches (in_area APows) m -> keeps_inv pows_inv m -> preserves g (zoom m).
Proof. on_part. Qed.
Lemma on_rewards {A} (m : M (rewardState * DB) A) :
  touches (in_area ARewards) m -> keeps_inv rewards_inv m -> preserves g (zoom m).
Proof. on_part. Qed.
Lemma on_yields {A} (m : M (yieldsState * DB) A) :
  touches (in_area AYields) m -> keeps_inv yields_inv m -> preserves g (zoom m).
Proof. on_part. Qed.
Lemma on_details {A} (m : M (detailsState * DB) A) :
  touches (in_area ADetails) m -> keeps_inv details_inv m -> preserves g (zoom m).
Proof. on_part. Qed.
Lemma on_params {A} (m : M (sysParams * DB) A) :
  touches (in_area AParams) m -> keeps_inv (params_inv g) m -> preserves g (zoom m).
Proof. on_part. Qed.
Lemma on_user_types {A} (m : M (userTypesState * DB) A) :
  touches (in_area AUserTypes) m -> keeps_inv user_types_inv m -> preserves g (zoom m).
Proof. on_part. Qed.
Lemma on_users {A} (m : M (usersState * DB) A) :
  touches (in_area AUsers) m -> keeps_inv users_inv m -> preserves g (zoom m).
Proof. on_part. Qed.
Lemma on_actions {A} (m : M (actionsState * DB) A) :
  touches (in_area AActions) m -> keeps_inv actions_inv m -> preserves g (zoom m).
Proof. on_part. Qed.
Lemma on_ledger {A} (m : M DB A) : touches (in_area ALedger) m -> preserves g (zoom m).
Proof.
  intros Ht w [Hown Hst Hpo Hre Hyi Hde Hpa Hut Hus Hac]. pose proof (Ht (w_db w)) as Hk.
  unfold zoom. cbn [view lens_db]. destruct (m (w_db w)) as [db' r]. cbn in Hk.
  constructor; cbn.
  - by eapply area_own.
  - eapply stakers_inv_same; [by apply (area_same ALedger)|done].
  - eapply pows_inv_same; [by apply (area_same ALedger)|done].
  - eapply rewards_inv_same; [by apply (area_same ALedger)|done].
  - eapply yields_inv_same; [by apply (area_same ALedger)|done].
  - eapply details_inv_same; [by apply (area_same ALedger)|done].
  - eapply params_inv_same; [by apply (area_same ALedger)|done].
  - eapply user_types_inv_same; [by apply (area_same ALedger)|done].
  - eapply users_inv_same; [by apply (area_same ALedger)|done].
  - eapply actions_inv_same; [by apply (area_same ALedger)|done].
Qed.

(** *** The operations of the parts *)

Lemma PutStaker_keeps m : keeps_inv stakers_inv (PutStaker m).
Proof.
  intros s db [Hc Hk]. destruct (decide (byte_of_Z (Staker_StakerType m) ∈ StakerTypes)) as [Ht|Ht];
    [|by rewrite PutStaker_bad_type].
  destruct (Marshal_total m) as [b Hb].
  destruct (PutStaker_run m s db Ht) as (s' & _ & Hrun). rewrite Hb in Hrun. rewrite Hrun.
  by eapply PutStaker_coherent.
Qed.
Lemma DelStaker_keeps t a : keeps_inv stakers_inv (DelStaker t a).
Proof.
  intros s db [Hc Hk]. destruct (decide (t ∈ StakerTypes)) as [Ht|Ht].
  - destruct (DelStaker_run t a s db Ht) as (s' & _ & Hrun). rewrite Hrun.
    by eapply DelStaker_coherent.
  - unfold StakerTypes in Ht. rewrite !not_elem_of_cons in Ht. destruct Ht as (Hn1 & Hn2 & Hn3 & _).
    unfold DelStaker, gets, bind, GetPendingStakers. by rewrite !decide_False.
Qed.

Lemma PutPow_bad_type t p s db : t ∉ powTypes -> (PutPow t p (s, db)).1 = (s, db).
Proof.
  unfold powTypes. rewrite !not_elem_of_cons. intros (Hn1 & Hn2 & _).
  assert (GetPendingPow s t = inl ErrIDErr) as Hp
    by (unfold GetPendingPow; by rewrite !decide_False).
  assert (forall add del, set_pending_pow t add del s = s) as Hset
    by (intros; unfold set_pending_pow; by rewrite !decide_False).
  unfold PutPow, gets, bind, modify. cbn [fst over lens_fst]. rewrite Hp, Hset, lookup_empty.
  unfold check, cur_pows, GetCurPow. rewrite !decide_False by done. by rewrite lookup_empty.
Qed.
Lemma PutPow_keeps t p : keeps_inv pows_inv (PutPow t p).
Proof.
  intros s db (Hc & Hk & Hu). destruct (decide (t ∈ powTypes)) as [Ht|Ht];
    [|by rewrite PutPow_bad_type].
  destruct (Marshal_total (pow_after t p s)) as [b Hb].
  destruct (PutPow_run t p s db Ht (pows_keyed_typed _ Hk)) as (s' & Hu' & Hs' & Hrun).
  rewrite Hb in Hrun. rewrite Hrun. cbn [fst snd].
  split_and!; [..|congruence].
  - intros t' Ht'. rewrite Hs' by done. case_decide.
    + subst t'. rewrite cache_view_put. apply coherent_put; [apply _|done|by apply Hc].
    + apply coherent_frame_set; [intros; by apply pow_key_ne|by apply Hc].
  - intros t' a m Ht'. rewrite Hs' by done. case_decide; [|by apply Hk]. subst t'.
    cbn. rewrite lookup_insert_Some. intros [[[<- <-]|[_ Hm]]|Hm]; [|eapply Hk; eauto..].
    by apply pow_after_keyed.
Qed.

Lemma UpdateOwner_keeps m : keeps_inv rewards_inv (UpdateOwner m).
Proof.
  intros r db (Hc & Hk & Hg). destruct (Marshal_total m) as [b Hb].
  destruct (UpdateOwner_run m r db) as (r' & _ & _ & _ & Hrun). rewrite Hb in Hrun.
  rewrite Hrun. cbn [fst snd]. destruct (UpdateOwner_coherent _ _ _ _ _ Hrun Hc Hk) as [Hc' Hk'].
  split_and!; [done|done|]. rewrite lookup_set_ne by apply reward_global_ne. exact Hg.
Qed.
Lemma UpdateGlobal_keeps m : keeps_inv rewards_inv (UpdateGlobal m).
Proof.
  intros r db (Hc & Hk & Hg). destruct (Marshal_total m) as [b Hb].
  rewrite UpdateGlobal_run, Hb. cbn [fst snd]. split_and!; [|done|].
  - apply coherent_frame_set; [apply reward_global_ne|exact Hc].
  - rewrite lookup_set_eq. intros b' [= <-]. by exists m.
Qed.

Lemma ModifyYields_keeps y i t : keeps_inv yields_inv (ModifyYields y i t).
Proof.
  intros s db Hy. rewrite ModifyYields_run. set (m := mkYieldMeta _ _ _ _).
  destruct (Marshal_total m) as [b Hb]. rewrite Hb. cbn [fst snd]. unfold yields_inv.
  rewrite lookup_set_eq. exists m. split; [done|]. unfold CacheYieldsCommit. cbn [pendingYields].
  destruct (Z.eqb_spec (Yield_Total m) 0); [by right|by left].
Qed.

Lemma PutDetail_keeps a m : keeps_inv details_inv (PutDetail a m).
Proof.
  intros d db Hc. destruct (Marshal_total m) as [b Hb].
  pose proof (PutDetail_run a m d db) as Hrun. cbv zeta in Hrun. rewrite Hb in Hrun.
  rewrite Hrun. by eapply PutDetail_coherent.
Qed.

Lemma apply_param_tokens key p m m' :
  apply_param key p m = Some m' -> Sys_TotalTokens m' = Sys_TotalTokens m.
Proof. unfold apply_param. destruct m; cbn. repeat (case_match; [by intros [= <-]|]). done. Qed.
Lemma ModifyParams_keeps k v i t : keeps_inv (params_inv g) (ModifyParams k v i t).
Proof.
  intros s db [Htok Hp]. rewrite ModifyParams_run.
  destruct (ParseUint v) as [e|perc]; [done|].
  destruct ((MaxPercentage <? u32 perc) || (u32 perc <? MinPercentage))%bool; [done|].
  destruct (apply_param _ _ _) as [m|] eqn:Hm; [|done].
  destruct (Marshal_total m) as [b Hb]. rewrite Hb. cbn [fst snd].
  split; [done|]. rewrite lookup_set_eq. unfold CacheParamsCommit. cbn [pendingParams].
  apply apply_param_tokens in Hm. destruct (Z.eqb_spec (Sys_TotalTokens m) 0) as [Hz|]; [|done].
  exfalso. apply Htok. rewrite <- Hz, Hm. by destruct (curParams s).
Qed.

Lemma AddUserType_keeps m : keeps_inv user_types_inv (AddUserType m).
Proof.
  intros s db Hu. pose proof (AddUserType_run m s db) as Hrun. cbv zeta in Hrun.
  destruct (Marshal_total m) as [b Hb]. rewrite Hb in Hrun. rewrite Hrun. cbn [fst snd].
  intros i m'.
  change (user_type_cache (mkUserTypesState _ _ _)) with (cache_put (UserType_TypeID m) m (user_type_cache s)).
  rewrite cache_view_put, lookup_insert_Some, db_lookup_set. intros [[<- _]|[Hne Hm]].
  - by rewrite decide_True.
  - case_decide; [done|]. by eapply Hu.
Qed.

Lemma PutUser_keeps m : keeps_inv users_inv (PutUser m).
Proof.
  intros s db [Hf Hk]. pose proof (PutUser_run m s db) as Hrun. cbv zeta in Hrun.
  destruct (Marshal_total m) as [b Hb]. rewrite Hb in Hrun. rewrite Hrun. cbn [fst snd].
  split; [by eapply PutUser_fresh_but|]. intros a b'. rewrite db_lookup_set.
  case_decide as Heq; [|by apply Hk]. apply (inj PrefixUsersKey) in Heq as <-. intros [= <-].
  by exists m.
Qed.
Lemma GetUserMeta_keeps a : keeps_inv users_inv (GetUserMeta a).
Proof.
  intros s db [[Hf Ha] Hk]. pose proof (cached_Get (curUsers s) a) as Hget.
  unfold GetUserMeta, gets, modify, bind. cbn [fst].
  destruct (cache_Get (curUsers s) a) as [c hit]. cbn [fst] in Hget.
  assert (users_inv db (with_cur_users c s)) as Hinv.
  { split; [split|done]; [|exact Ha]. intros a' m'. cbn. rewrite Hget. apply Hf. }
  destruct hit as [m|]; [exact Hinv|].
  unfold attempt, zoom. cbn [view over lens_snd lens_fst snd fst]. rewrite Get_run.
  destruct (db_lookup db (PrefixUsersKey a)) as [b|]; [|by rewrite decide_True].
  unfold lift. by destruct (Unmarshal b).
Qed.

(** *** Actions *)

Lemma filed_keyed s : actions_filed s -> actions_keyed s.
Proof.
  intros Hf i m. unfold view_meta, metas. rewrite lookup_fmap, fmap_Some. intros (l & Hl & ->).
  apply Hf. rewrite lookup_cache_view in Hl. cbn in Hl. repeat case_match; simplify_eq; auto.
Qed.

Lemma DelAction_keeps i : keeps_inv actions_inv (DelAction i).
Proof.
  intros s db (Hwf & Hc & Hf). pose proof (DelAction_run i s db) as Hrun.
  destruct (DelAction_coherent i s db _ _ Hrun Hwf Hc (filed_keyed _ Hf)) as (Hwf' & Hc' & _).
  rewrite Hrun. cbn [fst snd]. split_and!; [done|done|]. intros j l Hl.
  assert (load_action (set_pending_actions (delete i (pendingActionsAdd s))
    (<[i:=act_next s]> (pendingActionsDel s)) (alloc_action zeroAction s).2) l = load_action s l) as Hload.
  { unfold load_action. simpl. rewrite lookup_insert_ne; [done|].
    assert (l < act_next s)%positive; [|lia]. apply (Hwf j). cbn in Hl.
    destruct Hl as [Hl|Hl]; [by left|]. apply lookup_delete_Some in Hl as [_ Hl]. by right; left. }
  rewrite Hload. apply Hf. cbn in Hl. destruct Hl as [Hl|Hl]; [by left|].
  apply lookup_delete_Some in Hl as [_ Hl]. by right.
Qed.

(** Filing a new action, and filing a changed action through its pointer. *)
Lemma put_new_keeps m s db :
  actions_inv db s ->
  let '(l, s1) := alloc_action m s in
  let p := (PutAction (Action_ActionID m) l (s1, db)).1 in actions_inv p.2 p.1.
Proof.
  intros (Hwf & Hc & Hf). destruct (Marshal_total m) as [b Hb].
  pose proof (load_alloc s m) as Hload. cbn [alloc_action fst snd] in *.
  set (s1 := mkActionsState _ _ _ _ _) in *.
  pose proof (PutAction_run (Action_ActionID m) (act_next s) s1 db) as Hrun. cbv zeta in Hrun.
  rewrite Hload, Hb in Hrun.
  pose proof (PutAction_new_coherent m s db) as Hnew. cbn [alloc_action] in Hnew. fold s1 in Hnew.
  destruct (Hnew _ _ Hrun Hwf Hc (filed_keyed _ Hf)) as (Hwf' & Hc' & _).
  cbv zeta. rewrite Hrun. cbn [fst snd]. split_and!; [done|done|]. intros j l Hl.
  change (load_action (set_pending_actions _ _ s1) l) with (load_action s1 l).
  destruct (decide (l = act_next s)) as [->|Hne].
  - rewrite Hload. cbn in Hl. rewrite lookup_insert_Some in Hl.
    destruct Hl as [Hl|[[Heq _]|[_ Hl]]]; [|done|];
      (assert (act_next s < act_next s)%positive; [|lia]); apply (Hwf j); auto.
  - assert (load_action s1 l = load_action s l) as ->
      by (unfold load_action; simpl; by rewrite lookup_insert_ne).
    apply Hf. cbn in Hl. rewrite lookup_insert_Some in Hl. naive_solver.
Qed.

Lemma put_stored_keeps i l m s db :
  actions_inv db s -> curActions s !! i = Some l -> Action_ActionID m = i ->
  let p := (PutAction i l (store_action l m s, db)).1 in actions_inv p.2 p.1.
Proof.
  intros (Hwf & Hc & Hf) Hl Hi. destruct (Marshal_total m) as [b Hb].
  set (s1 := store_action l m s).
  assert (load_action s1 l = m) as Hload by (unfold load_action; simpl; by rewrite lookup_insert_eq).
  assert (forall j l', curActions s !! j = Some l' \/ pendingActionsAdd s !! j = Some l' ->
    j <> i -> load_action s1 l' = load_action s l') as Hother.
  { intros j l' Hl' Hne. unfold load_action. simpl. rewrite lookup_insert_ne; [done|]. intros <-.
    apply Hne. rewrite <- (Hf j l Hl'). by rewrite (Hf i l (or_introl Hl)). }
  pose proof (PutAction_run i l s1 db) as Hrun. cbv zeta in Hrun. rewrite Hload, Hb in Hrun.
  cbv zeta. rewrite Hrun. cbn [fst snd].
  set (s2 := set_pending_actions _ _ s1).
  assert (view_meta s2 = <[i := m]> (view_meta s)) as Hview.
  { unfold view_meta. change (action_cache s2) with (cache_put i l (action_cache s)).
    rewrite cache_view_put. unfold metas. rewrite fmap_insert.
    change (load_action s2) with (load_action s1). rewrite Hload.
    apply map_eq. intros j. destruct (decide (i = j)) as [->|Hne]; [by rewrite !lookup_insert_eq|].
    rewrite !lookup_insert_ne, !lookup_fmap by done.
    destruct (cache_view (action_cache s) !! j) as [l'|] eqn:Hj; [|done]. simpl. f_equal.
    apply (Hother j); [|done]. rewrite lookup_cache_view in Hj. cbn in Hj.
    repeat case_match; simplify_eq; auto. }
  split_and!.
  - intros j l'. cbn. rewrite lookup_insert_Some, lookup_delete_Some.
    intros [Hj|[[[<- <-]|[_ Hj]]|[_ Hj]]]; [by apply (Hwf j); auto|apply (Hwf i); auto|
      by apply (Hwf j); auto|by apply (Hwf j); auto].
  - unfold actions_coherent. rewrite Hview. apply coherent_put; [apply _|done|exact Hc].
  - intros j l' Hj. change (load_action s2 l') with (load_action s1 l').
    destruct (decide (j = i)) as [->|Hne].
    + assert (curActions s !! i = Some l' \/ l' = l) as [Hj'| ->] by
        (cbn in Hj; rewrite lookup_insert_eq in Hj; naive_solver); [|by rewrite Hload].
      assert (l' = l) as -> by congruence. by rewrite Hload.
    + cbn in Hj. rewrite lookup_insert_ne in Hj by done. rewrite (Hother j) by done. by apply Hf.
Qed.
End parts.

(** ** Composition *)
Section composition.
Context `{DatabaseLaws} `{CacherLaws Address UserMeta} `{GoRuntimeLaws} `{Ethereum}
  `{ChainCodecs} `{!ChainCodecLaws} `{!ChainCodecTotal}.
Context (g : Genesis).
Local Abbreviation preserves := (preserves g).

(** The invariant does not mention the clock. *)
Lemma chain_inv_tick w n : chain_inv g w -> chain_inv g (mkWorld (w_db w) (w_sama w) n).
Proof. by intros []. Qed.

Lemma preserves_still {A} (m : M world A) :
  (forall w, w_db (m w).1 = w_db w) -> (forall w, w_sama (m w).1 = w_sama w) -> preserves m.
Proof.
  intros Hdb Hs w Hw. destruct (m w).1 as [db s n] eqn:Hm.
  assert (db = w_db w) as -> by (rewrite <- Hdb, Hm; done).
  assert (s = w_sama w) as -> by (rewrite <- Hs, Hm; done). by apply chain_inv_tick.
Qed.
Lemma preserves_clock : preserves clock.
Proof. by apply preserves_still. Qed.
Lemma preserves_ret {A} (a : A) : preserves (ret a).
Proof. intros w Hw. exact Hw. Qed.
Lemma preserves_fail {A} e : preserves (fail (A := A) e).
Proof. intros w Hw. exact Hw. Qed.
Lemma preserves_panics {A} p : preserves (panics (A := A) p).
Proof. intros w Hw. exact Hw. Qed.
Lemma preserves_gets {A} (f : world -> A) : preserves (gets f).
Proof. intros w Hw. exact Hw. Qed.
Lemma preserves_lift {A} (r : result A) : preserves (lift r).
Proof. intros w Hw. exact Hw. Qed.
Lemma preserves_lift_outcome {A} (r : outcome A) : preserves (lift_outcome r).
Proof. intros w Hw. exact Hw. Qed.
Lemma preserves_check b e : preserves (check b e).
Proof. intros w Hw. destruct b; exact Hw. Qed.
Lemma preserves_bind {A B} (m : M world A) (f : A -> M world B) :
  preserves m -> (forall a, preserves (f a)) -> preserves (bind m f).
Proof.
  intros Hm Hf w Hw. unfold bind. specialize (Hm w Hw).
  destruct (m w) as [w1 [a|e|p]]; simpl in *; [by apply Hf|done|done].
Qed.
Lemma preserves_attempt {A} (m : M world A) : preserves m -> preserves (attempt m).
Proof. intros Hm w Hw. rewrite keeps_attempt_state. by apply Hm. Qed.
Lemma preserves_for_each {A} (body : A -> M world unit) l :
  (forall x, preserves (body x)) -> preserves (for_each body l).
Proof. intros Hb. induction l as [|x l IH]; [apply preserves_ret|]. by apply preserves_bind. Qed.
End composition.

Create HintDb inv discriminated.

(** The operation of one part under a [zoom]. *)
Ltac part_inv :=
  first
    [ apply on_ledger; solve [eauto with area]
    | apply on_stakers; [solve [eauto with area]|first [apply PutStaker_keeps|apply DelStaker_keeps]]
    | apply on_pows; [solve [eauto with area]|apply PutPow_keeps]
    | apply on_rewards; [solve [eauto with area]|first [apply UpdateOwner_keeps|apply UpdateGlobal_keeps]]
    | apply on_yields; [solve [eauto with area]|apply ModifyYields_keeps]
    | apply on_details; [solve [eauto with area]|apply PutDetail_keeps]
    | apply on_params; [solve [eauto with area]|apply ModifyParams_keeps]
    | apply on_user_types; [solve [eauto with area]|apply AddUserType_keeps]
    | apply on_users; [solve [eauto with area]|first [apply PutUser_keeps|apply GetUserMeta_keeps]]
    | apply on_actions; [solve [eauto with area]|apply DelAction_keeps] ].

(** Follows the structure of the code down to the operations of the parts. *)
Ltac inv_step :=
  lazymatch goal with
  | |- preserves _ (bind _ _) => apply preserves_bind; [|intros ?]
  | |- preserves _ (ret _) => apply preserves_ret
  | |- preserves _ (fail _) => apply preserves_fail
  | |- preserves _ (panics _) => apply preserves_panics
  | |- preserves _ (gets _) => apply preserves_gets
  | |- preserves _ (the _) => apply preserves_gets
  | |- preserves _ clock => apply preserves_clock
  | |- preserves _ (lift _) => apply preserves_lift
  | |- preserves _ (lift_outcome _) => apply preserves_lift_outcome
  | |- preserves _ (check _ _) => apply preserves_check
  | |- preserves _ (attempt _) => apply preserves_attempt
  | |- preserves _ (for_each _ _) => apply preserves_for_each; intros ?
  | |- preserves _ (zoom _) => part_inv
  | |- preserves _ (match ?x with _ => _ end) => destruct x
  end.
Ltac keep_inv := cbv zeta; repeat (inv_step || (progress cbv beta zeta) || solve [eauto 3 with inv]).

Section transactions.
Context `{DatabaseLaws} `{CacherLaws Address UserMeta} `{GoRuntimeLaws} `{Ethereum}
  `{ChainCodecs} `{!ChainCodecLaws} `{!ChainCodecTotal}.
Context (g : Genesis).
Local Abbreviation preserves := (preserves g).

Lemma UpdateFoundationReward_inv a i e : preserves (UpdateFoundationReward a i e).
Proof. unfold UpdateFoundationReward. keep_inv. Qed.
Lemma UpdateStakerReward_inv t a i e : preserves (UpdateStakerReward t a i e).
Proof. unfold UpdateStakerReward, update_staker. keep_inv. Qed.
#[local] Hint Resolve UpdateFoundationReward_inv UpdateStakerReward_inv : inv.
Lemma DealStakeTx_inv m : preserves (DealStakeTx m).
Proof. unfold DealStakeTx. keep_inv. Qed.
Lemma DealUnStakeTx_inv t a i e : preserves (DealUnStakeTx t a i e).
Proof. unfold DealUnStakeTx. keep_inv. Qed.
Lemma DealAddUserTx_inv i b u : preserves (DealAddUserTx i b u).
Proof. unfold DealAddUserTx. keep_inv. Qed.
Lemma UpdateNodeParams_inv d : preserves (UpdateNodeParams d).
Proof. unfold UpdateNodeParams. keep_inv. Qed.
Lemma unix_now_inv : preserves unix_now.
Proof. unfold unix_now. keep_inv. Qed.
Lemma get_action_inv i : preserves (get_action i).
Proof. unfold get_action. keep_inv. Qed.
#[local] Hint Resolve DealStakeTx_inv DealUnStakeTx_inv DealAddUserTx_inv UpdateNodeParams_inv
  unix_now_inv get_action_inv : inv.
Lemma IsBeConfirmed_inv t k : preserves (IsBeConfirmed t k).
Proof. unfold IsBeConfirmed. keep_inv. Qed.
#[local] Hint Resolve IsBeConfirmed_inv : inv.

Lemma SetTx_inv x t : preserves (SetTx_Execute x t).
Proof. unfold SetTx_Execute. keep_inv. Qed.
Lemma TransferTx_inv x t : preserves (TransferTx_Execute x t).
Proof. unfold TransferTx_Execute. keep_inv. Qed.
Lemma StakeTx_inv x t : preserves (StakeTx_Execute x t).
Proof. unfold StakeTx_Execute. keep_inv. Qed.
Lemma UnStakeTx_inv x t : preserves (UnStakeTx_Execute x t).
Proof. unfold UnStakeTx_Execute. keep_inv. Qed.
Lemma ClaimTx_inv x t : preserves (ClaimTx_Execute x t).
Proof. unfold ClaimTx_Execute. keep_inv. Qed.
Lemma RefreshTx_inv x t : preserves (RefreshTx_Execute x t).
Proof. unfold RefreshTx_Execute. keep_inv. Qed.
Lemma AddUserTx_inv x t : preserves (AddUserTx_Execute x t).
Proof. unfold AddUserTx_Execute. keep_inv. Qed.
Lemma GovernTx_inv x t : preserves (GovernTx_Execute x t).
Proof. unfold GovernTx_Execute. keep_inv. Qed.
Lemma ProofTx_inv x t : preserves (ProofTx_Execute x t).
Proof. unfold ProofTx_Execute. keep_inv. Qed.

(** *** Votes and withdrawals read an action and write it back *)

Lemma inv_bind_ok {A B} (m : M world A) (f : A -> M world B) w :
  chain_inv g (m w).1 ->
  (forall a w1, m w = (w1, Ok a) -> chain_inv g w1 -> chain_inv g (f a w1).1) ->
  chain_inv g (bind m f w).1.
Proof.
  intros Hm Hf. unfold bind. destruct (m w) as [w1 [a|e|p]] eqn:Hrun; [by apply Hf|done|done].
Qed.

Lemma put_new_action_inv i m : Action_ActionID m = i -> preserves (put_new_action i m).
Proof.
  intros <-. set (op := (fun '(s, db) => let '(l, s1) := alloc_action m s in
    PutAction (Action_ActionID m) l (s1, db)) : M (actionsState * DB) unit).
  assert (preserves (zoom op)) as Hop.
  { apply on_actions.
    - intros [s db]. apply (PutAction_area (Action_ActionID m) (act_next s) ((alloc_action m s).2, db)).
    - intros s db Hs. by apply (put_new_keeps m s db) in Hs. }
  intros w Hw. specialize (Hop w Hw).
  replace (put_new_action (Action_ActionID m) m w).1 with (zoom op w).1; [done|].
  reflexivity.
Qed.

Lemma filed_action w i l :
  chain_inv g w -> curActions (st_actions (w_sama w)) !! i = Some l ->
  Action_ActionID (load_action (st_actions (w_sama w)) l) = i.
Proof.
  intros Hw Hl. destruct (inv_actions _ _ Hw) as (_ & _ & Hf). apply (Hf i l). by left.
Qed.

(** A step whose result does not matter. *)
Ltac at_inv Hw :=
  match goal with
  | |- chain_inv _ (?m _).1 =>
      let Hm := fresh in assert (preserves m) as Hm by keep_inv; exact (Hm _ Hw)
  end.

Lemma VoteTx_inv x t : preserves (VoteTx_Execute x t).
Proof.
  intros w Hw. unfold VoteTx_Execute. apply inv_bind_ok; [exact Hw|].
  intros s ? Hs _. unfold gets in Hs. injection Hs as <- <-.
  apply inv_bind_ok; [at_inv Hw|]. intros [] w1 Hperm _.
  assert (w1 = w) as ->.
  { destruct (IsRoute _ _); [by injection Hperm as <-|].
    apply bind_ok in Hperm as (? & [] & Hc & Hperm). apply check_ok in Hc as [_ ->].
    destruct (GetStakersNum _) as [[rn ?] ?]. by apply check_ok in Hperm as [_ ->]. }
  apply inv_bind_ok; [by apply get_action_inv|]. intros r w2 Hget Hw2.
  apply get_action_ok in Hget as (_ & _ & Hr). destruct r as [l|]; [|exact Hw2].
  symmetry in Hr. pose proof (filed_action w _ l Hw Hr) as Hid.
  apply inv_bind_ok; [at_inv Hw2|]. intros _ w3 _ Hw3.
  apply inv_bind_ok; [by apply unix_now_inv|]. intros now w4 _ Hw4.
  apply inv_bind_ok; [at_inv Hw4|]. intros _ w5 _ Hw5. cbv zeta.
  apply inv_bind_ok; [|by intros]. rewrite keeps_attempt_state. by apply put_new_action_inv.
Qed.

(** Changing an action through the committed pointer and filing it again. *)
Lemma refile_inv i l m w :
  Action_ActionID m = i -> curActions (st_actions (w_sama w)) !! i = Some l -> chain_inv g w ->
  chain_inv g (zoom (PutAction i l) (over (store_action l m (st_actions (w_sama w)), w_db w) w)).1.
Proof.
  intros Hid Hl Hw.
  set (op := (fun '(s, db) =>
    if decide (curActions s !! i = Some l) then PutAction i l (store_action l m s, db)
    else ((s, db), Ok tt)) : M (actionsState * DB) unit).
  assert (preserves (zoom op)) as Hop.
  { apply on_actions.
    - intros [s db] k Hk. unfold op. case_decide; [|done].
      by apply (PutAction_area i l (store_action l m s, db)).
    - intros s db Hs. unfold op. case_decide; [|done]. by apply put_stored_keeps. }
  specialize (Hop w Hw). unfold zoom, op in *. cbn [view over lens_actions] in *.
  rewrite decide_True in Hop by done. exact Hop.
Qed.

Lemma WithdrawnTx_inv x t : preserves (WithdrawnTx_Execute x t).
Proof.
  intros w Hw. unfold WithdrawnTx_Execute. apply inv_bind_ok; [exact Hw|].
  intros s ? Hs _. unfold gets in Hs. injection Hs as <- <-.
  apply inv_bind_ok; [at_inv Hw|]. intros [] w1 Hc _. apply check_ok in Hc as [_ ->].
  apply inv_bind_ok; [by apply get_action_inv|]. intros r w2 Hget Hw2.
  apply get_action_ok in Hget as (Hs2 & _ & Hr). destruct r as [l|]; [|exact Hw2].
  symmetry in Hr. pose proof (filed_action w _ l Hw Hr) as Hid. cbv zeta.
  unfold bind at 1, modify.
  apply inv_bind_ok; [|by intros]. rewrite keeps_attempt_state.
  apply refile_inv; [exact Hid|by rewrite Hs2|exact Hw2].
Qed.

Lemma RegisterTx_inv x t : preserves (RegisterTx_Execute x t).
Proof.
  unfold RegisterTx_Execute. keep_inv; by apply put_new_action_inv.
Qed.
Lemma ProposalTx_inv x t : preserves (ProposalTx_Execute x t).
Proof. unfold ProposalTx_Execute. keep_inv; by apply put_new_action_inv. Qed.

Lemma Execute_inv u t : preserves (Execute u t).
Proof.
  destruct u; cbn [Execute]; auto using SetTx_inv, TransferTx_inv, StakeTx_inv, UnStakeTx_inv,
    ClaimTx_inv, RegisterTx_inv, RefreshTx_inv, AddUserTx_inv, GovernTx_inv, VoteTx_inv,
    WithdrawnTx_inv, ProofTx_inv, ProposalTx_inv.
Qed.
#[local] Hint Resolve Execute_inv : inv.
Lemma Transaction_Execute_inv tx b c : preserves (Transaction_Execute tx g b c).
Proof. unfold Transaction_Execute. keep_inv. Qed.
End transactions.
