(* ===== verification/Restart.v ===== *)
(** * A node that is restarted

    [SamaNew] on the database of a block rebuilds what the node that executed
    the block holds after its commit, for every block of transactions: the
    component lemmas on reloading, applied to the invariant [chain_inv]. *)

From S2P Require Import Prelude External GoStd PendingCache Keys Storage Genesis.
From S2P Require Import Stakers Pows Rewards Actions Users Details SysParams SamaState StateFacts.
From S2P Require Import Tx Frames Areas Coherence.

(** The transactions of a block, one after the other. *)
Definition run_txs `{Database} `{Cacher Address UserMeta} `{GoRuntime} `{Ethereum} `{ChainCodecs}
    (g : Genesis) (b : Z) (c : Context_t) (txs : list Transaction) : M world unit :=
  for_each (fun tx => Transaction_Execute tx g b c) txs.

Section reloads.
Context `{DatabaseLaws} `{CacherLaws Address UserMeta} `{GoRuntimeLaws} `{Ethereum}
  `{ChainCodecs} `{!ChainCodecLaws} `{!ChainCodecTotal}.
Implicit Types (db : DB).

Lemma rewards_reload db r :
  own_keys (fun k => is_Some (db_lookup db k)) -> rewards_inv db r ->
  exists r', NewRewardState db = (r', Ok tt) /\ curRewards r' = curRewards (CacheRewardsCommit r) /\
    global_coherent db (curGlobal r').
Proof.
  intros Hown (Hc & Hk & Hg).
  assert (curRewards (CacheRewardsCommit r) = cache_view (reward_cache r)) as Hcur.
  { transitivity (c_cur (reward_cache (CacheRewardsCommit r))); [done|].
    by rewrite reward_cache_commit, cache_commit_eq. }
  unfold NewRewardState, ReloadRewards. cbn [emptyRewardState curRewards].
  rewrite (reload_coherent Reward_RewardAddr PrefixRewardKey db (cache_view (reward_cache r)));
    [|done|done|..].
  - rewrite db_get_lookup. unfold global_coherent. destruct (db_lookup db RewardGlobalPrefix) as [b|].
    + destruct (Hg b eq_refl) as [m Hm]. rewrite (Unmarshal_Marshal _ _ Hm). by eexists.
    + rewrite decide_True by done. by eexists.
  - intros a. by exists (array a).
  - intros kb v Hp Hlk. destruct (Hown kb) as (k & _ & ->); [by eexists|].
    destruct (under_rewards k Hp) as [a ->]. by exists a.
Qed.

Lemma params_reload g db s :
  params_inv g db s ->
  exists s', NewSysParamsState db g = (s', Ok tt) /\ curParams s' = curParams (CacheParamsCommit s).
Proof.
  intros [_ Hp]. unfold NewSysParamsState, ReloadParams, attempt, bind, zoom.
  cbn [view lens_snd snd]. rewrite Get_run. destruct (db_lookup db PrefixSysParamsKey) as [b|]; cbn.
  - unfold lift. rewrite (Unmarshal_Marshal _ _ Hp). by eexists.
  - rewrite Hp. by eexists.
Qed.

Lemma yields_reload db y :
  yields_inv db y ->
  exists y', NewYieldsState db = (y', Ok tt) /\
    (curYields y' = curYields (CacheYieldsCommit y) \/ GetChainYields y' = 0).
Proof.
  intros Hy. unfold yields_inv in Hy. unfold NewYieldsState, ReloadYields, zoom, bind. cbn [view lens_snd snd].
  rewrite Get_run. destruct (db_lookup db PrefixYieldsKey) as [b|]; cbn.
  - destruct Hy as (m & Hm & Hor). unfold lift. rewrite (Unmarshal_Marshal _ _ Hm). by eexists.
  - eexists. split; [done|]. left. by rewrite Hy.
Qed.

(** Only users are stored under the prefix of the users. *)
Definition no_user_types db : Prop := forall i, db_lookup db (PrefixUserTypesKey i) = None.

Lemma user_types_reload db s :
  own_keys (fun k => is_Some (db_lookup db k)) -> no_user_types db -> user_types_inv db s ->
  NewUserTypesState db = (CacheUserTypesCommit s, Ok tt).
Proof.
  intros Hown Hno Hu. unfold NewUserTypesState, ReloadUserTypes.
  rewrite (no_user_types_stored db Hown). cbn [load_all of_result]. f_equal.
  apply user_type_state_eq. rewrite user_type_cache_commit, cache_commit_eq.
  assert (cache_view (user_type_cache s) = ∅) as ->; [|done].
  apply map_eq. intros i. rewrite lookup_empty. destruct (_ !! i) as [m|] eqn:Hm; [|done].
  destruct (Hu i m Hm) as [b Hb]. by rewrite Hno in Hb.
Qed.

Lemma reload_users_fresh db count l c :
  (forall kb, kb ∈ l -> exists m : UserMeta, Marshal m = inr kb.2 /\
    db_lookup db (PrefixUsersKey (User_Address m)) = Some kb.2) ->
  users_fresh db c ->
  exists c', reload_users_loop count l c = (c', Ok tt) /\ users_fresh db c'.
Proof.
  revert count c. induction l as [|[k b] l IH]; intros count c Hl Hc; [by exists c|].
  destruct (Hl (k, b)) as (m & Hm & Hlk); [set_solver|]. cbn [snd] in Hm, Hlk.
  cbn [reload_users_loop]. rewrite (Unmarshal_Marshal _ _ Hm).
  assert (users_fresh db (cache_Put c (User_Address m) m)) as Hc'.
  { intros a m' Hm'. destruct (decide (User_Address m = a)) as [<-|Hne].
    - rewrite cached_Put_eq in Hm'. injection Hm' as <-. by exists b.
    - apply cached_Put_ne in Hm'; [by apply Hc|done]. }
  destruct (UsersCacheSize / 2 <? count + 1); [by eexists|].
  apply IH; [set_solver|done].
Qed.
Lemma users_reload db s :
  own_keys (fun k => is_Some (db_lookup db k)) -> no_user_types db -> users_inv db s ->
  exists s', NewUserstate db = (s', Ok tt) /\ users_fresh db (curUsers s').
Proof.
  intros Hown Hno [_ Hk]. unfold NewUserstate, ReloadUsers.
  destruct (reload_users_fresh db 0 (db_iter_prefix db baseUsersPrefix) (curUsers emptyUsersState))
    as (c' & Hrun & Hc').
  - intros [kb b] Hin. apply db_iter_prefix_spec in Hin as [Hp Hlk].
    destruct (Hown kb) as (k & _ & ->); [by eexists|].
    destruct (under_users k Hp) as [[a ->]|[i ->]]; cbn [render] in Hlk; [|by rewrite Hno in Hlk].
    destruct (Hk a b Hlk) as (m & Hm & <-). by exists m.
  - intros a m. cbn. by rewrite cached_New.
  - rewrite Hrun. by eexists.
Qed.
End reloads.

(** ** Commit *)
Section commits.
Context `{DatabaseLaws} `{CacherLaws Address UserMeta} `{GoRuntimeLaws} `{Ethereum}
  `{ChainCodecs} `{!ChainCodecLaws} `{!ChainCodecTotal}.
Context (g : Genesis).

Lemma stakers_commit_inv db s : stakers_inv db s -> stakers_inv db (CacheStakersCommit s).
Proof.
  intros [Hc Hk]. split; [by apply commit_coherent|]. intros t a m Ht.
  rewrite staker_cache_commit, cache_view_commit by done. by apply Hk.
Qed.
Lemma pows_commit_inv db s : pows_inv db s -> pows_inv db (CachePowsCommit s).
Proof.
  intros (Hc & Hk & Hu). split_and!; [..|done].
  - intros t Ht. rewrite pow_cache_commit, cache_view_commit by done. by apply Hc.
  - intros t a m Ht. rewrite pow_cache_commit, cache_commit_eq by done. cbn.
    rewrite lookup_empty. intros [|Hm]; [done|]. rewrite lookup_cache_view in Hm.
    apply (Hk t); [done|]. repeat case_match; simplify_eq; auto.
Qed.
Lemma rewards_commit_inv db r : rewards_inv db r -> rewards_inv db (CacheRewardsCommit r).
Proof.
  intros (Hc & Hk & Hg). unfold rewards_inv, rewards_coherent, rewards_keyed.
  rewrite reward_cache_commit, cache_view_commit. done.
Qed.
Lemma details_commit_inv db d : details_inv db d -> details_inv db (CacheDetailsCommit d).
Proof.
  unfold details_inv, details_coherent. by rewrite detail_cache_commit, cache_view_commit.
Qed.
Lemma params_commit_inv db s : params_inv g db s -> params_inv g db (CacheParamsCommit s).
Proof.
  intros [Htok Hp]. unfold params_inv. pose proof (commit_idemp (C := SysParamsMeta) s) as Hid. cbn in Hid.
  rewrite Hid. split; [|done]. unfold CacheParamsCommit.
  destruct (Z.eqb_spec (Sys_TotalTokens (pendingParams s)) 0); cbn; done.
Qed.
Lemma yields_commit_inv db y : yields_inv db y -> yields_inv db (CacheYieldsCommit y).
Proof.
  unfold yields_inv. pose proof (commit_idemp (C := YieldMeta) y) as Hid. cbn in Hid. by rewrite Hid.
Qed.
Lemma user_types_commit_inv db s : user_types_inv db s -> user_types_inv db (CacheUserTypesCommit s).
Proof. unfold user_types_inv. by rewrite user_type_cache_commit, cache_view_commit. Qed.
Lemma users_commit_inv db s : users_inv db s -> users_inv db (CacheUsersCommit s).
Proof.
  intros [Hf Hk]. split; [|done]. apply users_commit_fresh in Hf. apply users_fresh_clean in Hf.
  unfold CacheUsersCommit in *. by rewrite !clear_map_empty.
Qed.
Lemma actions_commit_inv db s : actions_inv db s -> actions_inv db (CacheActionsCommit s).
Proof.
  intros (Hwf & Hc & Hf).
  assert (action_cache (CacheActionsCommit s) = Cache (cache_view (action_cache s)) ∅ ∅) as Hcache
    by (rewrite action_cache_commit; apply cache_commit_eq).
  pose proof (f_equal c_cur Hcache) as Hcur. pose proof (f_equal c_add Hcache) as Hadd.
  pose proof (f_equal c_del Hcache) as Hdel. cbn [c_cur c_add c_del action_cache] in Hcur, Hadd, Hdel.
  assert (forall i l, cache_view (action_cache s) !! i = Some l ->
    curActions s !! i = Some l \/ pendingActionsAdd s !! i = Some l) as Hview.
  { intros i l. rewrite lookup_cache_view. cbn. repeat case_match; intros; simplify_eq; auto. }
  split_and!.
  - intros i l. rewrite Hcur, Hadd, Hdel, !lookup_empty. intros [Hl|[|]]; [|done|done].
    apply (Hwf i). destruct (Hview i l Hl); auto.
  - unfold actions_coherent, view_meta. rewrite Hcache, cache_view_clean. exact Hc.
  - intros i l. rewrite Hcur, Hadd, lookup_empty. intros [Hl|]; [|done].
    apply Hf. by apply Hview.
Qed.

Lemma commit_inv w : chain_inv g w -> chain_inv g (with_sama samaState_Commit w).
Proof.
  intros [Hown Hst Hpo Hre Hyi Hde Hpa Hut Hus Hac]. constructor; cbn.
  - exact Hown.
  - by apply stakers_commit_inv.
  - by apply pows_commit_inv.
  - by apply rewards_commit_inv.
  - by apply yields_commit_inv.
  - by apply details_commit_inv.
  - by apply params_commit_inv.
  - by apply user_types_commit_inv.
  - by apply users_commit_inv.
  - by apply actions_commit_inv.
Qed.

Lemma run_txs_inv b c txs : preserves g (run_txs g b c txs).
Proof. apply preserves_for_each. intros tx. apply Transaction_Execute_inv. Qed.

(** ** Chains of accepted blocks *)

(** [accepts w w']: from [w], blocks have been executed and committed one after
    the other, and the node is now in [w']. *)
Inductive accepts : world -> world -> Prop :=
  | accepts_none w : accepts w w
  | accepts_block w w1 b c txs w2 :
      accepts w w1 -> run_txs g b c txs w1 = (w2, Ok tt) ->
      accepts w (with_sama samaState_Commit w2).

Lemma accepts_inv w w' : accepts w w' -> chain_inv g w -> chain_inv g w'.
Proof.
  intros Ha Hw. induction Ha as [|w w1 b c txs w2 Ha IH Hrun]; [done|].
  apply commit_inv. specialize (IH Hw). apply (run_txs_inv b c txs) in IH. by rewrite Hrun in IH.
Qed.

(** A node that has only read its genesis into the balances. *)
Definition only_ledger (db : DB) : Prop :=
  forall kb, is_Some (db_lookup db kb) -> in_area ALedger kb.

Lemma only_ledger_none A db kb : only_ledger db -> in_area A kb -> A <> ALedger -> db_lookup db kb = None.
Proof.
  intros Hdb HA Hne. destruct (db_lookup db kb) eqn:Hlk; [|done].
  destruct Hne. eapply in_area_unique; [exact HA|]. apply Hdb. by eexists.
Qed.

Lemma coherent_none {K V} `{Countable K} `{Codec V} (key : K -> bytes) A db (m : gmap K V) :
  only_ledger db -> A <> ALedger -> (forall k, in_area A (key k)) -> m = ∅ -> coherent key db m.
Proof.
  intros Hdb Hne HA -> k. rewrite lookup_empty. by apply (only_ledger_none A).
Qed.

Lemma fresh_inv db tick :
  only_ledger db -> Sys_TotalTokens (params_of_genesis g) <> 0 ->
  chain_inv g (mkWorld db (fresh_state g) tick).
Proof.
  intros Hdb Htok.
  pose proof (fun A kb HA Hne => only_ledger_none A db kb Hdb HA Hne) as Habs.
  constructor; cbn [w_db w_sama fresh_state st_stakers st_pows st_rewards st_yields st_details
    st_params st_userTypes st_users st_actions].
  - intros kb Hkb. eapply in_area_own, Hdb, Hkb.
  - split.
    + intros t Ht. eapply (coherent_none _ AStakers); auto with area. by staker_type t Ht.
    + intros t a m Ht. by staker_type t Ht.
  - split_and!; [| |done].
    + intros t Ht. eapply (coherent_none _ APows); auto with area. by pow_type t Ht.
    + intros t a m Ht. by pow_type t Ht; intros [|].
  - split_and!.
    + by eapply (coherent_none _ ARewards); auto with area.
    + by intros a m.
    + intros b. by rewrite (Habs ARewards) by auto with area.
  - unfold yields_inv. by rewrite (Habs AYields) by auto with area.
  - by eapply (coherent_none _ ADetails); auto with area.
  - split; [done|]. by rewrite (Habs AParams) by auto with area.
  - by intros i m.
  - split; [split|].
    + intros a m. unfold emptyUsersState. cbn [curUsers]. by rewrite cached_New.
    + by intros a m.
    + intros a b. by rewrite (Habs AUsers) by auto with area.
  - split_and!.
    + intros i l. cbn. rewrite !lookup_empty. by intros [|[|]].
    + by eapply (coherent_none _ AActions); auto with area.
    + intros i l. cbn. rewrite !lookup_empty. by intros [|].
Qed.
End commits.

(** ** The restarted node *)
Section restart.
Context `{DatabaseLaws} `{CacherLaws Address UserMeta} `{GoRuntimeLaws} `{Ethereum}
  `{ChainCodecs} `{!ChainCodecLaws} `{!ChainCodecTotal}.
Context (g : Genesis).

(** [restarted lo hi db s s']: part by part, what the node [s'] that has been
    started on the database [db] has of the committed node [s] over it.  Stakers,
    proofs, the rewards of every staker, the parameters and the types of users
    are the same, and every question about a user is answered alike.  The yields are the
    same unless the stored total is zero.  The node parameters of a worker are found
    under its stake address instead of its work address; an action that ends
    before [lo] may be gone, one that ends at [hi] or later is there.  The time of
    the last distribution is the stored one: the running node does not take it
    over ([UpdateGlobal_invisible]), so there the two can differ. *)
Record restarted (lo hi : Z) (db : DB) (s s' : samaState) : Prop := {
  re_stakers : st_stakers s' = st_stakers s;
  re_pows : st_pows s' = st_pows s;
  re_rewards : curRewards (st_rewards s') = curRewards (st_rewards s);
  re_global : global_coherent db (curGlobal (st_rewards s'));
  re_yields : curYields (st_yields s') = curYields (st_yields s) \/ GetChainYields (st_yields s') = 0;
  re_params : GetSysParams (st_params s') = GetSysParams (st_params s);
  re_user_types : st_userTypes s' = st_userTypes s;
  re_users a : (GetUserMeta a (st_users s', db)).2 = (GetUserMeta a (st_users s, db)).2;
  re_details a m : GetDetailMeta (st_details s') a = Some m -> Detail_StakeAddress m = a /\
    exists work, GetDetailMeta (st_details s) work = Some m;
  re_details_found work m : GetDetailMeta (st_details s) work = Some m ->
    is_Some (GetDetailMeta (st_details s') (Detail_StakeAddress m));
  re_actions i m : cur_meta (st_actions s') !! i = Some m ->
    cur_meta (st_actions s) !! i = Some m /\ lo <= Action_EndTime m;
  re_actions_open i m : cur_meta (st_actions s) !! i = Some m -> hi <= Action_EndTime m ->
    cur_meta (st_actions s') !! i = Some m
}.

Lemma users_same_answers db (s s' : usersState) a :
  users_fresh db (curUsers s) -> users_fresh db (curUsers s') ->
  (forall b, db_lookup db (PrefixUsersKey a) = Some b -> exists m : UserMeta, Marshal m = inr b) ->
  (GetUserMeta a (s', db)).2 = (GetUserMeta a (s, db)).2.
Proof.
  intros Hs Hs' Hstored.
  assert (exists u, stored_user db a u) as [u Hu].
  { unfold stored_user. destruct (db_lookup db (PrefixUsersKey a)) as [b|]; [|by exists None].
    destruct (Hstored b eq_refl) as [m Hm]. by exists (Some m), m. }
  destruct (GetUserMeta_reads_through a u s db Hs Hu) as (s1 & Hrun & _).
  destruct (GetUserMeta_reads_through a u s' db Hs' Hu) as (s1' & Hrun' & _).
  by rewrite Hrun, Hrun'.
Qed.

Lemma restart_committed w lo hi tick :
  chain_inv g w -> (forall i, lo <= u64 (Unix (time_Now i)) <= hi) ->
  no_stake_shadow (w_db w) -> no_user_types (w_db w) ->
  exists s', SamaNew (w_db w) g tick = Ok s' /\
    restarted lo hi (w_db w) (samaState_Commit (w_sama w)) s'.
Proof.
  intros Hw Hclk Hshadow Hno.
  destruct Hw as [Hown [Hstc Hstk] (Hpoc & Hpok & Hpou) Hre Hyi Hde Hpa Hut Hus Hac].
  destruct (params_reload g _ _ Hpa) as (p' & Hp & Hpcur).
  destruct (rewards_reload _ _ Hown Hre) as (r' & Hr & Hrcur & Hrglob).
  destruct (yields_reload _ _ Hyi) as (y' & Hy & Hycur).
  destruct (users_reload _ _ Hown Hno Hus) as (u' & Hu & Hufresh).
  destruct (details_restart_by_stake _ _ Hown Hde) as (d' & Hd & Hdsound & Hdfound).
  destruct Hac as (Hwf & Hacc & Hfiled).
  destruct (actions_restart lo hi tick _ _ Hclk Hown Hacc (filed_keyed _ Hfiled))
    as (a' & Hact & _ & _ & Hasound & Haopen).
  eexists. split.
  - unfold SamaNew. rewrite Hp, (stakers_restart _ _ Hown Hshadow Hstc Hstk), Hr,
      (pows_restart _ _ Hown Hpoc Hpok Hpou), Hy, Hu, Hd, Hact,
      (user_types_reload _ _ Hown Hno Hut). reflexivity.
  - split; cbn [samaState_Commit st_stakers st_pows st_rewards st_yields st_params st_userTypes st_users
      st_details st_actions]; try done.
    intros a. apply users_same_answers; [by apply users_commit_fresh, Hus|done|].
    intros b' Hb'. destruct Hus as [_ Hk]. destruct (Hk a b' Hb') as (m & Hm & _). by exists m.
Qed.

(** A committed state has nothing left to commit. *)
Definition committed (s : samaState) : Prop := samaState_Commit s = s.

Lemma commit_committed s : committed (samaState_Commit s).
Proof.
  unfold committed, samaState_Commit;
    cbn [st_params st_stakers st_rewards st_pows st_yields st_users st_details st_actions
         st_userTypes].
  f_equal; try part_law (@commit_idemp).
  unfold CacheUsersCommit at 2 3. rewrite !clear_map_empty. apply users_commit_clean.
Qed.
Lemma fresh_committed : committed (fresh_state g).
Proof.
  unfold committed, fresh_state, samaState_Commit.
  cbn [st_params st_stakers st_rewards st_pows st_yields st_users st_details st_actions
    st_userTypes]. f_equal; try reflexivity. unfold emptyUsersState. apply users_commit_clean.
Qed.
Lemma accepts_committed w w' : accepts g w w' -> committed (w_sama w) -> committed (w_sama w').
Proof. intros [] Hw; [done|apply commit_committed]. Qed.

(** C3: Whatever blocks a node has accepted, and whatever their transactions did, it
    can be restarted from its database, and the state that is rebuilt is that of
    the running node as far as [restarted] says, part by part.  This is as long as
    no user type has been added, which could not be read back, and no stake
    balance is stored under the prefix of the stakers. *)
Theorem restart_rebuilds_state w0 w lo hi tick :
  chain_inv g w0 -> committed (w_sama w0) -> accepts g w0 w ->
  (forall i, lo <= u64 (Unix (time_Now i)) <= hi) ->
  no_stake_shadow (w_db w) -> no_user_types (w_db w) ->
  exists s', SamaNew (w_db w) g tick = Ok s' /\ restarted lo hi (w_db w) (w_sama w) s'.
Proof.
  intros Hw0 Hc Ha Hclk Hshadow Hno. apply accepts_inv in Ha as Hw; [|done].
  apply accepts_committed in Ha; [|done]. rewrite <- Ha. by apply restart_committed.
Qed.
End restart.
