(* ===== verification/TxFacts.v ===== *)
(** * What the transactions do: fees, transfers, stakes, votes and proofs *)

From S2P Require Import Prelude External GoStd PendingCache Instances Keys Storage Genesis.
From S2P Require Import Stakers Pows Rewards Actions Users Details SysParams SamaState Tx Frames.

Section helpers.
Context `{DatabaseLaws} `{Cacher Address UserMeta}.

Definition with_db (db : DB) (w : world) : world := mkWorld db (w_sama w) (w_tick w).

Lemma zoom_db_run {A} (m : M DB A) w db' (r : outcome A) :
  m (w_db w) = (db', r) -> zoom m w = (with_db db' w, r).
Proof. unfold zoom. cbn [view lens_db]. by intros ->. Qed.

Lemma with_db_same w : with_db (w_db w) w = w.
Proof. by destruct w. Qed.
End helpers.

(** ** Fees *)
Section fees.
Context `{DatabaseLaws} `{Cacher Address UserMeta} `{GoRuntime} `{EthereumLaws} `{ChainCodecs}.
Implicit Types (w : world).

Lemma pay_run a change w :
  accounts_ok (w_db w) -> is_u64 change ->
  zoom (ModifyBalance a false change) w =
    if bool_decide (change <= balance (w_db w) a)
    then (with_db (db_set (w_db w) (PrefixBalanceKey a)
            (be_PutUint64 (balance (w_db w) a - change))) w,
          Ok (balance (w_db w) a - change))
    else (w, Err (Wrapf ErrInvalidBalance "modify bal")).
Proof.
  intros Hok Hc. pose proof (amount_at_range (PrefixBalanceKey a) (w_db w)) as Hr.
  fold (balance (w_db w) a) in Hr. unfold is_u64 in *.
  pose proof (ModifyBalance_run a false change (w_db w) Hok Hc) as Hrun. cbn [changed] in Hrun.
  case_bool_decide as Hle.
  - rewrite bool_decide_eq_true_2 by lia. by rewrite (zoom_db_run _ _ _ _ Hrun).
  - rewrite bool_decide_eq_false_2 by lia.
    rewrite (zoom_db_run _ _ _ _ Hrun). by rewrite with_db_same.
Qed.

Lemma receive_run a change w :
  accounts_ok (w_db w) -> is_u64 change ->
  zoom (ModifyBalance a true change) w =
    if bool_decide (balance (w_db w) a + change < 2 ^ 64)
    then (with_db (db_set (w_db w) (PrefixBalanceKey a)
            (be_PutUint64 (balance (w_db w) a + change))) w,
          Ok (balance (w_db w) a + change))
    else (w, Err (Wrapf ErrInvalidBalance "modify bal")).
Proof.
  intros Hok Hc. pose proof (amount_at_range (PrefixBalanceKey a) (w_db w)) as Hr.
  fold (balance (w_db w) a) in Hr. unfold is_u64 in *.
  pose proof (ModifyBalance_run a true change (w_db w) Hok Hc) as Hrun. cbn [changed] in Hrun.
  case_bool_decide as Hle.
  - rewrite bool_decide_eq_true_2 by lia. by rewrite (zoom_db_run _ _ _ _ Hrun).
  - rewrite bool_decide_eq_false_2 by lia.
    rewrite (zoom_db_run _ _ _ _ Hrun). by rewrite with_db_same.
Qed.

Lemma SetTransaction_run i w :
  zoom (SetTransaction i) w = (with_db (db_set (w_db w) (PrefixTxKey i) []) w, Ok tt).
Proof. apply zoom_db_run. unfold SetTransaction. by rewrite Put_run. Qed.

Lemma balance_frame_tx i v db a : balance (db_set db (PrefixTxKey i) v) a = balance db a.
Proof. unfold balance. by rewrite amount_at_frame_set. Qed.
Lemma stake_balance_frame_tx i v db a :
  stake_balance (db_set db (PrefixTxKey i) v) a = stake_balance db a.
Proof. unfold stake_balance. by rewrite amount_at_frame_set. Qed.

(** The checks and the fee in front of every transaction. *)
Lemma Transaction_Execute_run tx g blkTmstmp context units w :
  accounts_ok (w_db w) -> FeeUnits (tx_Unsigned tx) g = Ok units ->
  BaseTx_ExecuteBase (base (tx_Unsigned tx)) g = inr tt ->
  GetBlockID (tx_Unsigned tx) ∈ RecentBlockIDs context -> tx_id tx ∉ RecentTxIDs context ->
  let fee := units *u GetPrice (tx_Unsigned tx) in
  Transaction_Execute tx g blkTmstmp context w =
    if bool_decide (fee <= balance (w_db w) (tx_sender tx)) then
      (Execute (tx_Unsigned tx)
        (mkTransactionContext g (u64 blkTmstmp) (tx_id tx) (tx_sender tx)) ;;;
       zoom (SetTransaction (tx_id tx)))
        (with_db (db_set (w_db w) (PrefixBalanceKey (tx_sender tx))
          (be_PutUint64 (balance (w_db w) (tx_sender tx) - fee))) w)
    else (w, Err (Wrapf ErrInvalidBalance "modify bal")).
Proof.
  intros Hok Hunits Hbase Hblk Htx fee. unfold Transaction_Execute, bind at 1.
  unfold lift at 1. rewrite Hbase. cbn [of_result].
  rewrite (bool_decide_eq_false_2 (GetBlockID _ ∉ _)) by set_solver.
  rewrite (bool_decide_eq_false_2 (tx_id tx ∈ _)) by done.
  unfold check, bind at 1, ret. unfold bind at 1. unfold lift_outcome, bind at 1. rewrite Hunits.
  unfold bind at 1. fold fee. rewrite pay_run by (done || apply u64_range). by case_bool_decide.
Qed.

(** C14: A transaction that succeeds was valid, recent, not a replay and paid for:
    [FeeUnits * price] modulo 2^64, which its sender had, is taken from the
    balance of the sender and from nowhere else before the transaction does what
    its type does; it is recorded as executed afterwards, and nothing more
    happens. *)
Theorem executed_transaction_was_valid tx g blkTmstmp context w w' :
  accounts_ok (w_db w) ->
  Transaction_Execute tx g blkTmstmp context w = (w', Ok tt) ->
  BaseTx_ExecuteBase (base (tx_Unsigned tx)) g = inr tt /\
  GetBlockID (tx_Unsigned tx) ∈ RecentBlockIDs context /\ tx_id tx ∉ RecentTxIDs context /\
  (exists units w1 w2, FeeUnits (tx_Unsigned tx) g = Ok units /\
    let fee := units *u GetPrice (tx_Unsigned tx) in
    fee <= balance (w_db w) (tx_sender tx) /\
    balance (w_db w1) (tx_sender tx) = balance (w_db w) (tx_sender tx) - fee /\
    (forall k, k <> PrefixBalanceKey (tx_sender tx) -> db_lookup (w_db w1) k = db_lookup (w_db w) k) /\
    w_sama w1 = w_sama w /\ w_tick w1 = w_tick w /\
    Execute (tx_Unsigned tx) (mkTransactionContext g (u64 blkTmstmp) (tx_id tx) (tx_sender tx)) w1 = (w2, Ok tt) /\
    w' = with_db (db_set (w_db w2) (PrefixTxKey (tx_id tx)) []) w2) /\
  HasTransaction (tx_id tx) (w_db w') = (w_db w', Ok true).
Proof.
  intros Hok Hrun. pose proof Hrun as Hcopy. unfold Transaction_Execute in Hrun.
  apply bind_ok in Hrun as (w1 & [] & Hb & Hrun). apply lift_ok in Hb as [-> Hbase].
  apply bind_ok in Hrun as (w2 & [] & Hc & Hrun). apply check_ok in Hc as [Hblk ->].
  apply bind_ok in Hrun as (w3 & [] & Hc & Hrun). apply check_ok in Hc as [Htx ->].
  apply bool_decide_eq_false in Hblk, Htx.
  apply bind_ok in Hrun as (w4 & units & Hu & Hrun). apply lift_outcome_ok in Hu as [-> Hu].
  assert (GetBlockID (tx_Unsigned tx) ∈ RecentBlockIDs context) as Hin by (by apply dec_stable).
  rewrite (Transaction_Execute_run _ _ _ _ units) in Hcopy by done.
  case_bool_decide as Hfee; [|done]. apply bind_ok in Hcopy as (w5 & [] & Hex & Hset).
  rewrite SetTransaction_run in Hset. injection Hset as <-. split_and!; [done..| |].
  - exists units, (with_db (db_set (w_db w) (PrefixBalanceKey (tx_sender tx))
      (be_PutUint64 (balance (w_db w) (tx_sender tx) - units *u GetPrice (tx_Unsigned tx)))) w), w5. split; [done|]. cbv zeta. split_and!; [exact Hfee| | |done|done|exact Hex|done].
    + cbn [w_db with_db]. rewrite balance_set; [by rewrite decide_True|].
      pose proof (amount_at_range (PrefixBalanceKey (tx_sender tx)) (w_db w)) as Hr.
      fold (balance (w_db w) (tx_sender tx)) in Hr.
      pose proof (u64_range (units * GetPrice (tx_Unsigned tx))) as Hf. unfold is_u64 in *. lia.
    + intros k Hk. cbn [w_db with_db]. by apply lookup_set_ne.
  - unfold HasTransaction. rewrite Has_run. f_equal.
    cbn [w_db with_db]. rewrite lookup_set_eq. by rewrite bool_decide_eq_true_2.
Qed.

(** The fee is computed modulo 2^64: with two fee units, a price of 2^63 costs
    nothing, so a sender with an empty account passes the fee check at an
    arbitrarily high price. *)
Theorem fee_overflow_is_free tx g blkTmstmp context w :
  accounts_ok (w_db w) -> FeeUnits (tx_Unsigned tx) g = Ok 2 ->
  BaseTx_ExecuteBase (base (tx_Unsigned tx)) g = inr tt ->
  GetBlockID (tx_Unsigned tx) ∈ RecentBlockIDs context -> tx_id tx ∉ RecentTxIDs context ->
  GetPrice (tx_Unsigned tx) = 2 ^ 63 -> balance (w_db w) (tx_sender tx) = 0 ->
  Transaction_Execute tx g blkTmstmp context w =
    (Execute (tx_Unsigned tx)
      (mkTransactionContext g (u64 blkTmstmp) (tx_id tx) (tx_sender tx)) ;;;
     zoom (SetTransaction (tx_id tx)))
      (with_db (db_set (w_db w) (PrefixBalanceKey (tx_sender tx)) (be_PutUint64 0)) w).
Proof.
  intros Hok Hu Hb Hblk Htx Hp Hz. rewrite (Transaction_Execute_run _ _ _ _ 2) by done.
  rewrite Hp, Hz. done.
Qed.
End fees.

(** ** Transfers *)
Section transfers.
Context `{DatabaseLaws} `{Cacher Address UserMeta} `{GoRuntime} `{EthereumLaws} `{ChainCodecs}.
Implicit Types (w : world).

Lemma TransferTx_run t c w :
  accounts_ok (w_db w) -> is_u64 (transfer_Units t) ->
  transfer_To t <> zeroAddress -> transfer_To t <> ctx_Sender c -> transfer_Units t <> 0 ->
  let db := w_db w in
  let db1 := db_set db (PrefixBalanceKey (ctx_Sender c))
    (be_PutUint64 (balance db (ctx_Sender c) - transfer_Units t)) in
  TransferTx_Execute t c w =
    if bool_decide (transfer_Units t <= balance db (ctx_Sender c)) then
      if bool_decide (balance db (transfer_To t) + transfer_Units t < 2 ^ 64) then
        (with_db (db_set db1 (PrefixBalanceKey (transfer_To t))
          (be_PutUint64 (balance db (transfer_To t) + transfer_Units t))) w, Ok tt)
      else (with_db db1 w, Err (Wrapf ErrInvalidBalance "modify bal"))
    else (w, Err (Wrapf ErrInvalidBalance "modify bal")).
Proof.
  intros Hok Hu Hz Hs Hn db db1. unfold TransferTx_Execute.
  rewrite (bool_decide_eq_false_2 _ Hz), (bool_decide_eq_false_2 _ Hs).
  rewrite (proj2 (Z.eqb_neq _ _)) by done. unfold check, bind, ret.
  rewrite pay_run by done. fold db. case_bool_decide as Hle; [|done].
  pose proof (amount_at_range (PrefixBalanceKey (ctx_Sender c)) db) as Hr.
  fold (balance db (ctx_Sender c)) in Hr.
  rewrite receive_run by (done || by apply accounts_ok_set_amount). cbn [w_db with_db].
  rewrite balance_set by (unfold is_u64 in *; lia). rewrite decide_False by done.
  by case_bool_decide.
Qed.

(** The outcome of a transfer and its effect on every account. *)
Lemma transfer_run tx t g blkTmstmp context w :
  let db := w_db w in
  let from := tx_sender tx in
  let fee := Genesis_BaseTxUnits g *u base_Price (transfer_BaseTx t) in
  tx_Unsigned tx = UTransfer t ->
  accounts_ok db -> is_u64 (transfer_Units t) ->
  BaseTx_ExecuteBase (transfer_BaseTx t) g = inr tt ->
  base_BlockID (transfer_BaseTx t) ∈ RecentBlockIDs context -> tx_id tx ∉ RecentTxIDs context ->
  transfer_To t <> zeroAddress -> transfer_To t <> from -> transfer_Units t <> 0 ->
  let '(w', r) := Transaction_Execute tx g blkTmstmp context w in
  (r = Ok tt <-> fee + transfer_Units t <= balance db from /\
                 balance db (transfer_To t) + transfer_Units t < 2 ^ 64) /\
  (r = Ok tt -> accounts_ok (w_db w') /\
    (forall a, stake_balance (w_db w') a = stake_balance db a) /\
    forall a, balance (w_db w') a =
      if decide (a = from) then balance db a - fee - transfer_Units t
      else if decide (a = transfer_To t) then balance db a + transfer_Units t
      else balance db a).
Proof.
  intros db from fee Htx Hok Hu Hbase Hblk Hnew Hz Hs Hn.
  pose proof (amount_at_range (PrefixBalanceKey from) db) as Hfrom.
  pose proof (amount_at_range (PrefixBalanceKey (transfer_To t)) db) as Hto.
  fold (balance db from) in Hfrom. fold (balance db (transfer_To t)) in Hto.
  pose proof (u64_range (Genesis_BaseTxUnits g * base_Price (transfer_BaseTx t))) as Hfee.
  fold fee in Hfee. unfold is_u64 in *.
  rewrite (Transaction_Execute_run _ _ _ _ (Genesis_BaseTxUnits g)) by (by rewrite ?Htx).
  rewrite Htx. change (GetPrice (UTransfer t)) with (base_Price (transfer_BaseTx t)).
  fold fee from db. case_bool_decide as Hpay; [|split; [split; [done|lia]|done]].
  set (db0 := db_set db (PrefixBalanceKey from) (be_PutUint64 (balance db from - fee))).
  cbn [Execute]. unfold bind.
  assert (accounts_ok db0) as Hok0 by (by apply accounts_ok_set_amount).
  rewrite TransferTx_run by done. cbn [w_db with_db ctx_Sender]. fold from.
  assert (forall a, balance db0 a = if decide (from = a) then balance db from - fee else balance db a)
    as Hb0 by (intros a; unfold db0; rewrite balance_set by (unfold is_u64; lia); by case_decide).
  rewrite !Hb0. rewrite decide_True, decide_False by done.
  case_bool_decide as Hle; [|split; [split; [done|lia]|done]].
  case_bool_decide as Hlt; [|split; [split; [done|lia]|done]].
  rewrite SetTransaction_run. cbn [w_db with_db]. split; [split; [lia|done]|]. intros _.
  assert (forall k, ~ account_key (PrefixTxKey k)) as Hktx by
    (intros k (a & [Hk|Hk]); discriminate Hk).
  split_and!.
  - apply accounts_ok_frame_set; [done|]. by repeat apply accounts_ok_set_amount.
  - intros a. rewrite stake_balance_frame_tx. unfold db0. by rewrite !stake_balance_frame.
  - intros a. rewrite balance_frame_tx.
    rewrite !balance_set, Hb0 by (unfold is_u64; lia).
    destruct (decide (a = from)) as [->|Ha]; [by rewrite decide_False, !decide_True by done|].
    rewrite !(decide_False (P := from = a)) by congruence.
    by destruct (decide (a = transfer_To t)) as [->|Hto']; [rewrite decide_True|rewrite decide_False].
Qed.

(** C4: A transfer, with its fee, moves exactly [Units] from the sender to the
    receiver and [fee] out of the sender's account, and touches no other
    account; it succeeds exactly when the sender can pay and the receiver's
    balance stays a [uint64]. *)
Theorem transfer_moves_units tx t g blkTmstmp context w :
  let db := w_db w in
  let from := tx_sender tx in
  let fee := Genesis_BaseTxUnits g *u base_Price (transfer_BaseTx t) in
  tx_Unsigned tx = UTransfer t ->
  accounts_ok db -> is_u64 (transfer_Units t) ->
  BaseTx_ExecuteBase (transfer_BaseTx t) g = inr tt ->
  base_BlockID (transfer_BaseTx t) ∈ RecentBlockIDs context -> tx_id tx ∉ RecentTxIDs context ->
  transfer_To t <> zeroAddress -> transfer_To t <> from -> transfer_Units t <> 0 ->
  let '(w', r) := Transaction_Execute tx g blkTmstmp context w in
  (r = Ok tt <-> fee + transfer_Units t <= balance db from /\
                 balance db (transfer_To t) + transfer_Units t < 2 ^ 64) /\
  (r = Ok tt -> accounts_ok (w_db w') /\
    (forall a, stake_balance (w_db w') a = stake_balance db a) /\
    forall a, balance (w_db w') a =
      if decide (a = from) then balance db a - fee - transfer_Units t
      else if decide (a = transfer_To t) then balance db a + transfer_Units t
      else balance db a).
Proof. apply transfer_run. Qed.
End transfers.

(** ** Stakes *)
Section stakes.
Context `{DatabaseLaws} `{Cacher Address UserMeta} `{GoRuntimeLaws} `{EthereumLaws}
  `{ChainCodecLaws}.
Implicit Types (w : world).

Lemma stake_pay_run a change w :
  accounts_ok (w_db w) -> is_u64 change ->
  zoom (ModifyStakeBalance a false change) w =
    if bool_decide (change <= stake_balance (w_db w) a)
    then (with_db (db_set (w_db w) (PrefixStakeKey a)
            (be_PutUint64 (stake_balance (w_db w) a - change))) w,
          Ok (stake_balance (w_db w) a - change))
    else (w, Err (Wrapf ErrInvalidBalance "lockerr bal")).
Proof.
  intros Hok Hc. pose proof (amount_at_range (PrefixStakeKey a) (w_db w)) as Hr.
  fold (stake_balance (w_db w) a) in Hr. unfold is_u64 in *.
  pose proof (ModifyStakeBalance_run a false change (w_db w) Hok Hc) as Hrun.
  cbn [changed] in Hrun.
  case_bool_decide as Hle.
  - rewrite bool_decide_eq_true_2 by lia. by rewrite (zoom_db_run _ _ _ _ Hrun).
  - rewrite bool_decide_eq_false_2 by lia.
    rewrite (zoom_db_run _ _ _ _ Hrun). by rewrite with_db_same.
Qed.
Lemma stake_receive_run a change w :
  accounts_ok (w_db w) -> is_u64 change ->
  zoom (ModifyStakeBalance a true change) w =
    if bool_decide (stake_balance (w_db w) a + change < 2 ^ 64)
    then (with_db (db_set (w_db w) (PrefixStakeKey a)
            (be_PutUint64 (stake_balance (w_db w) a + change))) w,
          Ok (stake_balance (w_db w) a + change))
    else (w, Err (Wrapf ErrInvalidBalance "lockerr bal")).
Proof.
  intros Hok Hc. pose proof (amount_at_range (PrefixStakeKey a) (w_db w)) as Hr.
  fold (stake_balance (w_db w) a) in Hr. unfold is_u64 in *.
  pose proof (ModifyStakeBalance_run a true change (w_db w) Hok Hc) as Hrun.
  cbn [changed] in Hrun.
  case_bool_decide as Hle.
  - rewrite bool_decide_eq_true_2 by lia. by rewrite (zoom_db_run _ _ _ _ Hrun).
  - rewrite bool_decide_eq_false_2 by lia.
    rewrite (zoom_db_run _ _ _ _ Hrun). by rewrite with_db_same.
Qed.

(** An operation that stays away from the accounts keeps what they hold. *)
Definition same_accounts (db db' : DB) : Prop :=
  forall k, account_key k -> db_lookup db' k = db_lookup db k.
Lemma touches_same_accounts {A} (m : M world A) w w' r :
  touches not_account m -> m w = (w', r) -> same_accounts (w_db w) (w_db w').
Proof.
  intros Hm Hrun k Hk. specialize (Hm w k). rewrite Hrun in Hm. apply Hm. unfold not_account. tauto.
Qed.
Lemma same_balance db db' a : same_accounts db db' -> balance db' a = balance db a.
Proof. intros Hs. unfold balance, amount_at. rewrite Hs; [done|apply balance_key_account]. Qed.
Lemma same_stake_balance db db' a :
  same_accounts db db' -> stake_balance db' a = stake_balance db a.
Proof. intros Hs. unfold stake_balance, amount_at. rewrite Hs; [done|apply stake_key_account]. Qed.
Lemma same_accounts_ok db db' : same_accounts db db' -> accounts_ok db -> accounts_ok db'.
Proof. intros Hs Hok k v Hk Hv. eapply Hok; [done|]. by rewrite <- Hs. Qed.

Definition valid_stake (s : StakeTx) (g : Genesis) : Prop :=
  byte_of_Z (stake_StakerType s) ∈ StakerTypes /\
  (stake_StakeAmount s = Genesis_RouteStake g \/ stake_StakeAmount s = Genesis_SerStake g) /\
  stake_StakerAddr s <> zeroAddress.

Lemma valid_stake_type z :
  (negb (z =? RouteStake) && negb (z =? SerStake) && negb (z =? ValidatorStake))%bool = false ->
  byte_of_Z z ∈ StakerTypes.
Proof.
  destruct (Z.eqb_spec z RouteStake) as [->|]; [intros _; apply route_type|].
  destruct (Z.eqb_spec z SerStake) as [->|]; [intros _; apply ser_type|].
  destruct (Z.eqb_spec z ValidatorStake) as [->|]; [intros _; apply validator_type|done].
Qed.

(** What is left of the world after the last two steps of a stake. *)
Lemma DealStakeTx_stakers m w w' :
  byte_of_Z (Staker_StakerType m) ∈ StakerTypes ->
  DealStakeTx m w = (w', Ok tt) ->
  same_accounts (w_db w) (w_db w') /\
  staker_cache (byte_of_Z (Staker_StakerType m)) (st_stakers (w_sama w')) =
    cache_put (Staker_StakerAddr m) m
      (staker_cache (byte_of_Z (Staker_StakerType m)) (st_stakers (w_sama w))).
Proof.
  intros Ht Hrun. split; [by eapply touches_same_accounts; [apply DealStakeTx_frame|]|].
  unfold DealStakeTx in Hrun. apply bind_ok in Hrun as (w1 & [] & Hup & Hput).
  pose proof (UpdateStakerReward_keeps_stakers (byte_of_Z (Staker_StakerType m))
    (Staker_StakerAddr m) (Staker_TxID m) (Staker_StakeTime m) w) as Hkeep.
  rewrite Hup in Hkeep. cbn [fst] in Hkeep. unfold stakers_of in Hkeep. rewrite <- Hkeep.
  unfold zoom in Hput. cbn [view lens_stakers] in Hput.
  destruct (PutStaker_run m (st_stakers (w_sama w1)) (w_db w1) Ht) as (s' & Hs' & Heq).
  rewrite Heq in Hput. destruct (Marshal m) as [e|b]; [done|].
  injection Hput as <-. cbn. rewrite Hs', decide_True by done. done.
Qed.

(** The part of a stake between the checks and the end. *)
Lemma stake_accounts amount from w w1 :
  accounts_ok (w_db w) -> is_u64 amount ->
  (zoom (ModifyBalance from false amount) ;;;
   zoom (ModifyStakeBalance from true amount) ;;; ret tt) w = (w1, Ok tt) ->
  w_sama w1 = w_sama w /\ accounts_ok (w_db w1) /\ amount <= balance (w_db w) from /\
  (forall a, balance (w_db w1) a =
    if decide (a = from) then balance (w_db w) a - amount else balance (w_db w) a) /\
  (forall a, stake_balance (w_db w1) a =
    if decide (a = from) then stake_balance (w_db w) a + amount else stake_balance (w_db w) a).
Proof.
  intros Hok Hu Hrun. unfold bind in Hrun. rewrite pay_run in Hrun by done.
  pose proof (amount_at_range (PrefixBalanceKey from) (w_db w)) as Hb.
  pose proof (amount_at_range (PrefixStakeKey from) (w_db w)) as Hs.
  fold (balance (w_db w) from) in Hb. fold (stake_balance (w_db w) from) in Hs.
  unfold is_u64 in *. destruct (bool_decide_reflect (amount <= balance (w_db w) from)) as [Hle|];
    [|done].
  rewrite stake_receive_run in Hrun by (done || by apply accounts_ok_set_amount).
  cbn [w_db with_db] in Hrun. rewrite stake_balance_frame in Hrun.
  case_bool_decide as Hlt; [|done]. unfold ret in Hrun. injection Hrun as <-. cbn [w_db w_sama with_db].
  split_and!; [done|by repeat apply accounts_ok_set_amount|done|..]; intros a.
  - rewrite balance_frame_stake, balance_set by (unfold is_u64; lia).
    destruct (decide (from = a)) as [<-|]; [by rewrite decide_True|by rewrite decide_False].
  - rewrite stake_balance_set by (unfold is_u64; lia). rewrite stake_balance_frame.
    destruct (decide (from = a)) as [<-|]; [by rewrite decide_True|by rewrite decide_False].
Qed.

Definition staker_of (s : StakeTx) (t : TransactionContext) : StakerMeta :=
  mkStakerMeta (ctx_TxID t) (stake_StakerType s) (stake_StakeAmount s) (ctx_BlockTime t)
    (stake_StakerAddr s).

(** The steps of a successful stake. *)
Lemma StakeTx_ok s t w w' :
  accounts_ok (w_db w) -> is_u64 (stake_StakeAmount s) ->
  StakeTx_Execute s t w = (w', Ok tt) ->
  let from := ctx_Sender t in
  let ty := byte_of_Z (stake_StakerType s) in
  valid_stake s (ctx_Genesis t) /\
  (IsStaker (st_stakers (w_sama w)) (stake_StakerAddr s)).1 = false /\
  stake_StakeAmount s <= balance (w_db w) from /\
  accounts_ok (w_db w') /\
  (forall a, balance (w_db w') a =
    if decide (a = from) then balance (w_db w) a - stake_StakeAmount s else balance (w_db w) a) /\
  (forall a, stake_balance (w_db w') a =
    if decide (a = from) then stake_balance (w_db w) a + stake_StakeAmount s
    else stake_balance (w_db w) a) /\
  staker_cache ty (st_stakers (w_sama w')) =
    cache_put (stake_StakerAddr s) (staker_of s t) (staker_cache ty (st_stakers (w_sama w))).
Proof.
  intros Hok Hu Hrun from ty. unfold StakeTx_Execute in Hrun.
  apply bind_ok in Hrun as (? & [] & Hc & Hrun). apply check_ok in Hc as [Hty ->].
  apply bind_ok in Hrun as (? & [] & Hc & Hrun). apply check_ok in Hc as [Ham ->].
  apply bind_ok in Hrun as (? & [] & Hc & Hrun). apply check_ok in Hc as [Hz ->].
  apply bind_ok in Hrun as (? & st & Hc & Hrun). unfold the, gets in Hc. injection Hc as <- <-.
  apply bind_ok in Hrun as (? & [] & Hc & Hrun). apply check_ok in Hc as [Hst ->].
  apply bind_ok in Hrun as (w1 & r & Hconf & Hrun).
  assert (w_sama w1 = w_sama w /\ w_db w1 = w_db w) as [Hsama Hdb].
  { pose proof (keeps_attempt w_sama _ (IsBeConfirmed_keeps_sama actionTypeAddStaker
      (Address_Hex (ctx_Sender t))) w) as H1s.
    pose proof (keeps_attempt w_db _ (IsBeConfirmed_keeps_db actionTypeAddStaker
      (Address_Hex (ctx_Sender t))) w) as H1d. by rewrite Hconf in H1s, H1d. }
  destruct (match r with inr p => p | inl _ => (false, EmptyShortID) end) as [ok actionID].
  apply bind_ok in Hrun as (? & [] & Hc & Hrun). apply check_ok in Hc as [_ ->].
  apply bind_ok in Hrun as (w2 & n2 & Hpay & Hrun).
  apply bind_ok in Hrun as (w3 & n3 & Hlock & Hrun).
  apply bind_ok in Hrun as (w4 & [] & Hdeal & Hdel).
  destruct (stake_accounts (stake_StakeAmount s) from w1 w3) as (Hs3 & Hok3 & Hle & Hb3 & Hk3);
    [by rewrite Hdb|done|unfold bind; fold from in Hpay, Hlock; rewrite Hpay; by rewrite Hlock|].
  apply valid_stake_type in Hty. fold ty in Hty.
  destruct (DealStakeTx_stakers (staker_of s t) w3 w4 Hty Hdeal) as [Hacc Hcache].
  change (byte_of_Z (Staker_StakerType (staker_of s t))) with ty in Hcache.
  assert (st_stakers (w_sama w') = st_stakers (w_sama w4) /\ same_accounts (w_db w4) (w_db w'))
    as [Hst' Hacc'].
  { split; [by unfold zoom in Hdel; destruct (DelAction actionID _); injection Hdel as <- _|].
    eapply touches_same_accounts; [|exact Hdel]. apply touches_zoom, DelAction_frame. }
  rewrite Hdb in Hle, Hb3, Hk3. rewrite Hst', Hcache, Hs3, Hsama.
  split_and!; [|done|done|by do 2 (eapply same_accounts_ok; [eassumption|])|..|done].
  - split; [done|]. split; [|by apply bool_decide_eq_false in Hz].
    destruct (Z.eqb_spec (stake_StakeAmount s) (Genesis_RouteStake (ctx_Genesis t))); [by left|].
    destruct (Z.eqb_spec (stake_StakeAmount s) (Genesis_SerStake (ctx_Genesis t))); [by right|done].
  - intros a. rewrite (same_balance _ _ _ Hacc'), (same_balance _ _ _ Hacc). apply Hb3.
  - intros a. rewrite (same_stake_balance _ _ _ Hacc'), (same_stake_balance _ _ _ Hacc). apply Hk3.
Qed.

(** C24: A stake that succeeds moves the stake amount from the sender's balance to
    the sender's stake and registers the staker for the next commit; the
    amount, the type and the address are valid and the address was not a
    staker. *)
Theorem stake_moves_amount s t w w' :
  accounts_ok (w_db w) -> is_u64 (stake_StakeAmount s) ->
  StakeTx_Execute s t w = (w', Ok tt) ->
  let from := ctx_Sender t in
  let ty := byte_of_Z (stake_StakerType s) in
  valid_stake s (ctx_Genesis t) /\
  (IsStaker (st_stakers (w_sama w)) (stake_StakerAddr s)).1 = false /\
  stake_StakeAmount s <= balance (w_db w) from /\
  accounts_ok (w_db w') /\
  (forall a, balance (w_db w') a =
    if decide (a = from) then balance (w_db w) a - stake_StakeAmount s else balance (w_db w) a) /\
  (forall a, stake_balance (w_db w') a =
    if decide (a = from) then stake_balance (w_db w) a + stake_StakeAmount s
    else stake_balance (w_db w) a) /\
  staker_cache ty (st_stakers (w_sama w')) =
    cache_put (stake_StakerAddr s) (staker_of s t) (staker_cache ty (st_stakers (w_sama w))).
Proof. intros Hok Hu Hrun. exact (StakeTx_ok s t w w' Hok Hu Hrun). Qed.

(** *** Unstaking *)

Lemma DealUnStakeTx_stakers ty a i e w w' :
  ty ∈ StakerTypes -> DealUnStakeTx ty a i e w = (w', Ok tt) ->
  same_accounts (w_db w) (w_db w') /\
  staker_cache ty (st_stakers (w_sama w')) =
    cache_del a zeroStaker (staker_cache ty (st_stakers (w_sama w))).
Proof.
  intros Ht Hrun. split; [by eapply touches_same_accounts; [apply DealUnStakeTx_frame|]|].
  unfold DealUnStakeTx in Hrun. apply bind_ok in Hrun as (w1 & [] & Hup & Hdel).
  pose proof (UpdateStakerReward_keeps_stakers ty a i e w) as Hkeep.
  rewrite Hup in Hkeep. cbn [fst] in Hkeep. unfold stakers_of in Hkeep. rewrite <- Hkeep.
  unfold zoom in Hdel. cbn [view lens_stakers] in Hdel.
  destruct (DelStaker_run ty a (st_stakers (w_sama w1)) (w_db w1) Ht) as (s' & Hs' & Heq).
  rewrite Heq in Hdel. injection Hdel as <-. cbn. by rewrite Hs', decide_True.
Qed.

Lemma unstake_type z :
  (negb (z =? RouteStake) && negb (z =? SerStake))%bool = false -> byte_of_Z z ∈ StakerTypes.
Proof.
  destruct (Z.eqb_spec z RouteStake) as [->|]; [intros _; apply route_type|].
  destruct (Z.eqb_spec z SerStake) as [->|]; [intros _; apply ser_type|done].
Qed.

(** The steps of a successful unstake. *)
Lemma UnStakeTx_ok u t w w' :
  UnStakeTx_Execute u t w = (w', Ok tt) ->
  let from := ctx_Sender t in
  let ty := byte_of_Z (unstake_StakerType u) in
  ty ∈ StakerTypes /\
  exists w1 m b mr y w2 w3 n n',
    w_sama w1 = w_sama w /\ w_db w1 = w_db w /\
    GetStakerMeta (st_stakers (w_sama w)) ty from = Some m /\
    zoom (ModifyStakeBalance from false (Staker_StakeAmount m)) w1 = (w2, Ok n) /\
    CalcReward (w_sama w) ty from (unstake_EndTime u) = Ok (b, mr, y) /\
    unstake_RewardAmount u = b +u mr +u y /\
    zoom (ModifyBalance from true (Staker_StakeAmount m +u unstake_RewardAmount u)) w2 = (w3, Ok n') /\
    DealUnStakeTx ty from (ctx_TxID t) (unstake_EndTime u) w3 = (w', Ok tt).
Proof.
  intros Hrun from ty. unfold UnStakeTx_Execute in Hrun.
  apply bind_ok in Hrun as (? & [] & Hc & Hrun). apply check_ok in Hc as [Hty ->].
  split; [by apply unstake_type|].
  apply bind_ok in Hrun as (? & ? & Hc & Hrun). rewrite clock_run in Hc. injection Hc as <- <-.
  apply bind_ok in Hrun as (? & [] & Hc & Hrun). apply check_ok in Hc as [_ ->].
  apply bind_ok in Hrun as (? & ? & Hc & Hrun). rewrite clock_run in Hc. injection Hc as <- <-.
  apply bind_ok in Hrun as (? & [] & Hc & Hrun). apply check_ok in Hc as [_ ->].
  apply bind_ok in Hrun as (? & ? & Hc & Hrun). unfold gets in Hc. injection Hc as <- <-.
  cbn [w_sama w_db w_tick] in Hrun. fold ty from in Hrun.
  destruct (GetStakerMeta (st_stakers (w_sama w)) ty from) as [m|]; [|done].
  apply bind_ok in Hrun as (w1 & ? & Hc & Hrun). rewrite clock_run in Hc.
  cbn [w_sama w_db w_tick] in Hc.
  apply bind_ok in Hrun as (? & [] & Hc' & Hrun). apply check_ok in Hc' as [_ ->].
  apply bind_ok in Hrun as (w2 & n & Hlock & Hrun).
  apply bind_ok in Hrun as (? & [[b mr] y] & Hr & Hrun). unfold lift_outcome in Hr.
  injection Hr as <- Hr.
  apply bind_ok in Hrun as (? & [] & Hc' & Hrun). apply check_ok in Hc' as [Ham ->].
  apply negb_false_iff, Z.eqb_eq in Ham. rewrite <- Ham in Hrun.
  apply bind_ok in Hrun as (w3 & n' & Hpay & Hdeal).
  exists w1, m, b, mr, y, w2, w3, n, n'. injection Hc as <- _. done.
Qed.

(** C25: An unstake that succeeds pays back the stake together with exactly the
    reward the chain computes, takes the stake out of the stake balance, and
    removes the staker at the next commit. *)
Theorem unstake_pays_back u t w w' :
  accounts_ok (w_db w) ->
  (forall m, GetStakerMeta (st_stakers (w_sama w)) (byte_of_Z (unstake_StakerType u))
    (ctx_Sender t) = Some m -> is_u64 (Staker_StakeAmount m)) ->
  UnStakeTx_Execute u t w = (w', Ok tt) ->
  let from := ctx_Sender t in
  let ty := byte_of_Z (unstake_StakerType u) in
  exists m b mr y,
    GetStakerMeta (st_stakers (w_sama w)) ty from = Some m /\
    CalcReward (w_sama w) ty from (unstake_EndTime u) = Ok (b, mr, y) /\
    unstake_RewardAmount u = b +u mr +u y /\
    stake_balance (w_db w') from = stake_balance (w_db w) from - Staker_StakeAmount m /\
    balance (w_db w') from =
      balance (w_db w) from + (Staker_StakeAmount m +u unstake_RewardAmount u) /\
    cache_view (staker_cache ty (st_stakers (w_sama w'))) !! from = None.
Proof.
  intros Hok Hamt Hrun from ty. destruct (UnStakeTx_ok u t w w' Hrun) as (Hty & w1 & m & b & mr & y &
    w2 & w3 & n & n' & Hs1 & Hd1 & Hm & Hlock & Hcalc & Heq & Hpay & Hdeal).
  fold ty from in Hm, Hlock, Hcalc, Hpay, Hdeal, Hty.
  exists m, b, mr, y. split; [done|]. split; [done|]. split; [done|].
  destruct (DealUnStakeTx_stakers ty from _ _ _ _ Hty Hdeal) as [Hacc Hcache].
  pose proof (amount_at_range (PrefixBalanceKey from) (w_db w)) as Hb.
  pose proof (amount_at_range (PrefixStakeKey from) (w_db w)) as Hs.
  fold (balance (w_db w) from) in Hb. fold (stake_balance (w_db w) from) in Hs.
  specialize (Hamt m Hm). unfold is_u64 in *.
  rewrite stake_pay_run in Hlock by (rewrite ?Hd1; done). rewrite Hd1 in Hlock.
  destruct (bool_decide_reflect (Staker_StakeAmount m <= stake_balance (w_db w) from)) as [Hle|];
    [|done]. injection Hlock as <- _.
  pose proof (u64_range (Staker_StakeAmount m + unstake_RewardAmount u)) as Hr. unfold is_u64 in Hr.
  rewrite receive_run in Hpay by (done || by apply accounts_ok_set_amount).
  cbn [w_db with_db] in Hpay. rewrite balance_frame_stake in Hpay.
  case_bool_decide as Hlt; [|done]. injection Hpay as <- _. cbn [w_db w_sama with_db] in *.
  rewrite (same_stake_balance _ _ _ Hacc), (same_balance _ _ _ Hacc), Hcache.
  split_and!.
  - rewrite stake_balance_frame, stake_balance_set by (unfold is_u64; lia). by rewrite decide_True.
  - rewrite balance_set by (unfold is_u64; lia). by rewrite decide_True.
  - by rewrite cache_view_del, lookup_delete_eq.
Qed.

(** What an unstake needs: the stake the staker is registered with on the stake
    balance of the one who leaves. *)
Lemma unstake_needs_own_stake u c m w :
  accounts_ok (w_db w) -> is_u64 (Staker_StakeAmount m) ->
  GetStakerMeta (st_stakers (w_sama w)) (byte_of_Z (unstake_StakerType u)) (ctx_Sender c) = Some m ->
  stake_balance (w_db w) (ctx_Sender c) < Staker_StakeAmount m ->
  (UnStakeTx_Execute u c w).2 <> Ok tt.
Proof.
  intros Hok Hu Hreg Hpoor Hres. destruct (UnStakeTx_Execute u c w) as [w2 r] eqn:Hun. cbn [snd] in Hres. subst r.
  destruct (UnStakeTx_ok u c w w2 Hun) as (_ & w1 & m' & b & mr & y & w3 & w4 & n & n' & _ & Hd1 & Hm & Hlock & _).
  assert (m' = m) as -> by congruence. rewrite stake_pay_run in Hlock by (rewrite ?Hd1; done).
  rewrite Hd1 in Hlock. by rewrite bool_decide_eq_false_2 in Hlock by lia.
Qed.

(** C40: A stake for another address is locked up: the amount is booked on the stake
    balance of the sender, and the staker is registered with it under the other
    address, whose own stake balance is what it was.  In every state, however it
    has been reached, in which that registration stands and the stake balance of
    the address is less than the amount, the address cannot unstake, at any time
    and for any claimed reward; that is so right after the commit, unless the
    address had enough stake of its own before. *)
Theorem stake_for_another_is_locked s t w w' :
  accounts_ok (w_db w) -> is_u64 (stake_StakeAmount s) ->
  StakeTx_Execute s t w = (w', Ok tt) ->
  stake_StakerAddr s <> ctx_Sender t ->
  let committed := with_sama samaState_Commit w' in
  let ty := byte_of_Z (stake_StakerType s) in
  stake_balance (w_db committed) (ctx_Sender t) = stake_balance (w_db w) (ctx_Sender t) + stake_StakeAmount s /\
  stake_balance (w_db committed) (stake_StakerAddr s) = stake_balance (w_db w) (stake_StakerAddr s) /\
  (exists m, GetStakerMeta (st_stakers (w_sama committed)) ty (stake_StakerAddr s) = Some m /\
    Staker_StakeAmount m = stake_StakeAmount s) /\
  forall w2 m u c, accounts_ok (w_db w2) ->
    GetStakerMeta (st_stakers (w_sama w2)) ty (stake_StakerAddr s) = Some m ->
    Staker_StakeAmount m = stake_StakeAmount s ->
    stake_balance (w_db w2) (stake_StakerAddr s) < stake_StakeAmount s ->
    byte_of_Z (unstake_StakerType u) = ty -> ctx_Sender c = stake_StakerAddr s ->
    (UnStakeTx_Execute u c w2).2 <> Ok tt.
Proof.
  intros Hok Hu Hrun Hother committed ty.
  destruct (StakeTx_ok s t w w' Hok Hu Hrun) as ([Hvalid _] & _ & _ & Hok' & _ & Hk & Hcache).
  change (w_db committed) with (w_db w'). rewrite !Hk, decide_True, decide_False by done.
  split_and!; [done|done| |].
  - exists (staker_of s t). split; [|done]. unfold GetStakerMeta, ty. rewrite cur_stakes_cache by done.
    cbn [committed with_sama w_sama samaState_Commit st_stakers].
    rewrite staker_cache_commit, cache_commit_eq by done. cbn [c_cur].
    by rewrite Hcache, cache_view_put, lookup_insert_eq.
  - intros w2 m u c Hok2 Hreg Ham Hpoor Hty Hc. apply (unstake_needs_own_stake u c m); rewrite ?Hty, ?Hc; try done.
    + by rewrite Ham.
    + by rewrite Ham.
Qed.
End stakes.
