(* ===== verification/VMFacts.v ===== *)
(** * Verified blocks *)

From S2P Require Import Prelude External GoStd TData Builder Keys Storage Genesis.
From S2P Require Import SamaState Users Tx TypedTx Activity Block Mempool VM Lookback FeeMarket.
From S2P Require Import TxFacts.

Section verify.
Context `{Database} `{Cacher Address UserMeta} `{CacherLaws ID block_loc}.
Context `{Ethereum} `{EthMath} `{GoRuntime} `{ChainCodecs} `{TxCodec} `{BlockCodec}.
Implicit Types (v : VM) (b : StatelessBlock) (g : Genesis) (tx : Transaction).

(** What is asked of a block before its transactions are executed, in terms of the
    blocks that can be found: the parent, the context and the state it builds on
    are there, and what it says of them is right. *)
Record checked v b (parent : StatelessBlock) (ctx : Context_t) (state : DB) : Prop := {
  vf_txs : Txs (sb_block b) <> [];
  vf_not_late : sb_t b < Unix (time_Now (vm_tick v) + futureBound);
  vf_size : exists z, block_size (vm_genesis v) (Txs (sb_block b)) 0 = Ok z;
  vf_parent : find_block v (Prnt (sb_block b)) = Ok parent;
  vf_not_early : sb_t parent <= sb_t b;
  vf_context : context_of v (blk_Tmstmp (sb_block b)) parent = Ok ctx;
  vf_cost : Cost (sb_block b) = NextCost ctx;
  vf_price : Price (sb_block b) = NextPrice ctx;
  vf_state : onAccept parent (vm_db v) = inr state;
  vf_proof : AccessProof (sb_block b) =
    generateAccessProof (versiondb_New state) (sb_id parent) (Hght (sb_block b))
}.
(** Its transactions, on top of the state of the chain as it is. *)
Definition execution v b (ctx : Context_t) (state : DB) : world * outcome Z :=
  execute_txs (vm_genesis v) (sb_block b) ctx (Txs (sb_block b)) 0
    (mkWorld (versiondb_New state) (vm_samaState v) (S (vm_tick v))).
(** What a block that passes verification satisfies: [surplus] is what its
    transactions pay above its price, [w] the state after them. *)
Record verified v b (parent : StatelessBlock) (ctx : Context_t) (state : DB) (w : world) (surplus : Z) : Prop := {
  vf_checked : checked v b parent ctx state;
  vf_executed : execution v b ctx state = (w, Ok surplus);
  vf_surplus : Price (sb_block b) *u Cost (sb_block b) <= surplus
}.

Lemma block_at_ok l v v' b : block_at l v = (v', Ok b) -> v' = v /\ vm_objects v !! l = Some b.
Proof. unfold block_at. destruct (vm_objects v !! l); intros Hr; by simplify_eq. Qed.
Lemma on_overlay_ok {A} (db : DB) (m : M world A) v v' r :
  on_overlay db m v = (v', Ok r) ->
  let '(w, o) := m (mkWorld db (vm_samaState v) (vm_tick v)) in
  v' = put_sama (w_sama w) (w_tick w) v /\ r.1 = w_db w /\
  match r.2 with inl e => o = Err e | inr a => o = Ok a end.
Proof. unfold on_overlay. destruct (m _) as [w [a|e|p]]; intros Hr; by simplify_eq. Qed.

(** A verified block passed every check; verification leaves the state after
    its transactions behind and changes nothing else but the block cache. *)
Lemma verify_ok v v' b pl db :
  vm_wf v -> verify b v = (v', Ok (pl, db)) ->
  exists parent ctx state w surplus, verified v b parent ctx state w surplus /\ db = w_db w /\
    exists v1, reads v v1 /\ vm_wf v1 /\ vm_objects v1 !! pl = Some parent /\
      v' = put_sama (w_sama w) (w_tick w) v1.
Proof.
  intros Hwf Hrun. unfold verify in Hrun.
  apply bind_ok in Hrun as (? & g & Hg & Hrun). apply gets_ok in Hg as [-> ->].
  apply bind_ok in Hrun as (? & [] & Hc & Hrun). apply check_ok in Hc as [Htxs ->].
  apply bind_ok in Hrun as (v0 & now & Hnow & Hrun). unfold vm_now in Hnow. injection Hnow as <- <-.
  set (v0 := put_sama (vm_samaState v) (S (vm_tick v)) v) in *.
  apply bind_ok in Hrun as (? & [] & Hc & Hrun). apply check_ok in Hc as [Hlate%Z.leb_gt ->].
  apply bind_ok in Hrun as (? & z & Hs & Hrun). apply lift_outcome_ok in Hs as [-> Hsize].
  apply bind_ok in Hrun as (v1 & l & Hget & Hrun).
  assert (vm_wf v0) as Hwf0 by (by apply put_tick_wf).
  destruct (GetStatelessBlock_run v0 (Prnt (sb_block b)) Hwf0) as (Hwf1 & Hr1 & Ha1).
  rewrite Hget in Hwf1, Hr1, Ha1. cbn [fst snd] in *.
  destruct (find_block v0 _) as [parent|e|p] eqn:Hf; [|done..]. cbn [agree] in Ha1. unfold points_to in Ha1.
  apply bind_ok in Hrun as (? & parent' & Hb & Hrun). apply block_at_ok in Hb as [-> Hb].
  assert (parent' = parent) as -> by congruence.
  apply bind_ok in Hrun as (? & [] & Hc & Hrun). apply check_ok in Hc as [Hearly%Z.ltb_ge ->].
  apply bind_ok in Hrun as (v2 & ctx & Hctx & Hrun).
  destruct (ExecutionContext_run v1 (blk_Tmstmp (sb_block b)) parent Hwf1) as (Hwf2 & Hr2 & Ha2).
  rewrite Hctx in Hwf2, Hr2, Ha2. cbn [fst snd] in *.
  destruct (context_of v1 _ _) as [ctx'|e|p] eqn:Hco; [|done..]. cbn [agree] in Ha2. subst ctx'.
  assert (context_of v (blk_Tmstmp (sb_block b)) parent = Ok ctx) as Hctxv.
  { rewrite <- Hco. rewrite <- (context_of_reads v v (vm_samaState v) (S (vm_tick v))) by done.
    fold v0. symmetry. transitivity (context_of (put_sama (vm_samaState v1) (vm_tick v1) v1)
      (blk_Tmstmp (sb_block b)) parent); [by destruct v1|by apply context_of_reads]. }
  apply bind_ok in Hrun as (? & [] & Hc & Hrun). apply check_ok in Hc as [Hcost%negb_false_iff%Z.eqb_eq ->].
  apply bind_ok in Hrun as (? & [] & Hc & Hrun). apply check_ok in Hc as [Hprice%negb_false_iff%Z.eqb_eq ->].
  apply bind_ok in Hrun as (? & db0 & Hdb & Hrun). apply gets_ok in Hdb as [-> ->].
  apply bind_ok in Hrun as (? & state & Hst & Hrun). apply lift_ok in Hst as [-> Hst].
  apply bind_ok in Hrun as (? & [] & Hc & Hrun). apply check_ok in Hc as [Hproof ->].
  apply bind_ok in Hrun as (v3 & r & Hex & Hrun). apply on_overlay_ok in Hex.
  assert (reads v0 v2) as Hr02 by (by etrans).
  rewrite (rd_sama _ _ Hr02), (rd_tick _ _ Hr02) in Hex.
  change (vm_samaState v0) with (vm_samaState v) in Hex. change (vm_tick v0) with (S (vm_tick v)) in Hex.
  destruct (execute_txs _ _ _ _ _ _) as [w o] eqn:Hrunx. destruct Hex as (-> & Hrdb & Ho).
  apply bind_ok in Hrun as (? & surplus & Hsur & Hrun). apply lift_ok in Hsur as [-> Hsur].
  apply bind_ok in Hrun as (? & [] & Hc & Hrun). apply check_ok in Hc as [Hfee%Z.ltb_ge ->].
  unfold ret in Hrun. injection Hrun as <- <- <-. rewrite Hsur in Ho. subst o.
  exists parent, ctx, state, w, surplus. split; [|split; [done|]].
  - split; [|done|done]. split; try done.
    + by intros Hnil; rewrite Hnil in Htxs.
    + by exists z.
    + change (vm_db v) with (vm_db v0). by rewrite <- (rd_db _ _ Hr02).
    + by apply bool_decide_eq_false in Hproof; apply dec_stable.
  - exists (put_sama (vm_samaState v) (vm_tick v) v2). split_and!; [|by apply put_tick_wf| |done].
    + destruct Hr02. by split.
    + cbn. by apply (lookup_weaken _ _ _ _ Ha1), rd_objects.
Qed.

(** Where the checks hold, verification is the execution of the transactions, and
    what they leave behind in the state of the chain stays, however they end. *)
Lemma verify_run v b parent ctx state :
  vm_wf v -> checked v b parent ctx state ->
  exists v1 pl, reads v v1 /\ vm_wf v1 /\ vm_objects v1 !! pl = Some parent /\
    let '(w, o) := execution v b ctx state in
    verify b v = (put_sama (w_sama w) (w_tick w) v1,
      try! surplus := o in
      if surplus <? Price (sb_block b) *u Cost (sb_block b) then Err (Wrapf ErrInsufficientSurplus "required")
      else Ok (pl, w_db w)).
Proof.
  intros Hwf [Htxs Hlate [z Hsize] Hparent Hearly Hctx Hcost Hprice Hstate Hproof].
  unfold verify, gets, bind at 1.
  rewrite (bool_decide_eq_false_2 (length _ = 0%nat)) by (by intros ?%nil_length_inv).
  unfold check at 1, ret at 1, bind at 1. unfold vm_now, bind at 1.
  set (v0 := put_sama (vm_samaState v) (S (vm_tick v)) v).
  rewrite (proj2 (Z.leb_gt _ _)) by done. unfold check at 1, ret at 1, bind at 1.
  unfold lift_outcome at 1, bind at 1. rewrite Hsize.
  assert (vm_wf v0) as Hwf0 by (by apply put_tick_wf).
  destruct (GetStatelessBlock_run v0 (Prnt (sb_block b)) Hwf0) as (Hwf1 & Hr1 & Ha1). unfold bind at 1.
  change (find_block v0 (Prnt (sb_block b))) with (find_block v (Prnt (sb_block b))) in Ha1. rewrite Hparent in Ha1.
  destruct (GetStatelessBlock (Prnt (sb_block b)) v0) as [v1 [pl|e|p]]; cbn [fst snd agree] in *; [|done..].
  unfold points_to in Ha1. unfold bind at 1, block_at at 1. rewrite Ha1.
  rewrite (proj2 (Z.ltb_ge _ _)) by done. unfold check at 1, ret at 1, bind at 1.
  destruct (ExecutionContext_run v1 (blk_Tmstmp (sb_block b)) parent Hwf1) as (Hwf2 & Hr2 & Ha2). unfold bind at 1.
  assert (context_of v1 (blk_Tmstmp (sb_block b)) parent = Ok ctx) as Hctx1.
  { rewrite <- Hctx. rewrite <- (context_of_reads v v (vm_samaState v) (S (vm_tick v))) by done.
    fold v0. transitivity (context_of (put_sama (vm_samaState v1) (vm_tick v1) v1)
      (blk_Tmstmp (sb_block b)) parent); [by destruct v1|by apply context_of_reads]. }
  rewrite Hctx1 in Ha2.
  destruct (ExecutionContext _ _ v1) as [v2 [c|e|p]]; cbn [fst snd agree] in *; [|done..]. subst c.
  rewrite (proj2 (Z.eqb_eq _ _) Hcost), (proj2 (Z.eqb_eq _ _) Hprice). cbn [negb]. unfold check at 1 2, ret at 1 2, bind at 1 2.
  assert (reads v0 v2) as Hr02 by (by etrans). unfold bind at 1.
  assert (vm_db v2 = vm_db v) as -> by apply (rd_db _ _ Hr02).
  rewrite Hstate. unfold lift at 1, of_result at 1, bind at 1.
  rewrite bool_decide_eq_false_2 by (intros Hne; by apply Hne). unfold check at 1, ret at 1, bind at 1.
  unfold bind at 1, on_overlay. rewrite (rd_sama _ _ Hr02), (rd_tick _ _ Hr02).
  change (vm_samaState v0) with (vm_samaState v). change (vm_tick v0) with (S (vm_tick v)).
  exists (put_sama (vm_samaState v) (vm_tick v) v2), pl.
  split; [destruct Hr02; by split|]. split; [by apply put_tick_wf|].
  split; [cbn; by apply (lookup_weaken _ _ _ _ Ha1), rd_objects|].
  unfold execution. destruct (execute_txs _ _ _ _ _ _) as [w [surplus|e|p]]; cbn [obind]; [|done..].
  cbn [fst snd of_result]. unfold lift, bind. cbn [of_result].
  destruct (surplus <? _); reflexivity.
Qed.

(** C6: Verification accepts exactly the blocks it should: with a parent that is
    known, not too early nor too late, not empty nor too large, of the cost and
    the price that follow from the recent blocks, with the right access proof,
    and with transactions that execute one after the other and pay enough above
    the price. *)
Theorem verify_accepts_exactly v b :
  vm_wf v ->
  (exists v' pl db, verify b v = (v', Ok (pl, db))) <->
  (exists parent ctx state w surplus, verified v b parent ctx state w surplus).
Proof.
  intros Hwf. split.
  - intros (v' & pl & db & Hrun). destruct (verify_ok v v' b pl db Hwf Hrun) as (p & c & s & w & z & Hv & _).
    by exists p, c, s, w, z.
  - intros (p & c & s & w & z & [Hc Hx Hs]). destruct (verify_run v b p c s Hwf Hc) as (v1 & pl & _ & _ & _ & Hrun).
    rewrite Hx in Hrun. cbn [obind] in Hrun. rewrite (proj2 (Z.ltb_ge _ _)) in Hrun by done. by eexists _, pl, (w_db w).
Qed.

(** ** Replays *)

Lemma Transaction_Execute_checked tx g blkTmstmp ctx (w w' : world) u :
  Transaction_Execute tx g blkTmstmp ctx w = (w', Ok u) ->
  GetBlockID (tx_Unsigned tx) ∈ RecentBlockIDs ctx /\ tx_id tx ∉ RecentTxIDs ctx.
Proof.
  intros Hrun. unfold Transaction_Execute in Hrun.
  apply bind_ok in Hrun as (? & [] & _ & Hrun).
  apply bind_ok in Hrun as (? & [] & Hc & Hrun). apply check_ok in Hc as [Hb%bool_decide_eq_false _].
  apply bind_ok in Hrun as (? & [] & Hc & _). apply check_ok in Hc as [Ht%bool_decide_eq_false _].
  split; [by apply dec_stable|done].
Qed.
Lemma execute_txs_checked g blk ctx txs s (w w' : world) r :
  execute_txs g blk ctx txs s w = (w', Ok r) ->
  forall tx, tx ∈ txs -> GetBlockID (tx_Unsigned tx) ∈ RecentBlockIDs ctx /\ tx_id tx ∉ RecentTxIDs ctx.
Proof.
  revert s w. induction txs as [|tx0 txs IH]; intros s w Hrun tx Hin; [by apply elem_of_nil in Hin|].
  cbn [execute_txs] in Hrun. apply bind_ok in Hrun as (w1 & u & Hx & Hrun).
  apply bind_ok in Hrun as (w2 & z & _ & Hrun).
  apply elem_of_cons in Hin as [->|Hin]; [by eapply Transaction_Execute_checked|by eapply IH].
Qed.

Lemma in_txs_of tx A bs : A ∈ bs -> tx ∈ Txs (sb_block A) -> tx_id tx ∈ (list_to_set (tx_id <$> txs_of bs) : gset ID).
Proof.
  intros HA Htx. apply elem_of_list_to_set, list_elem_of_fmap. exists tx. split; [done|].
  apply list_elem_of_join. exists (Txs (sb_block A)). split; [done|].
  apply list_elem_of_fmap. by exists A.
Qed.

(** C2: Nothing is executed twice along a chain: a block that contains a
    transaction of one of its ancestors fails verification, however old the
    ancestor is.  A transaction names a block before the one it was executed in,
    so as long as it is not too old itself, the window goes back far enough to
    see that it is there. *)
Theorem no_replay_along_the_chain v b before A between B tx :
  vm_wf v -> (forall id x, find_block v id = Ok x -> sb_id x = id) ->
  path v (Prnt (sb_block b)) (before ++ A :: between ++ [B]) ->
  NoDup (sb_id <$> before ++ A :: between ++ [B]) ->
  tx ∈ Txs (sb_block A) -> GetBlockID (tx_Unsigned tx) = sb_id B ->
  tx ∈ Txs (sb_block b) ->
  forall v' r, verify b v <> (v', Ok r).
Proof.
  intros Hwf Hids Hpath Hnd HA HB Hin v' [pl db] Hrun.
  destruct (verify_ok v v' b pl db Hwf Hrun) as (parent & ctx & state & w & s & Hv & _).
  pose proof (Hids _ _ (vf_parent _ _ _ _ _ (vf_checked _ _ _ _ _ _ _ Hv))) as Hpid.
  destruct (context_window v _ parent ctx ltac:(by intros ? ?%Hids) (vf_context _ _ _ _ _ (vf_checked _ _ _ _ _ _ _ Hv)))
    as (bs & Hbs & _ & Hblocks & Htxs & _).
  rewrite Hpid in Hbs.
  destruct (execute_txs_checked _ _ _ _ _ _ _ _ (vf_executed _ _ _ _ _ _ _ Hv) tx Hin) as [Hrecent Hnew].
  rewrite HB, Hblocks in Hrecent. rewrite Htxs in Hnew. apply elem_of_list_to_set in Hrecent.
  set (chain := before ++ A :: between ++ [B]) in *.
  assert (A ∈ chain) as HAc by (unfold chain; set_solver).
  assert (chain = (before ++ A :: between) ++ [B]) as Hchain
    by (unfold chain; by rewrite <- app_assoc).
  destruct (path_prefix v _ bs chain Hbs Hpath) as [[rest Hrest]|[rest Hrest]].
  2: { apply Hnew, (in_txs_of tx A); [|done]. rewrite Hrest. apply elem_of_app. by left. }
  destruct rest as [|x rest] using rev_ind; [apply Hnew, (in_txs_of tx A); [|done]; by rewrite app_nil_r in Hrest; rewrite <- Hrest|].
  assert (x = B) as ->.
  { rewrite Hchain, app_assoc in Hrest. by apply app_inj_2 in Hrest as [_ [= ->]]. }
  rewrite Hrest, !fmap_app, NoDup_app in Hnd. destruct Hnd as (_ & Hnd & _).
  apply (Hnd (sb_id B)); [done|]. apply elem_of_app. right. by apply list_elem_of_singleton.
Qed.
End verify.

(** ** What a verified block may still contain *)
Section loopholes.
Context `{DatabaseLaws} `{Cacher Address UserMeta} `{EthereumLaws} `{EthMath} `{GoRuntime}.
Context `{ChainCodecs}.
Implicit Types (g : Genesis) (tx : Transaction).

Lemma execute_txs_cons g blk ctx tx txs s (w w1 : world) units :
  Transaction_Execute tx g (blk_Tmstmp blk) ctx w = (w1, Ok tt) ->
  FeeUnits (tx_Unsigned tx) g = Ok units ->
  execute_txs g blk ctx (tx :: txs) s w =
    execute_txs g blk ctx txs (s +u (GetPrice (tx_Unsigned tx) -u Price blk) *u units) w1.
Proof.
  intros Hx Hu. cbn [execute_txs]. rewrite (bind_run _ _ _ _ _ Hx).
  unfold lift_outcome, bind. by rewrite Hu.
Qed.

(** The same transfer any number of times, and what is paid above the price. *)
Lemma repeated_transfer_run n tx t g blk ctx w s :
  let from := tx_sender tx in
  let fee := Genesis_BaseTxUnits g *u base_Price (transfer_BaseTx t) in
  tx_Unsigned tx = UTransfer t -> accounts_ok (w_db w) -> is_u64 (transfer_Units t) -> is_u64 s ->
  BaseTx_ExecuteBase (transfer_BaseTx t) g = inr tt ->
  base_BlockID (transfer_BaseTx t) ∈ RecentBlockIDs ctx -> tx_id tx ∉ RecentTxIDs ctx ->
  transfer_To t <> zeroAddress -> transfer_To t <> from -> transfer_Units t <> 0 ->
  Z.of_nat n * (fee + transfer_Units t) <= balance (w_db w) from ->
  balance (w_db w) (transfer_To t) + Z.of_nat n * transfer_Units t < 2 ^ 64 ->
  exists w', execute_txs g blk ctx (replicate n tx) s w =
      (w', Ok (u64 (s + Z.of_nat n * ((base_Price (transfer_BaseTx t) - Price blk) * Genesis_BaseTxUnits g)))) /\
    balance (w_db w') from = balance (w_db w) from - Z.of_nat n * (fee + transfer_Units t) /\
    balance (w_db w') (transfer_To t) = balance (w_db w) (transfer_To t) + Z.of_nat n * transfer_Units t.
Proof.
  intros from fee Htx Hok Hu Hrange Hbase Hblk Hnew Hz Hs Hn. revert w s Hok Hrange.
  pose proof (u64_range (Genesis_BaseTxUnits g * base_Price (transfer_BaseTx t))) as Hfee. fold fee in Hfee.
  unfold is_u64 in *. induction n as [|n IH]; intros w s Hok Hrange Hpay Hfit.
  { exists w. cbn. rewrite Z.add_0_r, u64_small by done. split; [done|lia]. }
  pose proof (transfer_run tx t g (blk_Tmstmp blk) ctx w Htx Hok Hu Hbase Hblk Hnew Hz Hs Hn) as Hrun.
  destruct (Transaction_Execute _ _ _ _ _) as [w1 r] eqn:Hx. destruct Hrun as [Hiff Heff].
  fold from fee in Hiff, Heff. assert (r = Ok tt) as -> by (apply Hiff; nia).
  destruct (Heff eq_refl) as (Hok1 & _ & Hbal).
  pose proof (Hbal from) as Hbf. rewrite decide_True in Hbf by done.
  pose proof (Hbal (transfer_To t)) as Hbt. rewrite decide_False, decide_True in Hbt by done.
  cbn [replicate]. rewrite (execute_txs_cons _ _ _ _ _ _ _ _ (Genesis_BaseTxUnits g) Hx) by (by rewrite Htx).
  set (s1 := s +u _). assert (s1 = u64 (s + (base_Price (transfer_BaseTx t) - Price blk) * Genesis_BaseTxUnits g)) as Hs1.
  { unfold s1. rewrite Htx. change (GetPrice (UTransfer t)) with (base_Price (transfer_BaseTx t)). by rewrite u64_add_r, <- (u64_add_r s (_ * _)), u64_mul_l, u64_add_r. }
  destruct (IH w1 s1 Hok1)
    as (w' & Hrun & Hf & Ht); [rewrite Hs1; apply u64_range|rewrite Hbf; nia|rewrite Hbt; nia|].
  exists w'. split; [|rewrite Hf, Ht, Hbf, Hbt; nia]. rewrite Hrun, Hs1, u64_add_l. do 3 f_equal. lia.
Qed.

(** C39: A block may contain the same signed transfer as often as the limit on its
    size and the balance of the sender allow: replays are looked for in the
    ancestors of a block and not in the block itself.  When the other checks hold
    and the copies pay for the cost of the block, it verifies, and the sender has
    paid every time for one signature. *)
Theorem block_may_repeat_a_transfer `{CacherLaws ID block_loc} `{TxCodec} `{BlockCodec}
    n v b parent ctx state tx t :
  let g := vm_genesis v in
  let from := tx_sender tx in
  let fee := Genesis_BaseTxUnits g *u base_Price (transfer_BaseTx t) in
  vm_wf v -> checked v b parent ctx state -> Txs (sb_block b) = replicate n tx ->
  tx_Unsigned tx = UTransfer t -> accounts_ok state -> is_u64 (transfer_Units t) ->
  BaseTx_ExecuteBase (transfer_BaseTx t) g = inr tt ->
  base_BlockID (transfer_BaseTx t) ∈ RecentBlockIDs ctx -> tx_id tx ∉ RecentTxIDs ctx ->
  transfer_To t <> zeroAddress -> transfer_To t <> from -> transfer_Units t <> 0 ->
  Z.of_nat n * (fee + transfer_Units t) <= balance state from ->
  balance state (transfer_To t) + Z.of_nat n * transfer_Units t < 2 ^ 64 ->
  Price (sb_block b) *u Cost (sb_block b) <=
    u64 (Z.of_nat n * ((base_Price (transfer_BaseTx t) - Price (sb_block b)) * Genesis_BaseTxUnits g)) ->
  exists v' pl db, verify b v = (v', Ok (pl, db)) /\
    balance db from = balance state from - Z.of_nat n * (fee + transfer_Units t) /\
    balance db (transfer_To t) = balance state (transfer_To t) + Z.of_nat n * transfer_Units t.
Proof.
  intros g from fee Hwf Hc Htxs Htx Hok Hu Hbase Hblk Hnew Hz Hs Hn Hpay Hfit Hsur.
  pose proof (versiondb_New_equiv state) as Heq.
  destruct (repeated_transfer_run n tx t g (sb_block b) ctx (mkWorld (versiondb_New state) (vm_samaState v) (S (vm_tick v))) 0)
    as (w' & Hrun & Hf & Ht); try done; cbn [w_db]; rewrite ?Heq; try done.
  destruct (verify_run v b parent ctx state Hwf Hc) as (v1 & pl & _ & _ & _ & Hver).
  unfold execution in Hver. rewrite Htxs in Hver. fold g in Hver. rewrite Hrun in Hver. cbn [obind] in Hver.
  rewrite (proj2 (Z.ltb_ge _ _)) in Hver by done. cbn [w_db] in Hf, Ht. rewrite Heq in Hf, Ht.
  by eexists _, pl, (w_db w').
Qed.

(** A transaction that pays less than the price of the block is not refused,
    and what it lacks counts as a surplus of almost 2^64: with one fee unit,
    one unit under the price, it makes up for any cost. *)
Theorem underpriced_transaction_meets_any_surplus tx g blk ctx (w w' : world) :
  Transaction_Execute tx g (blk_Tmstmp blk) ctx w = (w', Ok tt) ->
  FeeUnits (tx_Unsigned tx) g = Ok 1 -> is_u64 (Price blk) ->
  GetPrice (tx_Unsigned tx) = Price blk - 1 ->
  execute_txs g blk ctx [tx] 0 w = (w', Ok (2 ^ 64 - 1)) /\
  Price blk *u Cost blk <= 2 ^ 64 - 1.
Proof.
  intros Hx Hu Hp Hlow. split.
  - rewrite (execute_txs_cons _ _ _ _ _ _ _ _ 1 Hx Hu). cbn [execute_txs]. unfold ret.
    replace (GetPrice (tx_Unsigned tx) - Price blk) with (-1) by lia. done.
  - pose proof (u64_range (Price blk * Cost blk)). unfold is_u64 in *. lia.
Qed.
End loopholes.
