(* ===== verification/AcceptFacts.v ===== *)
(** * Accepted blocks and restarts *)

From S2P Require Import Prelude External GoStd TData Builder Keys Storage Genesis.
From S2P Require Import SamaState Users Tx TypedTx Activity Block BlockFacts Mempool VM Lookback FeeMarket.
From S2P Require Import TxFacts VMFacts.

Section accept.
Context `{DatabaseLaws} `{Cacher Address UserMeta} `{CacherLaws ID block_loc}.
Context `{EthereumLaws} `{EthMath} `{GoRuntime} `{ChainCodecs} `{TxCodec}.
Context `{BlockCodecLaws}.
Implicit Types (v : VM) (b : StatelessBlock) (l : block_loc) (g : Genesis).

(** ** What the consensus operations leave alone *)

(** The database, and of every block object what [R] relates. *)
Definition same_block b b' : Prop := sb_block b' = sb_block b /\ sb_id b' = sb_id b.
Definition same_overlay b b' : Prop := same_block b b' /\ sb_onAcceptDB b' = sb_onAcceptDB b.
#[export] Instance same_block_preorder : PreOrder same_block.
Proof. split; [by intros b|]. intros b1 b2 b3 [] []. split; congruence. Qed.
#[export] Instance same_overlay_preorder : PreOrder same_overlay.
Proof. split; [by intros b|]. intros b1 b2 b3 [] []. split; [by etrans|congruence]. Qed.

Section kept.
Context (R : relation StatelessBlock) `{!PreOrder R}.

Record keeps_blocks v v' : Prop := {
  kb_db : vm_db v' = vm_db v;
  kb_genesis : vm_genesis v' = vm_genesis v;
  kb_sama : vm_samaState v' = vm_samaState v;
  kb_object l b : vm_objects v !! l = Some b -> exists b', vm_objects v' !! l = Some b' /\ R b b'
}.
Lemma keeps_blocks_trans v1 v2 v3 : keeps_blocks v1 v2 -> keeps_blocks v2 v3 -> keeps_blocks v1 v3.
Proof.
  intros [] []. split; try congruence. intros l b Hb.
  destruct (kb_object0 l b Hb) as (b2 & Hb2 & H12). destruct (kb_object1 l b2 Hb2) as (b3 & Hb3 & H23).
  exists b3. split; [done|by etrans].
Qed.
Lemma keeps_blocks_same v v' :
  vm_db v' = vm_db v -> vm_genesis v' = vm_genesis v -> vm_samaState v' = vm_samaState v ->
  vm_objects v' = vm_objects v -> keeps_blocks v v'.
Proof. intros Hdb Hg Hs Ho. split; [done|done|done|]. rewrite Ho. intros l b Hb. by exists b. Qed.

Definition kept {A} (m : M VM A) : Prop := relates keeps_blocks m.
#[export] Instance keeps_blocks_preorder : PreOrder keeps_blocks.
Proof.
  split; [by intros v; apply keeps_blocks_same|]. intros v1 v2 v3. apply keeps_blocks_trans.
Qed.
Lemma kept_bind {A B} (m : M VM A) (f : A -> M VM B) : kept m -> (forall a, kept (f a)) -> kept (bind m f).
Proof. apply (relates_bind keeps_blocks). Qed.
Lemma kept_read {A} (m : M VM A) : (forall v, (m v).1 = v) -> kept m.
Proof. apply (relates_read keeps_blocks). Qed.
Lemma kept_for_each {A} (body : A -> M VM unit) xs : (forall x, kept (body x)) -> kept (for_each body xs).
Proof. apply (relates_for_each keeps_blocks). Qed.
Lemma kept_modify (f : VM -> VM) :
  (forall v, vm_db (f v) = vm_db v /\ vm_genesis (f v) = vm_genesis v /\
    vm_samaState (f v) = vm_samaState v /\ vm_objects (f v) = vm_objects v) ->
  kept (modify f).
Proof. intros Hf v. destruct (Hf v) as (? & ? & ? & ?). by apply keeps_blocks_same. Qed.
Lemma kept_mempool {A} (m : M Mempool A) : kept (zoom m).
Proof. intros v. unfold zoom. destruct (m (view v)). by apply keeps_blocks_same. Qed.
Lemma kept_block_at l : kept (block_at l).
Proof. apply kept_read. intros v. unfold block_at. by destruct (vm_objects v !! l). Qed.
Lemma kept_update l f : (forall b, R b (f b)) -> kept (update_block l f).
Proof.
  intros Hf v. split; [done|done|done|]. intros l' b Hb.
  cbn. destruct (decide (l = l')) as [<-|Hne].
  - exists (f b). by rewrite lookup_alter_eq, Hb.
  - exists b. by rewrite lookup_alter_ne.
Qed.

Lemma kept_Verified l : kept (Verified l).
Proof.
  apply kept_bind; [apply kept_block_at|intros b]. apply kept_bind; [by apply kept_modify|].
  intros _. apply kept_for_each. intros tx. apply kept_bind; [apply kept_mempool|by intros; apply kept_read].
Qed.
Lemma kept_record t cs tx : kept (record_activity t cs tx).
Proof.
  intros v. unfold record_activity. case_bool_decide; by apply keeps_blocks_same.
Qed.
Lemma kept_Accepted l : kept (vm_Accepted l).
Proof.
  apply kept_bind; [apply kept_block_at|intros b].
  apply kept_bind; [by apply kept_modify|intros _].
  apply kept_bind; [by apply kept_modify|intros _].
  apply kept_bind; [by apply kept_read|intros size]. destruct (size =? 0); [by apply kept_read|].
  apply kept_for_each. intros tx. apply kept_record.
Qed.
End kept.

Lemma kept_set_child_db db c : kept same_block (set_child_db db c).
Proof.
  apply kept_bind; [apply _|apply kept_block_at; apply _|intros b].
  destruct (sb_onAcceptDB b) as [o|]; [|by apply kept_read; [apply _|]].
  destruct (versiondb_SetDatabase o db) as [o' r]. apply kept_bind; [apply _|by apply kept_update; [apply _|]|].
  intros _. apply kept_read; [apply _|]. done.
Qed.

(** ** A block that is verified and accepted *)

Lemma update_block_at l f v b :
  vm_objects v !! l = Some b ->
  exists v', update_block l f v = (v', Ok tt) /\ vm_objects v' !! l = Some (f b) /\ vm_db v' = vm_db v /\
    vm_genesis v' = vm_genesis v /\ vm_samaState v' = vm_samaState v.
Proof.
  intros Hb. eexists. split; [done|]. cbn. by rewrite lookup_alter_eq, Hb.
Qed.

Lemma Verify_ok l v v1 b :
  vm_wf v -> vm_objects v !! l = Some b -> block_ready (vm_genesis v) b ->
  ids_agree (Txs (sb_block b)) -> Verify l v = (v1, Ok tt) ->
  exists overlay state, SetLastAccepted (vm_genesis v) (sb_id b) (state, sb_block b) = ((overlay, sb_block b), Ok tt) /\
    vm_db v1 = vm_db v /\ vm_genesis v1 = vm_genesis v /\
    (exists b1, vm_objects v1 !! l = Some b1 /\ same_block b b1 /\ sb_onAcceptDB b1 = Some overlay) /\
    exists parent ctx before w surplus, verified v b parent ctx before w surplus /\ state = w_db w /\
      vm_samaState v1 = w_sama w.
Proof.
  intros Hwf Hl Hready Hag Hrun. unfold Verify in Hrun.
  apply bind_ok in Hrun as (? & b' & Hb & Hrun). apply block_at_ok in Hb as [-> Hb].
  assert (b = b') as <- by congruence. clear Hb.
  apply bind_ok in Hrun as (v0 & [parent db] & Hv & Hrun).
  destruct (verify_ok v v0 b parent db Hwf Hv) as (p & ctx & state & w & s & Hverified & Hwdb & v0' & Hr & _ & _ & ->).
  set (v0 := put_sama _ _ v0') in *.
  apply bind_ok in Hrun as (? & g & Hg & Hrun). apply gets_ok in Hg as [-> ->].
  change (vm_genesis v0) with (vm_genesis v0') in Hrun. rewrite (rd_genesis _ _ Hr) in Hrun.
  destruct (SetLastAccepted _ _ _) as [[overlay blk] stored] eqn:Hset.
  assert (vm_objects v0 !! l = Some b) as Hl0 by (apply (lookup_weaken _ _ _ _ Hl), Hr).
  apply bind_ok in Hrun as (v2 & [] & Hup & Hrun).
  destruct (update_block_at l (fun x => set_block blk (set_onAcceptDB overlay x)) v0 b Hl0)
    as (v2' & Hup' & Hl2 & Hdb2 & Hg2 & Hsama2).
  assert (v2' = v2) as -> by congruence. clear Hup Hup'.
  apply bind_ok in Hrun as (? & [] & Ho & Hrun). apply lift_outcome_ok in Ho as [-> ->].
  destruct (stored_block_is_read_back _ _ _ _ Hready Hag Hset) as (overlay' & [= <- ->] & _).
  exists overlay, db. split; [done|].
  assert (kept same_overlay (update_block parent (addChild l) ;;; Verified l)) as Hkept.
  { apply kept_bind; [apply _|by apply kept_update; [apply _|]|]. intros _. apply kept_Verified. apply _. }
  pose proof (Hkept v2) as Hk. rewrite Hrun in Hk. destruct Hk as [Hdb Hg Hs2 Hobj]. cbn [fst] in *.
  destruct (Hobj _ _ Hl2) as (b1 & Hb1 & [[Hsb Hid] Hov]). cbn in Hsb, Hid, Hov.
  split_and!.
  - rewrite Hdb, Hdb2. apply (rd_db _ _ Hr).
  - rewrite Hg, Hg2. apply (rd_genesis _ _ Hr).
  - by exists b1.
  - exists p, ctx, state, w, s. split; [done|]. split; [done|].
    by rewrite Hs2, Hsama2.
Qed.

Lemma Accepted_last l v v' : vm_Accepted l v = (v', Ok tt) -> vm_lastAccepted v' = l.
Proof.
  intros Hrun. unfold vm_Accepted in Hrun.
  apply bind_ok in Hrun as (v0 & b & _ & Hrun). apply bind_ok in Hrun as (v1 & [] & _ & Hrun).
  apply bind_ok in Hrun as (v2 & [] & Hm & Hrun). unfold modify in Hm. injection Hm as <-.
  apply bind_ok in Hrun as (? & size & Hg & Hrun). apply gets_ok in Hg as [-> _].
  assert (vm_lastAccepted (put_lastAccepted l v1) = l) as Hl by done. revert Hl Hrun.
  generalize (put_lastAccepted l v1). intros v2 Hl.
  destruct (size =? 0); [unfold ret; by intros [= <-]|]. revert v2 Hl.
  induction (Txs (sb_block b)) as [|tx txs IH]; intros v2 Hl Hrun; [unfold for_each, ret in Hrun; by injection Hrun as <-|].
  cbn [for_each] in Hrun. apply bind_ok in Hrun as (v3 & [] & Hrec & Hrun). apply (IH v3); [|done].
  unfold record_activity in Hrec. case_bool_decide; [done|]. by injection Hrec as <-.
Qed.
Lemma Accept_ok l v v1 b overlay :
  vm_objects v !! l = Some b -> sb_onAcceptDB b = Some overlay -> Accept l v = (v1, Ok tt) ->
  vm_db v1 ≡ overlay /\ vm_genesis v1 = vm_genesis v /\
  vm_samaState v1 = samaState_Commit (vm_samaState v) /\
  vm_lastAccepted v1 = l /\ exists b1, vm_objects v1 !! l = Some b1 /\ same_block b b1 /\ sb_st b1 = Accepted.
Proof.
  intros Hl Hov Hrun. unfold Accept in Hrun.
  apply bind_ok in Hrun as (? & b' & Hb & Hrun). apply block_at_ok in Hb as [-> Hb].
  assert (b' = b) as -> by congruence. clear Hb. rewrite Hov in Hrun.
  apply bind_ok in Hrun as (? & state & Hg & Hrun). apply gets_ok in Hg as [-> ->].
  pose proof (versiondb_Commit_lookup overlay (vm_db v)) as Hlk.
  pose proof (versiondb_Commit_nil overlay (vm_db v)) as Hnil.
  destruct (versiondb_Commit overlay (vm_db v)) as [db r]. cbn [fst snd] in Hlk, Hnil. subst r.
  apply bind_ok in Hrun as (v2 & [] & Hput & Hrun). unfold modify in Hput. injection Hput as <-.
  apply bind_ok in Hrun as (? & [] & Hr & Hrun). apply lift_ok in Hr as [-> _].
  apply bind_ok in Hrun as (v2 & [] & Hch & Hrun).
  pose proof (kept_for_each same_block (set_child_db db) (sb_children b) (kept_set_child_db db)
    (put_db db v)) as Hk. rewrite Hch in Hk. destruct Hk as [Hdb2 Hg2 Hs2 Hobj2]. cbn [fst] in *.
  destruct (Hobj2 l b Hl) as (b2 & Hb2 & Hsame2).
  apply bind_ok in Hrun as (v3 & [] & Hst & Hrun).
  pose proof (kept_update same_block l (set_st Accepted) ltac:(done) v2) as Hk.
  destruct (update_block_at l (set_st Accepted) v2 b2 Hb2) as (v3' & Hst' & Hb3 & _).
  assert (v3' = v3) as -> by congruence. rewrite Hst in Hk. destruct Hk as [Hdb3 Hg3 Hs3 _]. cbn [fst] in *.
  apply bind_ok in Hrun as (v4 & [] & Hacc & Hrun).
  pose proof (kept_Accepted eq l v3) as Hk. pose proof (Accepted_last l v3 v4 Hacc) as Hlast.
  rewrite Hacc in Hk. destruct Hk as [Hdb4 Hg4 Hs4 Hobj4]. cbn [fst snd] in *.
  unfold sama_Commit, modify in Hrun. injection Hrun as <-. cbn.
  split_and!; [|by rewrite Hg4, Hg3, Hg2|by rewrite Hs4, Hs3, Hs2|done|].
  - intros k. rewrite <- Hlk. by rewrite Hdb4, Hdb3, Hdb2.
  - destruct (Hobj4 l _ Hb3) as (b4 & Hb4 & <-). eexists. split; [done|]. by destruct Hsame2.
Qed.

(** ** A block that is refused *)

(** C15: A block that is refused for one of its transactions changes the state of the
    chain: what the transactions before it have done stays pending, whatever it
    is.  The next block that the node verifies is executed on top of it, and when
    that is accepted, it is committed along with it; on a node that has not been
    sent the first block, the second is executed without it. *)
Theorem refused_block_stays_pending l v b parent ctx state w e :
  vm_wf v -> vm_objects v !! l = Some b -> checked v b parent ctx state ->
  execution v b ctx state = (w, Err e) ->
  exists v1, Verify l v = (v1, Err e) /\ vm_wf v1 /\ vm_samaState v1 = w_sama w /\ vm_db v1 = vm_db v /\
    forall l' b' v2 v3, vm_objects v1 !! l' = Some b' -> block_ready (vm_genesis v) b' ->
      ids_agree (Txs (sb_block b')) -> Verify l' v1 = (v2, Ok tt) -> Accept l' v2 = (v3, Ok tt) ->
      exists parent' ctx' state' w' surplus, checked v1 b' parent' ctx' state' /\
        execute_txs (vm_genesis v) (sb_block b') ctx' (Txs (sb_block b')) 0
          (mkWorld (versiondb_New state') (w_sama w) (S (vm_tick v1))) = (w', Ok surplus) /\
        vm_samaState v3 = samaState_Commit (w_sama w').
Proof.
  intros Hwf Hl Hc Hx. destruct (verify_run v b parent ctx state Hwf Hc) as (v0 & pl & Hr & Hwf0 & _ & Hrun).
  rewrite Hx in Hrun. cbn [obind] in Hrun. exists (put_sama (w_sama w) (w_tick w) v0). split_and!.
  - unfold Verify, block_at, bind at 1. rewrite Hl. by rewrite (bind_err _ _ _ _ _ Hrun).
  - by apply put_tick_wf.
  - done.
  - apply (rd_db _ _ Hr).
  - intros l' b' v2 v3 Hl' Hready Hag Hver Hacc.
    assert (vm_genesis (put_sama (w_sama w) (w_tick w) v0) = vm_genesis v) as Hg by apply (rd_genesis _ _ Hr).
    rewrite <- Hg in Hready.
    destruct (Verify_ok l' _ v2 b' ltac:(by apply put_tick_wf) Hl' Hready Hag Hver)
      as (overlay & state' & _ & _ & _ & (b1 & Hb1 & _ & Hov) & p' & ctx' & st' & w' & s' & [Hc' Hx' _] & _ & Hs2).
    destruct (Accept_ok l' v2 v3 b1 overlay Hb1 Hov Hacc) as (_ & _ & Hs3 & _).
    exists p', ctx', st', w', s'. split; [exact Hc'|]. split; [|by rewrite Hs3, Hs2].
    unfold execution in Hx'. by rewrite Hg in Hx'.
Qed.

(** ** The next start *)

Lemma vm_zero_wf db ms acs g target nil tick : vm_wf (vm_zero db ms acs g target nil tick).
Proof.
  split; cbn; intros; try done. by rewrite cached_New in *.
Qed.

Lemma load_last_run db ms acs g target nil tick data parse blkID blk b :
  db_lookup db lastAccepted = Some (array blkID) ->
  GetBlock blkID db = (db, Ok blk) -> ParseStatefulBlock blk [] Accepted g = Ok b ->
  exists v, load_last g data parse true (vm_zero db ms acs g target nil tick) = (v, Ok tt) /\
    vm_db v = db /\ vm_tick v = tick /\ vm_preferred v = blkID /\
    vm_objects v !! vm_lastAccepted v = Some b.
Proof.
  intros Hlast Hget Hparse. set (v0 := vm_zero db ms acs g target nil tick).
  assert (zoom GetLastAccepted v0 = (v0, Ok blkID)) as Hid.
  { unfold zoom. cbn [view lens_vm_db]. change (vm_db v0) with db.
    unfold GetLastAccepted, attempt, bind. rewrite Get_run, Hlast. unfold lift. by rewrite ToID_array. }
  unfold load_last. rewrite (bind_run _ _ _ _ _ Hid).
  destruct (GetStatelessBlock_run v0 blkID (vm_zero_wf _ _ _ _ _ _ _)) as (_ & Hr & Ha).
  assert (find_block v0 blkID = Ok b) as Hf.
  { unfold find_block, v0, vm_zero. cbn [vm_blocks vm_verifiedBlocks vm_db vm_genesis].
    rewrite cached_New, lookup_empty, Hget. exact Hparse. }
  rewrite Hf in Ha. unfold bind at 1.
  destruct (GetStatelessBlock blkID v0) as [v1 [l|e|p]]; [|done..]. cbn [fst snd agree] in *.
  eexists. split; [done|]. cbn. split_and!; [apply (rd_db _ _ Hr)|apply (rd_tick _ _ Hr)|done|exact Ha].
Qed.

(** C1: A block that has been verified and accepted survives: started again on its
    database, the node prefers that block and has it, equal in everything that
    was signed, hashed or executed, as its last accepted block.  The changes of
    the state of the chain that were pending at that moment are committed. *)
Theorem accepted_block_survives_restart l v v1 v2 b sizes data parse nil tick :
  vm_wf v -> vm_objects v !! l = Some b -> block_ready (vm_genesis v) b ->
  ids_agree (Txs (sb_block b)) -> Verify l v = (v1, Ok tt) -> Accept l v1 = (v2, Ok tt) ->
  Genesis_Verify (vm_genesis v) = inr tt -> u64 (Genesis_TargetBlockRate (vm_genesis v)) <> 0 ->
  0 <= sizes.1 -> 0 <= sizes.2 ->
  vm_lastAccepted v2 = l /\ vm_samaState v2 = samaState_Commit (vm_samaState v1) /\
  exists v3, Initialize (vm_db v2) (inr sizes) (inr (vm_genesis v)) data parse nil tick =
      (try! state := SamaNew (vm_db v2) (vm_genesis v) tick in Ok (put_sama state tick v3)) /\
    vm_preferred v3 = sb_id b /\
    exists b3, vm_objects v3 !! vm_lastAccepted v3 = Some b3 /\ same_block b b3 /\
      sb_bytes b3 = sb_bytes b /\ sb_st b3 = Accepted.
Proof.
  intros Hwf Hl Hready Hag Hver Hacc Hg Hrate Hms Hacs.
  destruct (Verify_ok l v v1 b Hwf Hl Hready Hag Hver)
    as (overlay & state & Hset & Hdb1 & Hg1 & (b1 & Hb1 & Hsame & Hov) & _).
  destruct (Accept_ok l v1 v2 b1 overlay Hb1 Hov Hacc) as (Hdb2 & Hg2 & Hs2 & Hlast & _).
  split; [done|split; [done|]].
  destruct (stored_block_is_read_back _ _ _ _ Hready Hag Hset) as (db' & [= <-] & Hread & _).
  destruct (Hread _ Hdb2) as (Hla & blk & Hget & Hparse).
  set (target := Genesis_TargetBlockSize (vm_genesis v) / u64 (Genesis_TargetBlockRate (vm_genesis v))
    *u u64 (Genesis_LookbackWindow (vm_genesis v))).
  destruct (load_last_run (vm_db v2) sizes.1 sizes.2 (vm_genesis v) target nil tick data parse
    (sb_id b) blk _ Hla Hget Hparse) as (v3 & Hload & Hdb3 & Htick3 & Hpref & Hobj).
  exists v3. split; [|split; [done|]].
  - unfold Initialize. cbn [of_result obind]. rewrite (proj2 (Z.ltb_ge sizes.2 0)) by done. unfold HasLastAccepted. rewrite Has_run, Hla. cbn [snd obind].
    rewrite bool_decide_eq_true_2 by done. rewrite Hg. cbn [of_result obind].
    rewrite (proj2 (Z.eqb_neq _ _)), (proj2 (Z.ltb_ge sizes.1 0)) by done. fold target. rewrite Hload. cbn [obind].
    by rewrite Hdb3, Htick3.
  - eexists. by split.
Qed.
End accept.
