(* ===== verification/Supply.v ===== *)
(** * The supply of tokens

    What the accounts hold together changes by the rewards that are claimed, the
    fees, and what users pay, and by nothing else: for one transaction, for the
    transactions of a block, and for a block that is verified and accepted. *)

From S2P Require Import Prelude External GoStd PendingCache Instances Keys Storage Genesis.
From S2P Require Import Stakers Pows Rewards Actions Users Details SysParams SamaState.
From S2P Require Import Tx TypedTx Activity Block BlockFacts Mempool VM Frames TxFacts.
From S2P Require Import Lookback VMFacts AcceptFacts.

(** ** Sums over accounts *)
Section holdings.
Context `{DatabaseLaws} `{EthereumLaws}.
Implicit Types (db : DB) (a : Address) (L : list Address).

(** What an account owns, staked or not, and what the accounts of a list own. *)
Definition owned db a : Z := balance db a + stake_balance db a.
Fixpoint holdings L db : Z :=
  match L with
  | [] => 0
  | a :: L' => owned db a + holdings L' db
  end.

Lemma holdings_ext L db db' :
  (forall a, a ∈ L -> owned db' a = owned db a) -> holdings L db' = holdings L db.
Proof.
  induction L as [|a L IH]; intros Heq; [done|]. cbn [holdings].
  rewrite Heq, IH by set_solver. done.
Qed.

(** [books a d db db']: [d] is added to what [a] owns, and that is all. *)
Definition books a d db db' : Prop :=
  accounts_ok db' /\ forall x, owned db' x = owned db x + (if decide (x = a) then d else 0).

Lemma books_holdings L a d db db' :
  NoDup L -> a ∈ L -> books a d db db' -> holdings L db' = holdings L db + d.
Proof.
  intros Hnd Hin [_ Hb]. induction L as [|x L IH]; [by apply elem_of_nil in Hin|].
  apply NoDup_cons in Hnd as [Hx Hnd]. cbn [holdings]. rewrite Hb.
  apply elem_of_cons in Hin as [<-|Hin].
  - rewrite decide_True by done. rewrite (holdings_ext L db db'); [lia|].
    intros y Hy. rewrite Hb, decide_False by (by intros ->). lia.
  - rewrite decide_False by (by intros ->). rewrite IH by done. lia.
Qed.

#[export] Instance owned_proper : Proper ((≡) ==> (=) ==> (=)) owned.
Proof. intros db db' Hdb a ? <-. unfold owned, balance, stake_balance. by rewrite Hdb. Qed.
#[export] Instance holdings_proper L : Proper ((≡) ==> (=)) (holdings L).
Proof. intros db db' Hdb. apply holdings_ext. intros a _. by rewrite Hdb. Qed.

Lemma books_balance a n db :
  accounts_ok db -> is_u64 n ->
  books a (n - balance db a) db (db_set db (PrefixBalanceKey a) (be_PutUint64 n)).
Proof.
  intros Hok Hn. split; [by apply accounts_ok_set_amount|]. intros x. unfold owned.
  rewrite balance_set, stake_balance_frame by done.
  destruct (decide (a = x)) as [<-|]; [rewrite decide_True by done|rewrite decide_False by done]; lia.
Qed.
Lemma books_stake a n db :
  accounts_ok db -> is_u64 n ->
  books a (n - stake_balance db a) db (db_set db (PrefixStakeKey a) (be_PutUint64 n)).
Proof.
  intros Hok Hn. split; [by apply accounts_ok_set_amount|]. intros x. unfold owned.
  rewrite balance_frame_stake, stake_balance_set by done.
  destruct (decide (a = x)) as [<-|]; [rewrite decide_True by done|rewrite decide_False by done]; lia.
Qed.
End holdings.

(** ** What one operation does to the sum *)
Section steps.
Context `{DatabaseLaws} `{Cacher Address UserMeta} `{GoRuntimeLaws} `{EthereumLaws}
  `{ChainCodecLaws}.
Context (L : list Address) (Hnd : NoDup L).
Implicit Types (w : world).

(** From one world to the next the accounts of [L] gain [d]. *)
Definition gains (d : Z) w w' : Prop :=
  accounts_ok (w_db w') /\ holdings L (w_db w') = holdings L (w_db w) + d.

Lemma gains_trans d d' w1 w2 w3 : gains d w1 w2 -> gains d' w2 w3 -> gains (d + d') w1 w3.
Proof. intros [_ H12] [Hok H23]. split; [done|lia]. Qed.
Lemma gains_eq d d' w w' : gains d w w' -> d = d' -> gains d' w w'.
Proof. by intros ? <-. Qed.
Lemma gains_same w w' :
  accounts_ok (w_db w) -> same_accounts (w_db w) (w_db w') -> gains 0 w w'.
Proof.
  intros Hok Hs. split; [by eapply same_accounts_ok|]. rewrite Z.add_0_r. apply holdings_ext.
  intros a _. unfold owned. by rewrite (same_balance _ _ _ Hs), (same_stake_balance _ _ _ Hs).
Qed.
Lemma gains_touches {A} (m : M world A) w w' r :
  touches not_account m -> m w = (w', r) -> accounts_ok (w_db w) -> gains 0 w w'.
Proof. intros Hm Hrun Hok. apply gains_same; [done|]. by eapply touches_same_accounts. Qed.
Lemma gains_books a d w w' :
  a ∈ L -> books a d (w_db w) (w_db w') -> gains d w w'.
Proof. intros Ha Hb. split; [apply Hb|]. by apply (books_holdings L a). Qed.

Lemma pay_gains a n w w' r :
  accounts_ok (w_db w) -> is_u64 n -> a ∈ L ->
  zoom (ModifyBalance a false n) w = (w', Ok r) -> gains (- n) w w'.
Proof.
  intros Hok Hn Ha Hrun. rewrite pay_run in Hrun by done. case_bool_decide as Hle; [|done].
  injection Hrun as <- _. pose proof (amount_at_range (PrefixBalanceKey a) (w_db w)) as Hr.
  fold (balance (w_db w) a) in Hr. apply (gains_books a); [done|]. cbn [w_db with_db].
  replace (- n) with (balance (w_db w) a - n - balance (w_db w) a) by lia.
  apply books_balance; [done|]. unfold is_u64 in *. lia.
Qed.
Lemma receive_gains a n w w' r :
  accounts_ok (w_db w) -> is_u64 n -> a ∈ L ->
  zoom (ModifyBalance a true n) w = (w', Ok r) -> gains n w w'.
Proof.
  intros Hok Hn Ha Hrun. rewrite receive_run in Hrun by done. case_bool_decide as Hle; [|done].
  injection Hrun as <- _. pose proof (amount_at_range (PrefixBalanceKey a) (w_db w)) as Hr.
  fold (balance (w_db w) a) in Hr. apply (gains_books a); [done|]. cbn [w_db with_db].
  replace n with (balance (w_db w) a + n - balance (w_db w) a) at 1 by lia.
  apply books_balance; [done|]. unfold is_u64 in *. lia.
Qed.
Lemma stake_pay_gains a n w w' r :
  accounts_ok (w_db w) -> is_u64 n -> a ∈ L ->
  zoom (ModifyStakeBalance a false n) w = (w', Ok r) -> gains (- n) w w'.
Proof.
  intros Hok Hn Ha Hrun. rewrite stake_pay_run in Hrun by done. case_bool_decide as Hle; [|done].
  injection Hrun as <- _. pose proof (amount_at_range (PrefixStakeKey a) (w_db w)) as Hr.
  fold (stake_balance (w_db w) a) in Hr. apply (gains_books a); [done|]. cbn [w_db with_db].
  replace (- n) with (stake_balance (w_db w) a - n - stake_balance (w_db w) a) by lia.
  apply books_stake; [done|]. unfold is_u64 in *. lia.
Qed.

(** ** What a transaction mints and burns *)

(** What a successful transaction pays out of nothing: a claim its reward, an
    unstake its reward on top of the stake, as far as the sum fits 64 bits. *)
Definition minted (s : stakerState) (u : UnsignedTransaction) (sender : Address) : Z :=
  match u with
  | UClaim c => claim_RewardAmount c
  | UUnStake x =>
      match GetStakerMeta s (byte_of_Z (unstake_StakerType x)) sender with
      | Some m => (Staker_StakeAmount m +u unstake_RewardAmount x) - Staker_StakeAmount m
      | None => 0
      end
  | _ => 0
  end.
(** What it takes out of the accounts besides the fee. *)
Definition paid (u : UnsignedTransaction) : Z :=
  match u with UAddUser a => adduser_PayAmount a | _ => 0 end.
Definition fee_of (g : Genesis) (u : UnsignedTransaction) : Z :=
  match FeeUnits u g with Ok units => units *u GetPrice u | _ => 0 end.

(** The amounts of a transaction are unsigned 64-bit integers. *)
Definition amounts_fit (u : UnsignedTransaction) : Prop :=
  match u with
  | UTransfer t => is_u64 (transfer_Units t)
  | UStake s => is_u64 (stake_StakeAmount s)
  | UAddUser a => is_u64 (adduser_PayAmount a)
  | _ => True
  end.
(** So are the stakes of the stakers, in force or added since the last commit. *)
Definition stakes_fit (s : stakerState) : Prop :=
  forall t a m, t ∈ StakerTypes ->
    c_cur (staker_cache t s) !! a = Some m \/ c_add (staker_cache t s) !! a = Some m ->
    is_u64 (Staker_StakeAmount m).
Lemma stake_fits s t a m : stakes_fit s -> GetStakerMeta s t a = Some m -> is_u64 (Staker_StakeAmount m).
Proof.
  intros Hfit Hm. destruct (decide (t ∈ StakerTypes)) as [Ht|Ht].
  - apply (Hfit t a m Ht). left. by rewrite <- cur_stakes_cache.
  - unfold GetStakerMeta, cur_stakes, GetCurStakes in Hm.
    unfold StakerTypes in Ht. rewrite !not_elem_of_cons in Ht. destruct Ht as (H1' & H2' & H3' & _).
    by rewrite !decide_False in Hm.
Qed.
(** The accounts a transaction moves tokens of are among those of [L]. *)
Definition parties (u : UnsignedTransaction) (sender : Address) : Prop :=
  sender ∈ L /\ forall t, u = UTransfer t -> transfer_To t ∈ L.

Lemma TransferTx_gains t c w w' :
  accounts_ok (w_db w) -> is_u64 (transfer_Units t) -> ctx_Sender c ∈ L -> transfer_To t ∈ L ->
  TransferTx_Execute t c w = (w', Ok tt) -> gains 0 w w'.
Proof.
  intros Hok Hu Hs Ht Hrun. unfold TransferTx_Execute in Hrun.
  do 3 (apply bind_ok in Hrun as (? & [] & Hc & Hrun); apply check_ok in Hc as [_ ->]).
  apply bind_ok in Hrun as (w1 & r1 & Hpay & Hrun).
  apply bind_ok in Hrun as (w2 & r2 & Hrec & Hrun). unfold ret in Hrun. injection Hrun as <-.
  apply pay_gains in Hpay; [|done..]. apply receive_gains in Hrec; [|by try apply Hpay..].
  eapply gains_eq; [by eapply gains_trans|lia].
Qed.

Lemma StakeTx_gains s c w w' :
  accounts_ok (w_db w) -> is_u64 (stake_StakeAmount s) ->
  StakeTx_Execute s c w = (w', Ok tt) -> gains 0 w w'.
Proof.
  intros Hok Hu Hrun. destruct (StakeTx_ok s c w w' Hok Hu Hrun) as (_ & _ & _ & Hok' & Hb & Hk & _).
  split; [done|]. rewrite Z.add_0_r. apply holdings_ext. intros a _. unfold owned.
  rewrite Hb, Hk. case_decide; lia.
Qed.

Lemma UnStakeTx_gains u c w w' :
  accounts_ok (w_db w) -> stakes_fit (st_stakers (w_sama w)) -> ctx_Sender c ∈ L ->
  UnStakeTx_Execute u c w = (w', Ok tt) ->
  gains (minted (st_stakers (w_sama w)) (UUnStake u) (ctx_Sender c)) w w'.
Proof.
  intros Hok Hfit Hs Hrun. destruct (UnStakeTx_ok u c w w' Hrun) as (Hty & w1 & m & b & mr & y &
    w2 & w3 & n & n' & _ & Hd1 & Hm & Hlock & _ & _ & Hpay & Hdeal).
  cbn [minted]. rewrite Hm. pose proof (stake_fits _ _ _ _ Hfit Hm) as Ham.
  apply stake_pay_gains in Hlock; [|by rewrite ?Hd1..].
  apply receive_gains in Hpay; [|by try apply Hlock|apply u64_range|done].
  destruct (DealUnStakeTx_stakers _ _ _ _ _ _ Hty Hdeal) as [Hacc _].
  apply gains_same in Hacc; [|apply Hpay].
  destruct Hlock as [_ Hl]. destruct Hpay as [_ Hp]. destruct Hacc as [Hok' Ha].
  rewrite Hd1 in Hl. split; [done|]. lia.
Qed.

Lemma ClaimTx_gains x c w w' :
  accounts_ok (w_db w) -> ctx_Sender c ∈ L ->
  ClaimTx_Execute x c w = (w', Ok tt) -> gains (claim_RewardAmount x) w w'.
Proof.
  intros Hok Hs Hrun. unfold ClaimTx_Execute in Hrun.
  apply bind_ok in Hrun as (? & ? & Hc & Hrun). apply gets_ok in Hc as [-> ->].
  destruct (CheckClaimAddress _ _) as [ok ty].
  apply bind_ok in Hrun as (? & [] & Hc & Hrun). apply check_ok in Hc as [_ ->].
  apply bind_ok in Hrun as (w1 & ? & Hn1 & Hrun). apply unix_now_ok in Hn1 as [_ Hd1].
  apply bind_ok in Hrun as (? & [] & Hc & Hrun). apply check_ok in Hc as [_ ->].
  apply bind_ok in Hrun as (w2 & ? & Hn2 & Hrun). apply unix_now_ok in Hn2 as [_ Hd2].
  apply bind_ok in Hrun as (? & [] & Hc & Hrun). apply check_ok in Hc as [_ ->].
  apply bind_ok in Hrun as (? & [[b m] y] & Hc & Hrun). apply lift_outcome_ok in Hc as [-> _].
  apply bind_ok in Hrun as (? & [] & Hc & Hrun). apply check_ok in Hc as [Ham ->].
  apply negb_false_iff, Z.eqb_eq in Ham. rewrite <- Ham in Hrun.
  apply bind_ok in Hrun as (w3 & ? & Hpay & Hrun).
  apply receive_gains in Hpay; [|by rewrite ?Hd2, ?Hd1|rewrite Ham; apply u64_range|done].
  apply gains_touches in Hrun; [| |apply Hpay].
  - destruct Hpay as [_ Hp]. destruct Hrun as [Hok' Hr]. rewrite Hd2, Hd1 in Hp. split; [done|]. lia.
  - case_decide; [apply UpdateFoundationReward_frame|apply UpdateStakerReward_frame].
Qed.

Lemma AddUserTx_gains x c w w' :
  accounts_ok (w_db w) -> is_u64 (adduser_PayAmount x) -> ctx_Sender c ∈ L ->
  AddUserTx_Execute x c w = (w', Ok tt) -> gains (- adduser_PayAmount x) w w'.
Proof.
  intros Hok Hu Hs Hrun. unfold AddUserTx_Execute in Hrun. cbv zeta in Hrun.
  do 3 (apply bind_ok in Hrun as (? & [] & Hc & Hrun); apply check_ok in Hc as [_ ->]).
  apply bind_ok in Hrun as (w1 & ? & Hn1 & Hrun). apply unix_now_ok in Hn1 as [_ Hd1].
  do 2 (apply bind_ok in Hrun as (? & [] & Hc & Hrun); apply check_ok in Hc as [_ ->]).
  apply bind_ok in Hrun as (? & ? & Hc & Hrun). apply gets_ok in Hc as [-> ->].
  do 2 (apply bind_ok in Hrun as (? & [] & Hc & Hrun); apply check_ok in Hc as [_ ->]).
  apply bind_ok in Hrun as (w2 & ? & Hget & Hrun).
  apply gains_touches in Hget; [|touch|by rewrite Hd1].
  apply bind_ok in Hrun as (? & [] & Hc & Hrun). apply check_ok in Hc as [_ ->].
  apply bind_ok in Hrun as (w3 & ? & Hpay & Hrun). apply pay_gains in Hpay; [|by try apply Hget..].
  apply gains_touches in Hrun; [|apply DealAddUserTx_frame|apply Hpay].
  destruct Hget as [_ Hg]. destruct Hpay as [_ Hp]. destruct Hrun as [Hok' Hr].
  rewrite Hd1 in Hg. split; [done|]. lia.
Qed.

#[local] Hint Resolve get_action_frame UpdateNodeParams_frame IsBeConfirmed_frame unix_now_frame
  put_new_action_frame : touch.

(** The transactions that move no tokens. *)
Definition quiet (u : UnsignedTransaction) : Prop :=
  match u with
  | UTransfer _ | UStake _ | UUnStake _ | UClaim _ | UAddUser _ => False
  | _ => True
  end.
Lemma quiet_frame u c : quiet u -> touches not_account (Execute u c).
Proof.
  destruct u; cbn [quiet Execute]; try done; intros _.
  - unfold SetTx_Execute. touch.
  - unfold RegisterTx_Execute. touch.
  - unfold RefreshTx_Execute. touch.
  - unfold GovernTx_Execute. touch.
  - unfold VoteTx_Execute. touch.
  - unfold WithdrawnTx_Execute. touch.
  - unfold ProofTx_Execute. touch.
  - unfold ProposalTx_Execute. touch.
Qed.

Lemma Execute_gains u c w w' :
  accounts_ok (w_db w) -> amounts_fit u -> stakes_fit (st_stakers (w_sama w)) ->
  parties u (ctx_Sender c) -> Execute u c w = (w', Ok tt) ->
  gains (minted (st_stakers (w_sama w)) u (ctx_Sender c) - paid u) w w'.
Proof.
  intros Hok Ham Hfit [Hs Hto] Hrun. destruct u as [x|x|x|x|x|x|x|x|x|x|x|x|x];
    cbn [amounts_fit] in Ham;
    try (apply gains_touches in Hrun; [exact Hrun|by apply quiet_frame|done]).
  - eapply gains_eq; [eapply TransferTx_gains; eauto|done].
  - eapply gains_eq; [eapply StakeTx_gains; eauto|done].
  - eapply gains_eq; [by eapply UnStakeTx_gains|]. cbn [paid]. lia.
  - eapply gains_eq; [by eapply ClaimTx_gains|]. cbn [paid minted]. lia.
  - eapply gains_eq; [by eapply AddUserTx_gains|]. cbn [paid minted]. lia.
Qed.

Lemma Transaction_gains tx g t ctx w w' :
  accounts_ok (w_db w) -> amounts_fit (tx_Unsigned tx) -> stakes_fit (st_stakers (w_sama w)) ->
  parties (tx_Unsigned tx) (tx_sender tx) -> Transaction_Execute tx g t ctx w = (w', Ok tt) ->
  gains (minted (st_stakers (w_sama w)) (tx_Unsigned tx) (tx_sender tx)
    - (fee_of g (tx_Unsigned tx) + paid (tx_Unsigned tx))) w w'.
Proof.
  intros Hok Ham Hfit Hp Hrun. unfold Transaction_Execute in Hrun.
  apply bind_ok in Hrun as (? & [] & Hc & Hrun). apply lift_ok in Hc as [-> _].
  do 2 (apply bind_ok in Hrun as (? & [] & Hc & Hrun); apply check_ok in Hc as [_ ->]).
  apply bind_ok in Hrun as (? & units & Hc & Hrun). apply lift_outcome_ok in Hc as [-> Hunits].
  apply bind_ok in Hrun as (w1 & n & Hfee & Hrun).
  assert (w_sama w1 = w_sama w) as Hsama.
  { pose proof Hfee as Hf. rewrite pay_run in Hf by (done || apply u64_range).
    case_bool_decide; [|done]. by injection Hf as <- _. }
  apply pay_gains in Hfee; [|done|apply u64_range|apply Hp].
  apply bind_ok in Hrun as (w2 & [] & Hx & Hset).
  apply Execute_gains in Hx; [|apply Hfee|done|by rewrite Hsama|done].
  apply gains_touches in Hset; [|touch|apply Hx].
  rewrite Hsama in Hx. cbn [ctx_Sender] in Hx. unfold fee_of. rewrite Hunits.
  destruct Hfee as [_ Hf]. destruct Hx as [_ Hx]. destruct Hset as [Hok' Hset]. split; [done|]. lia.
Qed.

(** ** The stakers in force during a block *)

(** A transaction adds and removes stakers for the next commit only. *)
Definition stakers_in_force (w : world) := settled (C := staker_map * staker_map * staker_map)
  (st_stakers (w_sama w)).

Lemma GetStakerMeta_in_force (s s' : stakerState) t a :
  settled (C := staker_map * staker_map * staker_map) s = settled s' ->
  GetStakerMeta s t a = GetStakerMeta s' t a.
Proof.
  intros Heq. injection Heq as Hr Hse Hva. unfold GetStakerMeta, cur_stakes, GetCurStakes.
  by rewrite Hr, Hse, Hva.
Qed.

Lemma keeps_modify {S X} (f : S -> X) (h : S -> S) : (forall s, f (h s) = f s) -> keeps f (modify h).
Proof. intros Hf s. apply Hf. Qed.
Lemma settled_set_pending t add del s :
  settled (C := staker_map * staker_map * staker_map) (set_pending_stakers t add del s) = settled s.
Proof. unfold set_pending_stakers. by repeat case_decide. Qed.

Lemma PutStaker_in_force m : keeps stakers_in_force (zoom (PutStaker m)).
Proof.
  intros w. unfold PutStaker, gets, modify, bind, zoom, lift. cbn [fst view lens_stakers].
  destruct (GetPendingStakers _ _) as [e|[add del]]; [done|]. cbn.
  destruct (Marshal m); cbn; [|rewrite Put_run]; apply settled_set_pending.
Qed.
Lemma DelStaker_in_force t a : keeps stakers_in_force (zoom (DelStaker t a)).
Proof.
  intros w. unfold DelStaker, gets, modify, bind, zoom. cbn [fst view lens_stakers].
  destruct (GetPendingStakers _ _) as [e|[add del]]; [done|]. cbn.
  rewrite Delete_run. apply settled_set_pending.
Qed.
Lemma put_new_action_in_force i m : keeps stakers_in_force (put_new_action i m).
Proof.
  unfold put_new_action. apply keeps_bind; [keep|intros s]. destruct (alloc_action m s) as [l s'].
  apply keeps_bind; [by apply keeps_modify|intros _; keep].
Qed.
Lemma get_action_in_force i : keeps stakers_in_force (get_action i).
Proof. unfold get_action. keep. Qed.
Lemma UpdateStakerReward_in_force t a i e : keeps stakers_in_force (UpdateStakerReward t a i e).
Proof. unfold UpdateStakerReward, update_staker. keep. Qed.
#[local] Hint Resolve PutStaker_in_force DelStaker_in_force put_new_action_in_force get_action_in_force
  UpdateStakerReward_in_force : touch.
Lemma IsBeConfirmed_in_force t k : keeps stakers_in_force (IsBeConfirmed t k).
Proof. unfold IsBeConfirmed. keep. Qed.
Lemma unix_now_in_force : keeps stakers_in_force unix_now.
Proof. unfold unix_now. keep. Qed.
#[local] Hint Resolve IsBeConfirmed_in_force unix_now_in_force : touch.

Lemma Execute_in_force u c : keeps stakers_in_force (Execute u c).
Proof.
  destruct u; cbn [Execute].
  - unfold SetTx_Execute. keep.
  - unfold TransferTx_Execute. keep.
  - unfold StakeTx_Execute, DealStakeTx. keep.
  - unfold UnStakeTx_Execute, DealUnStakeTx. keep.
  - unfold ClaimTx_Execute, UpdateFoundationReward. keep.
  - unfold RegisterTx_Execute, UpdateNodeParams. keep.
  - unfold RefreshTx_Execute. keep.
  - unfold AddUserTx_Execute, DealAddUserTx. keep.
  - unfold GovernTx_Execute. keep.
  - unfold VoteTx_Execute. keep.
  - unfold WithdrawnTx_Execute. keep.
  - unfold ProofTx_Execute. keep.
  - unfold ProposalTx_Execute. keep.
Qed.
Lemma Transaction_in_force tx g t ctx : keeps stakers_in_force (Transaction_Execute tx g t ctx).
Proof.
  unfold Transaction_Execute.
  pose proof (Execute_in_force (tx_Unsigned tx)
    (mkTransactionContext g (u64 t) (tx_id tx) (tx_sender tx))) as Hx.
  cbv zeta. keep.
Qed.

(** ** The stakes stay in range *)

Definition still_fits : relation world := fun w w' =>
  stakes_fit (stakers_of w) -> stakes_fit (stakers_of w').
#[local] Instance still_fits_preorder : PreOrder still_fits.
Proof. unfold still_fits. split; intros w; auto. Qed.

Lemma keeps_still_fits {A} (m : M world A) : keeps stakers_of m -> relates still_fits m.
Proof. intros Hm w. unfold still_fits. by rewrite (Hm w). Qed.

Lemma PutStaker_fits m : is_u64 (Staker_StakeAmount m) -> relates still_fits (zoom (PutStaker m)).
Proof.
  intros Hm w Hfit. unfold zoom. cbn [view lens_stakers].
  destruct (decide (byte_of_Z (Staker_StakerType m) ∈ StakerTypes)) as [Ht|Ht].
  2: { rewrite PutStaker_bad_type by done. exact Hfit. }
  destruct (PutStaker_run m (st_stakers (w_sama w)) (w_db w) Ht) as (s' & Hs' & ->).
  assert (stakes_fit s') as Hfit'; [|destruct (Marshal m); exact Hfit'].
  intros t a m' Ht'. rewrite Hs' by done. case_decide; [|by apply Hfit]. cbn [cache_put c_cur c_add].
  rewrite lookup_insert_Some. intros [Hm'|[[_ <-]|[_ Hm']]]; [|done|]; apply (Hfit _ a m' Ht); auto.
Qed.
Lemma DelStaker_fits t a : relates still_fits (zoom (DelStaker t a)).
Proof.
  intros w Hfit. unfold zoom. cbn [view lens_stakers].
  destruct (decide (t ∈ StakerTypes)) as [Ht|Ht].
  - destruct (DelStaker_run t a (st_stakers (w_sama w)) (w_db w) Ht) as (s' & Hs' & ->).
    intros t' a' m' Ht'. cbn [fst over]. change (stakers_of _) with s'. rewrite Hs' by done.
    case_decide; [|by apply Hfit]. cbn [cache_del c_cur c_add]. rewrite lookup_delete_Some.
    intros [Hm'|[_ Hm']]; apply (Hfit t a' m' Ht); auto.
  - unfold StakerTypes in Ht. rewrite !not_elem_of_cons in Ht. destruct Ht as (Hr & Hs & Hv & _).
    unfold DelStaker, gets, bind, GetPendingStakers. by rewrite !decide_False.
Qed.
#[local] Hint Resolve UpdateStakerReward_keeps_stakers : touch.

Ltac fit := repeat first
  [ apply keeps_still_fits; solve [keep]
  | match goal with |- relates _ (bind _ _) => apply relates_bind; [apply _| |intros ?] end
  | match goal with |- relates _ (match ?x with _ => _ end) => destruct x end ].

Lemma put_new_action_stakers i m : keeps stakers_of (put_new_action i m).
Proof.
  unfold put_new_action. apply keeps_bind; [keep|intros s]. destruct (alloc_action m s) as [l s'].
  apply keeps_bind; [by apply keeps_modify|intros _; keep].
Qed.
Lemma get_action_stakers i : keeps stakers_of (get_action i).
Proof. unfold get_action. keep. Qed.
#[local] Hint Resolve put_new_action_stakers get_action_stakers : touch.
Lemma IsBeConfirmed_stakers t k : keeps stakers_of (IsBeConfirmed t k).
Proof. unfold IsBeConfirmed. keep. Qed.
Lemma unix_now_stakers : keeps stakers_of unix_now.
Proof. unfold unix_now. keep. Qed.
#[local] Hint Resolve IsBeConfirmed_stakers unix_now_stakers : touch.

Lemma Execute_fits u c : amounts_fit u -> relates still_fits (Execute u c).
Proof.
  intros Ham. destruct u; cbn [Execute amounts_fit] in *.
  - apply keeps_still_fits. unfold SetTx_Execute. keep.
  - apply keeps_still_fits. unfold TransferTx_Execute. keep.
  - unfold StakeTx_Execute, DealStakeTx. cbv zeta. fit. by apply PutStaker_fits.
  - unfold UnStakeTx_Execute, DealUnStakeTx. cbv zeta. fit. apply DelStaker_fits.
  - apply keeps_still_fits. unfold ClaimTx_Execute, UpdateFoundationReward. keep.
  - apply keeps_still_fits. unfold RegisterTx_Execute, UpdateNodeParams. keep.
  - apply keeps_still_fits. unfold RefreshTx_Execute. keep.
  - apply keeps_still_fits. unfold AddUserTx_Execute, DealAddUserTx. keep.
  - apply keeps_still_fits. unfold GovernTx_Execute. keep.
  - apply keeps_still_fits. unfold VoteTx_Execute. keep.
  - apply keeps_still_fits. unfold WithdrawnTx_Execute. keep.
  - apply keeps_still_fits. unfold ProofTx_Execute. keep.
  - apply keeps_still_fits. unfold ProposalTx_Execute. keep.
Qed.
Lemma Transaction_fits tx g t ctx :
  amounts_fit (tx_Unsigned tx) -> relates still_fits (Transaction_Execute tx g t ctx).
Proof.
  intros Ham. unfold Transaction_Execute. cbv zeta. fit. by apply Execute_fits.
Qed.
Lemma commit_fits s : stakes_fit s -> stakes_fit (CacheStakersCommit s).
Proof.
  intros Hfit t a m Ht. rewrite staker_cache_commit, cache_commit_eq by done. cbn [c_cur c_add].
  rewrite lookup_empty. intros [Hm|]; [|done]. rewrite lookup_cache_view in Hm.
  apply (Hfit t a m Ht). repeat case_match; simplify_eq; auto.
Qed.

(** ** The transactions of a block *)

Fixpoint block_minted (s : stakerState) (txs : list Transaction) : Z :=
  match txs with
  | [] => 0
  | tx :: txs' => minted s (tx_Unsigned tx) (tx_sender tx) + block_minted s txs'
  end.
Fixpoint block_burnt (g : Genesis) (txs : list Transaction) : Z :=
  match txs with
  | [] => 0
  | tx :: txs' => fee_of g (tx_Unsigned tx) + paid (tx_Unsigned tx) + block_burnt g txs'
  end.

Lemma minted_in_force s s' u a :
  settled (C := staker_map * staker_map * staker_map) s = settled s' -> minted s u a = minted s' u a.
Proof. intros Hs. destruct u; try done. cbn [minted]. by rewrite (GetStakerMeta_in_force s s'). Qed.
Lemma block_minted_in_force s s' txs :
  settled (C := staker_map * staker_map * staker_map) s = settled s' ->
  block_minted s txs = block_minted s' txs.
Proof.
  intros Hs. induction txs as [|tx txs IH]; [done|]. cbn [block_minted].
  by rewrite IH, (minted_in_force s s').
Qed.
(** The transactions of a block have amounts in range and move tokens between
    accounts of [L] only. *)
Definition within (txs : list Transaction) : Prop := forall tx, tx ∈ txs ->
  amounts_fit (tx_Unsigned tx) /\ parties (tx_Unsigned tx) (tx_sender tx).

Lemma execute_txs_gains g blk ctx txs surplus w w' r :
  accounts_ok (w_db w) -> stakes_fit (stakers_of w) -> within txs ->
  execute_txs g blk ctx txs surplus w = (w', Ok r) ->
  gains (block_minted (stakers_of w) txs - block_burnt g txs) w w' /\ stakes_fit (stakers_of w').
Proof.
  revert surplus w. induction txs as [|tx txs IH]; intros surplus w Hok Hfit Hin Hrun.
  { unfold execute_txs, ret in Hrun. injection Hrun as <- _. split; [by apply gains_same|done]. }
  cbn [execute_txs] in Hrun. apply bind_ok in Hrun as (w1 & [] & Hx & Hrun).
  apply bind_ok in Hrun as (? & units & Hc & Hrun). apply lift_outcome_ok in Hc as [-> _].
  destruct (Hin tx (list_elem_of_here _ _)) as [Ham Hp].
  pose proof (Transaction_in_force tx g (blk_Tmstmp blk) ctx w) as Hkeep.
  pose proof (Transaction_fits tx g (blk_Tmstmp blk) ctx Ham w) as Hfit1.
  rewrite Hx in Hkeep, Hfit1. cbn [fst] in Hkeep, Hfit1. symmetry in Hkeep.
  apply Transaction_gains in Hx; [|done..].
  apply IH in Hrun as [Hg Hfit']; [|apply Hx|by apply Hfit1|by intros y Hy; apply Hin, list_elem_of_further].
  split; [|done]. rewrite <- (block_minted_in_force _ _ _ Hkeep) in Hg.
  eapply gains_eq; [by eapply gains_trans|]. cbn [block_minted block_burnt]. unfold stakers_of. lia.
Qed.
End steps.

(** ** A block that is accepted *)
Section accepted.
Context `{DatabaseLaws} `{Cacher Address UserMeta} `{CacherLaws ID block_loc}.
Context `{EthereumLaws} `{EthMath} `{GoRuntimeLaws} `{ChainCodecLaws} `{TxCodec}.
Context `{BlockCodecLaws}.

(** What is stored with a block stays away from the accounts. *)
Lemma stored_same_accounts g (b : StatelessBlock) db db' :
  block_ready g b -> ids_agree (Txs (sb_block b)) ->
  SetLastAccepted g (sb_id b) (db, sb_block b) = ((db', sb_block b), Ok tt) ->
  same_accounts db db'.
Proof.
  intros Hready Hag Hset.
  destruct (stored_block_is_read_back _ _ _ _ Hready Hag Hset) as (d & [= <-] & _ & Hother & _).
  intros k (a & [-> | ->]); apply Hother; try done; by intros.
Qed.

(** C5: An accepted block conserves tokens: over any accounts that include the
    senders and the receivers of its transactions, balances and stakes
    together change by the rewards its claims and unstakes were paid, less its
    fees and what users were added for, and what the next block needs holds
    again: accounts and stakes are well formed.  Transfers, stakes, votes, proofs,
    values and the storing of the block itself create and destroy nothing. *)
Theorem accepted_block_conserves_tokens l v v1 v2 b parent state L :
  vm_wf v -> vm_objects v !! l = Some b -> block_ready (vm_genesis v) b ->
  ids_agree (Txs (sb_block b)) -> Verify l v = (v1, Ok tt) -> Accept l v1 = (v2, Ok tt) ->
  find_block v (Prnt (sb_block b)) = Ok parent -> onAccept parent (vm_db v) = inr state ->
  accounts_ok state -> stakes_fit (st_stakers (vm_samaState v)) ->
  NoDup L -> within L (Txs (sb_block b)) ->
  accounts_ok (vm_db v2) /\
  holdings L (vm_db v2) = holdings L state
    + block_minted (st_stakers (vm_samaState v)) (Txs (sb_block b))
    - block_burnt (vm_genesis v) (Txs (sb_block b)) /\
  stakes_fit (st_stakers (vm_samaState v2)).
Proof.
  intros Hwf Hl Hready Hag Hver Hacc Hpar Hst Hok Hfit Hnd Hin.
  destruct (Verify_ok l v v1 b Hwf Hl Hready Hag Hver) as (overlay & dbw & Hset & _ & _ &
    (b1 & Hb1 & _ & Hov) & p & ctx & before & w & surplus & Hv & -> & Hs1).
  destruct (Accept_ok l v1 v2 b1 overlay Hb1 Hov Hacc) as (Hdb2 & _ & Hs2 & _).
  pose proof (vf_parent _ _ _ _ _ (vf_checked _ _ _ _ _ _ _ Hv)) as Hp. pose proof (vf_state _ _ _ _ _ (vf_checked _ _ _ _ _ _ _ Hv)) as Hs.
  assert (p = parent) as -> by congruence. assert (before = state) as -> by congruence.
  pose proof (vf_executed _ _ _ _ _ _ _ Hv) as Hx. unfold execution in Hx.
  assert (accounts_ok (versiondb_New state)) as Hok' by (by rewrite versiondb_New_equiv).
  apply (execute_txs_gains L Hnd) in Hx as [[Hokw Hsum] Hfit']; [|done..].
  cbn [w_db] in Hsum. change (stakers_of (mkWorld _ _ _)) with (st_stakers (vm_samaState v)) in Hsum.
  rewrite versiondb_New_equiv in Hsum.
  assert (same_accounts (w_db w) overlay) as Hsame by (by eapply stored_same_accounts).
  rewrite Hdb2, Hs2, Hs1. split; [by eapply same_accounts_ok|]. split; [|by apply commit_fits].
  rewrite (holdings_ext L (w_db w) overlay); [lia|].
  intros a _. unfold owned. by rewrite (same_balance _ _ _ Hsame), (same_stake_balance _ _ _ Hsame).
Qed.
End accepted.
