(* ===== verification/Values.v ===== *)
(** * Values: what is set can be resolved

    A value is recorded under its hash by the transaction that sets it, stored
    with the block, and read by the service. *)

From S2P Require Import Prelude External GoStd TData PendingCache Builder Instances Keys Storage Genesis.
From S2P Require Import Stakers Pows Rewards Actions Users Details SysParams SamaState.
From S2P Require Import Tx TypedTx Activity Keystore Block BlockFacts Mempool VM Service Lookback FeeMarket.
From S2P Require Import Frames Areas TxFacts VMFacts AcceptFacts.

(** ** Only SetTx writes the record of a value *)

Definition not_value (k : bytes) : Prop := forall h, k <> ValueKey h.
Lemma area_not_value A k : A <> ALedger -> in_area A k -> not_value k.
Proof. intros HA Hk h ->. apply HA, (in_area_unique A ALedger (ValueKey h)); [done|apply value_area]. Qed.

Section frames.
Context `{DatabaseLaws} `{Cacher Address UserMeta} `{GoRuntime} `{Ethereum} `{ChainCodecs}.

Lemma in_area_not_value {S A} `{!HasDB S} (a : area) (m : M S A) :
  a <> ALedger -> touches (in_area a) m -> touches not_value m.
Proof. intros Ha. apply touches_weaken. intros k. by apply area_not_value. Qed.
Lemma GetValueMeta_reads (Q : bytes -> Prop) h : touches Q (GetValueMeta h).
Proof. unfold GetValueMeta. touch. Qed.
Lemma ModifyBalance_not_value a add n : touches not_value (ModifyBalance a add n).
Proof. apply ModifyBalance_frame. by intros h. Qed.
Lemma ModifyStakeBalance_not_value a add n : touches not_value (ModifyStakeBalance a add n).
Proof. apply ModifyStakeBalance_frame. by intros h. Qed.
Lemma SetTransaction_not_value i : touches not_value (SetTransaction i).
Proof. unfold SetTransaction. apply touches_Put. by intros h. Qed.

#[local] Hint Resolve ModifyBalance_not_value ModifyStakeBalance_not_value : touch.
#[local] Hint Resolve UpdateOwner_area UpdateGlobal_area ModifyYields_area PutStaker_area DelStaker_area
  PutPow_area PutUser_area GetUserMeta_area PutDetail_area PutAction_area DelAction_area
  AddUserType_area ModifyParams_area : touch.
#[local] Hint Extern 5 (touches not_value _) =>
  eapply in_area_not_value; [|solve [eauto with touch nocore]]; done : touch.

Lemma get_action_not_value i : touches not_value (get_action i).
Proof. unfold get_action. touch. Qed.
Lemma unix_now_not_value : touches not_value unix_now.
Proof. unfold unix_now. touch. Qed.
Lemma IsBeConfirmed_not_value ty k : touches not_value (IsBeConfirmed ty k).
Proof. unfold IsBeConfirmed, get_action. touch. Qed.
Lemma UpdateStakerReward_not_value ty a i e : touches not_value (UpdateStakerReward ty a i e).
Proof. unfold UpdateStakerReward, UpdateFoundationReward, update_staker. touch. Qed.
Lemma put_new_action_not_value i m : touches not_value (put_new_action i m).
Proof.
  unfold put_new_action. apply touches_bind; [touch|intros s]. destruct (alloc_action m s) as [l s']. touch.
Qed.
#[local] Hint Resolve get_action_not_value unix_now_not_value IsBeConfirmed_not_value UpdateStakerReward_not_value
  put_new_action_not_value : touch.

Lemma Execute_not_value u t : (forall x, u <> USet x) -> touches not_value (Execute u t).
Proof.
  intros Hu.
  destruct u as [x|x|x|x|x|x|x|x|x|x|x|x|x]; cbn [Execute]; [by destruct (Hu x)|..].
  - unfold TransferTx_Execute. touch.
  - unfold StakeTx_Execute, DealStakeTx. touch.
  - unfold UnStakeTx_Execute, DealUnStakeTx. touch.
  - unfold ClaimTx_Execute, UpdateFoundationReward. touch.
  - unfold RegisterTx_Execute, UpdateNodeParams. touch.
  - unfold RefreshTx_Execute. touch.
  - unfold AddUserTx_Execute, DealAddUserTx. touch.
  - unfold GovernTx_Execute. touch.
  - unfold VoteTx_Execute. touch.
  - unfold WithdrawnTx_Execute. touch.
  - unfold ProofTx_Execute. touch.
  - unfold ProposalTx_Execute. touch.
Qed.
End frames.

(** ** Values are written once *)

Lemma is_set (u : UnsignedTransaction) : (exists t, u = USet t) \/ (forall t, u <> USet t).
Proof. destruct u; ((left; by eexists) || (right; by intros ?)). Qed.

Section values.
Context `{DatabaseLaws} `{Cacher Address UserMeta} `{GoRuntime} `{Ethereum} `{ChainCodecs}.
Context `{!CodecLaws ValueMeta}.
Implicit Types (w : world) (tx : Transaction).

(** The record of the value with hash [h]. *)
Definition value_meta (db : DB) (h : Hash) : option ValueMeta :=
  match db_lookup db (ValueKey h) with
  | Some b => match Unmarshal b with inr m => Some m | inl _ => None end
  | None => None
  end.

Lemma SetTx_Execute_ok t c w w' :
  SetTx_Execute t c w = (w', Ok tt) ->
  let h := ValueHash (set_Value t) in
  let m := mkValueMeta (Z.of_nat (length (set_Value t))) (ctx_TxID c) (ctx_BlockTime c) in
  set_Value t <> [] /\ db_lookup (w_db w) (ValueKey h) = None /\
  exists b, Marshal m = inr b /\ w_db w' = db_set (w_db w) (ValueKey h) b.
Proof.
  intros Hrun h m. unfold SetTx_Execute in Hrun.
  apply bind_ok in Hrun as (? & [] & Hc & Hrun). apply check_ok in Hc as [Hlen ->].
  apply bind_ok in Hrun as (? & [] & Hc & Hrun). apply check_ok in Hc as [_ ->].
  apply bind_ok in Hrun as (w1 & e & Hg & Hrun). unfold zoom in Hg. cbn [view lens_db] in Hg.
  rewrite GetValueMeta_run in Hg. injection Hg as <- Hg.
  apply bind_ok in Hrun as (? & [] & Hc & Hrun). apply check_ok in Hc as [He ->].
  apply bool_decide_eq_false in He. fold h in Hg.
  assert (db_lookup (w_db w) (ValueKey h) = None) as Hnone.
  { destruct (db_lookup (w_db w) (ValueKey h)) as [b|]; [|done]. destruct (Unmarshal b); [done|].
    injection Hg as <-. destruct He. by eexists. }
  split_and!; [intros Heq; by rewrite Heq in Hlen|done|].
  unfold zoom, PutKey, lift, bind in Hrun. cbn [view over lens_db w_db] in Hrun. fold m in Hrun. fold h in Hrun.
  destruct (Marshal m) as [e'|b]; [done|]. exists b. split; [done|].
  cbn [of_result] in Hrun. rewrite Put_run in Hrun. by injection Hrun as <-.
Qed.

Lemma Transaction_Execute_split tx g bt c w w' :
  Transaction_Execute tx g bt c w = (w', Ok tt) ->
  exists w1 w2, (forall h, db_lookup (w_db w1) (ValueKey h) = db_lookup (w_db w) (ValueKey h)) /\
    Execute (tx_Unsigned tx) (mkTransactionContext g (u64 bt) (tx_id tx) (tx_sender tx)) w1 = (w2, Ok tt) /\
    (forall h, db_lookup (w_db w') (ValueKey h) = db_lookup (w_db w2) (ValueKey h)).
Proof.
  intros Hrun. unfold Transaction_Execute in Hrun.
  apply bind_ok in Hrun as (? & [] & Hl & Hrun). apply lift_ok in Hl as [-> _].
  apply bind_ok in Hrun as (? & [] & Hc & Hrun). apply check_ok in Hc as [_ ->].
  apply bind_ok in Hrun as (? & [] & Hc & Hrun). apply check_ok in Hc as [_ ->].
  apply bind_ok in Hrun as (? & units & Hl & Hrun). apply lift_outcome_ok in Hl as [-> _].
  apply bind_ok in Hrun as (w1 & z & Hm & Hrun). apply bind_ok in Hrun as (w2 & [] & He & Hrun).
  exists w1, w2. split_and!; [|done|].
  - intros h. pose proof (touches_zoom not_value _ (ModifyBalance_not_value (tx_sender tx) false
      (units *u GetPrice (tx_Unsigned tx))) w (ValueKey h)) as Hf.
    rewrite Hm in Hf. apply Hf. by intros Hn; apply (Hn h).
  - intros h. pose proof (touches_zoom not_value _ (SetTransaction_not_value (tx_id tx)) w2 (ValueKey h)) as Hf.
    rewrite Hrun in Hf. apply Hf. by intros Hn; apply (Hn h).
Qed.

(** No transaction changes the record of a value that is there. *)
Lemma Transaction_Execute_keeps_value tx g bt c w w' h m :
  Transaction_Execute tx g bt c w = (w', Ok tt) ->
  value_meta (w_db w) h = Some m -> value_meta (w_db w') h = Some m.
Proof.
  intros Hrun Hm. destruct (Transaction_Execute_split _ _ _ _ _ _ Hrun) as (w1 & w2 & Hbefore & He & Hafter).
  unfold value_meta in *. rewrite Hafter. rewrite <- Hbefore in Hm.
  destruct (is_set (tx_Unsigned tx)) as [[t Ht]|Hn].
  - rewrite Ht in He. destruct (SetTx_Execute_ok _ _ _ _ He) as (_ & Hnone & b & _ & ->).
    rewrite lookup_set_ne; [done|]. intros Heq. by rewrite <- Heq, Hnone in Hm.
  - pose proof (Execute_not_value (tx_Unsigned tx) (mkTransactionContext g (u64 bt) (tx_id tx) (tx_sender tx))
      Hn w1 (ValueKey h) ltac:(by intros Hv; apply (Hv h))) as Hf.
    rewrite He in Hf. unfold get_db, world_has_db in Hf. cbn [fst] in Hf. by rewrite Hf.
Qed.

Lemma execute_txs_keeps_value g blk ctx l s w w' s' h m :
  execute_txs g blk ctx l s w = (w', Ok s') ->
  value_meta (w_db w) h = Some m -> value_meta (w_db w') h = Some m.
Proof.
  revert s w. induction l as [|tx l IH]; intros s w Hrun Hm; cbn [execute_txs] in Hrun; [by injection Hrun as <- _|].
  apply bind_ok in Hrun as (w1 & [] & Hx & Hrun).
  apply bind_ok in Hrun as (? & z & Hl & Hrun). apply lift_outcome_ok in Hl as [-> _].
  eapply IH; [done|]. by eapply Transaction_Execute_keeps_value.
Qed.

Lemma execute_txs_records g blk ctx l s w w' s' tx t :
  execute_txs g blk ctx l s w = (w', Ok s') -> tx ∈ l -> tx_Unsigned tx = USet t ->
  set_Value t <> [] /\
  value_meta (w_db w') (ValueHash (set_Value t)) =
    Some (mkValueMeta (Z.of_nat (length (set_Value t))) (tx_id tx) (u64 (blk_Tmstmp blk))).
Proof.
  revert s w. induction l as [|tx' l IH]; intros s w Hrun Hin Ht; [by apply elem_of_nil in Hin|].
  cbn [execute_txs] in Hrun. apply bind_ok in Hrun as (w1 & [] & Hx & Hrun).
  apply bind_ok in Hrun as (? & z & Hl & Hrun). apply lift_outcome_ok in Hl as [-> _].
  apply elem_of_cons in Hin as [<-|Hin]; [|by eapply IH].
  destruct (Transaction_Execute_split _ _ _ _ _ _ Hx) as (w0 & w2 & _ & He & Hafter). rewrite Ht in He.
  destruct (SetTx_Execute_ok _ _ _ _ He) as (Hne & _ & b & Hb & Hdb). split; [done|].
  eapply execute_txs_keeps_value; [done|]. unfold value_meta. rewrite Hafter, Hdb, lookup_set_eq.
  by rewrite (Unmarshal_Marshal _ _ Hb).
Qed.
End values.
