(* ===== verification/ServiceFacts.v ===== *)
(** * The service: what its replies tell of the chain *)

From S2P Require Import Prelude External GoStd TData Builder Instances Keys Storage Genesis.
From S2P Require Import Stakers Pows Rewards Actions Users Details SysParams SamaState.
From S2P Require Import Tx TypedTx Activity Keystore TypedTxFacts Block BlockFacts Mempool VM Service Lookback FeeMarket.
From S2P Require Import Frames Areas TxFacts VMFacts AcceptFacts Values.

(** ** Values *)
Section resolve.
Context `{DatabaseLaws} `{Cacher Address UserMeta} `{CacherLaws ID block_loc} `{CacherLaws bytes bytes} `{!Keystore}.
Context `{EthereumLaws} `{!EthMath} `{GoRuntime} `{ChainCodecs} `{TxCodec}.
Context `{BlockCodecLaws} `{!CodecLaws ValueMeta}.
Context `{!Secp} `{!Codec (list Address)} `{SnowContext} `{Randomness}.

(** What the cache has of a transaction is what the database has of it. *)
Definition linked_ok (c : Cache_t bytes bytes) (db : DB) : Prop :=
  forall (id : ID) x, cached c (array id) = Some x -> db_lookup db (PrefixTxValueKey id) = Some x.

Lemma linked_ok_New db : linked_ok cache_New db.
Proof. intros id x. by rewrite cached_New. Qed.

Lemma getLinkedValue_run c db (id : ID) x :
  db_lookup db (PrefixTxValueKey id) = Some x -> linked_ok c db ->
  exists c', getLinkedValue (array id) (c, db) = ((c', db), Ok x) /\ linked_ok c' db.
Proof.
  intros Hx Hc. unfold getLinkedValue. unfold gets at 1, bind at 1. cbn [fst].
  pose proof (cached_Get c (array id)) as Hget. specialize (Hc id) as Hid. unfold cached in Hget, Hid.
  destruct (cache_Get c (array id)) as [c' hit]. cbn [fst snd] in Hget, Hid.
  assert (linked_ok c' db) as Hc' by (intros id' y; unfold cached; rewrite Hget; apply Hc).
  unfold modify at 1, bind at 1. cbn [over lens_fst]. destruct hit as [y|].
  - exists c'. specialize (Hid y eq_refl). split; [by simplify_eq|done].
  - rewrite ToID_array. unfold lift, of_result, bind at 1. unfold zoom, bind at 1. cbn [view lens_snd snd].
    rewrite Get_run, Hx. unfold modify, bind. cbn. eexists. split; [done|].
    intros id' y Hy. destruct (decide (array id = array id')) as [Heq|Hne].
    + apply sized_eq in Heq as ->. rewrite cached_Put_eq in Hy. by simplify_eq.
    + by eapply Hc', cached_Put_ne.
Qed.

Lemma GetValue_run h c db m x :
  value_meta db h = Some m -> db_lookup db (PrefixTxValueKey (Value_TxID m)) = Some x -> linked_ok c db ->
  exists c', GetValue h (c, db) = ((c', db), Ok (Some x)) /\ linked_ok c' db.
Proof.
  intros Hm Hx Hc. unfold value_meta in Hm. destruct (db_lookup db (ValueKey h)) as [b|] eqn:Hb; [|done].
  destruct (Unmarshal b) as [|m'] eqn:Hu; [done|]. injection Hm as ->.
  destruct (getLinkedValue_run c db _ x Hx Hc) as (c' & Hrun & Hc'). exists c'. split; [|done].
  unfold GetValue, attempt, zoom, bind at 1. cbn [view over lens_snd snd fst]. rewrite Get_run, Hb.
  unfold lift. rewrite Hu. unfold of_result, bind at 1. by rewrite (bind_run _ _ _ _ _ Hrun).
Qed.

(** A handler that only reads leaves the service as it is. *)
Lemma on_vm_read {A} (m : M VM A) (s : PublicService) r :
  m (svc_vm s) = (svc_vm s, r) -> on_vm m s = (s, r).
Proof. intros Hm. unfold on_vm, zoom. change (view s) with (svc_vm s). rewrite Hm. by destruct s. Qed.
Lemma on_db_read {A} (m : M DB A) (s : PublicService) r :
  m (vm_db (svc_vm s)) = (vm_db (svc_vm s), r) -> on_db m s = (s, r).
Proof.
  intros Hm. apply (on_vm_read (zoom m)). unfold zoom. change (view (svc_vm s)) with (vm_db (svc_vm s)).
  rewrite Hm. by destruct (svc_vm s).
Qed.

(** A record and the value it points to are all the service needs. *)
Lemma svc_Resolve_run h (s : PublicService) m x :
  value_meta (vm_db (svc_vm s)) h = Some m ->
  db_lookup (vm_db (svc_vm s)) (PrefixTxValueKey (Value_TxID m)) = Some x ->
  linked_ok (svc_linked s) (vm_db (svc_vm s)) ->
  exists s', svc_Resolve h s = (s', Ok (mkResolveReply true x (Some m))) /\ svc_vm s' = svc_vm s /\
    linked_ok (svc_linked s') (vm_db (svc_vm s')).
Proof.
  intros Hm Hx Hc. destruct (GetValue_run h _ _ m x Hm Hx Hc) as (c' & Hrun & Hc').
  assert (on_db (GetValueMeta h) s = (s, Ok (Some m))) as Hmeta.
  { apply on_db_read. rewrite GetValueMeta_run. unfold value_meta in Hm. f_equal.
    destruct (db_lookup (vm_db (svc_vm s)) (ValueKey h)) as [b|]; [|done].
    destruct (Unmarshal b) as [|m']; [done|]. by injection Hm as ->. }
  unfold svc_Resolve. rewrite (bind_run _ _ _ _ _ Hmeta). unfold zoom, bind at 1.
  change (view s) with (svc_linked s, vm_db (svc_vm s)). rewrite Hrun.
  eexists. split; [done|]. cbn. by destruct (svc_vm s).
Qed.

Lemma svc_Resolve_missing h (s : PublicService) :
  db_lookup (vm_db (svc_vm s)) (ValueKey h) = None ->
  svc_Resolve h s = (s, Ok (mkResolveReply false [] None)).
Proof.
  intros Hb. unfold svc_Resolve.
  by rewrite (bind_run _ _ _ _ _ (on_db_read _ _ (Ok None) ltac:(by rewrite GetValueMeta_run, Hb))).
Qed.

(** C9: What is set can be resolved: once a block with a [SetTx] has been verified
    and accepted, the service answers the hash of its value with the value, its
    length, the transaction and the time of the block, and goes on doing so
    whatever is asked of it in between.  The value itself was taken out of the
    stored block and is found again. *)
Theorem accepted_value_resolves l v v1 v2 b tx t (s : PublicService) :
  vm_wf v -> vm_objects v !! l = Some b -> block_ready (vm_genesis v) b ->
  ids_agree (Txs (sb_block b)) -> Verify l v = (v1, Ok tt) -> Accept l v1 = (v2, Ok tt) ->
  tx ∈ Txs (sb_block b) -> tx_Unsigned tx = USet t ->
  vm_db (svc_vm s) = vm_db v2 -> linked_ok (svc_linked s) (vm_db v2) ->
  exists s', svc_Resolve (ValueHash (set_Value t)) s =
      (s', Ok (mkResolveReply true (set_Value t)
        (Some (mkValueMeta (Z.of_nat (length (set_Value t))) (tx_id tx) (u64 (blk_Tmstmp (sb_block b))))))) /\
    svc_vm s' = svc_vm s /\ linked_ok (svc_linked s') (vm_db v2).
Proof.
  intros Hwf Hl Hready Hag Hver Hacc Hin Ht Hdb Hc.
  destruct (Verify_ok l v v1 b Hwf Hl Hready Hag Hver)
    as (overlay & state & Hset & Hdb1 & Hg1 & (b1 & Hb1 & Hsame & Hov) & p & ctx & before & w & surplus & Hv & -> & _).
  destruct (Accept_ok l v1 v2 b1 overlay Hb1 Hov Hacc) as (Hdb2 & _).
  destruct (stored_block_is_read_back _ _ _ _ Hready Hag Hset) as (db' & [= <-] & _ & Hother & Hlinked).
  destruct (execute_txs_records _ _ _ _ _ _ _ _ _ _ (vf_executed _ _ _ _ _ _ _ Hv) Hin Ht) as [Hne Hm].
  rewrite <- Hdb in *.
  assert (value_meta (vm_db (svc_vm s)) (ValueHash (set_Value t)) =
    Some (mkValueMeta (Z.of_nat (length (set_Value t))) (tx_id tx) (u64 (blk_Tmstmp (sb_block b))))) as Hmeta
    by (unfold value_meta; rewrite Hdb2, Hother by done; exact Hm).
  assert (db_lookup (vm_db (svc_vm s)) (PrefixTxValueKey (tx_id tx)) = Some (set_Value t)) as Hx.
  { rewrite Hdb2. apply Hlinked; [done|]. unfold linked_value. rewrite Ht.
    rewrite bool_decide_eq_false_2; [done|]. by destruct (set_Value t). }
  destruct (svc_Resolve_run _ s _ _ Hmeta Hx Hc) as (s' & Hrun & Hvm & Hc').
  exists s'. rewrite Hvm in Hc'. done.
Qed.
End resolve.

(** ** Activities *)
Section recent.
Context `{Database} `{Cacher Address UserMeta} `{Cacher ID block_loc} `{Cacher bytes bytes} `{!Keystore}.
Context `{Ethereum} `{!EthMath} `{GoRuntime} `{ChainCodecs} `{TxCodec} `{BlockCodec}.
Context `{!Secp} `{!Codec (list Address)} `{SnowContext} `{Randomness}.
Implicit Types (v : VM) (log : list Activity).

(** The cache of activities holds the end of [log], the activities recorded so
    far, each at its number modulo the size of the cache. *)
Record ring v log : Prop := {
  rg_size : 0 < vm_ActivityCacheSize v < 2 ^ 63;
  rg_length : length (vm_activityCache v) = Z.to_nat (vm_ActivityCacheSize v);
  rg_cursor : vm_activityCacheCursor v = Z.of_nat (length log);
  rg_bound : Z.of_nat (length log) < 2 ^ 64;
  rg_entry i a : log !! i = Some a -> Z.of_nat (length log) - Z.of_nat i <= vm_ActivityCacheSize v ->
    vm_activityCache v !! Z.to_nat (Z.of_nat i `mod` vm_ActivityCacheSize v) = Some (Some a)
}.
Lemma ring_size_u64 v log : ring v log -> u64 (vm_ActivityCacheSize v) = vm_ActivityCacheSize v.
Proof. intros [Hs _ _ _ _]. apply u64_small. unfold is_u64. lia. Qed.

Lemma slots_differ (i j cs : Z) : 0 < cs -> 0 <= i < j -> j - i < cs -> i `mod` cs <> j `mod` cs.
Proof.
  intros Hcs Hij Hd Heq. pose proof (Z.div_mod i cs ltac:(lia)) as Hi. pose proof (Z.div_mod j cs ltac:(lia)) as Hj.
  rewrite Heq in Hi. revert Hi Hj. generalize (i `div` cs) (j `div` cs) (j `mod` cs). intros qi qj r Hi Hj.
  assert (cs * (qj - qi) = cs * qj - cs * qi) as Hm by ring.
  assert (0 < cs * (qj - qi) < cs) as [Hlo Hhi] by lia. clear Hm.
  apply Z.lt_0_mul in Hlo as [[_ Hq]|[]]; [|lia].
  pose proof (Z.mul_le_mono_nonneg_l 1 (qj - qi) cs ltac:(lia) ltac:(lia)). lia.
Qed.

Lemma record_activity_ring t tx v log :
  ring v log -> Z.of_nat (length log) + 1 < 2 ^ 64 ->
  exists v', record_activity t (vm_ActivityCacheSize v) tx v = (v', Ok tt) /\
    vm_ActivityCacheSize v' = vm_ActivityCacheSize v /\
    ring v' (log ++ [set_Tmstmp t (Transaction_Activity tx)]).
Proof.
  intros [Hs Hl Hc Hb He] Hlt. unfold record_activity. rewrite Hc.
  set (cs := vm_ActivityCacheSize v) in *. set (n := Z.of_nat (length log)) in *.
  pose proof (Z.mod_pos_bound n cs ltac:(lia)) as Hmod.
  rewrite bool_decide_eq_false_2 by lia. eexists. split; [done|]. split; [done|].
  split; cbn; fold cs; rewrite ?length_app, ?length_insert; cbn [length].
  - done.
  - done.
  - rewrite u64_small by (unfold is_u64; lia). lia.
  - lia.
  - intros i a Hi Hd. destruct (decide (i < length log)%nat) as [Hlt'|Hge].
    + rewrite lookup_app_l in Hi by done. pose proof (slots_differ (Z.of_nat i) n cs ltac:(lia) ltac:(lia) ltac:(lia)).
      pose proof (Z.mod_pos_bound (Z.of_nat i) cs ltac:(lia)).
      rewrite list_lookup_insert_ne by lia. apply He; [done|lia].
    + pose proof (lookup_lt_Some _ _ _ Hi) as Hlen. rewrite length_app in Hlen. cbn in Hlen.
      assert (i = length log) as -> by lia. rewrite lookup_app_r, Nat.sub_diag in Hi by lia. injection Hi as <-.
      fold n. rewrite list_lookup_insert_eq; [done|lia].
Qed.

Lemma record_all_ring t txs v log :
  ring v log -> Z.of_nat (length log) + Z.of_nat (length txs) < 2 ^ 64 ->
  exists v', for_each (record_activity t (vm_ActivityCacheSize v)) txs v = (v', Ok tt) /\
    vm_ActivityCacheSize v' = vm_ActivityCacheSize v /\
    ring v' (log ++ ((fun tx => set_Tmstmp t (Transaction_Activity tx)) <$> txs)).
Proof.
  revert v log. induction txs as [|tx txs IH]; intros v log Hr Hlt; cbn [for_each fmap list_fmap].
  { exists v. by rewrite app_nil_r. }
  cbn [length] in Hlt. destruct (record_activity_ring t tx v log Hr ltac:(lia)) as (v1 & Hrun & Hs & Hr1).
  rewrite (bind_run _ _ _ _ _ Hrun), <- Hs. destruct (IH v1 _ Hr1) as (v' & Hrun' & Hs' & Hr').
  { rewrite length_app. cbn. lia. }
  exists v'. split; [done|]. split; [by rewrite Hs'|]. by rewrite <- app_assoc in Hr'.
Qed.

(** The loop gives the newest activities first, as many as the cache holds. *)
Lemma activity_loop_ring fuel v log (i : nat) :
  ring v log -> (i <= length log)%nat ->
  let cs := vm_ActivityCacheSize v in let start := Z.of_nat (length log) in
  start - Z.of_nat i <= cs -> (Z.to_nat (cs - (start - Z.of_nat i)) <= fuel)%nat ->
  activity_loop fuel cs start (Z.of_nat i) (vm_activityCache v) =
    Ok (take (Z.to_nat (cs - (start - Z.of_nat i))) (reverse (take i log))).
Proof.
  intros [Hs Hl Hc Hb He] Hi cs start. fold cs in Hs, Hl, He.
  revert i Hi. induction fuel as [|fuel IH]; intros i Hi Hd Hf; cbn [activity_loop].
  all: rewrite u64_small by (unfold is_u64; lia).
  - replace (Z.to_nat (cs - (start - Z.of_nat i))) with 0%nat by lia.
    rewrite (proj2 (Z.ltb_ge (start - Z.of_nat i) cs)) by lia. by rewrite andb_false_r, take_0.
  - destruct i as [|i]; [by rewrite take_0, reverse_nil, take_nil|].
    destruct (Z.ltb_spec (start - Z.of_nat (S i)) cs) as [Hlt|Hge].
    2: { replace (Z.to_nat (cs - (start - Z.of_nat (S i)))) with 0%nat by lia. by rewrite andb_false_r, take_0. }
    rewrite (proj2 (Z.ltb_lt 0 (Z.of_nat (S i)))) by lia. cbn [andb].
    destruct (lookup_lt_is_Some_2 log i Hi) as [a Ha].
    replace (Z.of_nat (S i) - 1) with (Z.of_nat i) by lia. rewrite (He i a Ha) by lia.
    rewrite (IH i) by lia. cbn [obind]. rewrite (take_S_r _ _ _ Ha), reverse_app.
    replace (Z.to_nat (cs - (start - Z.of_nat (S i)))) with (S (Z.to_nat (cs - (start - Z.of_nat i)))) by lia. done.
Qed.
Lemma svc_RecentActivity_ring (s : PublicService) log :
  ring (svc_vm s) log ->
  svc_RecentActivity s = (s, Ok (take (Z.to_nat (vm_ActivityCacheSize (svc_vm s))) (reverse log))).
Proof.
  intros Hr. pose proof Hr as [Hs Hl Hc Hb _]. unfold svc_RecentActivity, gets, bind at 1.
  rewrite (ring_size_u64 _ _ Hr), (proj2 (Z.eqb_neq _ 0)) by lia. unfold lift_outcome. rewrite Hc.
  pose proof (activity_loop_ring (length (vm_activityCache (svc_vm s))) _ log (length log) Hr ltac:(done)) as Hloop.
  cbn zeta in Hloop. rewrite Z.sub_diag, Z.sub_0_r, firstn_all in Hloop. by rewrite Hloop by lia.
Qed.

(** What a step of [Accept] other than [vm_Accepted] leaves alone: the cache of
    activities and the contents of the blocks. *)
Definition same_history v v' : Prop :=
  vm_ActivityCacheSize v' = vm_ActivityCacheSize v /\
  vm_activityCacheCursor v' = vm_activityCacheCursor v /\
  vm_activityCache v' = vm_activityCache v /\
  forall l b, vm_objects v !! l = Some b -> exists b', vm_objects v' !! l = Some b' /\ sb_block b' = sb_block b.
#[export] Instance same_history_preorder : PreOrder same_history.
Proof.
  split; [intros v; split_and!; eauto|]. intros v1 v2 v3 (Hs1 & Hc1 & Hl1 & Ho1) (Hs2 & Hc2 & Hl2 & Ho2).
  split_and!; [congruence..|]. intros l b Hb. destruct (Ho1 l b Hb) as (b2 & Hb2 & He2).
  destruct (Ho2 l b2 Hb2) as (b3 & Hb3 & He3). exists b3. split; [done|congruence].
Qed.
Lemma ring_same_history v v' log : same_history v v' -> ring v log -> ring v' log.
Proof. intros (Hs & Hc & Hl & _) [? ? ? ? ?]. split; rewrite ?Hs, ?Hc, ?Hl; done. Qed.

Lemma update_block_history l f : (forall b, sb_block (f b) = sb_block b) -> relates same_history (update_block l f).
Proof.
  intros Hf v. split_and!; [done..|]. intros l' b Hb. cbn. destruct (decide (l = l')) as [<-|Hne].
  - exists (f b). by rewrite lookup_alter_eq, Hb.
  - exists b. by rewrite lookup_alter_ne.
Qed.
Lemma same_objects_history v v' :
  vm_ActivityCacheSize v' = vm_ActivityCacheSize v -> vm_activityCacheCursor v' = vm_activityCacheCursor v ->
  vm_activityCache v' = vm_activityCache v -> vm_objects v' = vm_objects v -> same_history v v'.
Proof. intros ? ? ? Ho. split_and!; [done..|]. rewrite Ho. eauto. Qed.
Lemma set_child_db_history db c : relates same_history (set_child_db db c).
Proof.
  apply relates_bind; [apply _| |intros b].
  { apply relates_read; [apply _|]. intros v. unfold block_at. by destruct (vm_objects v !! c). }
  destruct (sb_onAcceptDB b) as [o|]; [|by apply relates_read; [apply _|]].
  destruct (versiondb_SetDatabase o db) as [o' r].
  apply relates_bind; [apply _|by apply update_block_history|]. intros []. by apply relates_read; [apply _|].
Qed.

Definition block_activities (b : StatelessBlock) : list Activity :=
  (fun tx => set_Tmstmp (blk_Tmstmp (sb_block b)) (Transaction_Activity tx)) <$> Txs (sb_block b).

(** C16: The service's recent activity is the end of the history of the chain: when
    a block is accepted, what its transactions did is appended to the history,
    and the reply has the newest entries of the history first, as many as the
    cache holds; the cache is a ring and never holds anything else.  Recording
    never goes out of the bounds of the cache. *)
Theorem recent_activity_is_end_of_history l v v' b log (s : PublicService) :
  ring v log -> vm_objects v !! l = Some b -> Accept l v = (v', Ok tt) ->
  Z.of_nat (length log) + Z.of_nat (length (Txs (sb_block b))) < 2 ^ 64 -> svc_vm s = v' ->
  let log' := log ++ block_activities b in
  ring v' log' /\
  svc_RecentActivity s = (s, Ok (take (Z.to_nat (vm_ActivityCacheSize v)) (reverse log'))).
Proof.
  intros Hr Hl Hrun Hlt Hs log'.
  enough (ring v' log' /\ vm_ActivityCacheSize v' = vm_ActivityCacheSize v) as [Hr' Hsz].
  { split; [done|]. subst v'. by rewrite (svc_RecentActivity_ring _ _ Hr'), Hsz. }
  clear Hs s. unfold Accept in Hrun. apply bind_ok in Hrun as (? & b' & Hb & Hrun).
  apply block_at_ok in Hb as [-> Hb]. simplify_eq. destruct (sb_onAcceptDB b) as [overlay|]; [|done].
  apply bind_ok in Hrun as (? & state & Hg & Hrun). apply gets_ok in Hg as [-> ->].
  destruct (versiondb_Commit overlay (vm_db v)) as [db r].
  apply bind_ok in Hrun as (v1 & [] & Hput & Hrun). unfold modify in Hput. injection Hput as <-.
  apply bind_ok in Hrun as (? & [] & Hx & Hrun). apply lift_ok in Hx as [-> _].
  apply bind_ok in Hrun as (v2 & [] & Hch & Hrun). apply bind_ok in Hrun as (v3 & [] & Hst & Hrun).
  apply bind_ok in Hrun as (v4 & [] & Hacc & Hrun).
  assert (same_history v v3) as Hsame.
  { transitivity (put_db db v); [by apply same_objects_history|]. transitivity v2.
    - pose proof (relates_for_each same_history (set_child_db db) (sb_children b)
        (set_child_db_history db) (put_db db v)) as Hp. by rewrite Hch in Hp.
    - pose proof (update_block_history l (set_st Accepted) ltac:(done) v2) as Hp. by rewrite Hst in Hp. }
  pose proof (ring_same_history _ _ _ Hsame Hr) as Hr3. destruct Hsame as (Hsz & _ & _ & Hobj).
  destruct (Hobj l b Hl) as (b3 & Hb3 & Hblk).
  unfold sama_Commit, modify in Hrun. injection Hrun as <-.
  unfold vm_Accepted in Hacc. apply bind_ok in Hacc as (? & b' & Hb' & Hacc).
  apply block_at_ok in Hb' as [-> Hb']. simplify_eq. unfold modify, bind, gets in Hacc.
  rewrite Hblk in Hacc. set (v4' := put_lastAccepted l _) in *.
  assert (ring v4' log) as Hr4 by (eapply ring_same_history; [|exact Hr3]; by apply same_objects_history).
  rewrite (proj2 (Z.eqb_neq _ 0)) in Hacc by (destruct (rg_size _ _ Hr4); lia).
  rewrite (ring_size_u64 _ _ Hr4) in Hacc.
  destruct (record_all_ring (blk_Tmstmp (sb_block b)) (Txs (sb_block b)) v4' log Hr4 Hlt) as (v5 & Hrec & Hsz5 & Hr5).
  rewrite Hrec in Hacc. injection Hacc as <-. split; [|by rewrite <- Hsz].
  eapply ring_same_history; [|exact Hr5]. by apply same_objects_history.
Qed.
End recent.

(** ** Transactions the node signs for its users *)

Lemma base_set_base b u : base (set_base b u) = b.
Proof. by destruct u. Qed.
Lemma set_base_twice b b' u : set_base b (set_base b' u) = set_base b u.
Proof. by destruct u. Qed.
Lemma set_base_base u : set_base (base u) u = u.
Proof. by destruct u as [[]|[]|[]|[]|[]|[]|[]|[]|[]|[]|[]|[]|[]]. Qed.
Lemma FeeUnits_set_base b u g : FeeUnits (set_base b u) g = FeeUnits u g.
Proof. by destruct u. Qed.

Section signed.
Context `{DatabaseLaws} `{Cacher Address UserMeta} `{Cacher ID block_loc} `{Cacher bytes bytes} `{!Keystore}.
Context `{EthereumLaws} `{!EthMath} `{GoRuntime} `{ChainCodecs} `{TxCodecLaws} `{BlockCodec}.
Context `{!Secp} `{!SecpLaws} `{!Codec (list Address)} `{SnowContext} `{Randomness}.
Implicit Types (s : PublicService) (u : UnsignedTransaction).

Lemma on_vm_ok {A} (m : M VM A) s s' a :
  on_vm m s = (s', Ok a) -> exists v, m (svc_vm s) = (v, Ok a) /\
    s' = mkPublicService v (svc_Cache s) (svc_linked s) (svc_ks s) (svc_rand s).
Proof.
  unfold on_vm, zoom. change (view s) with (svc_vm s). destruct (m (svc_vm s)) as [v r]. intros [= <- ->].
  by exists v.
Qed.
Lemma last_block_ok s s' la : last_block s = (s', Ok la) -> s' = s.
Proof.
  intros Hla. apply on_vm_ok in Hla as (v & Hla & ->).
  apply bind_ok in Hla as (? & l & Hl & Hla). apply gets_ok in Hl as [-> ->].
  apply block_at_ok in Hla as [-> _]. by destruct s.
Qed.
Lemma issued_ok {A} (a b : A) errs s s' : issued a errs s = (s', Ok b) -> s' = s /\ errs = [] /\ b = a.
Proof. unfold issued. destruct errs as [|e [|e' errs]]; [by intros [= -> ->]|done|done]. Qed.

Lemma set_meta_ok la g price u d :
  set_meta la g price (mkDecoded u true) = Ok d ->
  dec_tx d = set_base (mkBaseTx la (Genesis_Magic g) price) u.
Proof. unfold set_meta. cbn. rewrite !base_set_base. cbn. intros [= <-]. cbn. by rewrite !set_base_twice. Qed.

(** A transaction signed with a key is sent by its address. *)
Lemma signed_sender u sk dh sig g tx :
  tx_DigestHash u = Ok dh -> Sign dh sk = inr sig -> Init (NewTx u sig) g = Ok tx ->
  tx_Unsigned tx = u /\ tx_sender tx = address_of sk.
Proof.
  intros Hdh Hsig Htx. apply Init_ok in Htx as (dh' & pk & stx & Hdh' & Hpk & _ & ->).
  assert (dh' = dh) as -> by congruence. rewrite (Sign_DeriveSender _ _ _ Hsig) in Hpk. by injection Hpk as <-.
Qed.
(** The bytes of a transaction are decoded into it. *)
Lemma svc_IssueRawTx_bytes u sig g tx s s' id :
  Init (NewTx u sig) g = Ok tx -> svc_IssueRawTx (tx_bytes tx) s = (s', Ok id) ->
  id = tx_id tx /\ Submit [tx] (svc_vm s) = (svc_vm s', Ok []) /\ s' = over (svc_vm s') s.
Proof.
  intros Htx Hrun. unfold svc_IssueRawTx in Hrun.
  pose proof Htx as Htx'. apply Init_ok in Htx' as (dh & pk & stx & _ & _ & Hm & Heq).
  apply bind_ok in Hrun as (? & p & Hp & Hrun). apply lift_ok in Hp as [-> Hp].
  rewrite Heq in Hp. cbn [tx_bytes] in Hp. rewrite (Unmarshal_Marshal _ _ Hm) in Hp. injection Hp as <-.
  apply bind_ok in Hrun as (? & g' & Hg & Hrun). apply gets_ok in Hg as [-> ->].
  apply bind_ok in Hrun as (? & tx' & Htx' & Hrun). apply lift_outcome_ok in Htx' as [-> Htx'].
  change (Init (wire_tx (u, sig)) _) with (Init (NewTx u sig) g) in Htx'.
  assert (tx' = tx) as -> by congruence.
  apply bind_ok in Hrun as (? & errs & Hs & Hrun). apply on_vm_ok in Hs as (v & Hs & ->).
  by apply issued_ok in Hrun as (-> & -> & ->).
Qed.

Lemma with_cost_twice fu price :
  0 <= price -> 0 <= fu -> 2 * (fu * price) < 2 ^ 64 ->
  fu *u with_cost price (fu *u price) fu = 2 * (fu *u price).
Proof.
  intros Hp Hfu Hb. rewrite (u64_small (fu * price)) by (unfold is_u64; lia). unfold with_cost.
  destruct (Z.eqb_spec fu 0) as [->|Hne]; [by rewrite !Z.mul_0_l|].
  rewrite (Z.mul_comm fu price), Z.div_mul, (Z.mul_comm price fu) by done.
  assert (price <= fu * price) by nia. rewrite (u64_small (price + price)) by (unfold is_u64; lia). u64_lia.
Qed.

(** C33: What the node signs for a user comes from the address of the key: the
    transaction is the one asked for and is submitted, at the suggested fee; but
    where it has a fee, it offers twice the price that the reported cost stands
    for, and pays twice that cost. *)
Theorem signed_transaction_is_the_users_at_twice_the_price u sk s s' id cost :
  SignSubmitRawTx u sk s = (s', Ok (id, cost)) ->
  exists tx v p c fu, let price := with_cost p c fu in
    SuggestedFee (svc_vm s) = (v, Ok (p, c)) /\ FeeUnits (tx_Unsigned tx) (vm_genesis v) = Ok fu /\
    Submit [tx] v = (svc_vm s', Ok []) /\ tx_id tx = id /\ tx_sender tx = address_of sk /\
    tx_Unsigned tx = set_base (base (tx_Unsigned tx)) u /\ cost = fu *u price /\
    (0 <= price -> 0 <= fu -> 2 * (fu * price) < 2 ^ 64 -> fu *u GetPrice (tx_Unsigned tx) = 2 * cost).
Proof.
  intros Hrun. unfold SignSubmitRawTx in Hrun.
  apply bind_ok in Hrun as (s1 & [p c] & Hf & Hrun). apply on_vm_ok in Hf as (v1 & Hf & ->).
  apply bind_ok in Hrun as (? & g & Hg & Hrun). apply gets_ok in Hg as [-> ->].
  apply bind_ok in Hrun as (? & fu & Hfu & Hrun). apply lift_outcome_ok in Hfu as [-> Hfu].
  apply bind_ok in Hrun as (? & la & Hla & Hrun). apply last_block_ok in Hla as ->. cbn [svc_vm svc_Cache svc_linked svc_ks svc_rand fst snd] in *.
  apply bind_ok in Hrun as (? & d & Hd & Hrun). apply lift_outcome_ok in Hd as [-> Hd]. apply set_meta_ok in Hd.
  apply bind_ok in Hrun as (? & dh & Hdh & Hrun). apply lift_outcome_ok in Hdh as [-> Hdh].
  apply bind_ok in Hrun as (? & sig & Hsig & Hrun). apply lift_ok in Hsig as [-> Hsig].
  apply bind_ok in Hrun as (? & tx & Htx & Hrun). apply lift_outcome_ok in Htx as [-> Htx].
  apply bind_ok in Hrun as (? & errs & Hs & Hrun). apply on_vm_ok in Hs as (v3 & Hs & ->).
  apply issued_ok in Hrun as (-> & -> & [= -> ->]). cbn [svc_vm] in *.
  destruct (signed_sender _ _ _ _ _ _ Hdh Hsig Htx) as [Hu Hsender].
  exists tx, v1, p, c, fu. rewrite Hu, Hd, !FeeUnits_set_base, base_set_base.
  split_and!; try done. intros. unfold GetPrice. rewrite base_set_base. by apply with_cost_twice.
Qed.
End signed.

(** ** Keys of the users of the node *)
Section keys.
Context `{DatabaseLaws} `{Cacher Address UserMeta} `{Cacher ID block_loc} `{Cacher bytes bytes}.
Context `{KS0 : !Keystore} `{!KeystoreLaws} `{EthereumLaws} `{!EthMath} `{!GoRuntime} `{!Secp} `{!SecpLaws}.
Context `{!Codec (list Address)} `{!CodecLaws (list Address)} `{!CodecTotal (list Address)}.
Context `{SnowContext} `{RandomnessLaws}.
Implicit Types (s : PublicService).

Definition with_ks (ks : KS) s : PublicService :=
  mkPublicService (svc_vm s) (svc_Cache s) (svc_linked s) ks (svc_rand s).
Lemma on_user_run {A} user pass (m : M (option DB) A) s db db' (r : outcome A) :
  GetDatabase (svc_ks s) user pass = inr db -> m (Some db) = (Some db', r) ->
  on_user user pass m s = (with_ks (ks_store (svc_ks s) user db') s,
    match r with Ok a => Ok (inr a) | Err e => Ok (inl e) | Panic p => Panic p end).
Proof.
  intros Hdb Hm. unfold on_user, gets, bind at 1, wrapping, attempt, lift. rewrite Hdb.
  unfold of_result, bind. cbn. rewrite Hm. cbn. by destruct r.
Qed.

(** C32: The keys of a user are kept: a key that is imported joins the list of the
    user, once, and is exported under its address; the other keys of the list,
    and the rest of the node, are as before. *)
Theorem imported_key_is_exported user pass db ks sk addr s :
  GetDatabase (svc_ks s) user pass = inr db -> wallet db ks ->
  IsHexAddress addr = true -> HexToAddress addr = address_of sk ->
  exists s1 db1 s2, svc_ImportKey user pass (Some sk) s = (s1, Ok (address_of sk)) /\
    svc_vm s1 = svc_vm s /\ GetDatabase (svc_ks s1) user pass = inr db1 /\
    wallet db1 (if decide (address_of sk ∈ address_of <$> ks) then ks else ks ++ [sk]) /\
    ((address_of sk ∈ address_of <$> ks -> sk ∈ ks) ->
      svc_ExportKey user pass addr s1 = (s2, Ok (sk, hexutil_Encode (sk_Bytes sk)))).
Proof.
  intros Hdb Hw Hhex Haddr. destruct (putAddress_adds_key db ks sk Hw) as (db1 & Hput & Hw1 & _ & Hget).
  set (s1 := with_ks (ks_store (svc_ks s) user db1) s).
  assert (GetDatabase (svc_ks s1) user pass = inr db1) as Hdb1 by (by eapply GetDatabase_store).
  exists s1, db1, (with_ks (ks_store (svc_ks s1) user db1) s1). split; [|split; [done|split; [done|split; [done|]]]].
  - unfold svc_ImportKey. by rewrite (bind_run _ _ _ _ _ (on_user_run user pass _ s db db1 (Ok tt) Hdb Hput)).
  - intros Hin. unfold svc_ExportKey, user_key, ParseEthAddress. rewrite Hhex, Haddr. cbn [negb].
    assert (getKey (address_of sk) (Some db1) = (Some db1, Ok sk)) as Hk.
    { apply Hget. case_decide as Ha; [by apply Hin|]. apply elem_of_app. right. left. }
    unfold bind at 1. by rewrite (bind_run _ _ _ _ _ (on_user_run user pass _ s1 db1 db1 (Ok sk) Hdb1 Hk)).
Qed.

(** The id of a new action is made of twenty letters, wherever the generator of
    random numbers stands. *)
Lemma RandStringRunes_run n s :
  exists s' bs, RandStringRunes n s = (s', Ok bs) /\ length bs = n /\ forall b, b ∈ bs -> b ∈ letterBytes.
Proof.
  revert s. induction n as [|n IH]; intros s; cbn [RandStringRunes].
  { exists s, []. split_and!; [done|done|]. by intros b ?%elem_of_nil. }
  unfold gets, modify, bind at 1 2. cbn [fst snd].
  pose proof (rand_Intn_range (svc_rand s) (length letterBytes) ltac:(vm_compute; lia)) as Hlt.
  destruct (lookup_lt_is_Some_2 _ _ Hlt) as [b Hb]. rewrite Hb.
  destruct (IH (mkPublicService (svc_vm s) (svc_Cache s) (svc_linked s) (svc_ks s) (S (svc_rand s)))) as (s' & bs & Hrun & Hl & Hin).
  rewrite (bind_run _ _ _ _ _ Hrun). exists s', (b :: bs). split_and!; [done|by rewrite <- Hl|].
  intros x [->|Hx]%elem_of_cons; [by eapply list_elem_of_lookup_2|by apply Hin].
Qed.
End keys.

(** The input of a vote crashes the request for its fee. *)
Lemma svc_SuggestedFee_of_vote `{Database} `{Cacher Address UserMeta} `{Cacher ID block_loc} `{Cacher bytes bytes}
    `{!Keystore} `{Ethereum} `{GoRuntime} `{!EthMath} `{ChainCodecs} `{TxCodec} `{BlockCodec}
    (i : Input) (s s1 : PublicService) f la :
  in_Typ i = Vote -> on_vm SuggestedFee s = (s1, Ok f) -> last_block s1 = (s1, Ok la) ->
  (svc_SuggestedFee (Some i) s).2 = Panic NilDereference.
Proof.
  intros Ht Hf Hla. unfold svc_SuggestedFee.
  assert (Decode i = inr (mkDecoded (UVote (mkVoteTx zeroBaseTx (in_ActionID i))) false)) as Hd
    by (unfold Decode; rewrite Ht; reflexivity).
  rewrite Hd. unfold lift at 1. cbn [of_result]. rewrite (bind_run _ _ s s _ eq_refl), (bind_run _ _ _ _ _ Hf).
  unfold genesis, gets, bind at 1. cbn [dec_tx FeeUnits]. unfold lift_outcome at 1, bind at 1.
  by rewrite (bind_run _ _ _ _ _ Hla).
Qed.

(** A service node is not found by [GetStakerType]. *)
Lemma svc_GetStakerType_route_only `{Database} `{Cacher Address UserMeta} `{Cacher ID block_loc} `{Cacher bytes bytes}
    `{!Keystore} `{GoRuntime} (a : Address) (s s' : PublicService) t :
  svc_GetStakerType a s = (s', Ok t) -> t = RouteStake.
Proof.
  intros Hrun. unfold svc_GetStakerType in Hrun. apply bind_ok in Hrun as (? & [] & _ & Hrun).
  apply bind_ok in Hrun as (? & stakers & _ & Hrun). destruct (IsRoute stakers a); cbn in Hrun; [|done].
  unfold ret in Hrun. by simplify_eq.
Qed.
