(* ===== verification/ClientFacts.v ===== *)
(** * The client: what it believes, when it stops, what it sends *)

From S2P Require Import Prelude External GoStd TData Builder Instances Keys Storage Genesis.
From S2P Require Import Stakers Pows Rewards Actions Users Details SysParams SamaState.
From S2P Require Import Tx TypedTx Activity Keystore TypedTxFacts Block BlockFacts Mempool VM Service Client.
From S2P Require Import Lookback FeeMarket TxFacts VMFacts ServiceFacts.

Section client.
Context `{Ethereum} `{!Secp} `{!Requester} `{!EthMath} `{!GoRuntime}.
Implicit Types (w : Remote).

(** What a request leaves of the world, and what a request or a pause does. *)
Definition requested : relation Remote := fun w w' => exists R (q : Request R), w' = (SendRequest q w).1.
Definition elapsed : relation Remote := fun w w' => requested w w' \/ w' = (pause w).1.

Lemma send_ok {R} (q : Request R) w w' r : send q w = (w', Ok r) -> SendRequest q w = (w', inr r).
Proof. unfold send. destruct (SendRequest q w) as [w1 [e|a]]; cbn; by intros [= -> ->]. Qed.

(** C27: A node cannot pass off a value: whatever it replies, a value the client
    resolves has the hash that was asked for; any other is an error, and what
    comes with an absent value is dropped. *)
Theorem resolved_value_has_the_hash key w w' found v m :
  cli_Resolve key w = (w', Ok (found, v, m)) ->
  if found : bool then ValueHash v = key else v = [] /\ m = None.
Proof.
  unfold cli_Resolve. intros Hrun. apply bind_ok in Hrun as (w1 & resp & _ & Hrun).
  destruct (rr_Exists resp); cbn [negb] in Hrun; [|unfold ret in Hrun; by simplify_eq].
  case_bool_decide as Hh; [done|]. unfold ret in Hrun. by simplify_eq.
Qed.

(** Polling that returns has seen the node say that it has the transaction. *)
Lemma cli_PollTx_said `{!Deadline} fuel txID w w' b :
  cli_PollTx fuel txID w = (w', Ok b) ->
  b = true /\ exists w1, rtc elapsed w w1 /\ SendRequest (req_hasTx txID) w1 = (w', inr true).
Proof.
  revert w. induction fuel as [|fuel IH]; intros w Hrun; cbn [cli_PollTx] in Hrun;
    apply bind_ok in Hrun as (? & e & He & Hrun); apply gets_ok in He as [-> ->];
    destruct (ctx_Err w) as [e|]; try done.
  apply bind_ok in Hrun as (w1 & ticked & Ht & Hrun). pose proof (pause_done w) as Hdone.
  assert (elapsed w w1) as Hw1 by (right; by destruct (pause w); injection Ht as -> _).
  destruct (pause w) as [w0 b0]. injection Ht as -> ->. cbn [fst snd] in Hdone.
  destruct ticked; cbn [negb] in Hrun.
  - apply bind_ok in Hrun as (w2 & r & Hr & Hrun). unfold attempt, cli_HasTx, send in Hr.
    assert (elapsed w1 (SendRequest (req_hasTx txID) w1).1) as Hw2 by (left; by eexists _, _).
    assert (cli_PollTx fuel txID (SendRequest (req_hasTx txID) w1).1 = (w', Ok b) ->
        b = true /\ exists w3, rtc elapsed w w3 /\ SendRequest (req_hasTx txID) w3 = (w', inr true)) as Hagain.
    { intros (Hv & w3 & Hw3 & Hs)%IH. split; [done|]. exists w3. split; [|done].
      eapply rtc_l; [exact Hw1|]. eapply rtc_l; [exact Hw2|done]. }
    destruct (SendRequest (req_hasTx txID) w1) as [w3 [e|a]] eqn:Hs; cbn [of_result] in Hr; injection Hr as <- <-.
    + by apply Hagain.
    + destruct a; [|by apply Hagain]. unfold ret in Hrun. injection Hrun as <- <-. split; [done|]. exists w1.
      split; [by apply rtc_once|done].
  - apply bind_ok in Hrun as (? & e & He & Hrun). apply gets_ok in He as [-> ->].
    destruct (Hdone eq_refl) as [e He]. by rewrite He in Hrun.
Qed.

(** C28: Polling ends before the context does, with the truth or with the context's
    error: it says that a transaction is confirmed only when the last thing the
    node said was that it has it. *)
Theorem polling_ends_with_the_context `{!Deadline} fuel txID w :
  (remaining w < fuel)%nat ->
  exists w' r, cli_PollTx fuel txID w = (w', r) /\
    ((r = Ok true /\ exists w1, SendRequest (req_hasTx txID) w1 = (w', inr true)) \/
     (exists e, r = Err e /\ ctx_Err w' = Some e)).
Proof.
  revert w. induction fuel as [|fuel IH]; intros w Hlt; [lia|]. cbn [cli_PollTx]. unfold gets, bind at 1.
  destruct (ctx_Err w) as [e|] eqn:He; [exists w, (Err e); split; [done|]; right; by exists e|].
  pose proof (remaining_pause w He) as Hdec. pose proof (pause_done w) as Hdone. unfold bind at 1.
  destruct (pause w) as [w1 ticked]. cbn [fst snd] in *. destruct ticked; cbn [negb].
  - pose proof (remaining_SendRequest (req_hasTx txID) w1) as Hle. unfold attempt, cli_HasTx, send, bind.
    destruct (SendRequest (req_hasTx txID) w1) as [w2 [e|[]]] eqn:Hs; cbn [fst of_result] in *.
    + apply IH. specialize (Hdec eq_refl). lia.
    + exists w2, (Ok true). split; [done|]. left. split; [done|]. by exists w1.
    + apply IH. specialize (Hdec eq_refl). lia.
  - destruct (Hdone eq_refl) as [e He']. exists w1, (Err e). unfold bind. rewrite He'. split; [done|].
    right. by exists e.
Qed.
End client.

(** ** From the client to the pool of a node *)
Section sent.
Context `{DatabaseLaws} `{Cacher Address UserMeta} `{Cacher ID block_loc} `{Cacher bytes bytes} `{!Keystore}.
Context `{EthereumLaws} `{!EthMath} `{GoRuntime} `{ChainCodecs} `{TxCodecLaws} `{BlockCodec}.
Context `{!Secp} `{!SecpLaws} `{!Codec (list Address)} `{SnowContext} `{Randomness}.
Context (round : PublicService -> PublicService).
#[local] Existing Instance served_by.
Implicit Types (s : PublicService) (u : UnsignedTransaction).

Lemma serve_ok {R} (q : Request R) s n w' r :
  @send _ _ (served_by round) R q (s, n) = (w', Ok r) ->
  exists s', handler q s = (s', Ok r) /\ w' = (s', n).
Proof.
  unfold send, SendRequest, served_by, serve. cbn [fst snd].
  destruct (handler q s) as [s' [a|e|p]]; cbn; [|done|done]. intros [= <- ->]. by exists s'.
Qed.

(** What is sent, whatever is done afterwards. *)
Lemma raw_sent fuel u sk opts s n w' id cost :
  @SignIssueRawTx _ _ (served_by round) _ _ _ fuel (mkDecoded u true) sk opts (s, n) = (w', Ok (id, cost)) ->
  exists tx v p c la fu s1, let g := vm_genesis (svc_vm s) in
    SuggestedFee (svc_vm s) = (v, Ok (p, c)) /\ (last_block s).2 = Ok la /\
    FeeUnits u g = Ok fu /\
    tx_Unsigned tx = set_base (mkBaseTx (sb_id la) (Genesis_Magic g)
      (if fu =? 0 then base_Price (base u) else p +u c / fu)) u /\
    tx_id tx = id /\ tx_sender tx = address_of sk /\ cost = GetPrice (tx_Unsigned tx) *u fu /\
    Submit [tx] v = (svc_vm s1, Ok []) /\ s1 = over (svc_vm s1) s /\
    @handleConfirmation _ _ (served_by round) fuel (applyOpts opts (mkOp false false)) id sk (s1, n) = (w', Ok tt).
Proof.
  intros Hrun. unfold SignIssueRawTx in Hrun.
  apply bind_ok in Hrun as (w1 & g & Hg & Hrun). apply serve_ok in Hg as (s1 & Hg & ->).
  cbn [handler] in Hg. apply bind_ok in Hg as (? & g' & Hg & Hret). apply gets_ok in Hg as [-> ->].
  unfold ret in Hret. injection Hret as <- <-.
  apply bind_ok in Hrun as (w1 & la & Hla & Hrun). apply bind_ok in Hla as (? & r & Hla & Hret).
  unfold ret in Hret. injection Hret as <- <-. apply serve_ok in Hla as (s1 & Hla & ->). cbn [handler] in Hla.
  apply bind_ok in Hla as (? & la & Hla & Hret). unfold ret in Hret. injection Hret as <- <-.
  pose proof (last_block_ok _ _ _ Hla) as ->. cbn [snd] in Hrun.
  apply bind_ok in Hrun as (w1 & [p c] & Hf & Hrun). apply serve_ok in Hf as (s1 & Hf & ->). cbn [handler] in Hf.
  apply on_vm_ok in Hf as (v & Hf & ->). cbn [fst snd] in Hrun.
  apply bind_ok in Hrun as (? & d1 & Hd1 & Hrun). apply lift_outcome_ok in Hd1 as [-> Hd1].
  apply bind_ok in Hrun as (? & g & Hg & Hrun). unfold deref, ret in Hg. injection Hg as <- <-.
  apply bind_ok in Hrun as (? & d2 & Hd2 & Hrun). apply lift_outcome_ok in Hd2 as [-> Hd2].
  cbn in Hd1. injection Hd1 as <-. cbn in Hd2. injection Hd2 as <-. cbn [dec_tx] in Hrun.
  rewrite base_set_base, set_base_twice in Hrun. cbn [base_BlockID base_Magic base_Price] in Hrun.
  apply bind_ok in Hrun as (? & fu & Hfu & Hrun). apply lift_outcome_ok in Hfu as [-> Hfu].
  apply bind_ok in Hrun as (? & d & Hd & Hrun). apply lift_outcome_ok in Hd as [-> Hd].
  apply bind_ok in Hrun as (? & dh & Hdh & Hrun). apply lift_outcome_ok in Hdh as [-> Hdh].
  apply bind_ok in Hrun as (? & sig & Hsig & Hrun). apply lift_ok in Hsig as [-> Hsig].
  apply bind_ok in Hrun as (? & tx & Htx & Hrun). apply lift_outcome_ok in Htx as [-> Htx].
  apply bind_ok in Hrun as (? & z & Hz & Hrun). apply lift_outcome_ok in Hz as [-> _].
  apply bind_ok in Hrun as (w1 & txID & Hi & Hrun). apply serve_ok in Hi as (s1 & Hi & ->). cbn [handler] in Hi.
  apply bind_ok in Hrun as (w1 & [] & Hc & Hrun). unfold ret in Hrun. injection Hrun as <- <- <-.
  destruct (signed_sender _ _ _ _ _ _ Hdh Hsig Htx) as [Hu Hsender].
  destruct (svc_IssueRawTx_bytes _ _ _ _ _ _ _ Htx Hi) as (-> & Hs & Hs1). rewrite FeeUnits_set_base in Hfu.
  exists tx, v, p, c, la, fu, s1. rewrite Hla, Hu. split_and!; try done.
  unfold suggest_price in Hd. destruct (fu =? 0); cbn in Hd; injection Hd as <-; cbn [dec_tx]; [done|].
  by rewrite base_set_base, set_base_twice.
Qed.

(** C19: What the client signs is what the node takes: the bytes it sends are decoded
    into the very transaction it has signed, with the same id and the address of
    its key as the sender, and that is submitted.  The client offers the
    suggested price plus its share of the cost of a block, and reports exactly
    what the transaction pays. *)
Theorem raw_transaction_reaches_the_node fuel u sk s n w' id cost :
  @SignIssueRawTx _ _ (served_by round) _ _ _ fuel (mkDecoded u true) sk [] (s, n) = (w', Ok (id, cost)) ->
  exists tx v p c la fu, let g := vm_genesis (svc_vm s) in
    SuggestedFee (svc_vm s) = (v, Ok (p, c)) /\ (last_block s).2 = Ok la /\
    FeeUnits u g = Ok fu /\
    tx_Unsigned tx = set_base (mkBaseTx (sb_id la) (Genesis_Magic g)
      (if fu =? 0 then base_Price (base u) else p +u c / fu)) u /\
    tx_id tx = id /\ tx_sender tx = address_of sk /\ cost = GetPrice (tx_Unsigned tx) *u fu /\
    Submit [tx] v = (svc_vm w'.1, Ok []) /\ w'.2 = n.
Proof.
  intros Hrun. destruct (raw_sent _ _ _ _ _ _ _ _ _ Hrun) as
    (tx & v & p & c & la & fu & s1 & Hf & Hla & Hfu & Hu & Hid & Hs & Hcost & Hsub & _ & Hc).
  exists tx, v, p, c, la, fu. unfold handleConfirmation, ret, bind in Hc. cbn [applyOpts foldl op_pollTx op_balance] in Hc.
  injection Hc as <-. by split_and!.
Qed.
End sent.
