(* ===== verification/TreeFacts.v ===== *)
(** * Files in chunks: what is uploaded can be downloaded *)

From S2P Require Import Prelude External GoStd TData Keys Storage Genesis Tx TypedTx Keystore Service Client Tree.

(** ** The interfaces

    What package os says of a file: a read puts the next bytes of it, perhaps
    fewer than there is room for, at the front of the buffer, and none at the end
    of the file; a write that has no error has written everything. *)
Class FileReader `{Reader} := {
  unread : Rd -> bytes;
  Read_some r buf : exists k rest err r',
    Read r buf = (r', (take k (unread r) ++ rest, k, err)) /\ (k <= length (unread r))%nat /\
    (k + length rest = length buf)%nat /\ unread r' = drop k (unread r) /\
    (forall e, err = Some e -> errors_is e EOF = true -> k = 0%nat)
}.
Class FileWriter `{Writer} := {
  written : Wr -> bytes;
  Write_ok o b o' : Write o b = (o', inr tt) -> written o' = written o ++ b
}.
(** No read is short before the end. *)
Definition reads_fully `{FileReader} : Prop := forall r buf, (Read r buf).2.1.2 = (length buf `min` length (unread r))%nat.

(** A reader that fills the buffer as long as it can, and a writer that takes
    what it is given. *)
Class FullReader `{FileReader} : Prop := {
  Read_full r buf : buf <> [] ->
    let n := length buf in let f := unread r in
    exists r', Read r buf = (r', (take n f ++ drop (length f) buf, length (take n f),
        if bool_decide (f = []) then Some EOF else None)) /\
      unread r' = drop n f
}.
Class FullWriter `{FileWriter} : Prop := {
  Write_full o b : exists o', Write o b = (o', inr tt)
}.
(** What a client promises about values: one is found under its hash when it has
    been stored, and one that is acceptable and not there yet can be stored. *)
Class ValueStore `{Ethereum} `{!Secp} `{!Requester} `{!EthMath} `{!GoRuntime} `{!TxCodec}
    (pf : nat) (priv : PrivateKey) := {
  value_at : Remote -> Hash -> option bytes;
  acceptable : bytes -> Prop;
  value_at_hash w k v : value_at w k = Some v -> ValueHash v = k;
  resolve_spec w k : exists w', (forall k', value_at w' k' = value_at w k') /\
    match value_at w k with
    | Some v => exists m, cli_Resolve k w = (w', Ok (true, v, m))
    | None => cli_Resolve k w = (w', Ok (false, [], None))
    end;
  store_spec w v : acceptable v -> value_at w (ValueHash v) = None ->
    exists w' r, store pf priv v w = (w', Ok r) /\
      forall k, value_at w' k = if decide (k = ValueHash v) then Some v else value_at w k
}.

(** ** Chunks *)

Fixpoint chunks (fuel n : nat) (f : bytes) : list bytes :=
  match fuel, f with
  | O, _ | _, [] => []
  | S fuel', _ => take n f :: chunks fuel' n (drop n f)
  end.
Lemma chunks_nil fuel n : chunks fuel n [] = [].
Proof. by destruct fuel. Qed.
Lemma concat_chunks fuel n f : (0 < n)%nat -> (length f <= fuel)%nat -> concat (chunks fuel n f) = f.
Proof.
  intros Hn. revert f. induction fuel as [|fuel IH]; intros f Hf; [by destruct f; [|cbn in Hf; lia]|].
  destruct f as [|x f]; [done|]. cbn [chunks concat]. rewrite IH; [apply take_drop|].
  rewrite length_drop. cbn [length] in *. lia.
Qed.

Lemma chunks_step fuel n f : f <> [] -> chunks (S fuel) n f = take n f :: chunks fuel n (drop n f).
Proof. by destruct f. Qed.
Lemma take_some {A} k (f : list A) : (0 < k <= length f)%nat -> take k f <> [].
Proof. intros Hk Hnil%(f_equal length). rewrite length_take, length_nil in Hnil. lia. Qed.
Lemma chunks_fuel a b n f : (0 < n)%nat -> (length f <= a)%nat -> (length f <= b)%nat -> chunks a n f = chunks b n f.
Proof.
  intros Hn. revert b f. induction a as [|a IH]; intros b f Ha Hb; [by destruct f; [rewrite !chunks_nil|cbn in Ha; lia]|].
  destruct f as [|x f]; [by rewrite !chunks_nil|]. destruct b as [|b]; [cbn in Hb; lia|]. cbn [chunks]. f_equal.
  apply IH; rewrite length_drop; cbn [length] in *; lia.
Qed.

Section tree.
Context `{Ethereum} `{!Secp} `{!Requester} `{!EthMath} `{!GoRuntime} `{!TxCodec}.
Context `{FullReader} `{FullWriter} `{RootJSONLaws}.
Context (pf : nat) (priv : PrivateKey) `{!ValueStore pf priv}.
Implicit Types (w : Remote) (c f : bytes) (cs all : list bytes).

(** The pieces can be stored: they are acceptable, and no other value has the
    hash of one. *)
Record storable w all : Prop := {
  sb_acceptable c : c ∈ all -> acceptable c;
  sb_there c v : c ∈ all -> value_at w (ValueHash c) = Some v -> v = c;
  sb_distinct c c' : c ∈ all -> c' ∈ all -> ValueHash c = ValueHash c' -> c = c'
}.
Definition known w c : Prop := value_at w (ValueHash c) = Some c.
(** Nothing is lost, and only pieces of [cs] are new. *)
Definition grows cs w w' : Prop := forall k, value_at w' k = value_at w k \/
  value_at w k = None /\ exists c, c ∈ cs /\ k = ValueHash c /\ value_at w' k = Some c.

Lemma grows_same cs w w' : (forall k, value_at w' k = value_at w k) -> grows cs w w'.
Proof. intros Hs k. by left. Qed.
Lemma grows_trans cs1 cs2 w1 w2 w3 : grows cs1 w1 w2 -> grows cs2 w2 w3 -> grows (cs1 ++ cs2) w1 w3.
Proof.
  intros Hab Hbc k. destruct (Hab k) as [E12|(N1 & c & Hc & E & E2)], (Hbc k) as [E23|(N2 & c' & Hc' & E' & E3)].
  - left. congruence.
  - right. split; [congruence|]. exists c'. split_and!; [set_solver|done|done].
  - right. split; [done|]. exists c. split_and!; [set_solver|done|congruence].
  - congruence.
Qed.
Lemma grows_known cs w w' c : grows cs w w' -> known w c -> known w' c.
Proof. intros Hg Hk. unfold known in *. destruct (Hg (ValueHash c)) as [E|[E _]]; congruence. Qed.
Lemma grows_storable cs all w w' : grows cs w w' -> cs ⊆ all -> storable w all -> storable w' all.
Proof.
  intros Hg Hcs [Ha Ht Hd]. split; [done| |done]. intros c v Hc Hv.
  destruct (Hg (ValueHash c)) as [E|(_ & c' & Hc' & E & E')]; [apply Ht; [done|congruence]|].
  assert (v = c') as -> by congruence. symmetry. apply Hd; [done|set_solver|done].
Qed.

Lemma upload_chunk_run c uploaded w all :
  c ∈ all -> storable w all -> (forall k, k ∈ uploaded -> is_Some (value_at w k)) ->
  exists w' uploaded', upload_chunk pf priv c uploaded w = (w', Ok uploaded') /\
    grows [c] w w' /\ known w' c /\ (forall k, k ∈ uploaded' -> is_Some (value_at w' k)).
Proof.
  intros Hc Hst Hup. unfold upload_chunk.
  assert (forall v, value_at w (ValueHash c) = Some v -> v = c) as Hthere by (intros v; by apply (sb_there _ _ Hst)).
  case_decide as Hin.
  { exists w, uploaded. split; [done|]. split; [by apply grows_same|]. split; [|done].
    destruct (Hup _ Hin) as [v Hv]. unfold known. rewrite Hv. f_equal. by apply Hthere. }
  destruct (resolve_spec w (ValueHash c)) as (w1 & Hsame & Hrun).
  destruct (value_at w (ValueHash c)) as [v|] eqn:Hv.
  - destruct Hrun as [m Hrun]. unfold attempt, bind. rewrite Hrun. eexists _, _. split; [done|].
    split; [by apply grows_same|]. unfold known. rewrite Hsame, Hv, (Hthere v eq_refl). split; [done|].
    intros k [->%elem_of_singleton|Hk]%elem_of_union; rewrite Hsame; [by rewrite Hv|by apply Hup].
  - unfold attempt, bind. rewrite Hrun.
    destruct (store_spec w1 c (sb_acceptable _ _ Hst _ Hc)) as (w2 & r & Hs & Hat); [by rewrite Hsame|].
    rewrite Hs. eexists _, _. split; [done|]. split_and!.
    + intros k. rewrite Hat. case_decide as Hk; [|left; apply Hsame]. subst k. right. split; [done|].
      exists c. split_and!; [left|done|done].
    + unfold known. by rewrite Hat, decide_True.
    + intros k [->%elem_of_singleton|Hk]%elem_of_union; rewrite Hat; case_decide; [done..|].
      rewrite Hsame. by apply Hup.
Qed.

Lemma upload_loop_run fuel n hashes buf uploaded w r all :
  (0 < n)%nat -> length buf = n -> (length (unread r) < fuel)%nat ->
  chunks fuel n (unread r) ⊆ all -> storable w all -> (forall k, k ∈ uploaded -> is_Some (value_at w k)) ->
  hashes <> [] \/ (n <= length (unread r))%nat ->
  exists w' r' buf', upload_loop fuel pf priv n hashes buf uploaded (w, r) =
      ((w', r'), Ok (hashes ++ (ValueHash <$> chunks fuel n (unread r)), buf')) /\
    grows (chunks fuel n (unread r)) w w' /\ forall c, c ∈ chunks fuel n (unread r) -> known w' c.
Proof.
  intros Hn. revert hashes buf uploaded w r. induction fuel as [|fuel IH]; intros hashes buf uploaded w r Hb Hf Hall Hst Hup Hor; [lia|].
  cbn [upload_loop]. destruct (Read_full r buf) as (r1 & Hread & Hr1); [by destruct buf; [cbn in *; lia|]|].
  unfold zoom at 1, bind at 1. cbn [view lens_snd snd]. rewrite Hread, Hb. cbn [over lens_snd fst]. rewrite Hb in Hr1.
  destruct (decide (unread r = [])) as [Hnil|Hne].
  { rewrite bool_decide_eq_true_2 by done. cbn [errors_is]. rewrite bool_decide_eq_true_2 by done. cbn [orb].
    exists w, r1. eexists. rewrite Hnil, chunks_nil. cbn. rewrite app_nil_r. split; [done|].
    split; [by apply grows_same|]. by intros c ?%elem_of_nil. }
  rewrite bool_decide_eq_false_2 by done. cbn [orb].
  assert (chunks (S fuel) n (unread r) = take n (unread r) :: chunks fuel n (drop n (unread r))) as Hcs
    by (cbn [chunks]; by destruct (unread r)).
  rewrite Hcs in *. assert (0 < length (unread r))%nat as Hpos by (by destruct (unread r); [|cbn; lia]).
  rewrite (proj2 (Nat.eqb_neq _ 0)) by (rewrite length_take; lia).
  destruct (upload_chunk_run (take n (unread r)) uploaded w all ltac:(set_solver) Hst Hup)
    as (w1 & uploaded1 & Hrun & Hg1 & Hk1 & Hup1).
  rewrite length_take. destruct (Nat.ltb_spec (n `min` length (unread r)) n) as [Hlt|Hge].
  - (* the last, short chunk *)
    assert (take (n `min` length (unread r)) (take n (unread r) ++ drop (length (unread r)) buf) = take n (unread r)) as ->.
    { rewrite Nat.min_r by lia. by rewrite (take_ge (unread r) n), take_app_length by lia. }
    rewrite bool_decide_eq_false_2 by (by intros ->; destruct Hor; [|lia]). cbn [andb].
    unfold zoom, bind at 1. cbn [view lens_fst fst]. rewrite Hrun. cbn [over lens_fst snd].
    rewrite (drop_ge (unread r) n), chunks_nil by lia.
    exists w1, r1. eexists. split; [done|]. split; [done|]. by intros c ->%list_elem_of_singleton.
  - rewrite (drop_ge buf) by lia. rewrite app_nil_r. cbn [andb].
    unfold zoom at 1, bind at 1. cbn [view lens_fst fst]. rewrite Hrun. cbn [over lens_fst snd].
    destruct (IH (hashes ++ [ValueHash (take n (unread r))]) (take n (unread r)) uploaded1 w1 r1)
      as (w' & r' & buf' & Hloop & Hg & Hk); rewrite ?Hr1.
    + rewrite length_take. lia.
    + rewrite length_drop. lia.
    + set_solver.
    + eapply grows_storable; [exact Hg1| |exact Hst]. set_solver.
    + done.
    + left. by destruct hashes.
    + rewrite Hr1 in *. exists w', r', buf'. rewrite <- app_assoc in Hloop. split; [exact Hloop|].
      split; [exact (grows_trans _ _ _ _ _ Hg1 Hg)|].
      intros c [->|Hc]%elem_of_cons; [by eapply grows_known|by apply Hk].
Qed.

Lemma resolve_part_run c w (o : Wr) :
  known w c -> exists w', (forall k, value_at w' k = value_at w k) /\
    resolve_part (ValueHash c) (w, o) = ((w', o), Ok c).
Proof.
  intros Hk. destruct (resolve_spec w (ValueHash c)) as (w' & Hsame & Hrun). rewrite Hk in Hrun.
  destruct Hrun as [m Hrun]. exists w'. split; [done|]. unfold resolve_part, zoom, bind at 1. cbn [view lens_fst fst].
  by rewrite Hrun.
Qed.
Lemma write_run b w (o : Wr) : exists o', write b (w, o) = ((w, o'), Ok tt) /\ written o' = written o ++ b.
Proof.
  destruct (Write_full o b) as (o' & Hw). exists o'. split; [|by apply Write_ok]. unfold write, zoom. cbn. by rewrite Hw.
Qed.
Lemma download_children cs w (o : Wr) :
  (forall c, c ∈ cs -> known w c) ->
  exists w' o', for_each (fun h => let! b := resolve_part h in write b) (ValueHash <$> cs) (w, o) = ((w', o'), Ok tt) /\
    written o' = written o ++ concat cs.
Proof.
  revert w o. induction cs as [|c cs IH]; intros w o Hk; cbn [fmap list_fmap for_each concat].
  { exists w, o. by rewrite app_nil_r. }
  destruct (resolve_part_run c w o) as (w1 & Hsame & Hrun); [apply Hk; left|].
  destruct (write_run c w1 o) as (o1 & Hw & Ho1).
  destruct (IH w1 o1) as (w' & o' & Hrest & Ho').
  { intros c' Hc'. unfold known. rewrite Hsame. apply Hk. by right. }
  exists w', o'. unfold bind at 1. rewrite (bind_run _ _ _ _ _ Hrun), Hw. split; [done|].
  by rewrite Ho', Ho1, <- app_assoc.
Qed.

(** ** A file *)

(** The chunks that are stored apart, what is downloaded, and the root. *)
Definition pieces (n : nat) f : list bytes :=
  if (length f <? n)%nat then [] else chunks (S (length f)) n f.
Definition comes_back (n : nat) f : bytes := if decide (f = []) then replicate n x00 else f.
Definition root_of (n : nat) f : Root :=
  if (length f <? n)%nat then mkRoot (comes_back n f) [] else mkRoot [] (ValueHash <$> pieces n f).

Lemma pieces_nil n f : (0 < n)%nat -> pieces n f = [] <-> (length f < n)%nat.
Proof.
  intros Hn. unfold pieces. destruct (Nat.ltb_spec (length f) n) as [Hlt|Hge]; [done|].
  destruct f as [|x f]; [cbn in *; lia|]. cbn [chunks]. split; [done|lia].
Qed.

Lemma comes_back_some n f : (0 < n)%nat -> comes_back n f <> [].
Proof. intros Hn. unfold comes_back. case_decide; [|done]. by destruct n; [lia|]. Qed.
Lemma concat_pieces n f : (0 < n)%nat -> (n <= length f)%nat -> concat (pieces n f) = comes_back n f.
Proof.
  intros Hn Hle. unfold pieces, comes_back. rewrite (proj2 (Nat.ltb_ge _ _)) by done.
  rewrite decide_False by (intros ->; cbn in *; lia). apply concat_chunks; lia.
Qed.

Lemma pieces_some n f : (0 < n)%nat -> (n <= length f)%nat -> ValueHash <$> pieces n f <> [].
Proof. intros Hn Hle Hp%fmap_nil_inv%pieces_nil; [lia|done]. Qed.

Lemma first_pass n w r :
  (0 < n)%nat -> storable w (pieces n (unread r)) ->
  exists w' r' buf, upload_loop (S (length (unread r))) pf priv n [] (replicate n x00) ∅ (w, r) =
      ((w', r'), Ok (ValueHash <$> pieces n (unread r), buf)) /\
    grows (pieces n (unread r)) w w' /\ (forall c, c ∈ pieces n (unread r) -> known w' c) /\
    (length (unread r) < n -> buf = comes_back n (unread r))%nat.
Proof.
  intros Hn Hst. unfold pieces in *. destruct (Nat.ltb_spec (length (unread r)) n) as [Hlt|Hge].
  - cbn [upload_loop].
    destruct (Read_full r (replicate n x00)) as (r' & Hread & _); [by destruct n; [lia|]|].
    unfold zoom at 1, bind at 1. cbn [view lens_snd snd]. rewrite Hread, length_replicate. cbn [over lens_snd fst].
    rewrite length_take, Nat.min_r by lia. unfold comes_back.
    exists w, r'. destruct (decide (unread r = [])) as [Hnil|Hne].
    + rewrite bool_decide_eq_true_2 by done. cbn [errors_is]. rewrite bool_decide_eq_true_2 by done. cbn [orb].
      eexists. split; [done|]. split; [by apply grows_same|]. split; [by intros c ?%elem_of_nil|].
      rewrite Hnil, take_nil. done.
    + rewrite bool_decide_eq_false_2 by done. cbn [orb].
      rewrite (proj2 (Nat.eqb_neq _ 0)) by (by destruct (unread r)).
      rewrite (proj2 (Nat.ltb_lt _ _) Hlt), bool_decide_eq_true_2 by done. cbn [andb].
      eexists. split; [done|]. split; [by apply grows_same|]. split; [by intros c ?%elem_of_nil|].
      intros _. by rewrite (take_ge (unread r) n), take_app_length by lia.
  - destruct (upload_loop_run (S (length (unread r))) n [] (replicate n x00) ∅ w r (chunks (S (length (unread r))) n (unread r)))
      as (w' & r' & buf & Hrun & Hg & Hk); [done|apply length_replicate|lia|done|done|by intros k Hk%elem_of_empty|by right|].
    exists w', r', buf. split; [exact Hrun|]. split; [done|]. split; [done|lia].
Qed.

Lemma download_run n f rb w (o : Wr) :
  (0 < n)%nat -> Marshal (root_of n f) = inr rb -> known w rb -> (forall c, c ∈ pieces n f -> known w c) ->
  exists w' o', Download (ValueHash rb) (w, o) = ((w', o'), Ok tt) /\ written o' = written o ++ comes_back n f.
Proof.
  intros Hn Hm Hroot Hk. destruct (resolve_part_run rb w o Hroot) as (w2 & Hsame & Hres).
  unfold Download. rewrite (bind_run _ _ _ _ _ Hres), (Unmarshal_Marshal _ _ Hm). unfold lift, of_result, bind at 1.
  unfold root_of. destruct (Nat.ltb_spec (length f) n) as [Hlt|Hge]; cbn [Contents Children].
  - rewrite bool_decide_eq_false_2 by (by apply comes_back_some). cbn [negb]. exists w2. apply write_run.
  - rewrite bool_decide_eq_true_2 by done. cbn [negb].
    rewrite bool_decide_eq_false_2 by (by apply pieces_some).
    destruct (download_children (pieces n f) w2 o) as (w'' & o' & Hrun & Ho').
    { intros c Hc. unfold known. rewrite Hsame. by apply Hk. }
    exists w'', o'. split; [exact Hrun|]. by rewrite Ho', concat_pieces.
Qed.

(** The root that [Upload] makes of what the loop leaves. *)
Lemma upload_root {S} n f buf (s : S) :
  (0 < n)%nat -> (length f < n -> buf = comes_back n f)%nat ->
  let hashes := ValueHash <$> pieces n f in
  (if bool_decide (hashes = []) then (if bool_decide (buf = []) then fail ErrEmpty else ret (mkRoot buf []))
   else ret (mkRoot [] hashes)) s = (s, Ok (root_of n f)).
Proof.
  intros Hn Hbuf hashes. unfold root_of. destruct (Nat.ltb_spec (length f) n) as [Hlt|Hge]; subst hashes.
  - rewrite bool_decide_eq_true_2 by (by rewrite (proj2 (pieces_nil n f Hn) Hlt)).
    by rewrite (Hbuf Hlt), bool_decide_eq_false_2 by (by apply comes_back_some).
  - by rewrite bool_decide_eq_false_2 by (by apply pieces_some).
Qed.

(** A reader that returns fewer bytes than asked for, as it may, ends the file. *)
Lemma short_read_ends_upload fuel n w r r1 buf k :
  (0 < k < n)%nat -> Read r (replicate n x00) = (r1, (buf, k, None)) ->
  upload_loop (S fuel) pf priv n [] (replicate n x00) ∅ (w, r) = ((w, r1), Ok ([], take k buf)).
Proof.
  intros Hk Hread. cbn [upload_loop]. unfold zoom at 1, bind at 1. cbn [view lens_snd snd]. rewrite Hread.
  cbn [over lens_snd fst orb]. rewrite (proj2 (Nat.eqb_neq _ _)), (proj2 (Nat.ltb_lt _ _)) by lia. done.
Qed.

(** A file that is uploaded to a store of values can be downloaded from it, byte
    for byte: cut into chunks of which each is stored once, or kept in the root
    when it is small; both loops end.  The exception is the empty file, which
    comes back as one chunk of zeros.  Asked of the store is that the pieces are
    acceptable and that hashes tell them apart, and that the root is not there
    yet. *)
Theorem uploaded_file_comes_back n w r (o : Wr) rb :
  (0 < n)%nat -> let f := unread r in
  Marshal (root_of n f) = inr rb -> storable w (rb :: pieces n f) ->
  value_at w (ValueHash rb) = None -> rb ∉ pieces n f ->
  exists w' r' w'' o',
    Upload (S (length f)) pf priv (Z.of_nat n) (w, r) = ((w', r'), Ok (ValueHash rb)) /\
    Download (ValueHash rb) (w', o) = ((w'', o'), Ok tt) /\
    written o' = written o ++ comes_back n f.
Proof.
  intros Hn f Hm Hst Hnone Hnot. subst f.
  assert (storable w (pieces n (unread r))) as Hst'.
  { destruct Hst as [Ha Ht Hd]. split; intros; [apply Ha|eapply Ht|apply Hd]; try done; by right. }
  destruct (first_pass n w r Hn Hst') as (w1 & r' & buf & Hloop & Hg & Hk & Hbuf).
  assert (value_at w1 (ValueHash rb) = None) as Hnone1.
  { destruct (Hg (ValueHash rb)) as [E|(_ & c & Hc & E & _)]; [congruence|]. destruct Hnot.
    rewrite (sb_distinct _ _ Hst rb c); [done|by left|by right|done]. }
  destruct (store_spec w1 rb (sb_acceptable _ _ Hst rb ltac:(by left)) Hnone1) as (w' & x & Hs & Hat).
  destruct (download_run n (unread r) rb w' o Hn Hm) as (w'' & o' & Hdown & Ho').
  { unfold known. by rewrite Hat, decide_True. }
  { intros c Hc. unfold known. rewrite Hat. case_decide as E; [|by apply Hk]. f_equal.
    symmetry. apply (sb_distinct _ _ Hst); [by right|by left|done]. }
  exists w', r', w'', o'. split; [|done]. unfold Upload. rewrite (proj2 (Z.ltb_ge _ 0)), Nat2Z.id by lia.
  rewrite (bind_run _ _ _ _ _ Hloop), (bind_run _ _ _ _ _ (upload_root n (unread r) buf (w1, r') Hn Hbuf)), Hm.
  unfold lift, zoom, bind. cbn [of_result view lens_fst fst]. by rewrite Hs.
Qed.
End tree.

(** ** Integrity

    What is asked of a node here is nothing at all. *)
Section integrity.
Context `{Ethereum} `{!Secp} `{!Requester} `{!EthMath} `{!GoRuntime} `{!TxCodec}.
Context `{FileReader} `{FileWriter} `{RootJSONLaws}.
Implicit Types (w : Remote) (b f c : bytes).

(** The chunks that are stored apart when [k] bytes have been read, and the root. *)
Definition parts (n k : nat) b : list bytes := if (k <? n)%nat then [] else chunks (S k) n b.
Definition root_with (n k : nat) b : Root :=
  if (k <? n)%nat then mkRoot b [] else mkRoot [] (ValueHash <$> parts n k b).

(** The values that a download is given. *)
Fixpoint resolve_all (hs : list Hash) : M Remote (list bytes) :=
  match hs with
  | [] => ret []
  | h :: hs' =>
      let! x := cli_Resolve h in
      let! vs := resolve_all hs' in
      ret (x.1.2 :: vs)
  end.
Definition replies (root : Hash) : M Remote (list bytes) :=
  let! x := cli_Resolve root in
  match Unmarshal x.1.2 with
  | inl _ => ret [x.1.2]
  | inr r =>
      let! vs := resolve_all (if bool_decide (Contents r = []) then Children r else []) in
      ret (x.1.2 :: vs)
  end.
(** None of the values [vs] is another one with the hash of one of [cs]. *)
Definition tells_apart (cs vs : list bytes) : Prop :=
  Forall (fun c => Forall (fun v => ValueHash v = ValueHash c -> v = c) vs) cs.

Lemma tells_apart_elem cs vs c v :
  tells_apart cs vs -> c ∈ cs -> v ∈ vs -> ValueHash v = ValueHash c -> v = c.
Proof.
  intros Ht Hc Hv. unfold tells_apart in Ht. rewrite Forall_forall in Ht. specialize (Ht c Hc).
  rewrite Forall_forall in Ht. by apply Ht.
Qed.

(** What the loop of [Upload] has read, whatever the node says. *)
Lemma upload_loop_reads fuel pf priv n hashes buf uploaded w r w' r' hashes' buf' :
  (0 < n)%nat -> length buf = n ->
  upload_loop fuel pf priv n hashes buf uploaded (w, r) = ((w', r'), Ok (hashes', buf')) ->
  exists k, (k <= length (unread r))%nat /\ (reads_fully -> k = length (unread r)) /\
    if bool_decide (hashes = []) && (k <? n)%nat
    then hashes' = [] /\ (if decide (k = 0)%nat then length buf' = n else buf' = take k (unread r))
    else hashes' = hashes ++ (ValueHash <$> chunks k n (take k (unread r))).
Proof.
  intros Hn. revert hashes buf uploaded w r. induction fuel as [|fuel IH]; intros hashes buf uploaded w r Hb Hrun; [done|].
  cbn [upload_loop] in Hrun. apply bind_ok in Hrun as ([w1 r1] & [[c k] err] & Hread & Hrun).
  unfold zoom in Hread. cbn [view lens_snd snd] in Hread.
  destruct (Read_some r buf) as (k0 & rest & err0 & r0 & Heq & Hk & Hlen & Hun & Heof).
  assert (reads_fully -> k0 = (length buf `min` length (unread r))%nat) as Hfull
    by (intros Hf; specialize (Hf r buf); by rewrite Heq in Hf).
  rewrite Heq in Hread. cbn [over lens_snd fst] in Hread. injection Hread as <- <- <- <- <-.
  destruct (_ || _)%bool eqn:Hend.
  - (* the end of the file *)
    unfold ret in Hrun. injection Hrun as <- <- <- <-.
    assert (k0 = 0)%nat as ->.
    { apply orb_true_iff in Hend as [He|He%Nat.eqb_eq]; [|done]. destruct err0 as [e|]; [|done]. by eapply Heof. }
    exists 0%nat. split; [lia|]. split; [intros Hf; specialize (Hfull Hf); lia|].
    rewrite (proj2 (Nat.ltb_lt 0 n) Hn), andb_true_r. case_bool_decide as Hh; cbn; [|by rewrite app_nil_r].
    subst hashes. split; [done|]. rewrite decide_True, length_app, length_take by done. lia.
  - apply orb_false_iff in Hend as [_ Hz%Nat.eqb_neq]. destruct err0 as [e|]; [done|]. cbv zeta in Hrun.
    destruct (Nat.ltb_spec k0 n) as [Hlt|Hge]; cbn [andb] in Hrun.
    + (* a short read *)
      rewrite take_app_length' in Hrun by (rewrite length_take; lia).
      exists k0. split; [done|]. split; [intros Hf; specialize (Hfull Hf); lia|].
      rewrite (proj2 (Nat.ltb_lt k0 n) Hlt), andb_true_r. case_bool_decide as Hh.
      * unfold ret in Hrun. injection Hrun as <- <- <- <-. split; [done|]. by rewrite decide_False.
      * apply bind_ok in Hrun as ([w2 r2] & up & _ & Hrun). unfold ret in Hrun. injection Hrun as <- <- <- <-.
        f_equal. destruct k0 as [|k0]; [done|]. rewrite chunks_step by (apply take_some; lia).
        by rewrite (take_ge (take _ _)), drop_ge, chunks_nil by (rewrite length_take; lia).
    + (* a full one *)
      assert (k0 = n /\ rest = []) as [-> ->] by (split; [lia|]; apply nil_length_inv; lia).
      rewrite app_nil_r in Hrun. apply bind_ok in Hrun as ([w2 r2] & up & Hup & Hrun).
      assert (r2 = r0) as ->.
      { unfold zoom in Hup. cbn [view lens_fst fst] in Hup. destruct (upload_chunk _ _ _ _ _) as [w3 o].
        cbn [over lens_fst] in Hup. by injection Hup. }
      apply IH in Hrun as (k & Hk' & Hf' & Hcase); [|rewrite length_take; lia]. rewrite Hun, length_drop in *.
      rewrite bool_decide_eq_false_2 in Hcase by (by destruct hashes). cbn [andb] in Hcase.
      exists (n + k)%nat. split; [lia|]. split; [intros Hf; specialize (Hf' Hf); lia|].
      rewrite (proj2 (Nat.ltb_ge (n + k) n)), andb_false_r by lia. rewrite Hcase, <- app_assoc. f_equal. cbn [app].
      assert (take n (unread r) = take n (take (n + k) (unread r))) as -> by (by rewrite take_take, Nat.min_l by lia).
      assert (take k (drop n (unread r)) = drop n (take (n + k) (unread r))) as ->
        by (by rewrite skipn_firstn_comm, Nat.add_comm, Nat.add_sub || (rewrite drop_take; f_equal; lia)).
      destruct n as [|n]; [lia|]. cbn [Nat.add]. rewrite chunks_step by (apply take_some; lia). cbn [fmap list_fmap].
      f_equal. f_equal. apply chunks_fuel; [lia|..]; rewrite length_drop, length_take; lia.
Qed.

(** The root is made of what has been read. *)
Lemma Upload_reads fuel pf priv size w r x root :
  Upload fuel pf priv size (w, r) = (x, Ok root) ->
  let n := Z.to_nat size in let f := unread r in
  (0 < n)%nat /\ exists k b rb, (k <= length f)%nat /\ (reads_fully -> k = length f) /\
    (if decide (k = 0)%nat then length b = n else b = take k f) /\
    Marshal (root_with n k b) = inr rb /\ root = ValueHash rb.
Proof.
  intros Hrun n f. unfold Upload in Hrun. destruct (size <? 0); [done|]. fold n in Hrun.
  apply bind_ok in Hrun as ([w1 r1] & [hs buf] & Hloop & Hrun).
  apply bind_ok in Hrun as (s2 & rt & Hrt & Hrun). apply bind_ok in Hrun as (s3 & rb & Hm & Hrun).
  apply lift_ok in Hm as [-> Hm]. apply bind_ok in Hrun as (s4 & y & _ & Hrun). unfold ret in Hrun.
  injection Hrun as _ <-. enough ((0 < n)%nat /\ exists k b, (k <= length f)%nat /\ (reads_fully -> k = length f) /\
    (if decide (k = 0)%nat then length b = n else b = take k f) /\ rt = root_with n k b) as (Hn & k & b & Hk & Hf & Hb & ->)
    by (split; [done|]; by exists k, b, rb).
  destruct (decide (n = 0)%nat) as [Hz|Hnz].
  { (* no room in the buffer: nothing is read *)
    destruct fuel as [|fuel]; [done|]. rewrite Hz in Hloop. cbn [upload_loop replicate] in Hloop.
    apply bind_ok in Hloop as ([w2 r2] & [[c k] err] & Hread & Hloop). unfold zoom in Hread. cbn [view lens_snd snd] in Hread.
    destruct (Read_some r []) as (k0 & rest & err0 & r0 & Heq & _ & Hlen & _). rewrite Heq in Hread. cbn [length] in Hlen.
    assert (k0 = 0 /\ rest = [])%nat as [-> ->] by (split; [lia|]; apply nil_length_inv; lia).
    injection Hread as <- <- <- <- <-. rewrite orb_true_r in Hloop. unfold ret in Hloop.
    injection Hloop as <- <- <- <-. done. }
  apply upload_loop_reads in Hloop as (k & Hk & Hf & Hcase); [|lia|apply length_replicate].
  split; [lia|]. exists k, (if decide (k = 0)%nat then buf else take k f). split; [done|]. split; [done|]. unfold root_with, parts.
  rewrite bool_decide_eq_true_2 in Hcase by done. cbn [andb app] in Hcase. destruct (Nat.ltb_spec k n) as [Hlt|Hge].
  - destruct Hcase as [-> Hb]. rewrite bool_decide_eq_true_2 in Hrt by done.
    assert (rt = mkRoot buf []) as -> by (destruct (bool_decide (buf = [])); [done|]; unfold ret in Hrt; by injection Hrt).
    destruct (decide (k = 0)%nat); [done|]. subst buf. done.
  - rewrite decide_False by lia. rewrite decide_False by lia. split; [done|].
    assert (chunks (S k) n (take k f) = chunks k n (take k f)) as -> by (apply chunks_fuel; [lia|rewrite length_take; lia..]).
    rewrite Hcase in Hrt. subst f. rewrite bool_decide_eq_false_2 in Hrt.
    + unfold ret in Hrt. by injection Hrt.
    + destruct k as [|k]; [lia|]. rewrite chunks_step by (apply take_some; lia). done.
Qed.

(** A reply that the client believes has the hash it was asked for. *)
Lemma resolve_part_ok h w (o : Wr) x b :
  resolve_part h (w, o) = (x, Ok b) ->
  exists w' v, cli_Resolve h w = (w', Ok v) /\ v.1.2 = b /\ x = (w', o) /\ ValueHash b = h.
Proof.
  unfold resolve_part. intros Hrun. apply bind_ok in Hrun as (x1 & [[found v] m] & Hr & Hrun).
  unfold zoom in Hr. cbn [view lens_fst fst] in Hr. destruct (cli_Resolve h w) as [w' r] eqn:Hres. cbn [over lens_fst snd] in Hr.
  injection Hr as <- ->. apply bind_ok in Hrun as (x2 & [] & Hc & Hrun). apply check_ok in Hc as [Hc ->].
  unfold ret in Hrun. injection Hrun as <- <-. apply negb_false_iff in Hc. subst found.
  exists w', (true, v, m). split_and!; try done. unfold cli_Resolve in Hres.
  apply bind_ok in Hres as (w2 & resp & _ & Hres). destruct (rr_Exists resp); [|done]. cbn [negb] in Hres.
  case_bool_decide as Hh; [done|]. unfold ret in Hres. injection Hres as _ <- _. done.
Qed.
Lemma write_ok b w (o : Wr) x u : write b (w, o) = (x, Ok u) -> exists o', x = (w, o') /\ written o' = written o ++ b.
Proof.
  unfold write, zoom. cbn [view lens_snd snd]. destruct (Write o b) as [o' [e|[]]] eqn:Hw; cbn; [done|].
  intros [= <- <-]. exists o'. split; [done|]. by apply Write_ok.
Qed.

Lemma download_parts cs w (o : Wr) x u :
  for_each (fun h => let! b := resolve_part h in write b) (ValueHash <$> cs) (w, o) = (x, Ok u) ->
  exists w' o' vs, x = (w', o') /\ resolve_all (ValueHash <$> cs) w = (w', Ok vs) /\
    (tells_apart cs vs -> written o' = written o ++ concat cs).
Proof.
  revert w o. induction cs as [|c cs IH]; intros w o Hrun; cbn [fmap list_fmap for_each resolve_all] in *.
  { unfold ret in Hrun. injection Hrun as <- _. exists w, o, []. split_and!; [done..|]. intros _. by rewrite app_nil_r. }
  apply bind_ok in Hrun as (x1 & [] & Hpart & Hrun). apply bind_ok in Hpart as (x2 & b & Hres & Hw).
  apply resolve_part_ok in Hres as (w1 & v & Hres & <- & -> & Hh). apply write_ok in Hw as (o1 & -> & Ho1).
  apply IH in Hrun as (w' & o' & vs & -> & Hall & Ho'). exists w', o', (v.1.2 :: vs). split; [done|].
  rewrite (bind_run _ _ _ _ _ Hres), (bind_run _ _ _ _ _ Hall). split; [done|]. intros Ht.
  assert (v.1.2 = c) as Hc by (eapply tells_apart_elem; [exact Ht|apply list_elem_of_here..|done]).
  rewrite Ho', Ho1, Hc; [by rewrite <- app_assoc|]. unfold tells_apart in *.
  apply Forall_cons in Ht as [_ Ht]. eapply Forall_impl; [exact Ht|]. cbn. by intros c' [_ ?]%Forall_cons.
Qed.

(** A download that ends gives back what the root was made of. *)
Lemma Download_integrity n k f b rb w (o : Wr) x u :
  (0 < n)%nat -> (k <= length f)%nat -> (if decide (k = 0)%nat then length b = n else b = take k f) ->
  Marshal (root_with n k b) = inr rb -> Download (ValueHash rb) (w, o) = (x, Ok u) ->
  exists w' o', x = (w', o') /\
    forall vs, (replies (ValueHash rb) w).2 = Ok vs -> tells_apart (rb :: parts n k b) vs -> written o' = written o ++ b.
Proof.
  intros Hn Hk Hb Hm Hrun. unfold Download in Hrun. apply bind_ok in Hrun as (x1 & rb' & Hres & Hrun).
  apply resolve_part_ok in Hres as (w1 & v & Hres & Hv & -> & Hh).
  apply bind_ok in Hrun as (x2 & r & Hun & Hrun). apply lift_ok in Hun as [-> Hun].
  assert (forall vs, (replies (ValueHash rb) w).2 = Ok vs -> tells_apart (rb :: parts n k b) vs -> rb' = rb) as Hroot.
  { intros vs Hvs Ht. unfold replies in Hvs. rewrite (bind_run _ _ _ _ _ Hres), Hv, Hun in Hvs.
    unfold bind in Hvs. destruct (resolve_all _ w1) as [w2 [l|e|p]]; [|done..]. injection Hvs as <-.
    by eapply tells_apart_elem; [exact Ht|apply list_elem_of_here..|]. }
  destruct (negb (bool_decide (Contents r = []))) eqn:Hc.
  - apply write_ok in Hrun as (o' & -> & Ho'). exists w1, o'. split; [done|]. intros vs Hvs Ht.
    rewrite (Hroot vs Hvs Ht), (Unmarshal_Marshal _ _ Hm) in Hun. injection Hun as <-. rewrite Ho'.
    unfold root_with in *. destruct (k <? n)%nat; [done|]. by rewrite bool_decide_eq_true_2 in Hc.
  - apply bind_ok in Hrun as (x2 & [] & Hch & Hrun). apply check_ok in Hch as [Hch ->].
    apply bool_decide_eq_false in Hch. apply negb_false_iff, bool_decide_eq_true in Hc.
    assert (exists w' o', x = (w', o')) as (w' & o' & ->) by (destruct x; by eexists _, _). exists w', o'. split; [done|].
    intros vs Hvs Ht. pose proof (Hroot vs Hvs Ht) as Hrb. rewrite Hrb, (Unmarshal_Marshal _ _ Hm) in Hun. injection Hun as <-.
    unfold root_with, parts in *. destruct (Nat.ltb_spec k n) as [Hlt|Hge]; [done|]. cbn [Children] in *.
    apply download_parts in Hrun as (w2 & o2 & vs' & [= -> ->] & Hall & Ho').
    unfold replies in Hvs. rewrite (bind_run _ _ _ _ _ Hres), Hv, Hrb, (Unmarshal_Marshal _ _ Hm) in Hvs.
    cbn [Contents Children] in Hvs. rewrite bool_decide_eq_true_2, (bind_run _ _ _ _ _ Hall) in Hvs by done.
    injection Hvs as <-. rewrite Ho'.
    + f_equal. apply concat_chunks; [done|]. rewrite decide_False in Hb by lia. subst b. rewrite length_take. lia.
    + apply Forall_cons in Ht as [_ Ht]. eapply Forall_impl; [exact Ht|]. cbn. by intros c' [_ ?]%Forall_cons.
Qed.
End integrity.
