(* ===== verification/CliFacts.v ===== *)
(** * The command line: what a command that succeeds has done *)

From S2P Require Import Prelude External GoStd TData Builder Instances Keys Storage Genesis.
From S2P Require Import Stakers Pows Rewards Actions Users Details SysParams SamaState.
From S2P Require Import Tx TypedTx Activity Keystore TypedTxFacts Block BlockFacts Mempool VM Config Service Client Tree Cli.
From S2P Require Import Lookback FeeMarket TxFacts VMFacts ServiceFacts ClientFacts TreeFacts.

Definition is_number (s : string) : bool := match ParseUint s with inr _ => true | inl _ => false end.

(** The commands that send a transaction. *)
Definition transacts (c : Command) : bool :=
  match c with
  | setCmd | transferCmd | stakeCmd | unStakeCmd | registerCmd | voteCmd | addUserCmd | claimCmd | proofCmd
  | refreshCmd | proposalCmd | governCmd => true
  | createCmd | genesisCmd | resolveCmd | activityCmd | setFileCmd | resolveFileCmd | networkCmd | configCmd => false
  end.

(** Arguments that are refused before anything is done; [claim], [create] and
    [refresh] look at theirs later or not at all.  Neither the kind of staker of
    a stake nor the ids of [vote] and [govern] have to be well formed. *)
Definition well_typed (c : Command) (args : list string) : bool :=
  match c, args with
  | (createCmd | claimCmd | refreshCmd), _ => true
  | (setCmd | resolveCmd | setFileCmd | voteCmd | governCmd), [_] => true
  | (activityCmd | networkCmd), [] => true
  | resolveFileCmd, [_; _] => true
  | transferCmd, [_; n] | addUserCmd, [_; n] => is_number n
  | unStakeCmd, [n; _] | registerCmd, [n; _] | registerCmd, [n; _; _] => is_number n
  | stakeCmd, [_; n; _] => is_number n
  | proofCmd, [n; s; e] => is_number n && is_number s && is_number e
  | proposalCmd, [n; _; _] => is_number n
  | genesisCmd, [n; _] => match ParseUint n with inr m => negb (m =? 0) | inl _ => false end
  | configCmd, ([] | [_] | [_; _] | [_; _; _]) => true
  | _, _ => false
  end.

Section asked.
Context `{Ethereum}.

(** What the user of a command asks for: the transaction, with what the node
    has to say left open. *)
Inductive asked (own : Address) : Command -> list string -> UnsignedTransaction -> Prop :=
  | asked_set v : asked own setCmd [v] (USet (mkSetTx zeroBaseTx (String.list_byte_of_string v)))
  | asked_transfer a n units : ParseUint n = inr units ->
      asked own transferCmd [a; n] (UTransfer (mkTransferTx zeroBaseTx (HexToAddress a) units))
  | asked_stake t n a units : ParseUint n = inr units ->
      asked own stakeCmd [t; n; a] (UStake (mkStakeTx zeroBaseTx (ParseUint_value t) units (HexToAddress a)))
  | asked_unstake t a kind reward time : ParseUint t = inr kind ->
      asked own unStakeCmd [t; a] (UUnStake (mkUnStakeTx zeroBaseTx reward kind time))
  | asked_claim args reward time : asked own claimCmd args (UClaim (mkClaimTx zeroBaseTx reward time))
  | asked_register t a kind id p : ParseUint t = inr kind ->
      asked own registerCmd [t; a] (URegister (mkRegisterTx zeroBaseTx id kind (lp_Country p) (lp_LocalIP p)
        (lp_PublicIP p) (lp_MinPort p) (lp_MaxPort p) (lp_CheckPort p) (lp_WorkKey p) own))
  | asked_register_for t a b kind id p : ParseUint t = inr kind ->
      asked own registerCmd [t; a; b] (URegister (mkRegisterTx zeroBaseTx id kind (lp_Country p) (lp_LocalIP p)
        (lp_PublicIP p) (lp_MinPort p) (lp_MaxPort p) (lp_CheckPort p) (lp_WorkKey p)
        (if decide (HexToAddress b = zeroAddress) then own else HexToAddress b)))
  | asked_vote s : asked own voteCmd [s] (UVote (mkVoteTx zeroBaseTx (lenient_id s)))
  | asked_govern s : asked own governCmd [s] (UGovern (mkGovernTx zeroBaseTx (lenient_id s)))
  | asked_add_user a t kind from fee : ParseUint t = inr kind ->
      asked own addUserCmd [a; t]
        (UAddUser (mkAddUserTx zeroBaseTx from (from +u SecondsMonth) fee 0 kind (HexToAddress a)))
  | asked_proof n s e flow from until : ParseUint n = inr flow -> ParseUint s = inr from -> ParseUint e = inr until ->
      asked own proofCmd [n; s; e] (UProof (mkProofTx zeroBaseTx flow from until zeroAddress))
  | asked_refresh k v node t : refresh_param k v (refresh_of node) = inr t ->
      asked own refreshCmd [k; v] (URefresh t)
  | asked_proposal t k v kind id from : ParseUint t = inr kind ->
      asked own proposalCmd [t; k; v]
        (UProposal (mkProposalTx zeroBaseTx id from (from +u Seconds7Day) kind k v)).
End asked.

Section cli.
Context `{Ethereum} `{!Secp} `{!Requester} `{!EthMath} `{!GoRuntime} `{!TxCodec}.
Context `{Reader} `{Writer} `{RootJSON} `{!Machine} `{!KeyText} `{NodeJSON}.
Context (uf pf : nat) (fl : Flags).
Implicit Types (x : Mach * Remote) (c : Command) (args : list string).

Lemma of_machine_ok {A} (f : Mach -> result A) x x' a :
  of_machine f x = (x', Ok a) -> x' = x /\ f x.1 = inr a.
Proof. unfold of_machine. destruct (f x.1); cbn; [done|]. by intros [= <- ->]. Qed.
Lemma load_key_ok x x' sk : load_key fl x = (x', Ok sk) -> x' = x /\ LoadECDSA x.1 (privateKeyFile fl) = inr sk.
Proof. apply of_machine_ok. Qed.

(** Before it issues its transaction a command may look at its arguments and its
    machine, and ask the node. *)
Definition asking : relation (Mach * Remote) := fun x x' => rtc requested x.2 x'.2.
#[local] Instance asking_preorder : PreOrder asking.
Proof. split; unfold asking; [by intros x|]. intros x y z Hxy Hyz. by etrans. Qed.
Lemma asking_send {R} (q : Request R) : relates asking (ask (send q)).
Proof.
  intros [m w]. unfold asking, ask, zoom, send. cbn [view lens_snd snd].
  pose proof (ltac:(by eexists _, q) : requested w (SendRequest q w).1) as Hr.
  destruct (SendRequest q w) as [w' r]. by apply rtc_once.
Qed.
Lemma asking_at_machine {A} (f : Mach -> Mach * result A) : relates asking (at_machine f).
Proof. intros [m w]. unfold asking, at_machine. cbn [fst snd]. destruct (f m). apply rtc_refl. Qed.
Lemma asking_attempt {A} (f : M (Mach * Remote) A) : relates asking f -> relates asking (attempt f).
Proof. intros Hf x. specialize (Hf x). unfold attempt. by destruct (f x) as [x' [a|e|p]]. Qed.
Lemma asking_GetNodes a : relates asking (ask (cli_GetNodes a)).
Proof.
  intros [m w]. unfold asking, ask, zoom, cli_GetNodes, bind. cbn [view lens_snd snd].
  pose proof (asking_send (req_getNodes a false) (m, w)) as Hs. unfold asking, ask, zoom in Hs.
  cbn [view lens_snd snd] in Hs. destruct (send _ w) as [w' [[|n l]|e|p]]; exact Hs.
Qed.
Lemma asking_deref {A} (p : option A) : relates asking (deref p).
Proof. apply relates_read; [apply _|]. by destruct p. Qed.
#[local] Hint Resolve asking_send asking_at_machine asking_attempt asking_GetNodes asking_deref : asking.
#[local] Hint Extern 2 (relates asking _) => progress unfold seconds, cli_CalcReward, cli_GetStakerType,
  cli_GetChainCreateTime, cli_CreateShortID, cli_GetLocalParams, cli_GetUserFee : asking.
Lemma asking_then {A B} (f : M (Mach * Remote) A) (k : A -> M (Mach * Remote) B) x x' b :
  relates asking f -> bind f k x = (x', Ok b) -> exists x1 a, asking x x1 /\ f x = (x1, Ok a) /\ k a x1 = (x', Ok b).
Proof.
  intros Hf (x1 & a & Ha & Hrun)%bind_ok. exists x1, a. split; [|done]. specialize (Hf x). by rewrite Ha in Hf.
Qed.

(** Steps through a command: the arguments, and whatever it asks until it issues
    its transaction. *)
Ltac arguments H := apply lift_ok in H as [-> H];
  unfold getSetOp, getTransferOp, getStakeOp, getUnStakeOp, getRegisterOp, getVoteOp, getGovernOp, getProofOp,
    getProposalOp, getRefreshOp in H;
  repeat match type of H with context [match ?e with _ => _ end] => destruct e eqn:?; try discriminate H end;
  simplify_eq.
Ltac requests H := repeat match type of H with
  | (let _ := _ in _) _ = _ => cbv zeta in H
  | bind _ _ _ = _ => let x := fresh "x" in let a := fresh "a" in let Ha := fresh "Hasked" in
      apply asking_then in H as (x & a & Ha & _ & H); [|by eauto 5 with asking]
  | (match ?e with _ => _ end) _ = _ => destruct e; try discriminate H
  end.

Ltac issued := eexists _, _; split; [eassumption|]; split; [econstructor; eassumption|]; split; [|eassumption];
  repeat (etrans; [eassumption|]); reflexivity.

Lemma command_issues c args x x' out :
  transacts c = true -> RunE uf pf fl c args x = (x', Ok out) ->
  exists sk u x1, LoadECDSA x.1 (privateKeyFile fl) = inr sk /\ asked (address_of sk) c args u /\
    asking x x1 /\ issue pf fl u sk x1 = (x', Ok out).
Proof.
  intros Hc Hrun. destruct c; try discriminate Hc; cbn [RunE] in Hrun;
    apply bind_ok in Hrun as (x0 & sk & Hk & Hrun); apply load_key_ok in Hk as [-> Hsk]; exists sk.
  - apply bind_ok in Hrun as (x1 & a & Ha & Hrun). arguments Ha. issued.
  - apply bind_ok in Hrun as (x1 & a & Ha & Hrun). arguments Ha. issued.
  - apply bind_ok in Hrun as (x1 & a & Ha & Hrun). arguments Ha. issued.
  - apply bind_ok in Hrun as (x1 & a & Ha & Hrun). arguments Ha. requests Hrun. issued.
  - apply bind_ok in Hrun as (x1 & a & Ha & Hrun). arguments Ha; requests Hrun; issued.
  - apply bind_ok in Hrun as (x1 & a & Ha & Hrun). arguments Ha. issued.
  - apply bind_ok in Hrun as (x1 & a & Ha & Hrun).
    destruct args as [|a1 [|a2 [|]]]; try discriminate Ha. cbn [getAddUserOp] in Ha.
    destruct (ParseUint a2) eqn:?; [discriminate Ha|].
    apply asking_then in Ha as (x2 & st & Hclock & _ & Ha); [|by eauto 5 with asking].
    unfold ret in Ha. simplify_eq. requests Hrun. issued.
  - requests Hrun. issued.
  - apply bind_ok in Hrun as (x1 & a & Ha & Hrun). arguments Ha. issued.
  - apply asking_then in Hrun as (x1 & node & Hnode & _ & Hrun); [|by eauto 5 with asking].
    apply bind_ok in Hrun as (x2 & [k v] & Ha & Hrun). arguments Ha.
    apply bind_ok in Hrun as (x3 & u & Hu & Hrun). apply lift_ok in Hu as [-> Hu]. issued.
  - apply bind_ok in Hrun as (x1 & a & Ha & Hrun). arguments Ha. requests Hrun. issued.
  - apply bind_ok in Hrun as (x1 & a & Ha & Hrun). arguments Ha. issued.
Qed.

(** A command whose arguments are not of the right number or kind fails, and has
    asked nothing of the node and changed nothing on the machine. *)
Theorem malformed_command_does_nothing c args x :
  well_typed c args = false -> exists e, RunE uf pf fl c args x = (x, Err e).
Proof.
  assert (forall A (f : PrivateKey -> M (Mach * Remote) A) e, (forall sk, f sk x = (x, Err e)) ->
      exists e', bind (load_key fl) f x = (x, Err e')) as Hkey.
  { intros A f e Hf. unfold bind, load_key, of_machine.
    destruct (LoadECDSA x.1 (privateKeyFile fl)) as [e'|sk]; cbn [of_result]; [by exists e'|]. exists e. apply Hf. }
  intros Hw. destruct c; try discriminate Hw; cbn [RunE].
  all: destruct args as [|a1 [|a2 [|a3 [|a4 args]]]]; try discriminate Hw; cbn [well_typed] in Hw.
  all: unfold is_number in Hw; repeat match type of Hw with context [ParseUint ?s] =>
    let e := fresh "e" in let E := fresh "E" in destruct (ParseUint s) as [e|?] eqn:E; try discriminate Hw end.
  all: try (by eexists).
  all: try (eapply Hkey; intros sk; cbn;
    repeat match goal with E : ParseUint ?s = _ |- context [ParseUint ?s] => rewrite E end; reflexivity).
  all: unfold genesisFunc, genesis_magic, bind at 1, lift at 1; rewrite E;
    try (apply negb_false_iff in Hw; rewrite Hw); cbn; by eexists.
Qed.
End cli.

(** ** From the keyboard to the chain *)
Section confirmed.
Context `{DatabaseLaws} `{Cacher Address UserMeta} `{Cacher ID block_loc} `{Cacher bytes bytes} `{!Keystore}.
Context `{EthereumLaws} `{!EthMath} `{GoRuntime} `{ChainCodecs} `{TxCodecLaws} `{BlockCodec}.
Context `{!Secp} `{!SecpLaws} `{!Codec (list Address)} `{SnowContext} `{Randomness}.
Context `{Reader} `{Writer} `{RootJSON} `{!Machine} `{!KeyText} `{NodeJSON}.
Context (round : PublicService -> PublicService).
#[local] Existing Instance served_by.
#[local] Existing Instance served_deadline.
Implicit Types (s : PublicService).

(** Where a second always passes, polling that returns has seen the transaction. *)
Lemma served_poll fuel id s n w' b :
  @cli_PollTx _ _ (served_by round) fuel id (s, n) = (w', Ok b) ->
  b = true /\ exists s2 n2 s3, rtc (@elapsed _ _ (served_by round)) (s, n) (s2, n2) /\
    svc_HasTx id s2 = (s3, Ok true) /\ w' = (s3, n2).
Proof.
  intros Hrun. apply cli_PollTx_said in Hrun as (-> & [s2 n2] & Hel & Hs). split; [done|].
  unfold SendRequest, served_by, serve in Hs. cbn [fst snd handler] in Hs.
  exists s2, n2. destruct (svc_HasTx id s2) as [s3 [a|e|p]]; [|by injection Hs..].
  injection Hs as <- ->. by exists s3.
Qed.
Lemma confirmed_has fuel op id sk s n w' :
  op_pollTx op = true -> @handleConfirmation _ _ (served_by round) fuel op id sk (s, n) = (w', Ok tt) ->
  exists w3, @cli_PollTx _ _ (served_by round) fuel id (s, n) = (w3, Ok true) /\
    if op_balance op then exists b, @cli_Balance _ _ (served_by round) (address_of sk) w3 = (w', Ok b) else w' = w3.
Proof.
  unfold handleConfirmation. intros -> Hrun. apply bind_ok in Hrun as (w1 & [] & Hp & Hrun).
  apply bind_ok in Hp as (w3 & b & Hp & Hret). unfold ret in Hret. injection Hret as <-.
  exists w3. pose proof Hp as Hp'. apply served_poll in Hp' as [-> _]. split; [done|]. destruct (op_balance op).
  - apply bind_ok in Hrun as (w4 & b & Hb & Hret). unfold ret in Hret. injection Hret as <-. by exists b.
  - unfold ret in Hrun. by injection Hrun.
Qed.

(** C7: A command that sends a transaction and ends without an error has done so, as
    the run from the node in state [s] shows.  After the requests that find the
    rest of the transaction the node, in state [s0], is given what the arguments
    ask for, signed for its chain with the key of the user, and has put it into
    its pool ([s1]).  The client has then polled, and the last answer was that a
    block with the transaction has been accepted ([s2] to [s3]).  This is where
    the run ends; only with [--verbose] the balance is asked for after it. *)
Theorem successful_command_is_confirmed uf pf fl c args m s n m' w' out :
  transacts c = true ->
  @RunE _ _ (served_by round) _ _ _ _ _ _ _ _ _ uf pf fl c args (m, (s, n)) = ((m', w'), Ok out) ->
  exists sk u tx s0 n0 v cost s1 s2 n2 s3,
    LoadECDSA m (privateKeyFile fl) = inr sk /\ asked (address_of sk) c args u /\
    rtc (@requested _ _ (served_by round)) (s, n) (s0, n0) /\
    tx_Unsigned tx = set_base (base (tx_Unsigned tx)) u /\ tx_sender tx = address_of sk /\
    GetMagic (tx_Unsigned tx) = Genesis_Magic (vm_genesis (svc_vm s0)) /\
    SuggestedFee (svc_vm s0) = (v, Ok cost) /\ Submit [tx] v = (svc_vm s1, Ok []) /\ s1 = over (svc_vm s1) s0 /\
    rtc (@elapsed _ _ (served_by round)) (s1, n0) (s2, n2) /\ svc_HasTx (tx_id tx) s2 = (s3, Ok true) /\
    @cli_PollTx _ _ (served_by round) pf (tx_id tx) (s1, n0) = ((s3, n2), Ok true) /\
    if verbose fl then exists b, @cli_Balance _ _ (served_by round) (address_of sk) (s3, n2) = (w', Ok b)
    else w' = (s3, n2).
Proof.
  intros Hc Hrun. apply command_issues in Hrun as (sk & u & [m1 [s0 n0]] & Hk & Hask & Hreq & Hrun); [|done].
  unfold issue in Hrun. apply bind_ok in Hrun as ([m2 w2] & [id cost] & Hs & Hrun).
  unfold ret in Hrun. injection Hrun as <- <- <-. unfold ask, zoom in Hs. cbn [view lens_snd snd] in Hs.
  destruct (SignIssueRawTx _ _ _ _ _) as [w1 r] eqn:Hraw. cbn [over fst] in Hs. injection Hs as <- -> ->.
  destruct (raw_sent _ _ _ _ _ _ _ _ _ _ Hraw) as
    (tx & v & p & c' & la & fu & s1 & Hf & _ & _ & Hu & <- & Hsend & _ & Hsub & Hs1 & Hconf).
  apply confirmed_has in Hconf as (w3 & Hpoll & Hlast); [|by destruct (verbose fl)].
  destruct (served_poll _ _ _ _ _ _ Hpoll) as (_ & s2 & n2 & s3 & Hel & Hhas & ->).
  exists sk, u, tx, s0, n0, v, (p, c'), s1, s2, n2, s3. split_and!; try done.
  - by rewrite Hu, base_set_base.
  - unfold GetMagic. by rewrite Hu, base_set_base.
  - by destruct (verbose fl).
Qed.
End confirmed.

(** ** Keys, files and the genesis *)

(** The contract of the machine: a file has what has been written into it, a key
    file the key, and other files keep what they have. *)
Class MachineLaws `{Machine} `{!FileWriter} : Prop := {
  Create_empty m p m' o : Create m p = (m', inr o) -> written o = [];
  ReadFile_Close m p o : ReadFile (Close m p o) p = inr (written o);
  ReadFile_WriteFile m p b m' : WriteFile m p b = (m', inr tt) -> ReadFile m' p = inr b;
  LoadECDSA_WriteFile m p b m' r q : WriteFile m p b = (m', r) -> q <> p -> LoadECDSA m' q = LoadECDSA m q;
  LoadECDSA_SaveECDSA m p sk m' : SaveECDSA m p sk = (m', inr tt) -> LoadECDSA m' p = inr sk
}.
(** The text and byte forms of keys and hashes; the key of go-ethereum and that of
    avalanchego are the same 32 bytes. *)
Class KeyTextLaws `{KeyText} : Prop := {
  HexToHash_Hex h : HexToHash (Hash_Hex h) = h;
  FromECDSA_Bytes sk : FromECDSA sk = sk_Bytes sk
}.

Section machine.
Context `{Ethereum} `{!Secp} `{!SecpLaws} `{!Requester} `{!EthMath} `{!GoRuntime} `{!TxCodec}.
Context `{Reader} `{Writer} `{!FileWriter} `{RootJSON} `{!Machine} `{!MachineLaws}.
Context `{!KeyText} `{!KeyTextLaws} `{NodeJSONLaws} (uf pf : nat) (fl : Flags).
Implicit Types (m : Mach) (w : Remote) (x : Mach * Remote).

Lemma at_machine_ok {A} (f : Mach -> Mach * result A) x x' a :
  at_machine f x = (x', Ok a) -> exists m, f x.1 = (m, inr a) /\ x' = (m, x.2).
Proof. unfold at_machine. destruct (f x.1) as [m [e|b]]; cbn; [done|]. intros [= <- ->]. by exists m. Qed.
Lemma refuse_existing_ok p x x' u :
  refuse_existing p x = (x', Ok u) -> x' = x /\ exists e, Stat x.1 p = Some e /\ errors_is e ErrNotExist = true.
Proof.
  unfold refuse_existing. intros Hrun. apply bind_ok in Hrun as (? & st & Hs & Hrun).
  apply gets_ok in Hs as [-> ->]. destruct (Stat x.1 p) as [e|].
  - apply check_ok in Hrun as [Hc ->]. split; [done|]. exists e. split; [done|]. by apply negb_false_iff.
  - apply bind_ok in Hrun as (? & ? & _ & Hrun). done.
Qed.

(** [create] never touches a file that is there: it fails and leaves the machine
    as it was; where it succeeds there was none, and the key that has been made
    is the one every other command then loads. *)
Theorem create_keeps_keys args m w :
  match createFunc fl args (m, w) with
  | (x', Ok _) => x'.2 = w /\ (exists e, Stat m (privateKeyFile fl) = Some e /\ errors_is e ErrNotExist = true) /\
      exists sk, load_key fl x' = (x', Ok sk)
  | (x', Err _) => Stat m (privateKeyFile fl) = None -> x' = (m, w)
  | (_, Panic _) => False
  end.
Proof.
  destruct (createFunc fl args (m, w)) as [x' [out|e|p]] eqn:Hrun; unfold createFunc in Hrun.
  - apply bind_ok in Hrun as (x1 & u & Hr & Hrun). apply refuse_existing_ok in Hr as [-> Hst].
    apply bind_ok in Hrun as (x2 & sk & Hk & Hrun). apply at_machine_ok in Hk as (m1 & _ & ->).
    apply bind_ok in Hrun as (x3 & [] & Hs & Hrun). apply at_machine_ok in Hs as (m2 & Hs & ->).
    unfold ret in Hrun. injection Hrun as <- _. cbn [fst snd] in *. split; [done|]. split; [done|]. exists sk.
    unfold load_key, of_machine. cbn [fst]. by rewrite (LoadECDSA_SaveECDSA _ _ _ _ Hs).
  - intros Hst. unfold bind at 1, refuse_existing, gets, bind, of_machine in Hrun. cbn [fst] in Hrun.
    rewrite Hst in Hrun. cbn in Hrun. destruct (LoadECDSA m (privateKeyFile fl)); cbn in Hrun; by injection Hrun as <- _.
  - unfold refuse_existing, gets, bind, of_machine, at_machine, check, ret, fail in Hrun. cbn [fst] in Hrun.
    repeat case_match; simplify_eq/=; repeat (destruct (LoadECDSA _ _)); simplify_eq/=.
    all: try (destruct (GenerateKey m) as [? []]; simplify_eq/=; destruct (SaveECDSA _ _ _) as [? []]; simplify_eq/=).
Qed.

Lemma list_byte_of_string_of_list_byte (b : bytes) : String.list_byte_of_string (String.string_of_list_byte b) = b.
Proof. apply String.list_byte_of_string_of_list_byte. Qed.

(** [config] leaves its key in [work_pk], whatever key was there before, and sends a
    key to the node: the same key if it was given, but of a key that it has made
    itself what the node makes of its hex digits.  Without arguments the user and
    the password are empty. *)
Theorem config_keeps_one_key_and_sends_another args x x' out :
  configFunc args x = (x', Ok out) ->
  exists k user pass sk sent a w,
    getConfigOp args = inr (k, user, pass) /\ (args = [] -> user = EmptyString /\ pass = EmptyString) /\
    LoadECDSA x'.1 "work_pk" = inr sk /\ SendRequest (req_importKey user pass (Some sent)) w = (x'.2, inr a) /\
    (k <> EmptyString -> HexToECDSA k = inr sk /\ sent = sk) /\
    (k = EmptyString ->
      ToPrivateKey (String.list_byte_of_string (hex_EncodeToString (FromECDSA sk))) = inr sent).
Proof.
  unfold configFunc. intros Hrun. apply bind_ok in Hrun as (? & [[k user] pass] & Hop & Hrun).
  apply lift_ok in Hop as [-> Hop]. apply bind_ok in Hrun as (? & u & Hr & Hrun).
  apply refuse_existing_ok in Hr as [-> _].
  apply bind_ok in Hrun as (x1 & [[sk text] imported] & Hkey & Hrun).
  assert (LoadECDSA x1.1 "work_pk" = inr sk /\ x1.2 = x.2 /\
    (k <> EmptyString -> HexToECDSA k = inr sk /\ imported = String.string_of_list_byte (sk_Bytes sk)) /\
    (k = EmptyString -> imported = hex_EncodeToString (FromECDSA sk))) as (Hsk & Hx1 & Hgiven & Hmade).
  { destruct (String.eqb_spec k "") as [->|Hne].
    - apply bind_ok in Hkey as (x2 & sk' & Hg & Hkey). apply at_machine_ok in Hg as (m1 & _ & ->).
      apply bind_ok in Hkey as (x3 & [] & Hs & Hkey). apply at_machine_ok in Hs as (m2 & Hs & ->).
      unfold ret in Hkey. injection Hkey as <- -> _ <-. cbn [fst snd] in *.
      rewrite (LoadECDSA_SaveECDSA _ _ _ _ Hs). by split_and!.
    - apply bind_ok in Hkey as (x2 & sk' & Hg & Hkey). apply lift_ok in Hg as [-> Hg].
      apply bind_ok in Hkey as (x3 & [] & Hs & Hkey). apply at_machine_ok in Hs as (m2 & Hs & ->).
      unfold ret in Hkey. injection Hkey as <- -> _ <-. cbn [fst snd] in *.
      rewrite (LoadECDSA_SaveECDSA _ _ _ _ Hs), FromECDSA_Bytes. by split_and!. }
  apply bind_ok in Hrun as (x4 & [] & Hw & Hrun). apply at_machine_ok in Hw as (m3 & Hw & ->).
  apply bind_ok in Hrun as (x5 & [] & Hi & Hrun). unfold ret in Hrun. injection Hrun as <- _.
  unfold ask, zoom in Hi. cbn [view lens_snd snd] in Hi.
  destruct (cli_ImportKey user pass imported x1.2) as [w' r] eqn:Himp. cbn [over fst] in Hi. injection Hi as <- ->.
  unfold cli_ImportKey in Himp. destruct (ToPrivateKey _) as [e|sent] eqn:Hsent; [done|].
  apply bind_ok in Himp as (w1 & a & Hreq & Hret). unfold ret in Hret. injection Hret as ->.
  apply send_ok in Hreq. exists k, user, pass, sk, sent, a, x1.2. cbn [fst snd].
  rewrite (LoadECDSA_WriteFile _ _ _ _ _ "work_pk" Hw) by done. split_and!; try done.
  - intros ->. cbn in Hop. by injection Hop as _ <- <-.
  - intros Hne. destruct (Hgiven Hne) as [Hhex ->]. split; [done|].
    rewrite list_byte_of_string_of_list_byte, ToPrivateKey_Bytes in Hsent. by injection Hsent.
  - intros Hk. by rewrite <- (Hmade Hk).
Qed.

(** C13: The file that [genesis] writes is the genesis that was asked for: a node that is
    given its bytes starts from it, whatever its defaults are.  It is valid: the
    magic number is the one typed in and not zero, an airdrop has units to give,
    and the rest is as in the defaults. *)
Theorem genesis_file_starts_the_chain `{Database} `{Cacher Address UserMeta} `{Cacher ID block_loc} `{ChainCodecs}
    `{BlockCodec} args x x' out :
  ascii_text (airdropHash fl) -> genesisFunc fl args x = (x', Ok out) ->
  exists magic file a allocs g b, args = [magic; file] /\ ReadFile x.1 file = inr a /\
    allocations_Unmarshal a = inr allocs /\ ReadFile x'.1 (genesisFile fl) = inr b /\ x'.2 = x.2 /\
    ParseUint magic = inr (Genesis_Magic g) /\ Genesis_Verify g = inr tt /\
    (Genesis_AirdropHash g <> EmptyString -> Genesis_AirdropUnits g <> 0) /\
    g = genesis_with (Genesis_Magic g) (if 0 <=? minPrice fl then u64 (minPrice fl) else 0)
      (Genesis_AirdropUnits g) (airdropHash fl) allocs DefaultGenesis /\
    forall db data parse nil tick,
      InitializeBytes db [] b data parse nil tick = Initialize db (inr (1024, 128)) (inr g) data parse nil tick.
Proof.
  unfold genesisFunc. intros Hascii Hrun. apply bind_ok in Hrun as (? & magic & Hm & Hrun).
  apply lift_ok in Hm as [-> Hm]. destruct args as [|am [|file [|]]]; try discriminate Hm. cbn [genesis_magic] in Hm.
  destruct (ParseUint am) as [e|z] eqn:Hz; [done|]. destruct (Z.eqb_spec z 0) as [|Hne]; [done|]. injection Hm as ->.
  apply bind_ok in Hrun as (? & [] & Hu & Hrun). apply check_ok in Hu as [Hu ->].
  apply bind_ok in Hrun as (? & a & Ha & Hrun). apply of_machine_ok in Ha as [-> Ha]. cbn [nth] in Ha.
  apply bind_ok in Hrun as (? & allocs & Hal & Hrun). apply lift_ok in Hal as [-> Hal].
  apply bind_ok in Hrun as (? & b & Hb & Hrun). apply lift_ok in Hb as [-> Hb].
  apply bind_ok in Hrun as (x1 & [] & Hw & Hrun). apply at_machine_ok in Hw as (m1 & Hw & ->).
  unfold ret in Hrun. injection Hrun as <- _. set (g := genesis_with _ _ _ _ _ _) in Hb.
  assert (Genesis_AirdropHash g = airdropHash fl) as Hhash by (cbn; by destruct (airdropHash fl)).
  exists am, file, a, allocs, g, b. cbn [fst snd]. split_and!; try done.
  - by apply ReadFile_WriteFile in Hw.
  - unfold Genesis_Verify. cbn. by rewrite (proj2 (Z.eqb_neq _ _)).
  - rewrite Hhash. intros Hn. cbn. destruct (airdropHash fl) as [|c s]; [done|]. cbn in *. by apply Z.eqb_neq.
  - subst g. cbn. by destruct (airdropHash fl).
  - intros. unfold InitializeBytes, load_config. rewrite bool_decide_eq_true_2 by done.
    rewrite (genesis_Unmarshal_Marshal _ g b); [done| |done].
    split; [by rewrite Hhash|cbn; repeat constructor..].
Qed.
End machine.

(** ** Files *)
Section files.
Context `{Ethereum} `{!Secp} `{!Requester} `{!EthMath} `{!GoRuntime} `{!TxCodec}.
Context `{Reader} `{Writer} `{!FileReader} `{!FileWriter} `{RootJSONLaws} `{!Machine} `{!MachineLaws}.
Context `{!KeyText} `{!KeyTextLaws} (uf pf : nat) (fl : Flags).

(** C12: What [set-file] has stored cannot be passed off as something else, whatever
    the node is that [resolve-file] asks later, and from whatever machine: where
    that ends without an error, the new file has the bytes [b] that were read
    from the old one, as long as the node has not found a second value with the
    hash of one that was stored.  Those bytes are the [k] first of the file, which
    is the whole of it unless a read was short before the end; from an empty file
    they are one chunk of what was in the buffer.  Neither command leaves
    anything else behind on the machine, and a file that is there is not
    overwritten. *)
Theorem resolved_file_is_the_one_set p q m w m1 w1 root m2 w2 m3 w3 out :
  setFileFunc uf pf fl [p] (m, w) = ((m1, w1), Ok (ShowRoot root)) ->
  resolveFileFunc [Hash_Hex root; q] (m2, w2) = ((m3, w3), Ok out) ->
  exists rd w0 g k b rb e m' o o', Open m p = inr rd /\ cli_Genesis w = (w0, Ok (Some g)) /\
    let n := Z.to_nat (i64 (Genesis_MaxValueSize g)) in let f := unread rd in
    (k <= length f)%nat /\ (reads_fully -> k = length f) /\
    (if decide (k = 0)%nat then length b = n else b = take k f) /\
    Marshal (root_with n k b) = inr rb /\ root = ValueHash rb /\
    m1 = m /\ out = ShowRoot root /\
    Stat m2 q = Some e /\ errors_is e ErrNotExist = true /\ Create m2 q = (m', inr o) /\ m3 = Close m' q o' /\
    (forall vs, (replies root w2).2 = Ok vs -> tells_apart (rb :: parts n k b) vs -> ReadFile m3 q = inr b).
Proof.
  intros Hset Hres. unfold setFileFunc in Hset. apply bind_ok in Hset as (x1 & sk & Hsk & Hset).
  apply load_key_ok in Hsk as [-> _]. apply bind_ok in Hset as (x1 & rd & Hrd & Hset). unfold getSetFileOp in Hrd.
  apply bind_ok in Hrd as (x2 & st & Hst & Hrd). apply gets_ok in Hst as [-> _]. destruct st as [e|]; [done|].
  apply bind_ok in Hrd as (x2 & rd' & Hopen & Hrd). unfold attempt, of_machine in Hopen. cbn [fst] in Hopen.
  destruct (Open m p) as [e|rd0] eqn:Ho; cbn [of_result] in Hopen; injection Hopen as <- <-; [done|].
  unfold ret in Hrd. injection Hrd as <- <-. unfold reading in Hset. cbn [fst snd] in Hset.
  destruct (bind _ _ (w, rd0)) as [[w4 rd4] r] eqn:Hrun. injection Hset as <- <- ->.
  apply bind_ok in Hrun as ([w0 rd1] & g0 & Hg & Hrun). unfold zoom in Hg. cbn [view lens_fst fst] in Hg.
  destruct (cli_Genesis w) as [w' r] eqn:Hgen. cbn [over lens_fst snd] in Hg. injection Hg as -> <- ->.
  apply bind_ok in Hrun as (x3 & g & Hd & Hrun). destruct g0 as [g0|]; [|done]. unfold deref, ret in Hd. injection Hd as <- <-.
  apply bind_ok in Hrun as (x4 & root' & Hup & Hrun). unfold ret in Hrun. injection Hrun as _ ->.
  apply Upload_reads in Hup as (Hn & k & b & rb & Hk & Hf & Hb & Hm & ->).
  unfold resolveFileFunc in Hres. apply bind_ok in Hres as (x5 & st & Hst & Hres). apply gets_ok in Hst as [-> Hst].
  apply bind_ok in Hres as (x5 & [] & Hc & Hres). apply check_ok in Hc as [Hc ->]. apply negb_false_iff in Hc.
  cbn [fst] in Hst. destruct st as [e|]; [|done].
  apply bind_ok in Hres as (x5 & o0 & Hcr & Hres). unfold attempt, at_machine in Hcr. cbn [fst snd] in Hcr.
  destruct (Create m2 q) as [m' [e'|o]] eqn:Hcreate; cbn [of_result] in Hcr; injection Hcr as <- <-; [done|].
  cbv zeta in Hres. apply bind_ok in Hres as ([m5 w5] & [] & Hw & Hres). unfold ret in Hres. injection Hres as -> -> <-.
  rewrite HexToHash_Hex in *. unfold writing in Hw. cbn [fst snd] in Hw.
  destruct (Download _ _) as [x6 u] eqn:Hdown. destruct x6 as [w6 o6]. injection Hw as <- <- ->.
  destruct (Download_integrity _ _ _ _ _ _ _ _ _ Hn Hk Hb Hm Hdown) as (w7 & o' & [= -> ->] & Hint).
  exists rd0, w0, g0, k, b, rb, e, m', o, o'. cbv zeta. split_and!; try done.
  intros vs Hvs Ht. rewrite ReadFile_Close, (Hint vs Hvs Ht), (Create_empty _ _ _ _ Hcreate). done.
Qed.
End files.
