(* ===== verification/GovernFacts.v ===== *)
(** * Votes, withdrawals, users and proofs of work as transactions *)

From S2P Require Import Prelude External GoStd PendingCache Instances Keys Storage Genesis.
From S2P Require Import Stakers Pows Rewards Actions Users Details SysParams SamaState Tx Frames TxFacts.

Section votes.
Context `{DatabaseLaws} `{Cacher Address UserMeta} `{GoRuntime} `{Ethereum} `{ChainCodecs}.
Implicit Types (w : world).

(** The pending actions after an action has been put under a new pointer. *)
Definition put_action_state (i : ShortID) (m : ActionMeta) (s : actionsState) : actionsState :=
  set_pending_actions (<[i := act_next s]> (pendingActionsAdd s)) (delete i (pendingActionsDel s))
    (alloc_action m s).2.

Lemma put_new_action_actions i m w :
  actions_of (put_new_action i m w).1 = put_action_state i m (actions_of w).
Proof.
  unfold put_new_action, the, gets, bind. cbn [alloc_action]. unfold modify, zoom.
  cbn [view over lens_actions]. rewrite PutAction_run. by destruct (Marshal _).
Qed.

Definition voted (a : ActionMeta) (t : TransactionContext) : ActionMeta :=
  mkActionMeta (Action_ActionID a) (Action_ActionType a) (Action_StartTime a) (Action_EndTime a)
    (Action_TxIDs a ++ [ctx_TxID t]) (Action_Voters a ++ [ctx_Sender t]) (Action_Key a)
    (Action_NewValue a).

Lemma VoteTx_ok v t w w' :
  VoteTx_Execute v t w = (w', Ok tt) ->
  exists l, curActions (actions_of w) !! vote_ActionID v = Some l /\
    ctx_Sender t ∉ Action_Voters (load_action (actions_of w) l) /\
    actions_of w' =
      put_action_state (vote_ActionID v) (voted (load_action (actions_of w) l) t) (actions_of w).
Proof.
  intros Hrun. unfold VoteTx_Execute in Hrun.
  apply bind_ok in Hrun as (? & s & Hc & Hrun). unfold gets in Hc. injection Hc as <- <-.
  apply bind_ok in Hrun as (w1 & [] & Hperm & Hrun).
  assert (w1 = w) as ->.
  { destruct (IsRoute _ _); [unfold ret in Hperm; by injection Hperm as <-|].
    apply bind_ok in Hperm as (? & [] & Hc & Hperm). apply check_ok in Hc as [_ ->].
    destruct (GetStakersNum _) as [[rn ?] ?]. by apply check_ok in Hperm as [_ ->]. }
  apply bind_ok in Hrun as (w2 & r & Hget & Hrun).
  apply get_action_ok in Hget as (Hs2 & Hd2 & Hr).
  destruct r as [l|]; [|done]. exists l. split; [by symmetry|].
  apply bind_ok in Hrun as (? & [] & Hc & Hrun). apply check_ok in Hc as [Hnew ->].
  apply bind_ok in Hrun as (w3 & now & Hnow & Hrun). apply unix_now_ok in Hnow as [Hs3 Hd3].
  apply bind_ok in Hrun as (? & [] & Hc & Hrun). apply check_ok in Hc as [_ ->].
  apply bind_ok in Hrun as (w4 & ? & Hput & Hrun). unfold ret in Hrun. injection Hrun as <-.
  split.
  - intros Hin. apply (not_true_iff_false (existsb _ _)) in Hnew. apply Hnew.
    apply existsb_exists. exists (ctx_Sender t). split; [by apply list_elem_of_In|].
    by rewrite bool_decide_eq_true_2.
  - assert (actions_of w3 = actions_of w) as Ha by (unfold actions_of; by rewrite Hs3, Hs2).
    pose proof (keeps_attempt_state (put_new_action (vote_ActionID v)
      (voted (load_action (st_actions (w_sama w)) l) t)) w3) as Hst.
    rewrite <- Ha at 2. rewrite <- put_new_action_actions.
    unfold voted in Hst at 1. rewrite Hput in Hst. cbn [fst] in Hst. by rewrite Hst.
Qed.

Lemma cur_meta_lookup s i l :
  curActions s !! i = Some l -> cur_meta s !! i = Some (load_action s l).
Proof. intros Hl. unfold cur_meta, metas. by rewrite lookup_fmap, Hl. Qed.

(** After the commit the action is the one put last. *)
Lemma put_action_committed i m s :
  actions_wf s -> cur_meta (CacheActionsCommit (put_action_state i m s)) !! i = Some m.
Proof.
  intros Hwf.
  unfold cur_meta, metas. rewrite lookup_fmap. cbn [CacheActionsCommit curActions put_action_state
    set_pending_actions pendingActionsAdd pendingActionsDel alloc_action snd].
  rewrite lookup_drop_deleted, lookup_delete_eq, lookup_merge_pending, lookup_insert_eq. simpl.
  f_equal. unfold load_action. simpl. by rewrite lookup_insert_eq.
Qed.

(** Putting an action leaves the committed ones, read through their pointers. *)
Lemma put_action_cur i m s :
  actions_wf s -> curActions (put_action_state i m s) = curActions s /\
  (forall j l, curActions s !! j = Some l ->
    load_action (put_action_state i m s) l = load_action s l) /\
  actions_wf (put_action_state i m s).
Proof.
  intros Hwf. split; [done|]. split.
  - intros j l Hl. unfold load_action. simpl. rewrite lookup_insert_ne; [done|].
    assert (l < act_next s)%positive by (eapply (Hwf j); eauto). lia.
  - intros j l. simpl. rewrite lookup_insert_Some, lookup_delete_Some.
    intros [Hl|[[[_ <-]|[_ Hl]]|[_ Hl]]]; try lia;
      (apply Pos.lt_lt_succ; eapply (Hwf j); eauto).
Qed.

(** Two votes for one action in the same block: both succeed, and the commit
    keeps the second voter only, because each vote starts from the committed
    action. *)
Theorem second_vote_in_block_wins v1 v2 t1 t2 w w1 w2 a :
  actions_wf (actions_of w) -> vote_ActionID v1 = vote_ActionID v2 ->
  cur_meta (actions_of w) !! vote_ActionID v2 = Some a ->
  VoteTx_Execute v1 t1 w = (w1, Ok tt) -> VoteTx_Execute v2 t2 w1 = (w2, Ok tt) ->
  cur_meta (CacheActionsCommit (actions_of w2)) !! vote_ActionID v2 = Some (voted a t2).
Proof.
  intros Hwf Hid Ha Hrun1 Hrun2. set (i := vote_ActionID v2) in *.
  apply VoteTx_ok in Hrun1 as (l1 & Hl1 & _ & Hs1). rewrite Hid in Hl1, Hs1.
  apply VoteTx_ok in Hrun2 as (l2 & Hl2 & _ & Hs2). fold i in Hl2, Hs2.
  destruct (put_action_cur i (voted (load_action (actions_of w) l1) t1) (actions_of w) Hwf)
    as (Hcur & Hload & Hwf1). rewrite <- Hs1 in Hcur, Hload, Hwf1.
  rewrite Hcur in Hl2. assert (l2 = l1) as -> by congruence.
  rewrite (Hload i l1 Hl1) in Hs2. rewrite (cur_meta_lookup _ _ _ Hl1) in Ha. injection Ha as Ha.
  rewrite Hs2, Ha. by apply put_action_committed.
Qed.

(** ** Withdrawals *)

Definition withdrawn (a : ActionMeta) (t : TransactionContext) : ActionMeta :=
  mkActionMeta (Action_ActionID a) (Action_ActionType a) (Action_StartTime a) (Action_EndTime a)
    (Action_TxIDs a ++ [ctx_TxID t]) (remove_voter (ctx_Sender t) (Action_Voters a)) (Action_Key a)
    (Action_NewValue a).

(** Putting an action in place changes neither the committed pointers nor the
    actions behind them. *)
Lemma put_in_place i l w w' r :
  attempt (zoom (PutAction i l)) w = (w', r) ->
  curActions (actions_of w') = curActions (actions_of w) /\
  act_heap (actions_of w') = act_heap (actions_of w).
Proof.
  intros Hput. pose proof (keeps_attempt_state (zoom (PutAction i l)) w) as Hst.
  rewrite Hput in Hst. cbn [fst] in Hst. subst w'. unfold zoom, actions_of.
  cbn [view lens_actions over]. rewrite PutAction_run. by destruct (Marshal _).
Qed.

(** A withdrawal writes through the committed action: the vote is gone, and
    the transaction listed, even when the block is dropped and its changes are
    aborted. *)
Theorem withdrawal_survives_abort x t w w' a :
  WithdrawnTx_Execute x t w = (w', Ok tt) ->
  cur_meta (actions_of w) !! withdrawn_ActionID x = Some a ->
  cur_meta (CacheActionsAbort (actions_of w')) !! withdrawn_ActionID x = Some (withdrawn a t).
Proof.
  intros Hrun Ha. unfold WithdrawnTx_Execute in Hrun.
  apply bind_ok in Hrun as (? & s & Hc & Hrun). unfold gets in Hc. injection Hc as <- <-.
  apply bind_ok in Hrun as (? & [] & Hc & Hrun). apply check_ok in Hc as [_ ->].
  apply bind_ok in Hrun as (w1 & r & Hget & Hrun). apply get_action_ok in Hget as (Hs1 & _ & Hr).
  destruct r as [l|]; [|done]. symmetry in Hr. fold (actions_of w) in Hr, Hrun.
  rewrite (cur_meta_lookup _ _ _ Hr) in Ha. injection Ha as Ha. rewrite Ha in Hrun.
  fold (withdrawn a t) in Hrun. apply bind_ok in Hrun as (w2 & [] & Hmod & Hrun).
  apply bind_ok in Hrun as (w3 & ? & Hput & Hrun). unfold ret in Hrun. injection Hrun as <-.
  apply put_in_place in Hput as [Hcur Hheap].
  unfold modify in Hmod. injection Hmod as <-.
  unfold cur_meta, metas. rewrite lookup_fmap. cbn [CacheActionsAbort curActions].
  unfold load_action, CacheActionsAbort, set_pending_actions. cbn [curActions act_heap]. rewrite Hcur, Hheap.
  unfold actions_of. simpl. rewrite Hs1. unfold actions_of in Hr. rewrite Hr. simpl.
  by rewrite lookup_insert_eq.
Qed.
End votes.

(** ** Users and proofs *)
Section users_and_proofs.
Context `{DatabaseLaws} `{Cacher Address UserMeta} `{GoRuntime} `{Ethereum} `{ChainCodecs}.
Implicit Types (w : world).

(** Only a subscription of exactly thirty days is ever accepted, although the
    transaction checks for twenty-eight to thirty-one. *)
Theorem users_subscribe_for_thirty_days a t w w' :
  is_u64 (adduser_StartTime a) -> is_u64 (adduser_EndTime a) ->
  AddUserTx_Execute a t w = (w', Ok tt) ->
  adduser_EndTime a = adduser_StartTime a + SecondsMonth /\
  exists ut, GetUserType (st_userTypes (w_sama w)) (adduser_UserType a) = Some ut /\
    adduser_PayAmount a = UserType_FeeUnits ut.
Proof.
  intros Hs He Hrun. unfold AddUserTx_Execute in Hrun. cbv zeta in Hrun.
  apply bind_ok in Hrun as (? & [] & Hc & Hrun). apply check_ok in Hc as [Hord%Z.ltb_ge ->].
  apply bind_ok in Hrun as (? & [] & Hc & Hrun). apply check_ok in Hc as [Hmax%Z.ltb_ge ->].
  apply bind_ok in Hrun as (? & [] & Hc & Hrun). apply check_ok in Hc as [Hmin%Z.ltb_ge ->].
  apply bind_ok in Hrun as (w1 & now & Hnow & Hrun). apply unix_now_ok in Hnow as [Hs1 _].
  apply bind_ok in Hrun as (? & [] & Hc & Hrun). apply check_ok in Hc as [_ ->].
  apply bind_ok in Hrun as (? & [] & Hc & Hrun). apply check_ok in Hc as [_ ->].
  apply bind_ok in Hrun as (? & s & Hc & Hrun). unfold gets in Hc. injection Hc as <- <-.
  apply bind_ok in Hrun as (? & [] & Hc & Hrun). apply check_ok in Hc as [_ ->].
  apply bind_ok in Hrun as (? & [] & Hc & Hrun). apply check_ok in Hc as [Hpay ->].
  rewrite Hs1 in Hpay. apply negb_false_iff in Hpay. unfold CheckPayAmount in Hpay.
  unfold is_u64 in *. rewrite u64_small in Hmax, Hmin, Hpay by (unfold is_u64; lia).
  destruct (Z.eqb_spec ((adduser_EndTime a - adduser_StartTime a) `mod` SecondsMonth) 0) as [Hmod|];
    [|done]. cbn [negb] in Hpay.
  destruct (GetUserType _ _) as [ut|]; [|done]. apply Z.eqb_eq in Hpay. split; [|by exists ut].
  unfold SecondsMonth in *. apply Z.mod_divide in Hmod as [q Hq]; [|lia]. lia.
Qed.

(** C36: A proof of work that is accepted comes from a working node and credits
    between 1 and 60 seconds and between 1 and 1000 units of flow. *)
Theorem accepted_proof_is_bounded p t w w' :
  is_u64 (proof_StartTime p) -> is_u64 (proof_EndTime p) ->
  ProofTx_Execute p t w = (w', Ok tt) ->
  exists ty w1, IsValidWorkAddress (w_sama w) (ctx_Sender t) = inr (true, ty) /\
    1 <= proof_Netflow p <= 1000 /\
    1 <= proof_EndTime p - proof_StartTime p <= 60 /\
    w_sama w1 = w_sama w /\ w_db w1 = w_db w /\
    zoom (PutPow ty (mkProofMeta (proof_Netflow p) (proof_EndTime p - proof_StartTime p)
      (ctx_Sender t) (ctx_TxID t) (ctx_BlockTime t))) w1 = (w', Ok tt).
Proof.
  intros Hs He Hrun. unfold ProofTx_Execute in Hrun. cbv zeta in Hrun.
  apply bind_ok in Hrun as (? & s & Hc & Hrun). unfold gets in Hc. injection Hc as <- <-.
  apply bind_ok in Hrun as (? & [ok ty] & Hc & Hrun). unfold lift in Hc. injection Hc as <- Hv.
  apply bind_ok in Hrun as (? & [] & Hc & Hrun). apply check_ok in Hc as [Hok%negb_false_iff ->].
  apply bind_ok in Hrun as (? & [] & Hc & Hrun). apply check_ok in Hc as [Hf1%Z.ltb_ge ->].
  apply bind_ok in Hrun as (? & [] & Hc & Hrun). apply check_ok in Hc as [Hf2%Z.ltb_ge ->].
  apply bind_ok in Hrun as (? & [] & Hc & Hrun). apply check_ok in Hc as [Hord%Z.ltb_ge ->].
  apply bind_ok in Hrun as (w1 & n1 & Hnow & Hrun). apply unix_now_ok in Hnow as [Hs1 Hd1].
  apply bind_ok in Hrun as (? & [] & Hc & Hrun). apply check_ok in Hc as [_ ->].
  apply bind_ok in Hrun as (w2 & n2 & Hnow & Hrun). apply unix_now_ok in Hnow as [Hs2 Hd2].
  apply bind_ok in Hrun as (? & [] & Hc & Hrun). apply check_ok in Hc as [_ ->].
  apply bind_ok in Hrun as (? & [] & Hc & Hrun). apply check_ok in Hc as [Hi1%Z.ltb_ge ->].
  apply bind_ok in Hrun as (? & [] & Hc & Hrun). apply check_ok in Hc as [Hi2%Z.ltb_ge ->].
  unfold is_u64, minTime, maxTime, minFlow, maxFlow in *.
  rewrite u64_small in Hi1, Hi2, Hrun by (unfold is_u64; lia).
  exists ty, w2. subst ok. split_and!; try lia.
  - unfold of_result in Hv. destruct (IsValidWorkAddress _ _); [done|]. congruence.
  - congruence.
  - congruence.
  - exact Hrun.
Qed.
End users_and_proofs.
