(* ===== verification/Samples.v ===== *)
(** * A concrete chain for the witnesses

    Accounts, a genesis, a clock and worlds small enough to evaluate: the
    witnesses run the definitions on them. *)

From S2P Require Import Prelude External GoStd PendingCache Instances Keys Storage Genesis.
From S2P Require Import Stakers Pows Rewards Actions Users Details SysParams SamaState StateFacts Tx.
From S2P Require Import Frames Areas Coherence Restart.

#[export] Instance sample_clock : GoRuntime := sample_runtime 1700000000.
#[export] Instance sample_clock_laws : GoRuntimeLaws := sample_runtime_laws 1700000000.
#[export] Instance the_codecs : ChainCodecs := sample_codecs.
#[export] Instance the_codec_laws : ChainCodecLaws := sample_codec_laws.

(** A decidable fact about concrete values. *)
Ltac vm_decide := apply (bool_decide_eq_true_1 _); vm_compute; reflexivity.

(** A run that is known to succeed. *)
Lemma ran {S A} (m : M S A) (s : S) a : (m s).2 = Ok a -> m s = ((m s).1, Ok a).
Proof. destruct (m s). simpl. by intros ->. Qed.

Definition addr (n : Z) : Address := sized_of 20 [byte_of_Z n].
Definition txid (n : Z) : ID := sized_of 32 [byte_of_Z n].
Definition action (n : Z) : ShortID := sized_of 20 [byte_of_Z n].

Definition empty_db : @DB memdb := (∅ : gmap bytes bytes).
Definition with_balance (a : Address) (z : Z) (db : @DB memdb) : @DB memdb :=
  db_set db (PrefixBalanceKey a) (be_PutUint64 z).
Definition with_stake (a : Address) (z : Z) (db : @DB memdb) : @DB memdb :=
  db_set db (PrefixStakeKey a) (be_PutUint64 z).

Lemma empty_accounts_ok : accounts_ok empty_db.
Proof. intros k v _ Hv. vm_compute in Hv. done. Qed.
Lemma with_balance_ok a z db : accounts_ok db -> accounts_ok (with_balance a z db).
Proof. apply accounts_ok_set_amount. Qed.
Lemma with_stake_ok a z db : accounts_ok db -> accounts_ok (with_stake a z db).
Proof. apply accounts_ok_set_amount. Qed.
#[export] Hint Resolve empty_accounts_ok with_balance_ok with_stake_ok : samples.

(** Account 1 owns 1000 units, account 3 owns 7. *)
Definition sample_db : @DB memdb := with_balance (addr 3) 7 (with_balance (addr 1) 1000 empty_db).
Lemma sample_db_ok : accounts_ok sample_db.
Proof. unfold sample_db. auto with samples. Qed.

Definition start (db : @DB memdb) : world := mkWorld db (fresh_state DefaultGenesis) 0.

(** A block with id 9 is recent; the next price is 5. *)
Definition sample_base : BaseTx := mkBaseTx (txid 9) 0 5.
Definition sample_context : Context_t := mkContext {[ txid 9 ]} ∅ 0 [] [] 0 5.
Definition sample_tx (u : UnsignedTransaction) : Transaction :=
  mkTransaction u [] [] [] (txid 1) 0 (addr 1).
Definition at_time (t : Z) : TransactionContext :=
  mkTransactionContext DefaultGenesis t (txid 1) (addr 1).

(** The root account, and an open action it has voted for. *)
Definition root : Address := sized_of 20 (String.list_byte_of_string (Genesis_RootAddress DefaultGenesis)).
Definition approved (id : ShortID) (ty : Z) (key value : string) : ActionMeta :=
  mkActionMeta id ty 1699999000 1700000900 [] [root] key value.
Definition one_action (m : ActionMeta) : actionsState :=
  mkActionsState {[1%positive := m]} 2 {[Action_ActionID m := 1%positive]} ∅ ∅.

Definition with_actions (a : actionsState) (s : samaState) : samaState :=
  mkSamaState (st_params s) (st_stakers s) (st_rewards s) (st_pows s) (st_yields s) (st_users s)
    (st_details s) a (st_userTypes s).
Definition with_stakers (x : stakerState) (s : samaState) : samaState :=
  mkSamaState (st_params s) x (st_rewards s) (st_pows s) (st_yields s) (st_users s)
    (st_details s) (st_actions s) (st_userTypes s).
Definition with_details (x : detailsState) (s : samaState) : samaState :=
  mkSamaState (st_params s) (st_stakers s) (st_rewards s) (st_pows s) (st_yields s) (st_users s)
    x (st_actions s) (st_userTypes s).
Definition with_user_types (x : userTypesState) (s : samaState) : samaState :=
  mkSamaState (st_params s) (st_stakers s) (st_rewards s) (st_pows s) (st_yields s) (st_users s)
    (st_details s) (st_actions s) x.
Definition at_state (db : @DB memdb) (f : samaState -> samaState) : world :=
  mkWorld db (f (fresh_state DefaultGenesis)) 0.

(** Service node 1 has staked since [SecondsYear] before the clock. *)
Definition ser_staker (a : Address) (t : Z) : StakerMeta :=
  mkStakerMeta (txid 7) SerStake 100000000 t a.
Definition one_ser (a : Address) (t : Z) : stakerState :=
  mkStakerState ∅ {[a := ser_staker a t]} ∅ ∅ ∅ ∅ ∅ ∅ ∅.
Definition routes (l : list Address) : stakerState :=
  mkStakerState (list_to_map ((fun a => (a, mkStakerMeta (txid 7) RouteStake 200000000 1690000000 a)) <$> l))
    ∅ ∅ ∅ ∅ ∅ ∅ ∅ ∅.

#[export] Instance the_codec_total : ChainCodecTotal := sample_codec_total.

(** A database with balances only. *)
Lemma empty_only_ledger : only_ledger empty_db.
Proof. intros kb [v Hv]. vm_compute in Hv. done. Qed.
Lemma with_balance_only_ledger a z db : only_ledger db -> only_ledger (with_balance a z db).
Proof.
  intros Hdb kb. unfold with_balance. rewrite db_lookup_set.
  case_decide as Hk; [intros _; rewrite <- Hk; apply balance_area|apply Hdb].
Qed.
#[export] Hint Resolve empty_only_ledger with_balance_only_ledger : samples.

(** A property of the keys of a concrete database, checked on each of them. *)
Lemma every_key (P : bytes -> bool) (db : gmap bytes bytes) :
  forallb P (map_to_list db).*1 = true -> forall k, is_Some (db_lookup db k) -> P k = true.
Proof.
  rewrite forallb_forall. intros Hall k [v Hv]. apply Hall, list_elem_of_In, list_elem_of_fmap.
  exists (k, v). split; [done|]. apply elem_of_map_to_list.
  unfold db_lookup in Hv. cbn in Hv. by destruct (db !! k); simplify_eq.
Qed.
Definition not_under (p k : bytes) : bool := negb (bool_decide (p `prefix_of` k)).
Lemma no_key_under (p : bytes) (db : gmap bytes bytes) (k : bytes) :
  forallb (not_under p) (map_to_list db).*1 = true -> p `prefix_of` k -> db_lookup db k = None.
Proof.
  intros Hall Hp. destruct (@db_lookup memdb db k) as [v|] eqn:Hk; [|done].
  pose proof (every_key (not_under p) db Hall k ltac:(by eexists)) as Hno.
  unfold not_under in Hno. by rewrite bool_decide_eq_true_2 in Hno.
Qed.
Lemma no_user_types_in db :
  forallb (not_under [usersPrefix; ByteDelimiter]) (map_to_list db).*1 = true -> no_user_types db.
Proof. intros Hall i. eapply no_key_under; [exact Hall|]. by eexists. Qed.
Lemma no_stake_shadow_in db :
  forallb (fun t => forallb (not_under [stakerPrefix; ByteDelimiter; t; ByteDelimiter])
    (map_to_list db).*1) StakerTypes = true -> no_stake_shadow db.
Proof.
  intros Hall a t rest Ht Ha. rewrite forallb_forall in Hall.
  eapply no_key_under; [by apply Hall, list_elem_of_In|].
  exists rest. unfold PrefixStakeKey. by rewrite Ha.
Qed.

Definition is_own_key (kb : bytes) : bool :=
  match classify kb with
  | Some k => bool_decide (key_ok k) && bool_decide (kb = render k)
  | None => false
  end.
Lemma own_keys_in (db : gmap bytes bytes) :
  forallb is_own_key (map_to_list db).*1 = true -> own_keys (fun k => is_Some (db_lookup db k)).
Proof.
  intros Hall kb Hkb. pose proof (every_key is_own_key db Hall kb Hkb) as Hown.
  unfold is_own_key in Hown. destruct (classify kb) as [k|]; [|done].
  apply andb_true_iff in Hown as [Hok Heq]. exists k.
  by rewrite bool_decide_eq_true in Hok; rewrite bool_decide_eq_true in Heq.
Qed.

(** Every stored amount that starts like an account is 8 bytes long. *)
Definition accounts_okb (db : @DB memdb) : bool :=
  forallb (fun kv => match kv.1 with
    | p :: _ => (negb (bool_decide (p = balancePrefix)) && negb (bool_decide (p = stakerPrefix)))
                || (length kv.2 =? 8)%nat
    | [] => true end) (map_to_list (db : gmap bytes bytes)).
Lemma accounts_okb_ok db : accounts_okb db = true -> accounts_ok db.
Proof.
  unfold accounts_okb. rewrite forallb_forall. intros Hall k v (a & Hk) Hv.
  assert ((db : gmap bytes bytes) !! k = Some v) as Hlk
    by (unfold db_lookup in Hv; cbn in Hv; by destruct (_ !! k)).
  specialize (Hall (k, v) (proj1 (list_elem_of_In _ _) (proj2 (elem_of_map_to_list _ _ _) Hlk))).
  cbn [fst snd] in Hall.
  destruct Hk as [-> | ->]; cbn in Hall; by apply Nat.eqb_eq in Hall.
Qed.
