(* ===== verification/NodeSamples.v ===== *)
(** * A concrete node for the witnesses

    The codec of signed transactions and the byte forms of typed data, for the
    witnesses on signatures, the mempool and blocks. *)

From S2P Require Import Prelude External GoStd TData Instances Keys Storage Genesis.
From S2P Require Import SamaState Tx TypedTx Samples.

#[export] Instance sample_eth_math : EthMath := {|
  IsHexAddress _ := true;
  HexOrDecimal256 := ParseUint;
  PaddedBigBytes z n := reverse (le_bytes n z);
  U256Bytes z := reverse (le_bytes 32 z)
|}.
#[export] Instance sample_eth_math_laws : EthMathLaws.
Proof.
  split.
  - done.
  - intros n Hn. by apply ParseUint_FormatUint.
  - intros z. change (length (reverse (le_bytes 32 z)) = 32%nat). by rewrite length_reverse, le_bytes_length.
Qed.

#[local] Unset Program Cases.

(** A tagged union packs as its tag and its value. *)
Program Definition packable_sum {A B} `{Packable A, Packable B} : Packable (A + B) := {|
  pack x := match x with inl a => x00 :: pack a | inr b => x01 :: pack b end;
  unpack l := match l with
    | x00 :: l' => prod_map inl id <$> unpack l'
    | x01 :: l' => prod_map inr id <$> unpack l'
    | _ => None
    end
|}.
Next Obligation. intros A B HA HB x rest. destruct x as [a|b]; cbn; by rewrite unpack_pack. Qed.
#[local] Existing Instance packable_sum.

#[local] Instance packable_base : Packable BaseTx :=
  packable_via (fun b => (base_BlockID b, base_Magic b, base_Price b))
    (fun '(i, m, p) => mkBaseTx i m p) ltac:(by intros []).

Definition tx_sum : Type :=
  (BaseTx * bytes) + ((BaseTx * Address * Z) + ((BaseTx * Z * Z * Address) + ((BaseTx * Z * Z * Z) +
  ((BaseTx * Z * Z) + ((BaseTx * ShortID * Z * string * string * string * (Z * Z * Z) * string * Address) +
  ((BaseTx * string * string * string * (Z * Z * Z) * string) + ((BaseTx * (Z * Z * Z * Z * Z) * Address) +
  ((BaseTx * ShortID) + ((BaseTx * ShortID) + ((BaseTx * ShortID) + ((BaseTx * Z * Z * Z * Address) +
  (BaseTx * ShortID * (Z * Z * Z) * string * string)))))))))))).

Definition tx_to_sum (u : UnsignedTransaction) : tx_sum :=
  match u with
  | USet (mkSetTx b v) => inl (b, v)
  | UTransfer (mkTransferTx b a z) => inr (inl (b, a, z))
  | UStake (mkStakeTx b t z a) => inr (inr (inl (b, t, z, a)))
  | UUnStake (mkUnStakeTx b r t e) => inr (inr (inr (inl (b, r, t, e))))
  | UClaim (mkClaimTx b r e) => inr (inr (inr (inr (inl (b, r, e)))))
  | URegister (mkRegisterTx b i t c l p m1 m2 m3 k a) =>
      inr (inr (inr (inr (inr (inl (b, i, t, c, l, p, (m1, m2, m3), k, a))))))
  | URefresh (mkRefreshTx b c l p m1 m2 m3 k) =>
      inr (inr (inr (inr (inr (inr (inl (b, c, l, p, (m1, m2, m3), k)))))))
  | UAddUser (mkAddUserTx b s e p c t a) =>
      inr (inr (inr (inr (inr (inr (inr (inl (b, (s, e, p, c, t), a))))))))
  | UGovern (mkGovernTx b i) => inr (inr (inr (inr (inr (inr (inr (inr (inl (b, i)))))))))
  | UVote (mkVoteTx b i) => inr (inr (inr (inr (inr (inr (inr (inr (inr (inl (b, i))))))))))
  | UWithdrawn (mkWithdrawnTx b i) =>
      inr (inr (inr (inr (inr (inr (inr (inr (inr (inr (inl (b, i)))))))))))
  | UProof (mkProofTx b n s e a) =>
      inr (inr (inr (inr (inr (inr (inr (inr (inr (inr (inr (inl (b, n, s, e, a))))))))))))
  | UProposal (mkProposalTx b i s e t k v) =>
      inr (inr (inr (inr (inr (inr (inr (inr (inr (inr (inr (inr (b, i, (s, e, t), k, v))))))))))))
  end.
Definition tx_of_sum (x : tx_sum) : UnsignedTransaction :=
  match x with
  | inl (b, v) => USet (mkSetTx b v)
  | inr (inl (b, a, z)) => UTransfer (mkTransferTx b a z)
  | inr (inr (inl (b, t, z, a))) => UStake (mkStakeTx b t z a)
  | inr (inr (inr (inl (b, r, t, e)))) => UUnStake (mkUnStakeTx b r t e)
  | inr (inr (inr (inr (inl (b, r, e))))) => UClaim (mkClaimTx b r e)
  | inr (inr (inr (inr (inr (inl (b, i, t, c, l, p, (m1, m2, m3), k, a)))))) =>
      URegister (mkRegisterTx b i t c l p m1 m2 m3 k a)
  | inr (inr (inr (inr (inr (inr (inl (b, c, l, p, (m1, m2, m3), k))))))) =>
      URefresh (mkRefreshTx b c l p m1 m2 m3 k)
  | inr (inr (inr (inr (inr (inr (inr (inl (b, (s, e, p, c, t), a)))))))) =>
      UAddUser (mkAddUserTx b s e p c t a)
  | inr (inr (inr (inr (inr (inr (inr (inr (inl (b, i))))))))) => UGovern (mkGovernTx b i)
  | inr (inr (inr (inr (inr (inr (inr (inr (inr (inl (b, i)))))))))) => UVote (mkVoteTx b i)
  | inr (inr (inr (inr (inr (inr (inr (inr (inr (inr (inl (b, i))))))))))) =>
      UWithdrawn (mkWithdrawnTx b i)
  | inr (inr (inr (inr (inr (inr (inr (inr (inr (inr (inr (inl (b, n, s, e, a)))))))))))) =>
      UProof (mkProofTx b n s e a)
  | inr (inr (inr (inr (inr (inr (inr (inr (inr (inr (inr (inr (b, i, (s, e, t), k, v)))))))))))) =>
      UProposal (mkProposalTx b i s e t k v)
  end.
#[export] Instance packable_tx : Packable UnsignedTransaction :=
  packable_via tx_to_sum tx_of_sum ltac:(by intros [[]|[]|[]|[]|[]|[]|[]|[]|[]|[]|[]|[]|[]]).

#[export] Instance the_tx_codec : TxCodec := {| codec_tx := _ |}.
#[export] Instance the_tx_codec_laws : TxCodecLaws.
Proof. split. apply packable_codec_laws. Qed.

Definition sample_sig : bytes := replicate 64 x05 ++ [x1b].
