(* ===== verification/ChainSamples.v ===== *)
(** * A concrete node with a chain, for the witnesses on blocks

    A node started on a small genesis, and a node with two blocks put in place
    by hand. *)

From S2P Require Import Prelude External GoStd TData Builder Instances Keys Storage Genesis.
From S2P Require Import Actions Users SamaState StateFacts Tx TypedTx Activity Block BlockFacts Mempool VM Lookback.
From S2P Require Import Network Samples NodeSamples.

#[export] Instance the_block_codec : BlockCodec := {| codec_block := _ |}.
#[export] Instance the_block_codec_laws : BlockCodecLaws.
Proof. split. apply packable_codec_laws. Qed.
#[export] Instance the_gossip_codec : GossipCodec := {| codec_gossip := _ |}.
#[export] Instance the_sender : AppSender := {| SendAppGossip _ := inr tt |}.

Definition G : Genesis := {|
  Genesis_Magic := 7;
  Genesis_BaseTxUnits := 1;
  Genesis_ValueUnitSize := DefaultValueUnitSize;
  Genesis_MaxValueSize := 200 * 1024;
  Genesis_MinPrice := 3;
  Genesis_LookbackWindow := 60;
  Genesis_TargetBlockRate := 1;
  Genesis_TargetBlockSize := 225;
  Genesis_MaxBlockSize := 246;
  Genesis_BlockCostEnabled := true;
  Genesis_CustomAllocation := [mkCustomAllocation (sized_of 20 (replicate 20 x05)) 1000];
  Genesis_AirdropHash := "";
  Genesis_AirdropUnits := 0;
  Genesis_TotalTokens := 2100000000000;
  Genesis_ClaimMinUnits := 100;
  Genesis_ClaimMinInterval := 7 * 24 * 60 * 60;
  Genesis_TotalYears := 10;
  Genesis_RateSustainYears := 1;
  Genesis_ChainCreateTime := 1668125288;
  Genesis_MinerPerc := 20;
  Genesis_FoundationPerc := 40;
  Genesis_RoutePerc := 30;
  Genesis_SerPerc := 50;
  Genesis_ValidatorPerc := 20;
  Genesis_BaseSerPerc := 20;
  Genesis_MeritSerPerc := 80;
  Genesis_BaseRoutePerc := 20;
  Genesis_MeritRoutePerc := 80;
  Genesis_BurnPerc := 20;
  Genesis_RouteStake := 200000000;
  Genesis_SerStake := 100000000;
  Genesis_MonthCard := 100;
  Genesis_SeasonCard := 300;
  Genesis_AnnualCard := 1200;
  Genesis_MinStakeTime := 90 * 24 * 60 * 60;
  Genesis_RootAddress := "0x8db97c7cece249c2b98bdc0226cc4c2a57bf52fc";
  Genesis_FoundationAddr := "0x8db97c7cece249c2b98bdc0226cc4c2a57bf52fc"
|}.

(** ** A node started on [G] *)

Definition empty_vm : VM := vm_zero empty_db 10 4 G 225 (fresh_state G) 0.
Definition booted : VM :=
  match Initialize empty_db (inr (10, 4)) (inr G) [] (fun _ => inr []) (fresh_state G) 0 with
  | Ok v => v
  | _ => empty_vm
  end.
(** The state after a run, and its value. *)
Definition after {A} (m : M VM A) (v : VM) : VM := (m v).1.
Definition loc_of (m : M VM block_loc) (v : VM) : block_loc :=
  match (m v).2 with Ok l => l | _ => 1%positive end.

(** The payer signs a transfer at 5, and the node builds a block of it. *)
Definition payer : Address := sized_of 20 (replicate 20 x05).
Definition pay : UnsignedTransaction :=
  UTransfer (mkTransferTx (mkBaseTx (vm_preferred booted) 7 5) (addr 2) 40).
Definition submitted : VM := after (Submit [NewTx pay sample_sig]) booted.
Definition built : VM := after (vm_BuildBlock 0) submitted.
Definition built_at : block_loc := loc_of (vm_BuildBlock 0) submitted.
Definition verified_vm : VM := after (Verify built_at) built.
Definition accepted_vm : VM := after (Accept built_at) verified_vm.

(** ** A decidable form of well-formedness *)
Definition vm_wfb (v : VM) : bool :=
  bool_decide (Forall (fun lb => (lb.1 < vm_next v)%positive) (map_to_list (vm_objects v))) &&
  bool_decide (Forall (fun il => is_Some (vm_objects v !! il.2)) (map_to_list (vm_blocks v : gmap ID block_loc))) &&
  bool_decide (Forall (fun il => is_Some (vm_objects v !! il.2)) (map_to_list (vm_verifiedBlocks v))).
Lemma vm_wfb_ok v : vm_wfb v = true -> vm_wf v.
Proof.
  unfold vm_wfb. rewrite !andb_true_iff, !bool_decide_eq_true, !Forall_forall.
  intros [[Ho Hc] Hv]. split.
  - intros l Hl. apply eq_None_not_Some. intros [b Hb].
    apply elem_of_map_to_list, Ho in Hb. cbn in Hb. lia.
  - intros id l Hl. by apply (Hc (id, l)), elem_of_map_to_list.
  - intros id l Hl. by apply (Hv (id, l)), elem_of_map_to_list.
Qed.

(** ** A node with two blocks, put in place by hand *)

Definition hand_block (id parent : ID) (height : Z) (txs : list Transaction) : StatelessBlock :=
  mkStatelessBlock (mkStatefulBlock parent 1700000000 height 3 0 (sized_of 32 []) txs)
    id Processing 1700000000 [] [] (Some empty_db).
(** Block 10, on block 9, has the transfer of [tx]; the node prefers it. *)
Definition hand_vm (tx : Transaction) : VM :=
  mkVM empty_db 4 G (Mempool_New G 10) cache_New {[ txid 9 := 1%positive; txid 10 := 2%positive ]}
    (NewTimeBuilder 0) (txid 10) 1 0 [] 225 (fresh_state G)
    {[ 1%positive := hand_block (txid 9) EmptyID 0 []; 2%positive := hand_block (txid 10) (txid 9) 1 [tx] ]}
    3 0.
Lemma hand_vm_wf tx : vm_wf (hand_vm tx).
Proof. apply vm_wfb_ok. vm_compute. reflexivity. Qed.
Lemma hand_vm_blocks tx id b :
  find_block (hand_vm tx) id = Ok b ->
  (id = txid 9 /\ b = hand_block (txid 9) EmptyID 0 []) \/
  (id = txid 10 /\ b = hand_block (txid 10) (txid 9) 1 [tx]).
Proof.
  unfold find_block, cached. cbn [hand_vm vm_blocks vm_verifiedBlocks vm_db vm_genesis].
  change (cache_Get cache_New id).2 with (@None positive). cbn iota beta.
  destruct (decide (id = txid 9)) as [->|H9]; [rewrite lookup_insert_eq; cbn; intros [= <-]; by left|].
  rewrite lookup_insert_ne by done.
  destruct (decide (id = txid 10)) as [->|H10]; [rewrite lookup_singleton_eq; cbn; intros [= <-]; by right|].
  rewrite lookup_singleton_ne by done. done.
Qed.

(** ** A block that does not verify

    A peer sends a block of two transactions: a proposal, and a transfer its
    sender has not the balance for. *)
Definition proposal : UnsignedTransaction :=
  UProposal (mkProposalTx (mkBaseTx (vm_preferred booted) 7 5) (action 4) 0 0 actionTypeAddUserType "9" "70").
Definition overdraft : UnsignedTransaction :=
  UTransfer (mkTransferTx (mkBaseTx (vm_preferred booted) 7 5) (addr 2) 5000).
Definition bad_bytes : bytes :=
  match vm_objects built !! built_at with
  | Some b => match Marshal (to_wire (set_Txs [NewTx proposal sample_sig; NewTx overdraft sample_sig]
                                        (sb_block b))) with
              | inr s => s | inl _ => [] end
  | None => []
  end.
Definition received : VM := after (vm_ParseBlock bad_bytes) built.
Definition bad_at : block_loc := loc_of (vm_ParseBlock bad_bytes) built.

(** The two nodes: both verify and accept the good block, one has seen the bad
    one before. *)
Definition accepts (l : block_loc) (v : VM) : VM := after (Accept l) (after (Verify l) v).
Definition saw_bad : VM := after (Verify bad_at) received.
Definition open_actions (v : VM) : list ShortID := (map_to_list (curActions (st_actions (vm_samaState v)))).*1.
