(* ===== verification/ServiceSamples.v ===== *)
(** * A concrete service and client for the witnesses *)

From S2P Require Import Prelude External GoStd TData Builder Instances Keys Storage Genesis.
From S2P Require Import Actions Users SamaState StateFacts Tx TypedTx Activity Keystore Block BlockFacts Mempool VM Service Client Tree.
From S2P Require Import Lookback TypedTxFacts ServiceFacts TreeFacts Samples NodeSamples ChainSamples.

(** ** Keys: the twenty bytes of the address *)
#[export] Instance sample_secp : Secp := {|
  PrivateKey := Address;
  sk_Bytes := array;
  ToPrivateKey b := if decide (length b = 20)%nat then inr (sized_of 20 b) else inl (ExtError "invalid key");
  sk_PublicKey sk := array sk;
  crypto_Sign dh sk :=
    if decide (length dh = 32)%nat then inr (array sk ++ replicate 44 x00 ++ [x00])
    else inl (ExtError "hash is required to be exactly 32 bytes")
|}.
#[export] Instance sample_secp_laws : SecpLaws.
Proof.
  split.
  - intros sk. cbn. by rewrite decide_True, sized_of_array by apply sized_length.
  - intros dh sk Hl. cbn. rewrite decide_True by done. by eexists.
  - intros dh sk sig. cbn. case_decide; [|done]. intros [= <-].
    exists (array sk ++ replicate 44 x00), x00. split_and!.
    + by rewrite length_app, length_replicate, sized_length.
    + by left.
    + by rewrite <- app_assoc.
    + f_equal. apply take_app_length'. by rewrite sized_length.
Qed.
Definition user_database (ks : gmap string (string * @DB memdb)) (user pass : string) : result (@DB memdb) :=
  match ks !! user with
  | Some (p, db) => if String.eqb p pass then inr db else inl (ExtError "incorrect password")
  | None => inl (ExtError "user doesn't exist")
  end.
Definition keep_database (ks : gmap string (string * @DB memdb)) (user : string) (db : @DB memdb) :
    gmap string (string * @DB memdb) := alter (fun pdb => (pdb.1, db)) user ks.
Lemma user_database_kept ks user pass db db' :
  user_database ks user pass = inr db -> user_database (keep_database ks user db') user pass = inr db'.
Proof.
  unfold user_database, keep_database. rewrite lookup_alter_eq.
  destruct (ks !! user) as [[p d]|]; cbn; [|done]. by destruct (String.eqb p pass).
Qed.
#[export] Instance sample_keystore : Keystore := {|
  KS := gmap string (string * @DB memdb); GetDatabase := user_database; ks_store := keep_database
|}.
#[export] Instance sample_keystore_laws : KeystoreLaws := user_database_kept.
#[export] Instance sample_snow : SnowContext := {| ctx_NetworkID := 1; ctx_SubnetID := txid 1; ctx_ChainID := txid 2 |}.
#[export] Instance sample_random : Randomness := {|
  rand_Intn i n := (i `mod` n)%nat;
  ToShortID b := if decide (length b = 20)%nat then inr (sized_of 20 b) else inl (ExtError "invalid length")
|}.
#[export] Instance sample_random_laws : RandomnessLaws.
Proof.
  split; [intros i n Hn; apply Nat.mod_upper_bound; lia|]. intros b Hb. cbn. by rewrite decide_True.
Qed.
#[export] Instance the_addresses_codec : Codec (list Address) := packable_codec.
#[export] Instance the_addresses_codec_laws : CodecLaws (list Address).
Proof. apply packable_codec_laws. Qed.
#[export] Instance the_addresses_codec_total : CodecTotal (list Address) := packable_codec_total.

(** The service of a node, whose user alice has no keys yet. *)
Definition service_of (v : VM) : PublicService :=
  mkPublicService v ∅ ∅ {[ "alice"%string := ("secret"%string, empty_db) ]} 0.

(** ** A file and a store of values *)
#[export] Instance file_reader : Reader := {|
  Rd := bytes;
  Read f buf :=
    let n := length buf in
    (drop n f, (take n f ++ drop (length f) buf, length (take n f), if bool_decide (f = []) then Some EOF else None))
|}.
#[export] Program Instance file_reader_file : FileReader := {| unread f := f |}.
Next Obligation.
  intros f buf. exists (length (take (length buf) f)), (drop (length f) buf). eexists _, _. split_and!.
  - unfold Read, file_reader. rewrite length_take. f_equal. f_equal. f_equal. f_equal.
    destruct (decide (length buf <= length f)%nat); [by rewrite Nat.min_l by lia|].
    by rewrite Nat.min_r, !take_ge by lia.
  - rewrite length_take. lia.
  - rewrite length_take, length_drop. lia.
  - cbn. rewrite length_take. destruct (decide (length buf <= length f)%nat); [by rewrite Nat.min_l by lia|].
    by rewrite Nat.min_r, !drop_ge by lia.
  - case_bool_decide; [|done]. subst f. by rewrite take_nil.
Qed.
#[export] Instance file_reader_full : FullReader.
Proof. split. intros f buf _. by eexists. Qed.
Lemma file_reads_fully : reads_fully.
Proof. intros f buf. cbn. apply length_take. Qed.
#[export] Instance buffer_writer : Writer := {| Wr := bytes; Write w b := (w ++ b, inr tt) |}.
#[export] Program Instance buffer_writer_file : FileWriter := {| written w := w |}.
Next Obligation. by intros w b o' [= <-]. Qed.
#[export] Instance buffer_writer_full : FullWriter.
Proof. split. intros w b. by eexists. Qed.
#[export] Instance the_root_json : RootJSON := {| json_root := @packable_codec Root
  (packable_via (fun r => (Contents r, Children r)) (fun '(c, l) => mkRoot c l) ltac:(by intros [])) |}.
#[export] Instance the_root_json_laws : RootJSONLaws.
Proof. split. apply packable_codec_laws. Qed.

(** A node that takes every [SetTx] with a new value, at no fee, and has each
    transaction at once. *)
Definition value_in (w : gmap Hash bytes) (k : Hash) : option bytes :=
  match w !! k with Some v => if decide (ValueHash v = k) then Some v else None | None => None end.
Definition take_value (w : gmap Hash bytes) (d : bytes) : gmap Hash bytes * result ID :=
  match Unmarshal (A := UnsignedTransaction * bytes) d with
  | inr (USet t, _) =>
      match value_in w (ValueHash (set_Value t)) with
      | None => (<[ValueHash (set_Value t) := set_Value t]> w, inr EmptyID)
      | Some _ => (w, inl ErrKeyExists)
      end
  | _ => (w, inl ErrInvalidType)
  end.
Definition unsupported {R} (w : gmap Hash bytes) : gmap Hash bytes * result R := (w, inl (ExtError "unsupported")).
#[export] Instance value_node : Requester := {|
  Remote := gmap Hash bytes;
  SendRequest R q w := match q in Request R return gmap Hash bytes * result R with
    | req_genesis => (w, inr (Some G))
    | req_lastAccepted => (w, inr (0, EmptyID))
    | req_suggestedRawFee => (w, inr (0, 0))
    | req_issueRawTx d => take_value w d
    | req_hasTx _ => (w, inr true)
    | req_resolve k => (w, inr (match value_in w k with
        | Some v => mkResolveReply true v None | None => mkResolveReply false [] None end))
    | _ => unsupported w
    end;
  ctx_Err _ := None;
  pause w := (w, true)
|}.

Definition stored_as (v : bytes) : UnsignedTransaction := USet (mkSetTx (mkBaseTx EmptyID 7 0) v).
Definition digestible (v : bytes) : Prop :=
  match tx_DigestHash (stored_as v) with Ok dh => length dh = 32%nat | _ => False end.

Lemma value_in_hash w k v : value_in w k = Some v -> ValueHash v = k.
Proof. unfold value_in. destruct (w !! k) as [x|]; [|done]. case_decide; [|done]. by intros [= ->]. Qed.
Lemma value_in_insert w v k : value_in (<[ValueHash v := v]> w) k = if decide (k = ValueHash v) then Some v else value_in w k.
Proof.
  unfold value_in. destruct (decide (k = ValueHash v)) as [->|Hne].
  - rewrite lookup_insert_eq. by rewrite decide_True.
  - by rewrite lookup_insert_ne by done.
Qed.
Lemma resolve_value w k :
  exists m, cli_Resolve k w = (w, Ok (match value_in w k with Some v => (true, v, m) | None => (false, [], m) end)) /\ m = None.
Proof.
  exists None. split; [|done]. unfold cli_Resolve, send, bind. cbn.
  destruct (value_in w k) as [v|] eqn:Hv; cbn; [|done].
  rewrite bool_decide_eq_false_2; [done|]. intros Hne. apply Hne. symmetry. by apply (value_in_hash w).
Qed.

Lemma store_value (priv : PrivateKey) (w : Remote) v :
  digestible v -> value_in w (ValueHash v) = None ->
  exists id cost, store 1 priv v w = (<[ValueHash v := v]> w, Ok (id, cost)).
Proof.
  intros Hd Hnone. unfold digestible in Hd. destruct (tx_DigestHash (stored_as v)) as [dh|e|p] eqn:Hdh; [|done..].
  destruct (Sign_total dh priv Hd) as [sig Hsig].
  pose proof (Sign_DeriveSender _ _ _ Hsig) as Hpk.
  destruct (Marshal_total (stored_as v, sig)) as [stx Hm].
  pose proof (Init_run (stored_as v) sig G dh _ stx Hdh Hpk Hm) as Hinit.
  assert (exists fu, FeeUnits (stored_as v) G = Ok fu) as [fu Hfu] by (by eexists).
  assert (suggest_price 0 0 fu (mkDecoded (stored_as v) true) = Ok (mkDecoded (stored_as v) true)) as Hprice
    by (unfold suggest_price; destruct (fu =? 0); [done|]; by rewrite Zdiv_0_l).
  assert (take_value w stx = (<[ValueHash v := v]> w, inr EmptyID)) as Htake.
  { unfold take_value. rewrite (Unmarshal_Marshal _ _ Hm). cbn [stored_as set_Value]. by rewrite Hnone. }
  exists EmptyID, (0 *u fu). unfold store, SignIssueRawTx.
  rewrite (bind_run cli_Genesis _ w w (Some G) eq_refl), (bind_run cli_Accepted _ w w EmptyID eq_refl).
  rewrite (bind_run cli_SuggestedRawFee _ w w (0, 0) eq_refl).
  rewrite (bind_run _ _ w w (mkDecoded (USet (mkSetTx (mkBaseTx EmptyID 0 0) v)) true) eq_refl).
  rewrite (bind_run _ _ w w G eq_refl), (bind_run _ _ w w (mkDecoded (stored_as v) true) eq_refl).
  cbn [fst snd dec_tx]. unfold lift_outcome, lift.
  rewrite (bind_run _ _ w w fu) by (by rewrite Hfu).
  rewrite (bind_run _ _ w w (mkDecoded (stored_as v) true)) by (by rewrite Hprice). cbn [dec_tx].
  rewrite (bind_run _ _ w w dh) by (by rewrite Hdh). rewrite (bind_run _ _ w w sig) by (by rewrite Hsig).
  erewrite (bind_run _ _ w w) by (by rewrite Hinit). cbn [tx_Unsigned tx_bytes].
  erewrite (bind_run _ _ w w fu) by (by rewrite <- Hfu).
  rewrite (bind_run (cli_IssueRawTx stx) _ w (<[ValueHash v := v]> w) EmptyID)
    by (unfold cli_IssueRawTx, send; change (SendRequest (req_issueRawTx stx) w) with (take_value w stx); by rewrite Htake).
  done.
Qed.
#[export] Program Instance value_node_store (priv : PrivateKey) : ValueStore 1 priv := {|
  value_at := value_in; acceptable := digestible
|}.
Next Obligation. intros priv w k v. apply value_in_hash. Qed.
Next Obligation.
  intros priv w k. exists w. split; [done|]. destruct (resolve_value w k) as (m & Hrun & ->).
  destruct (value_in w k) as [v|]; [by exists None|done].
Qed.
Next Obligation.
  intros priv w v Hd Hnone. destruct (store_value priv w v Hd Hnone) as (id & cost & Hrun).
  exists (<[ValueHash v := v]> w), (id, cost). split; [done|]. apply value_in_insert.
Qed.
