(* ===== verification/Witnesses.v ===== *)
(** * Witnesses

    For each theorem with hypotheses, a concrete case in which they hold. *)

From S2P Require Import Prelude External GoStd PendingCache Instances Keys Storage Genesis.
From S2P Require Import Stakers Pows Rewards Actions Users Details SysParams SamaState StateFacts.
From S2P Require Import Tx Frames TxFacts GovernFacts Samples.

(** ** Transactions *)

Definition pay30 : TransferTx := mkTransferTx sample_base (addr 2) 30.
Definition pay30_tx : Transaction := sample_tx (UTransfer pay30).
Definition after_pay30 : world :=
  (Transaction_Execute pay30_tx DefaultGenesis 0 sample_context (start sample_db)).1.
Lemma pay30_runs :
  Transaction_Execute pay30_tx DefaultGenesis 0 sample_context (start sample_db) = (after_pay30, Ok tt).
Proof. unfold pay30. apply ran. vm_compute. reflexivity. Qed.

Lemma transfer_moves_units_witness :
  balance (w_db after_pay30) (addr 1) = 965 /\ balance (w_db after_pay30) (addr 2) = 30.
Proof.
  pose proof (transfer_moves_units pay30_tx pay30 DefaultGenesis 0 sample_context (start sample_db)
    eq_refl sample_db_ok ltac:(unfold is_u64; cbn; lia) eq_refl ltac:(vm_decide) ltac:(vm_decide)
    ltac:(vm_decide) ltac:(vm_decide) ltac:(vm_decide)) as Hmoves.
  rewrite pay30_runs in Hmoves. destruct Hmoves as [_ Hmoves].
  destruct (Hmoves eq_refl) as (_ & _ & Hbal). rewrite !Hbal. split; vm_compute; reflexivity.
Defined.

Lemma other_accounts_untouched_witness : balance (w_db after_pay30) (addr 3) = 7.
Proof.
  pose proof (other_accounts_untouched pay30_tx DefaultGenesis 0 sample_context (start sample_db)
    (addr 3) ltac:(vm_decide) ltac:(intros t [= <-]; vm_decide)) as Hother.
  cbv zeta in Hother. destruct Hother as [Hbal _]. unfold after_pay30. rewrite Hbal.
  vm_compute. reflexivity.
Defined.

Lemma executed_transaction_was_valid_witness :
  (exists w1 w2, balance (w_db w1) (addr 1) = balance sample_db (addr 1) - 5 /\ balance (w_db w1) (addr 2) = balance sample_db (addr 2) /\
    Execute (tx_Unsigned pay30_tx) (mkTransactionContext DefaultGenesis 0 (txid 1) (addr 1)) w1 = (w2, Ok tt)) /\
  HasTransaction (txid 1) (w_db after_pay30) = (w_db after_pay30, Ok true).
Proof.
  destruct (executed_transaction_was_valid pay30_tx DefaultGenesis 0
    sample_context (start sample_db) after_pay30 sample_db_ok pay30_runs)
    as (_ & _ & _ & (units & w1 & w2 & Hu & _ & Hb & Hrest & _ & _ & Hex & _) & Hhas).
  split; [|exact Hhas]. exists w1, w2. split_and!; [|by unfold balance, amount_at; rewrite Hrest|exact Hex].
  vm_compute in Hu. injection Hu as <-. exact Hb.
Defined.

(** ** Stakes *)

Definition rich_db : @DB memdb := with_balance (addr 1) 500000000 empty_db.
Lemma rich_db_ok : accounts_ok rich_db.
Proof. unfold rich_db. auto with samples. Qed.
Definition approved_world : world :=
  at_state rich_db (with_actions (one_action
    (approved (action 4) actionTypeAddStaker (Address_Hex (addr 1)) ""))).
Definition own_stake : StakeTx := mkStakeTx sample_base SerStake 100000000 (addr 1).
Definition after_own_stake : world := (StakeTx_Execute own_stake (at_time 1700000000) approved_world).1.
Lemma after_own_stake_runs : StakeTx_Execute own_stake (at_time 1700000000) approved_world = (after_own_stake, Ok tt).
Proof. unfold after_own_stake. apply ran. vm_compute. reflexivity. Qed.

Lemma stake_moves_amount_witness :
  stake_balance (w_db after_own_stake) (addr 1) = 100000000 /\
  balance (w_db after_own_stake) (addr 1) = 400000000.
Proof.
  pose proof (stake_moves_amount own_stake (at_time 1700000000) approved_world after_own_stake
    rich_db_ok ltac:(unfold is_u64; cbn; lia)
    after_own_stake_runs) as Hmoves.
  cbv zeta in Hmoves. destruct Hmoves as (_ & _ & _ & _ & Hbal & Hstake & _).
  rewrite Hbal, Hstake. split; vm_compute; reflexivity.
Defined.

Definition stake_for_2 : StakeTx := mkStakeTx sample_base SerStake 100000000 (addr 2).
Definition after_stake_for_2 : world :=
  (StakeTx_Execute stake_for_2 (at_time 1700000000) approved_world).1.
Lemma after_stake_for_2_runs : StakeTx_Execute stake_for_2 (at_time 1700000000) approved_world = (after_stake_for_2, Ok tt).
Proof. unfold after_stake_for_2. apply ran. vm_compute. reflexivity. Qed.
Definition unstake_2 : UnStakeTx := mkUnStakeTx sample_base 0 SerStake 1700000000.

Lemma stake_for_another_is_locked_witness :
  let committed := with_sama samaState_Commit after_stake_for_2 in
  stake_balance (w_db committed) (addr 1) = 100000000 /\ stake_balance (w_db committed) (addr 2) = 0 /\
  (UnStakeTx_Execute unstake_2 (mkTransactionContext DefaultGenesis 1700000000 (txid 2) (addr 2)) committed).2 <> Ok tt.
Proof.
  destruct (stake_for_another_is_locked stake_for_2 (at_time 1700000000) approved_world after_stake_for_2
    rich_db_ok ltac:(unfold is_u64; cbn; lia) after_stake_for_2_runs ltac:(vm_decide))
    as (Hfrom & Hto & (m & Hm & Ha) & Hlocked).
  split; [etransitivity; [exact Hfrom|]; vm_compute; reflexivity|].
  split; [etransitivity; [exact Hto|]; vm_compute; reflexivity|].
  apply (Hlocked _ m); [|exact Hm|exact Ha| |reflexivity|reflexivity].
  - exact (proj1 (proj2 (proj2 (proj2 (StakeTx_ok stake_for_2 (at_time 1700000000) approved_world after_stake_for_2
      rich_db_ok ltac:(unfold is_u64; cbn; lia) after_stake_for_2_runs))))).
  - vm_compute. reflexivity.
Defined.

(** Node 1 staked one hundred days before it leaves. *)
Definition staked_world : world :=
  at_state (with_stake (addr 1) 100000000 (with_balance (addr 1) 10 empty_db))
    (with_stakers (one_ser (addr 1) (1700000000 - 100 * SecondsDay))).
Lemma staked_world_ok : accounts_ok (w_db staked_world).
Proof. unfold staked_world. simpl. auto with samples. Qed.
Definition staked_reward : Z :=
  match CalcReward (w_sama staked_world) stakerTypeSer (addr 1) 1700000000 with
  | Ok (b, m, y) => b +u m +u y | _ => 0 end.
Definition unstake_1 : UnStakeTx := mkUnStakeTx sample_base staked_reward SerStake 1700000000.
Definition after_unstake : world := (UnStakeTx_Execute unstake_1 (at_time 1700000000) staked_world).1.
Lemma after_unstake_runs : UnStakeTx_Execute unstake_1 (at_time 1700000000) staked_world = (after_unstake, Ok tt).
Proof. unfold after_unstake. apply ran. vm_compute. reflexivity. Qed.

Lemma unstake_pays_back_witness :
  0 < staked_reward /\ stake_balance (w_db after_unstake) (addr 1) = 0 /\
  balance (w_db after_unstake) (addr 1) = 100000010 + staked_reward.
Proof.
  pose proof (unstake_pays_back unstake_1 (at_time 1700000000) staked_world after_unstake
    staked_world_ok) as Hpays.
  assert (forall m, GetStakerMeta (st_stakers (w_sama staked_world))
    (byte_of_Z (unstake_StakerType unstake_1)) (ctx_Sender (at_time 1700000000)) = Some m ->
    is_u64 (Staker_StakeAmount m)) as Hamount
    by (intros m Hm; vm_compute in Hm; injection Hm as <-; unfold is_u64; cbn; lia).
  specialize (Hpays Hamount after_unstake_runs).
  cbv zeta in Hpays. destruct Hpays as (m & b & mr & y & Hm & _ & _ & Hstake & Hbal & _).
  vm_compute in Hm. injection Hm as <-.
  change (ctx_Sender (at_time 1700000000)) with (addr 1) in *. rewrite Hstake, Hbal.
  split_and!; vm_compute; reflexivity.
Defined.

(** ** Votes and withdrawals *)

Definition route_world (voters : list Address) : world := at_state empty_db (fun s =>
  with_stakers (routes [addr 1; addr 2; addr 3; addr 4])
    (with_actions (one_action (mkActionMeta (action 4) actionTypeAddStaker 1699999000 1700000900 []
      voters "candidate" "")) s)).
Definition vote_4 : VoteTx := mkVoteTx sample_base (action 4).
Definition from_node (n : Z) : TransactionContext :=
  mkTransactionContext DefaultGenesis 1700000000 (txid n) (addr n).

Definition voted_once : world := (VoteTx_Execute vote_4 (from_node 1) (route_world [])).1.
Lemma voted_once_runs : VoteTx_Execute vote_4 (from_node 1) (route_world []) = (voted_once, Ok tt).
Proof. unfold voted_once. apply ran. vm_compute. reflexivity. Qed.
Definition voted_twice : world := (VoteTx_Execute vote_4 (from_node 2) voted_once).1.
Lemma voted_twice_runs : VoteTx_Execute vote_4 (from_node 2) voted_once = (voted_twice, Ok tt).
Proof. unfold voted_twice. apply ran. vm_compute. reflexivity. Qed.

Lemma one_action_wf a : actions_wf (one_action a).
Proof.
  intros i l [Hl|[Hl|Hl]]; [|done|done].
  cbn in *. destruct (decide (Action_ActionID a = i)) as [<-|Hne].
  - assert (Some 1%positive = Some l) as [= <-] by (rewrite <- Hl; symmetry; apply lookup_singleton_eq).
    cbn. lia.
  - by assert (Some l = None) by (rewrite <- Hl; by apply lookup_singleton_ne).
Qed.

(** Nodes 1 and 2 vote in one block: only the vote of node 2 is counted. *)
Lemma second_vote_in_block_wins_witness :
  exists a, cur_meta (CacheActionsCommit (actions_of voted_twice)) !! action 4 = Some a /\
    Action_Voters a = [addr 2].
Proof.
  pose proof (second_vote_in_block_wins vote_4 vote_4 (from_node 1) (from_node 2) (route_world [])
    voted_once voted_twice
    (mkActionMeta (action 4) actionTypeAddStaker 1699999000 1700000900 [] [] "candidate" "")
    (one_action_wf _) eq_refl eq_refl voted_once_runs voted_twice_runs) as Hsecond.
  eexists. split; [exact Hsecond|reflexivity].
Defined.

Definition withdraw_4 : WithdrawnTx := mkWithdrawnTx sample_base (action 4).
Definition after_withdrawal : world :=
  (WithdrawnTx_Execute withdraw_4 (from_node 1) (route_world [addr 1; addr 2])).1.
Lemma after_withdrawal_runs :
  WithdrawnTx_Execute withdraw_4 (from_node 1) (route_world [addr 1; addr 2]) =
  (after_withdrawal, Ok tt).
Proof. unfold after_withdrawal. apply ran. vm_compute. reflexivity. Qed.
Lemma withdrawal_survives_abort_witness :
  exists a, cur_meta (CacheActionsAbort (actions_of after_withdrawal)) !! action 4 = Some a /\
    Action_Voters a = [addr 2].
Proof.
  pose proof (withdrawal_survives_abort withdraw_4 (from_node 1) (route_world [addr 1; addr 2])
    after_withdrawal
    (mkActionMeta (action 4) actionTypeAddStaker 1699999000 1700000900 [] [addr 1; addr 2] "candidate" "")
    after_withdrawal_runs eq_refl) as Hw.
  eexists. split; [exact Hw|]. vm_compute. reflexivity.
Defined.

(** ** Users and proofs of work *)

Definition user_world : world := at_state rich_db (with_user_types
  (mkUserTypesState {[1 := mkUserType "" 1 300]} ∅ ∅)).
Definition subscribe : AddUserTx := mkAddUserTx sample_base 1700000000 (1700000000 + SecondsMonth)
  300 5 1 (addr 6).
Definition after_subscribe : world := (AddUserTx_Execute subscribe (at_time 1700000000) user_world).1.
Lemma after_subscribe_runs :
  AddUserTx_Execute subscribe (at_time 1700000000) user_world = (after_subscribe, Ok tt).
Proof. unfold after_subscribe. apply ran. vm_compute. reflexivity. Qed.
Lemma users_subscribe_for_thirty_days_witness :
  exists ut, GetUserType (st_userTypes (w_sama user_world)) 1 = Some ut /\ 300 = UserType_FeeUnits ut.
Proof.
  exact (proj2 (users_subscribe_for_thirty_days subscribe (at_time 1700000000) user_world
    after_subscribe ltac:(by vm_compute) ltac:(by vm_compute)
    after_subscribe_runs)).
Defined.

(** Node 1 works with the key whose address is account 8. *)
Definition work_node : DetailMeta := mkDetailMeta (Z_of_byte stakerTypeSer) "" "" "" 1 2 3
  "0800000000000000000000000000000000000000" (txid 5) 0 (addr 8) (addr 1).
Definition work_world : world := at_state empty_db (fun s =>
  with_stakers (one_ser (addr 1) 1690000000)
    (with_details (mkDetailsState {[addr 8 := work_node]} ∅ ∅) s)).
Definition work_proof : ProofTx := mkProofTx sample_base 12 1699999900 1699999960 (addr 1).
Definition by_8 : TransactionContext := mkTransactionContext DefaultGenesis 1700000000 (txid 6) (addr 8).
Definition after_proof : world := (ProofTx_Execute work_proof by_8 work_world).1.
Lemma after_proof_runs : ProofTx_Execute work_proof by_8 work_world = (after_proof, Ok tt).
Proof. unfold after_proof. apply ran. vm_compute. reflexivity. Qed.
Lemma accepted_proof_is_bounded_witness :
  exists ty w1, IsValidWorkAddress (w_sama work_world) (addr 8) = inr (true, ty) /\
    zoom (PutPow ty (mkProofMeta 12 60 (addr 8) (txid 6) 1700000000)) w1 = (after_proof, Ok tt).
Proof.
  destruct (accepted_proof_is_bounded work_proof by_8 work_world after_proof
    ltac:(unfold is_u64; cbn; lia) ltac:(unfold is_u64; cbn; lia) after_proof_runs)
    as (ty & w1 & Hty & _ & _ & _ & _ & Hput).
  exists ty, w1. split; [exact Hty|exact Hput].
Defined.

(** The sender has nothing, the price is 2^63 and the transaction has two fee units. *)
Definition huge_base : BaseTx := mkBaseTx (txid 9) 0 (2 ^ 63).
Definition free_tx : Transaction := sample_tx (USet (mkSetTx huge_base [x01])).
Lemma fee_overflow_is_free_witness :
  (Transaction_Execute free_tx DefaultGenesis 0 sample_context (start empty_db)).2 = Ok tt.
Proof.
  rewrite (fee_overflow_is_free free_tx DefaultGenesis 0 sample_context (start empty_db)
    ltac:(unfold start; auto with samples) ltac:(vm_compute; reflexivity) ltac:(vm_compute; reflexivity)
    ltac:(vm_decide) ltac:(vm_decide) eq_refl ltac:(vm_compute; reflexivity)).
  vm_compute. reflexivity.
Defined.
