(* ===== verification/StateWitnesses.v ===== *)
(** * Witnesses for the theorems on the state

    For each theorem on a part of the state, or on the whole of it, a concrete
    case in which its hypotheses hold. *)

From S2P Require Import Prelude External GoStd PendingCache Instances Keys Storage Genesis.
From S2P Require Import Stakers Pows Rewards Actions Users Details SysParams SamaState StateFacts.
From S2P Require Import Tx Frames Areas Coherence Restart TxFacts Samples.

(** ** Storage and genesis *)

Lemma ModifyBalance_spec_witness :
  (ModifyBalance (addr 1) false 1001 sample_db).2 = Err (Wrapf ErrInvalidBalance "modify bal") /\
  (ModifyBalance (addr 1) false 400 sample_db).2 = Ok 600.
Proof.
  split.
  - pose proof (ModifyBalance_spec (addr 1) false 1001 sample_db sample_db_ok
      ltac:(unfold is_u64; lia)) as Hspec. cbv zeta in Hspec.
    destruct (ModifyBalance _ _ _ _) as [db' r]. destruct Hspec as (_ & _ & Hr).
    rewrite bool_decide_eq_false_2 in Hr by (vm_compute; intuition congruence).
    exact (proj1 Hr).
  - pose proof (ModifyBalance_spec (addr 1) false 400 sample_db sample_db_ok
      ltac:(unfold is_u64; lia)) as Hspec. cbv zeta in Hspec.
    destruct (ModifyBalance _ _ _ _) as [db' r]. destruct Hspec as (_ & _ & Hr).
    rewrite bool_decide_eq_true_2 in Hr by (vm_compute; intuition congruence).
    exact (proj1 Hr).
Defined.

(** An airdrop of 50 units to accounts 5 and 6, of which 6 has an allocation. *)
Definition airdrop_data : bytes := String.list_byte_of_string "[5,6]".
Definition airdrop_genesis : Genesis := {|
  Genesis_Magic := Genesis_Magic DefaultGenesis;
  Genesis_BaseTxUnits := Genesis_BaseTxUnits DefaultGenesis;
  Genesis_ValueUnitSize := Genesis_ValueUnitSize DefaultGenesis;
  Genesis_MaxValueSize := Genesis_MaxValueSize DefaultGenesis;
  Genesis_MinPrice := Genesis_MinPrice DefaultGenesis;
  Genesis_LookbackWindow := Genesis_LookbackWindow DefaultGenesis;
  Genesis_TargetBlockRate := Genesis_TargetBlockRate DefaultGenesis;
  Genesis_TargetBlockSize := Genesis_TargetBlockSize DefaultGenesis;
  Genesis_MaxBlockSize := Genesis_MaxBlockSize DefaultGenesis;
  Genesis_BlockCostEnabled := Genesis_BlockCostEnabled DefaultGenesis;
  Genesis_CustomAllocation := [mkCustomAllocation (addr 6) 9];
  Genesis_AirdropHash := Hash_Hex (Keccak256 airdrop_data);
  Genesis_AirdropUnits := 50;
  Genesis_TotalTokens := Genesis_TotalTokens DefaultGenesis;
  Genesis_ClaimMinUnits := Genesis_ClaimMinUnits DefaultGenesis;
  Genesis_ClaimMinInterval := Genesis_ClaimMinInterval DefaultGenesis;
  Genesis_TotalYears := Genesis_TotalYears DefaultGenesis;
  Genesis_RateSustainYears := Genesis_RateSustainYears DefaultGenesis;
  Genesis_ChainCreateTime := Genesis_ChainCreateTime DefaultGenesis;
  Genesis_MinerPerc := Genesis_MinerPerc DefaultGenesis;
  Genesis_FoundationPerc := Genesis_FoundationPerc DefaultGenesis;
  Genesis_RoutePerc := Genesis_RoutePerc DefaultGenesis;
  Genesis_SerPerc := Genesis_SerPerc DefaultGenesis;
  Genesis_ValidatorPerc := Genesis_ValidatorPerc DefaultGenesis;
  Genesis_BaseSerPerc := Genesis_BaseSerPerc DefaultGenesis;
  Genesis_MeritSerPerc := Genesis_MeritSerPerc DefaultGenesis;
  Genesis_BaseRoutePerc := Genesis_BaseRoutePerc DefaultGenesis;
  Genesis_MeritRoutePerc := Genesis_MeritRoutePerc DefaultGenesis;
  Genesis_BurnPerc := Genesis_BurnPerc DefaultGenesis;
  Genesis_RouteStake := Genesis_RouteStake DefaultGenesis;
  Genesis_SerStake := Genesis_SerStake DefaultGenesis;
  Genesis_MonthCard := Genesis_MonthCard DefaultGenesis;
  Genesis_SeasonCard := Genesis_SeasonCard DefaultGenesis;
  Genesis_AnnualCard := Genesis_AnnualCard DefaultGenesis;
  Genesis_MinStakeTime := Genesis_MinStakeTime DefaultGenesis;
  Genesis_RootAddress := Genesis_RootAddress DefaultGenesis;
  Genesis_FoundationAddr := Genesis_FoundationAddr DefaultGenesis
|}.
Definition parse_5_6 (b : bytes) : result (list Address) :=
  if bool_decide (b = airdrop_data) then inr [addr 5; addr 6] else inl (ExtError "json").

Lemma Genesis_Load_spec_witness :
  let db := (Genesis_Load airdrop_genesis airdrop_data parse_5_6 sample_db).1 in
  balance db (addr 5) = 50 /\ balance db (addr 6) = 9 /\ balance db (addr 1) = 1000.
Proof.
  pose proof (Genesis_Load_spec airdrop_genesis airdrop_data parse_5_6 sample_db sample_db_ok
    ltac:(unfold is_u64; cbn; lia)
    ltac:(apply Forall_singleton; unfold is_u64; cbn; lia)) as Hspec. cbv zeta in Hspec |- *.
  destruct (Genesis_Load _ _ _ _) as [db' r]. cbn [fst].
  rewrite bool_decide_eq_false_2 in Hspec by (vm_compute; discriminate).
  rewrite bool_decide_eq_true_2 in Hspec by reflexivity.
  change (parse_5_6 airdrop_data) with (inr (A := error) [addr 5; addr 6]) in Hspec.
  destruct Hspec as (_ & _ & Hbal). rewrite !Hbal. split_and!; vm_compute; reflexivity.
Defined.

(** Two databases that hold one and the same value metadata and differ elsewhere. *)
Definition a_value_db : @DB memdb :=
  (PutKey (sized_of 32 [x01]) (mkValueMeta 3 (txid 4) 1690000000) empty_db).1.
Lemma access_proof_reads_metadata_only_witness :
  generateAccessProof a_value_db (txid 2) 7 =
  generateAccessProof (with_balance (addr 1) 5 a_value_db) (txid 2) 7.
Proof.
  apply access_proof_reads_metadata_only. intros k Hk. unfold with_balance.
  rewrite lookup_set_ne; [done|]. intros <-. by apply (bool_decide_eq_true_2 _) in Hk.
Defined.

(** ** The state and its restart *)

(** Node 1 is a route; a change of its entry is pending. *)
Definition one_route : samaState :=
  with_stakers (set_pending_stakers stakerTypeRoute {[addr 1 := ser_staker (addr 1) 0]} ∅
    (routes [addr 1])) (fresh_state DefaultGenesis).
Lemma samaState_two_phase_witness :
  curRoute (st_stakers (samaState_Commit one_route)) !! addr 1 = Some (ser_staker (addr 1) 0) /\
  curRoute (st_stakers (samaState_Abort one_route)) = curRoute (routes [addr 1]).
Proof.
  destruct (samaState_two_phase one_route) as (Hp & Hd & _). split.
  - pose proof (pb_stakers _ _ Hp stakerTypeRoute route_type) as Hc.
    change (curRoute (st_stakers (samaState_Commit one_route)))
      with (c_cur (staker_cache stakerTypeRoute (st_stakers (samaState_Commit one_route)))).
    rewrite Hc. vm_compute. reflexivity.
  - exact (f_equal c_cur (dc_stakers _ _ Hd stakerTypeRoute route_type)).
Defined.

(** A block with a payment, executed and committed on a fresh node. *)
Definition pay_tx : Transaction := sample_tx (UTransfer (mkTransferTx sample_base (addr 2) 30)).
Definition after_pay : world :=
  (run_txs DefaultGenesis 0 sample_context [pay_tx] (start sample_db)).1.
Lemma after_pay_runs :
  run_txs DefaultGenesis 0 sample_context [pay_tx] (start sample_db) = (after_pay, Ok tt).
Proof. unfold after_pay. apply ran. vm_compute. reflexivity. Qed.
Lemma sample_db_ledger : only_ledger sample_db.
Proof. unfold sample_db. auto with samples. Qed.

Lemma restart_rebuilds_state_witness :
  exists s', SamaNew (w_db after_pay) DefaultGenesis 0 = Ok s' /\
    restarted 1700000000 1700000000 (w_db after_pay) (samaState_Commit (w_sama after_pay)) s'.
Proof.
  apply (restart_rebuilds_state DefaultGenesis (start sample_db)
    (with_sama samaState_Commit after_pay) 1700000000 1700000000 0).
  - apply fresh_inv; [apply sample_db_ledger|vm_compute; discriminate].
  - apply fresh_committed.
  - eapply accepts_block; [apply accepts_none|apply after_pay_runs].
  - intros i. vm_compute. split; discriminate.
  - apply no_stake_shadow_in. vm_compute. reflexivity.
  - apply no_user_types_in. vm_compute. reflexivity.
Defined.

(** ** Parameters *)

Definition g0 : Genesis := DefaultGenesis.
Definition params0 : sysParams := st_params (fresh_state g0).

Definition burn7 : sysParams * @DB memdb :=
  (ModifyParams "burn" "7" (txid 3) 5 (params0, empty_db)).1.
Lemma burn7_runs : ModifyParams "burn" "7" (txid 3) 5 (params0, empty_db) = (burn7, Ok tt).
Proof. unfold burn7. apply ran. vm_compute. reflexivity. Qed.
Lemma ModifyParams_shares_witness :
  Sys_BurnPerc (curParams (CacheParamsCommit burn7.1)) = 7 /\
  shares_ok (curParams (CacheParamsCommit burn7.1)).
Proof.
  pose proof (ModifyParams_shares "burn" "7" (txid 3) 5 params0 empty_db g0
    ltac:(unfold shares_ok, share, MinPercentage, MaxPercentage; cbn; lia)
    ltac:(vm_compute; discriminate)) as Hmod.
  rewrite burn7_runs in Hmod. rewrite (surjective_pairing burn7) in Hmod.
  destruct Hmod as [_ Hok]. split; [vm_compute; reflexivity|]. exact (proj1 (Hok eq_refl)).
Defined.

(** "4294967303" is 7 beyond the uint32 range. *)
Lemma ModifyParams_truncates_witness :
  Sys_BurnPerc (pendingParams
    (ModifyParams "burn" "4294967303" (txid 3) 5 (params0, empty_db)).1.1) = 7.
Proof.
  destruct (ModifyParams_truncates 7 (txid 3) 5 params0 empty_db
    (pack (set_burn 7 (set_update (txid 3) 5 (curParams params0))))
    ltac:(vm_compute; split; discriminate) eq_refl) as [_ Hrun].
  change "4294967303"%string with (FormatUint (2 ^ 32 + 7)). rewrite Hrun. reflexivity.
Defined.

(** ** Work and rewards *)

Definition a_proof : ProofMeta := mkProofMeta 12 60 (addr 1) (txid 3) 1700000000.
Lemma PutPow_accumulates_witness :
  exists s' db' m, PutPow stakerTypeSer a_proof (emptyPowState, empty_db) = ((s', db'), Ok tt) /\
    cache_view (pow_cache stakerTypeSer s') !! addr 1 = Some m /\
    Pow_TotalTime m = 60 /\ Pow_Totalflow m = 12.
Proof.
  destruct (PutPow_accumulates stakerTypeSer a_proof emptyPowState empty_db
    (pack (pow_after stakerTypeSer a_proof emptyPowState))) as (s' & db' & m & Hrun & _ & _ & Hv & Ht & Hf & _).
  - vm_decide.
  - intros t a m Ht. by pow_type t Ht; intros [|].
  - intros t Ht. eapply (coherent_none _ APows); auto with area samples. by pow_type t Ht.
  - unfold is_u64. cbn. lia.
  - unfold is_u64. cbn. lia.
  - reflexivity.
  - exists s', db', m. split_and!; [exact Hrun| |exact Ht|exact Hf].
    rewrite Hv. apply lookup_insert_eq.
Defined.

(** A reward paid at second 50, recorded together with the distribution. *)
Definition a_reward : RewardMeta := mkRewardMeta 1 2 3 50 (txid 3) 50 (txid 3) (addr 1).
Definition a_global : RewardGlobal := mkRewardGlobal 50 (txid 3).
Definition rewarded : rewardState * @DB memdb :=
  (UpdateOwner a_reward (emptyRewardState, empty_db)).1.
Definition rewarded_db : @DB memdb := db_set rewarded.2 RewardGlobalPrefix (pack a_global).
Lemma rewards_restart_witness :
  exists r', NewRewardState rewarded_db = (r', Ok tt) /\
    GetRewardMeta r' (addr 1) = Some a_reward /\ GetLastUpdateTime r' = 50.
Proof.
  destruct (UpdateOwner_coherent a_reward emptyRewardState empty_db rewarded.1 rewarded.2)
    as [Hc Hk].
  - reflexivity.
  - by eapply (coherent_none _ ARewards); auto with area samples.
  - by intros a m.
  - destruct (rewards_restart rewarded_db rewarded.1 a_global) as (r' & Hrun & Hcur & _ & _ & Hlast).
    + apply own_keys_in. vm_compute. reflexivity.
    + apply coherent_frame_set; [apply reward_global_ne|exact Hc].
    + exact Hk.
    + reflexivity.
    + cbn. lia.
    + exists r'. split_and!; [exact Hrun| |exact Hlast].
      unfold GetRewardMeta. rewrite Hcur. vm_compute. reflexivity.
Defined.

Lemma UpdateGlobal_invisible_witness :
  exists r' db', UpdateGlobal a_global (emptyRewardState, empty_db) = ((r', db'), Ok tt) /\
    GetLastUpdateTime (CacheRewardsCommit r') = 0 /\
    db_lookup db' RewardGlobalPrefix = Some (pack a_global).
Proof.
  destruct (UpdateGlobal_invisible a_global emptyRewardState empty_db (pack a_global))
    as (r' & db' & Hrun & Hdb & _ & Hlast); [reflexivity|reflexivity|cbn; lia|].
  exists r', db'. split_and!; [exact Hrun|rewrite Hlast; reflexivity|exact Hdb].
Defined.

Lemma yields_last_payment_wins_witness :
  exists y' db', (ModifyYields 100 (txid 3) 5 ;;; ModifyYields 40 (txid 4) 5)
      (emptyYieldsState, empty_db) = ((y', db'), Ok tt) /\
    GetChainYields (CacheYieldsCommit y') = 40.
Proof.
  destruct (yields_last_payment_wins 100 40 (txid 3) (txid 4) 5 emptyYieldsState empty_db)
    as (y' & db' & Hrun & Htotal & _).
  - intros m. by eexists.
  - unfold is_u64. cbn. lia.
  - unfold is_u64. lia.
  - cbn. lia.
  - exists y', db'. split; [exact Hrun|]. rewrite Htotal. reflexivity.
Defined.

Definition ser_state : samaState :=
  with_stakers (one_ser (addr 1) (1700000000 - 100 * SecondsDay)) (fresh_state g0).
Lemma CalcReward_no_panic_witness :
  safe (CalcReward ser_state stakerTypeSer (addr 1) 1700000000) /\
  CalcReward ser_state stakerTypeSer (addr 1) 1700000000 <> Err (Errorf "GetStakerMeta err").
Proof.
  split; [apply CalcReward_no_panic; vm_compute; [discriminate|reflexivity]|].
  vm_compute. discriminate.
Defined.

Lemma FoundationReword_pays_nothing_witness :
  match CalcReward (fresh_state g0) x00 (HexToAddress "") 1700000000 with
  | Ok (b, m, y) => b = 0 /\ m = 0 /\ y = 0
  | _ => False
  end.
Proof.
  destruct (CalcReward (fresh_state g0) x00 (HexToAddress "") 1700000000)
    as [[[b m] y]|e|p] eqn:Hr.
  - exact (FoundationReword_pays_nothing (fresh_state g0) (HexToAddress "") 1700000000 b m y Hr).
  - vm_compute in Hr. discriminate.
  - vm_compute in Hr. discriminate.
Defined.

Lemma reward_years_partition_witness :
  covered 1668125288 1690000000 1740000000 (year_count 1668125288 1690000000 1740000000) 0 = 50000000.
Proof. apply (reward_years_partition 1668125288 1690000000 1740000000); unfold SecondsYear; lia. Defined.

(** ** Claims and confirmation *)

Definition two_sers : stakerState :=
  mkStakerState ∅ {[addr 1 := ser_staker (addr 1) 1690000000; addr 2 := ser_staker (addr 2) 1690000000]}
    ∅ ∅ ∅ ∅ ∅ ∅ ∅.
Definition two_sers_world : world := at_state empty_db (with_stakers two_sers).
Definition after_claim : world :=
  (UpdateStakerReward stakerTypeSer (addr 1) (txid 3) 1700000000 two_sers_world).1.
Lemma after_claim_runs :
  UpdateStakerReward stakerTypeSer (addr 1) (txid 3) 1700000000 two_sers_world = (after_claim, Ok tt).
Proof. unfold after_claim. apply ran. vm_compute. reflexivity. Qed.

(** Node 1 claims; node 2 is marked as having claimed. *)
Lemma one_claim_marks_all_witness :
  claimed (addr 1) (txid 3) 1700000000 (ser_staker (addr 2) 1690000000) after_claim.
Proof.
  apply (one_claim_marks_all stakerTypeSer (addr 1) (txid 3) 1700000000 two_sers_world after_claim
    after_claim_runs ltac:(vm_compute; reflexivity) (addr 2)).
  - vm_compute. reflexivity.
  - vm_compute. discriminate.
Defined.

Definition quorum_world : world := at_state empty_db (fun s =>
  with_stakers (routes [addr 1; addr 2; addr 3])
    (with_actions (one_action (mkActionMeta (action 4) actionTypeAddStaker 1699999000 1700000900 []
      [addr 1; addr 2] "candidate" "")) s)).
Lemma confirmed_by_quorum_witness :
  (IsBeConfirmed actionTypeAddStaker "candidate" quorum_world).2 = Ok (true, action 4).
Proof.
  pose proof (confirmed_by_quorum actionTypeAddStaker "candidate" (action 4) 1%positive quorum_world)
    as Hq. cbv zeta in Hq. rewrite Hq.
  - vm_compute. reflexivity.
  - vm_compute. reflexivity.
  - reflexivity.
  - reflexivity.
  - intros j p Hj _ _. destruct (decide (action 4 = j)) as [<-|Hne]; [reflexivity|].
    by assert (Some p = None) by (rewrite <- Hj; by apply lookup_singleton_ne).
  - vm_compute. discriminate.
Defined.

(** ** User types *)

Definition a_type : UserType := mkUserType "" 1 300.
Lemma user_type_breaks_restart_witness :
  exists s' db' e', AddUserType a_type (emptyUserTypesState, empty_db) = ((s', db'), Ok tt) /\
    (NewUserstate db').2 = Err e'.
Proof.
  destruct (user_type_breaks_restart a_type (pack a_type) (ExtError "couldn't unmarshal")
    emptyUserTypesState empty_db) as (s' & db' & e' & Hrun & _ & _ & Hfail).
  - apply own_keys_in. vm_compute. reflexivity.
  - unfold is_u64. cbn. lia.
  - reflexivity.
  - vm_compute. reflexivity.
  - vm_compute. discriminate.
  - by exists s', db', e'.
Defined.
