(* ===== verification/NodeWitnesses.v ===== *)
(** * Witnesses for signatures and the mempool *)

From S2P Require Import Prelude External GoStd Heap TData Instances Keys Storage Genesis.
From S2P Require Import Stakers SamaState Tx TypedTx TypedTxFacts Mempool MempoolFacts Samples NodeSamples.

(** ** Signatures *)

Definition pay40 : UnsignedTransaction := UTransfer (mkTransferTx sample_base (addr 2) 40).
Lemma pay40_ok : tx_ok pay40.
Proof. unfold tx_ok. repeat constructor; vm_compute; congruence. Qed.

Lemma ParseTypedData_TypedData_witness : ParseTypedData (TypedData_of pay40) = inr pay40.
Proof. exact (ParseTypedData_TypedData pay40 pay40_ok). Defined.

Lemma every_transaction_has_a_digest_witness : exists dh : Hash, tx_DigestHash pay40 = Ok (array dh).
Proof. exact (every_transaction_has_a_digest pay40 pay40_ok). Defined.

Definition nested : TypedData := CreateTypedData 5 "Transfer" [mkType tdPrice tdUint64] [(tdPrice, IString "7")].
Lemma DigestHash_terminates_witness : DigestHash nested <> Panic StackOverflow.
Proof. exact (proj1 (DigestHash_terminates nested)). Defined.

Definition unstake_at (t : Z) : UnsignedTransaction := UUnStake (mkUnStakeTx sample_base 6 SerStake t).
Definition signed (u : UnsignedTransaction) : Transaction :=
  match Init (NewTx u sample_sig) DefaultGenesis with Ok t => t | _ => NewTx u sample_sig end.
Lemma signs u : (if Init (NewTx u sample_sig) DefaultGenesis is Ok _ then true else false) = true ->
  Init (NewTx u sample_sig) DefaultGenesis = Ok (signed u).
Proof. unfold signed. by destruct (Init _ _). Qed.

Lemma marshals (u : UnsignedTransaction) (sig : bytes) : Marshal (u, sig) = inr (pack (u, sig)).
Proof. reflexivity. Qed.

Lemma unstake_end_time_is_unsigned_witness :
  exists t, Init (NewTx (unstake_at 9) sample_sig) DefaultGenesis = Ok t /\
    tx_sender t = tx_sender (signed (unstake_at 8)).
Proof.
  destruct (unstake_end_time_is_unsigned sample_base 6 SerStake 8 9 sample_sig DefaultGenesis
    (signed (unstake_at 8)) _ (marshals _ _) (signs (unstake_at 8) ltac:(vm_compute; reflexivity))) as (t & Hrun & _ & Hs).
  exists t. split; [exact Hrun|exact Hs].
Defined.

Definition vote4 : UnsignedTransaction := UVote (mkVoteTx sample_base (action 4)).
Lemma vote_signature_signs_govern_witness :
  exists t, tx_Unsigned t = UGovern (mkGovernTx sample_base (action 4)) /\
    tx_sender t = tx_sender (signed vote4).
Proof.
  destruct (vote_signature_signs_govern sample_base (action 4) sample_sig DefaultGenesis
    (signed vote4) _ (marshals _ _) (signs vote4 ltac:(vm_compute; reflexivity))) as (t & _ & Hu & Hs).
  exists t. split; [exact Hu|exact Hs].
Defined.

Lemma signed_transactions_have_twins_witness :
  exists t, tx_sender t = tx_sender (signed pay40) /\ tx_bytes t <> tx_bytes (signed pay40).
Proof.
  destruct (signed_transactions_have_twins pay40 sample_sig x1b DefaultGenesis (signed pay40) _ (marshals _ _)
    ltac:(vm_compute; reflexivity) ltac:(vm_compute; split; congruence)
    (signs pay40 ltac:(vm_compute; reflexivity)))
    as (t & _ & _ & Hs & Hb).
  exists t. split; [exact Hs|exact Hb].
Defined.

(** ** The mempool *)

Definition priced (n p : Z) : Transaction :=
  mkTransaction (UTransfer (mkTransferTx (mkBaseTx (txid 9) 0 p) (addr 2) 1)) [] [] [] (txid n) 0 (addr 1).
Definition two_slots : Mempool := Mempool_New DefaultGenesis 2.
Definition after_add (tx : Transaction) (m : Mempool) : Mempool := (Mempool_Add tx m).1.
Definition full_pool : Mempool := after_add (priced 2 8) (after_add (priced 1 5) two_slots).

(** A third transaction into the two slots: a step of the abstract pool. *)
Lemma mempool_refines_pool_witness :
  exists m1 a1, run_op (OpAdd (priced 1 5)) two_slots = (m1, Ok a1) /\ mempool_inv m1 /\
    pool_step 2 (pool two_slots) (OpAdd (priced 1 5)) a1 (pool m1).
Proof.
  destruct (mempool_refines_pool two_slots (OpAdd (priced 1 5)) (Mempool_New_inv _ 2 ltac:(lia)) I)
    as (m1 & a1 & Hrun & Hstep & Hinv & _).
  exists m1, a1. split; [exact Hrun|split; [exact Hinv|exact Hstep]].
Defined.

Lemma NewTxs_batch_witness :
  exists m batch, NewTxs 1 full_pool = (m, Ok batch) /\ total_load DefaultGenesis batch <= 1.
Proof.
  destruct (NewTxs_batch full_pool 1 ltac:(vm_compute; congruence) ltac:(vm_compute; split; congruence)
    ltac:(vm_compute; split; congruence)) as (m & batch & Hrun & _ & _ & _ & Hload & _).
  exists m, batch. split; [exact Hrun|exact Hload].
Defined.
