(* ===== verification/VMWitnesses.v ===== *)
(** * Witnesses for the theorems on blocks, the VM, the builder and the network *)

From S2P Require Import Prelude External GoStd TData Builder Instances Keys Storage Genesis.
From S2P Require Import Stakers Actions Users SamaState StateFacts Tx TypedTx Activity Block BlockFacts Mempool.
From S2P Require Import VM Lookback FeeMarket MempoolFacts BuildFacts Network TxFacts VMFacts AcceptFacts Supply.
From S2P Require Import Samples NodeSamples NodeWitnesses ChainSamples.

(** ** The builder *)

Lemma dispatched_builder_never_stalls_witness :
  exists n', Builder.step 1 5 true true (mkNode (NewTimeBuilder 0) false true 1 false) n'.
Proof.
  apply (dispatched_builder_never_stalls 1 5); [lia| |cbn; lia].
  eapply rtc_l; [exists false; apply Builder.step_add|]. apply rtc_refl.
Defined.

Lemma idle_builder_never_asks_witness :
  exists n, reachable 1 5 false n /\ (0 < n_pool n)%nat.
Proof.
  destruct (idle_builder_never_asks 1 5 ltac:(lia)) as (n & Hr & Hn & _).
  exists n. split; [exact Hr|exact Hn].
Defined.

(** ** The chain *)

Definition one_tx : Transaction := NewTx pay sample_sig.
Definition rank_of (id : ID) : nat := if decide (id = txid 10) then 1 else 0.
Lemma hand_vm_chain tx : chain_ok (hand_vm tx) rank_of.
Proof.
  split; intros id b [[-> ->]|[-> ->]]%hand_vm_blocks; try done.
  - vm_decide.
  - vm_decide.
  - intros _. unfold rank_of. cbn [hand_block sb_block Prnt].
    rewrite decide_False, decide_True by (done || (intros Hx; vm_compute in Hx; congruence)). lia.
Qed.

Lemma lookback_terminates_witness :
  (lookback (recent_block G) 1700000001 (txid 10) no_recent (hand_vm one_tx)).2 <> Panic OutOfFuel.
Proof.
  exact (proj1 (lookback_terminates (recent_block G) (hand_vm one_tx) rank_of 1700000001 (txid 10) no_recent
    (hand_vm_wf _) (hand_vm_chain _) (recent_block_fuel G))).
Defined.

Definition last_block : StatefulBlock := mkStatefulBlock EmptyID 1700000000 4 9 2 (sized_of 32 []) [].
Lemma market_ok_sample : market_ok G last_block 5.
Proof. split; unfold is_u64; cbn; lia. Qed.
Lemma fee_market_closed_form_witness :
  next_cost G last_block 5 = 0 /\ next_price G last_block 5 10 20 = Ok 8.
Proof.
  destruct (fee_market_closed_form G last_block 5 10 20 market_ok_sample eq_refl ltac:(cbn; lia) ltac:(cbn; lia))
    as [Hc (p & Hp & Heq & _)].
  split; [exact Hc|]. rewrite Hp, Heq. reflexivity.
Defined.

Lemma hand_vm_complete tx : chain_complete (hand_vm tx).
Proof.
  intros id b [[-> ->]|[-> ->]]%hand_vm_blocks Hh; [done|].
  exists (hand_block (txid 9) EmptyID 0 []). reflexivity.
Qed.
Lemma SuggestedFee_total_witness :
  exists v' price cost, SuggestedFee (hand_vm one_tx) = (v', Ok (price, cost)) /\ 3 <= price.
Proof.
  destruct (SuggestedFee_total (hand_vm one_tx) rank_of (hand_block (txid 10) (txid 9) 1 [one_tx])
    (hand_vm_wf _) (hand_vm_chain _) (hand_vm_complete _) eq_refl ltac:(vm_compute; congruence)
    ltac:(vm_compute; congruence)) as (ctx & _ & v' & price & cost & Hrun & Hp & _).
  exists v', price, cost. split; [exact Hrun|exact Hp].
Defined.

(** ** Verification *)

(** The transaction of block 10 once more, in a block on top of it. *)
Definition replayed : Transaction := NewTx (UTransfer (mkTransferTx (mkBaseTx (txid 9) 7 5) (addr 2) 40)) sample_sig.
Lemma no_replay_along_the_chain_witness :
  ~ exists v' r, verify (hand_block (txid 11) (txid 10) 2 [replayed]) (hand_vm replayed) = (v', Ok r).
Proof.
  intros (v' & r & Hrun). revert Hrun.
  apply (no_replay_along_the_chain (hand_vm replayed) (hand_block (txid 11) (txid 10) 2 [replayed]) []
    (hand_block (txid 10) (txid 9) 1 [replayed]) [] (hand_block (txid 9) EmptyID 0 []) replayed).
  - apply hand_vm_wf.
  - intros id b [[-> ->]|[-> ->]]%hand_vm_blocks; reflexivity.
  - apply path_more; [reflexivity|done|]. apply path_one. reflexivity.
  - vm_decide.
  - by left.
  - reflexivity.
  - by left.
Defined.

Definition at_price_5 : StatefulBlock := mkStatefulBlock (txid 9) 1700000000 1 5 3 (sized_of 32 []) [].
Definition transfer40 (price : Z) : TransferTx := mkTransferTx (mkBaseTx (txid 9) 0 price) (addr 2) 40.

Definition underpriced : Transaction := sample_tx (UTransfer (transfer40 4)).
Definition run_underpriced : world * outcome unit :=
  Transaction_Execute underpriced DefaultGenesis 1700000000 sample_context (start sample_db).
Lemma underpriced_runs : run_underpriced = (run_underpriced.1, Ok tt).
Proof. unfold run_underpriced. apply ran. vm_compute. reflexivity. Qed.
Lemma underpriced_transaction_meets_any_surplus_witness :
  (execute_txs DefaultGenesis at_price_5 sample_context [underpriced] 0 (start sample_db)).2 =
    Ok (2 ^ 64 - 1).
Proof.
  rewrite (proj1 (underpriced_transaction_meets_any_surplus underpriced DefaultGenesis at_price_5
    sample_context (start sample_db) run_underpriced.1 underpriced_runs eq_refl
    ltac:(unfold is_u64; cbn; lia) eq_refl)). reflexivity.
Defined.

(** ** Building and accepting *)

Lemma add_sync tx m : mempool_sync m -> mempool_sync (after_add tx m).
Proof. intros Hm. unfold after_add. by destruct (Add_run m tx Hm) as (m' & r & -> & _ & Hm' & _). Qed.
Lemma full_pool_sync : mempool_sync full_pool.
Proof. apply add_sync, add_sync, (Mempool_New_inv _ 2). lia. Qed.
Definition busy : VM := put_mempool full_pool (hand_vm one_tx).

Lemma busy_len : pool_len busy = 2%nat.
Proof. vm_compute. reflexivity. Qed.

Lemma build_loop_is_the_loop_witness :
  let s := mkBuildState [] 0 empty_db [] in
  build_loop (pool_len busy) G at_price_5 sample_context s busy =
  build_pass (fun s v => build_loop (pool_len v) G at_price_5 sample_context s v)
    G at_price_5 sample_context s busy.
Proof.
  cbv zeta.
  pose proof (build_loop_is_the_loop G at_price_5 sample_context (mkBuildState [] 0 empty_db []) busy
    full_pool_sync) as Hloop.
  cbv zeta in Hloop. rewrite decide_False in Hloop by (rewrite busy_len; done). exact Hloop.
Defined.

(** A run gives this transaction, compared by its contents. *)
Definition tx_readyb (g : Genesis) (tx : Transaction) : bool :=
  match Init (NewTx (tx_Unsigned tx) (tx_Signature tx)) g with
  | Ok t => bool_decide (tx_digestHash t = tx_digestHash tx /\
      tx_bytes t = tx_bytes tx /\ tx_id t = tx_id tx /\ tx_size t = tx_size tx /\ tx_sender t = tx_sender tx)
  | _ => false
  end.
Lemma list_all g l : forallb (tx_readyb g) l = true -> Forall (tx_ready g) l.
Proof.
  rewrite forallb_forall, Forall_forall. intros Hall tx Htx%list_elem_of_In%Hall.
  unfold tx_readyb in Htx. unfold tx_ready. destruct (Init _ g) as [t|e|p] eqn:Hinit; [|done..].
  apply Init_keeps in Hinit as [Hu Hs]. apply bool_decide_eq_true in Htx as (Hd & Hb & Hi & Hz & Hf).
  destruct t, tx. cbn in *. by subst.
Qed.

Definition built_block : StatelessBlock :=
  default (hand_block (txid 11) (txid 10) 2 []) (vm_objects built !! built_at).
Lemma built_block_at : vm_objects built !! built_at = Some built_block.
Proof.
  assert (bool_decide (is_Some (vm_objects built !! built_at)) = true) as Hb by (vm_compute; reflexivity).
  apply bool_decide_eq_true in Hb as [b Hb]. unfold built_block. by rewrite Hb.
Qed.
Lemma built_wf : vm_wf built.
Proof. apply vm_wfb_ok. vm_compute. reflexivity. Qed.
Lemma built_genesis : vm_genesis built = G.
Proof. vm_compute. reflexivity. Qed.
Lemma built_block_ready : block_ready (vm_genesis built) built_block.
Proof.
  unfold block_ready. refine (conj _ (conj _ (conj _ _))).
  - vm_compute. reflexivity.
  - vm_decide.
  - vm_compute. reflexivity.
  - apply list_all. vm_compute. reflexivity.
Qed.
Lemma built_ids_agree : ids_agree (Txs (sb_block built_block)).
Proof.
  assert (length (Txs (sb_block built_block)) = 1%nat) as Hl by (vm_compute; reflexivity).
  destruct (Txs (sb_block built_block)) as [|t [|]]; [done| |done].
  by intros t1 t2 ->%list_elem_of_singleton ->%list_elem_of_singleton _.
Qed.
Lemma verify_runs : Verify built_at built = (verified_vm, Ok tt).
Proof. unfold verified_vm, after. apply ran. vm_compute. reflexivity. Qed.
Lemma accept_runs : Accept built_at verified_vm = (accepted_vm, Ok tt).
Proof. unfold accepted_vm, after. apply ran. vm_compute. reflexivity. Qed.

Lemma accepted_block_survives_restart_witness :
  exists v3, vm_preferred v3 = sb_id built_block /\
    Initialize (vm_db accepted_vm) (inr (10, 4)) (inr (vm_genesis built)) [] (fun _ => inr []) (fresh_state G) 0 =
      (try! state := SamaNew (vm_db accepted_vm) (vm_genesis built) 0 in Ok (put_sama state 0 v3)).
Proof.
  destruct (accepted_block_survives_restart built_at built verified_vm accepted_vm built_block (10, 4) []
    (fun _ => inr []) (fresh_state G) 0 built_wf built_block_at built_block_ready
    built_ids_agree verify_runs accept_runs
    ltac:(rewrite built_genesis; reflexivity) ltac:(rewrite built_genesis; vm_compute; congruence)
    ltac:(cbn; lia) ltac:(cbn; lia)) as (_ & _ & v3 & Hrun & Hp & _).
  exists v3. split; [exact Hp|exact Hrun].
Defined.

(** ** The supply *)

Definition built_parent : StatelessBlock :=
  match find_block built (Prnt (sb_block built_block)) with Ok p => p | _ => built_block end.
Lemma built_parent_found : find_block built (Prnt (sb_block built_block)) = Ok built_parent.
Proof.
  assert (match find_block built (Prnt (sb_block built_block)) with Ok _ => true | _ => false end = true)
    as Hf by (vm_compute; reflexivity).
  unfold built_parent. by destruct (find_block built _).
Qed.
Lemma built_parent_state : onAccept built_parent (vm_db built) = inr (vm_db built).
Proof.
  unfold onAccept.
  replace (bool_decide (sb_st built_parent = Accepted) || (Hght (sb_block built_parent) =? 0)) with true;
    [done|vm_compute; reflexivity].
Qed.
Lemma built_accounts_ok : accounts_ok (vm_db built).
Proof. apply accounts_okb_ok. vm_compute. reflexivity. Qed.
Lemma built_stakes_fit : stakes_fit (st_stakers (vm_samaState built)).
Proof.
  assert (st_stakers (vm_samaState built) = emptyStakerState) as -> by (vm_compute; reflexivity).
  intros t a m Ht. staker_type t Ht; by intros [|].
Qed.
Definition both : list Address := [payer; addr 2].
Lemma built_within : within both (Txs (sb_block built_block)).
Proof.
  assert (Txs (sb_block built_block) = [default (NewTx pay []) (head (Txs (sb_block built_block)))]) as ->
    by (vm_compute; reflexivity).
  intros tx ->%list_elem_of_singleton.
  replace (tx_Unsigned _) with pay by (vm_compute; reflexivity). split.
  - change (is_u64 40). unfold is_u64. lia.
  - split.
    + replace (tx_sender _) with payer by (vm_compute; reflexivity). apply list_elem_of_here.
    + intros t [= <-]. apply list_elem_of_further, list_elem_of_here.
Qed.

(** The payer starts with 1000, sends 40 and pays 5. *)
Lemma accepted_block_conserves_tokens_witness :
  holdings both (vm_db built) = 1000 /\ holdings both (vm_db accepted_vm) = 995.
Proof.
  assert (NoDup both) as Hnd by vm_decide.
  destruct (accepted_block_conserves_tokens built_at built verified_vm accepted_vm built_block
    built_parent (vm_db built) both built_wf built_block_at built_block_ready built_ids_agree verify_runs
    accept_runs built_parent_found built_parent_state built_accounts_ok built_stakes_fit Hnd built_within)
    as (_ & Hsum & _).
  split; [vm_compute; reflexivity|]. etransitivity; [exact Hsum|]. vm_compute. reflexivity.
Defined.

(** The checks of a block, computed. *)
Definition check_of (v : VM) (b : StatelessBlock) : option (StatelessBlock * Context_t * DB) :=
  match find_block v (Prnt (sb_block b)) with
  | Ok parent =>
      match context_of v (blk_Tmstmp (sb_block b)) parent, onAccept parent (vm_db v),
            block_size (vm_genesis v) (Txs (sb_block b)) 0 with
      | Ok ctx, inr state, Ok _ =>
          if negb (length (Txs (sb_block b)) =? 0)%nat && (sb_t b <? Unix (time_Now (vm_tick v) + futureBound)) &&
             (sb_t parent <=? sb_t b) && (Cost (sb_block b) =? NextCost ctx) && (Price (sb_block b) =? NextPrice ctx) &&
             bool_decide (AccessProof (sb_block b) =
               generateAccessProof (versiondb_New state) (sb_id parent) (Hght (sb_block b)))
          then Some (parent, ctx, state) else None
      | _, _, _ => None
      end
  | _ => None
  end.
Lemma check_of_ok v b parent ctx state : check_of v b = Some (parent, ctx, state) -> checked v b parent ctx state.
Proof.
  unfold check_of. destruct (find_block v _) as [p|e|q] eqn:Hp; [|done..].
  destruct (context_of v _ p) as [c|e|q] eqn:Hc; [|done..]. destruct (onAccept p _) as [e|s] eqn:Hs; [done|].
  destruct (block_size _ _ 0) as [z|e|q] eqn:Hz; [|done..]. destruct (_ && _)%bool eqn:Hb; [|done]. intros [= -> -> ->].
  rewrite !andb_true_iff, negb_true_iff, Nat.eqb_neq, Z.ltb_lt, Z.leb_le, !Z.eqb_eq, bool_decide_eq_true in Hb.
  destruct Hb as [[[[[Htxs Hl] He] Hco] Hpr] Hpf]. split; try done; [by intros Hn; rewrite Hn in Htxs|by exists z].
Qed.
(** The end of verification, where the checks hold. *)
Definition run_of (v : VM) (b : StatelessBlock) : option (world * outcome Z) :=
  match check_of v b with Some (p, c, s) => Some (execution v b c s) | None => None end.
Lemma run_of_ok v b w o :
  run_of v b = Some (w, o) -> exists p c s, checked v b p c s /\ execution v b c s = (w, o).
Proof.
  unfold run_of. destruct (check_of v b) as [[[p c] s]|] eqn:Hc; [|done]. intros [= Hx].
  exists p, c, s. split; [by apply check_of_ok|done].
Qed.

(** A block of a proposal and of a transfer that is not covered: the node that
    has seen it has a proposal of its own from then on, and the one that has not
    has none, when both have accepted the same good block. *)
Definition bad_block : StatelessBlock := default built_block (vm_objects received !! bad_at).
Lemma bad_block_at : vm_objects received !! bad_at = Some bad_block.
Proof.
  assert (bool_decide (is_Some (vm_objects received !! bad_at)) = true) as Hb by (vm_compute; reflexivity).
  apply bool_decide_eq_true in Hb as [b Hb]. unfold bad_block. by rewrite Hb.
Qed.
Definition bad_run : world * outcome Z := default (start empty_db, Panic OutOfFuel) (run_of received bad_block).
Lemma bad_block_runs : run_of received bad_block = Some (bad_run.1, Err (Wrapf ErrInvalidBalance "modify bal")).
Proof.
  assert (match run_of received bad_block with Some (_, Err e) => bool_decide (e = Wrapf ErrInvalidBalance "modify bal")
    | _ => false end = true) as Hr by (vm_compute; reflexivity).
  unfold bad_run. destruct (run_of received bad_block) as [[w [z|e|p]]|]; [done| |done..].
  apply bool_decide_eq_true in Hr as ->. reflexivity.
Qed.
Lemma received_wf : vm_wf received.
Proof. apply vm_wfb_ok. vm_compute. reflexivity. Qed.
Lemma refused_block_stays_pending_witness :
  (Verify bad_at received).2 = Err (Wrapf ErrInvalidBalance "modify bal") /\
  vm_samaState saw_bad = w_sama bad_run.1 /\
  length (open_actions (accepts built_at received)) = 0%nat /\ length (open_actions (accepts built_at saw_bad)) = 1%nat.
Proof.
  destruct (run_of_ok _ _ _ _ bad_block_runs) as (p & c & s & Hc & Hx).
  destruct (refused_block_stays_pending bad_at received bad_block p c s _ _ received_wf bad_block_at Hc Hx)
    as (v1 & Hv & _ & Hs & _).
  split; [by rewrite Hv|]. split; [unfold saw_bad, after; by rewrite Hv|]. split; vm_compute; reflexivity.
Defined.

Lemma verify_accepts_exactly_witness : exists v' pl db, verify built_block built = (v', Ok (pl, db)).
Proof.
  apply (verify_accepts_exactly built built_block built_wf).
  assert (match run_of built built_block with
    | Some (_, Ok z) => Price (sb_block built_block) *u Cost (sb_block built_block) <=? z | _ => false end = true)
    as Hr by (vm_compute; reflexivity).
  destruct (run_of built built_block) as [[w [z|e|p]]|] eqn:Hrun; [|done..].
  apply run_of_ok in Hrun as (p & c & s & Hc & Hx). exists p, c, s, w, z. split; [exact Hc|exact Hx|by apply Z.leb_le].
Defined.

(** The block of the transfer of 40 units at 5, with three copies of it. *)
Definition built_tx : Transaction := default (NewTx pay []) (head (Txs (sb_block built_block))).
Definition repeating : StatelessBlock := set_block (set_Txs (replicate 3 built_tx) (sb_block built_block)) built_block.
Definition repeating_check := default (built_parent, mkContext ∅ ∅ 0 [] [] 0 0, empty_db) (check_of built repeating).
Lemma repeating_checked : checked built repeating repeating_check.1.1 repeating_check.1.2 repeating_check.2.
Proof.
  apply check_of_ok. unfold repeating_check.
  assert (bool_decide (is_Some (check_of built repeating)) = true) as Hc by (vm_compute; reflexivity).
  apply bool_decide_eq_true in Hc as [[[p c] s] Hc]. by rewrite Hc.
Qed.
Definition pay_40 : TransferTx := mkTransferTx (mkBaseTx (vm_preferred booted) 7 5) (addr 2) 40.
Lemma elem_gset (i : ID) (s : gset ID) : bool_decide (i ∈ s) = true -> i ∈ s.
Proof. apply bool_decide_eq_true_1. Qed.
Lemma not_elem_gset (i : ID) (s : gset ID) : bool_decide (i ∉ s) = true -> i ∉ s.
Proof. apply bool_decide_eq_true_1. Qed.
Lemma block_may_repeat_a_transfer_witness :
  exists v' pl db, verify repeating built = (v', Ok (pl, db)) /\ balance db payer = 1000 - 3 * 45 /\ balance db (addr 2) = 120.
Proof.
  destruct (block_may_repeat_a_transfer 3 built repeating _ _ _ built_tx pay_40 built_wf repeating_checked)
    as (v' & pl & db & Hrun & Hf & Ht).
  - vm_compute. reflexivity.
  - vm_compute. reflexivity.
  - apply accounts_okb_ok. vm_compute. reflexivity.
  - unfold is_u64. cbn. lia.
  - vm_compute. reflexivity.
  - match goal with |- ?i ∈ ?s => refine (elem_gset i s _) end. vm_compute. reflexivity.
  - match goal with |- ?i ∉ ?s => refine (not_elem_gset i s _) end. vm_compute. reflexivity.
  - change (addr 2 <> zeroAddress). vm_decide.
  - assert (tx_sender built_tx = payer) as -> by (vm_compute; reflexivity). change (addr 2 <> payer). vm_decide.
  - cbn. lia.
  - vm_compute. congruence.
  - vm_compute. reflexivity.
  - vm_compute. congruence.
  - exists v', pl, db. split; [exact Hrun|]. assert (tx_sender built_tx = payer) as Hp by (vm_compute; reflexivity).
    rewrite Hp in Hf. split; [etransitivity; [exact Hf|]|etransitivity; [exact Ht|]]; vm_compute; reflexivity.
Defined.

(** ** Gossip *)

Definition a_network : PushNetwork := NewPushNetwork.
Lemma regossip_forgets_witness :
  exists v' n1 sent, RegossipTxs true (busy, a_network) = sendTxs sent (v', n1) /\ sent <> [].
Proof.
  destruct (regossip_forgets true busy a_network eq_refl full_pool_sync
    ltac:(vm_compute; congruence) ltac:(vm_compute; congruence)
    ltac:(vm_compute; split; congruence) ltac:(vm_compute; reflexivity)) as (v' & n1 & sent & Hrun & Hne & _).
  exists v', n1, sent. split; [exact Hrun|exact Hne].
Defined.
