(* ===== verification/CodecWitnesses.v ===== *)
(** * A concrete linear codec, for the witness on the codec of the package

    It keeps the list of its types, refuses a value with a type it does not know
    or that does not fit, and packs the others. *)

From S2P Require Import Prelude External GoStd TData Instances Keys Storage Genesis SamaState.
From S2P Require Import Users Tx TypedTx Block Network Codec Samples NodeSamples ChainSamples.

#[export] Instance packable_carrier (s : shape) : Packable (carrier s).
Proof. destruct s; cbn; apply _. Defined.
Definition unpack_shape (s : shape) (b : bytes) : option (carrier s) :=
  match unpack b with Some (a, []) => Some a | _ => None end.
Lemma unpack_pack_shape s (a : carrier s) : unpack_shape s (pack a) = Some a.
Proof. unfold unpack_shape. pose proof (unpack_pack a []) as Hu. rewrite app_nil_r in Hu. by rewrite Hu. Qed.

Record sample_manager := mkSampleManager {
  sm_max : Z;
  sm_codecs : list (Z * list go_type)
}.
Definition sm_codec (m : sample_manager) (v : Z) : option (list go_type) :=
  snd <$> find (fun p => p.1 =? v) (sm_codecs m).

Definition fitting (m : sample_manager) (v : Z) (s : shape) (a : carrier s) : bool :=
  match sm_codec m v with
  | Some c => forallb (fun t => bool_decide (t ∈ c)) (types_in s a) &&
      (Z.of_nat (length (pack a)) <=? sm_max m)
  | None => false
  end.

Definition sample_Marshal (m : sample_manager) (v : Z) (s : shape) (a : carrier s) : result bytes :=
  if fitting m v s a && (v =? 0) then inr (pack a) else inl (Errorf "codec").

#[export] Instance sample_linearcodec : Linearcodec := {|
  linearcodec := list go_type;
  NewDefault := [];
  RegisterType t c := if decide (t ∈ c) then (c, inl (Errorf "duplicate type")) else (c ++ [t], inr tt);
  codec_types c := c;
  Manager := sample_manager;
  NewManager n := mkSampleManager n [];
  RegisterCodec v c m := (mkSampleManager (sm_max m) ((v, c) :: sm_codecs m), inr tt);
  manager_codec := sm_codec;
  manager_max := sm_max;
  manager_Marshal := sample_Marshal;
  manager_Unmarshal m b s :=
    match unpack_shape s b with
    | Some a => if fitting m 0 s a then inr (0, a) else inl (Errorf "codec")
    | None => inl (Errorf "codec")
    end;
  Errs := option error;
  no_Errs := None;
  Errs_Add l e := match e with Some _ => e | None => first_error l end;
  Errored e := e
|}.
#[export] Instance sample_linearcodec_laws : LinearcodecLaws.
Proof.
  split; cbn; try done.
  - intros t c Ht. rewrite decide_False by done. by eexists.
  - intros t c Ht. rewrite decide_True by done. by eexists.
  - intros v c n. eexists. split_and!; [done| |done]. unfold sm_codec. cbn. by rewrite Z.eqb_refl.
  - intros m v s a b. unfold sample_Marshal, fitting. destruct (sm_codec m v) as [c|]; [|done].
    destruct (forallb _ _) eqn:Ht; [|done]. cbn. destruct (Z.leb_spec (Z.of_nat (length (pack a))) (sm_max m)); [|done].
    destruct (v =? 0); [|done]. intros [= <-]. split; [done|]. exists c. split; [done|].
    apply Forall_forall. intros t Hin. rewrite forallb_forall in Ht.
    apply list_elem_of_In, Ht in Hin. by apply bool_decide_eq_true in Hin.
  - intros m v s a b. unfold sample_Marshal. destruct (fitting m v s a) eqn:Hf; [|done].
    destruct (Z.eqb_spec v 0) as [->|]; [|done]. intros [= <-].
    by rewrite unpack_pack_shape, Hf.
Qed.

(** The codec takes a vote and refuses a withdrawal; the manager has the
    types of the source. *)
Definition the_manager : Manager :=
  match codec_init with Ok m => m | _ => NewManager 0 end.
Definition a_vote : UnsignedTransaction := UVote (mkVoteTx sample_base (action 4)).
Definition a_withdrawal : UnsignedTransaction := UWithdrawn (mkWithdrawnTx sample_base (action 4)).
Definition initialises (u : UnsignedTransaction) : bool :=
  match @Init _ _ _ (package_tx_codec the_manager) (NewTx u sample_sig) DefaultGenesis with
  | Ok _ => true | _ => false end.

Lemma only_withdrawals_cannot_travel_witness :
  initialises a_vote = true /\ initialises a_withdrawal = false.
Proof.
  split; [vm_compute; reflexivity|].
  destruct only_withdrawals_cannot_travel as (m & Hm & _ & Hinit & _).
  unfold initialises, the_manager. rewrite Hm.
  destruct (@Init _ _ _ (package_tx_codec m) (NewTx a_withdrawal sample_sig) DefaultGenesis) as [t|e|p] eqn:Hi;
    [|reflexivity..].
  apply Hinit in Hi as [_ Hne]. exfalso. by eapply Hne.
Defined.
