(* ===== verification/ServiceWitnesses.v ===== *)
(** * Witnesses for the theorems on the service, the client and the files *)

From S2P Require Import Prelude External GoStd TData Builder Lifecycle Instances Keys Storage Genesis.
From S2P Require Import Actions Users SamaState StateFacts Tx TypedTx Activity Keystore TypedTxFacts Block BlockFacts Mempool.
From S2P Require Import VM Service Client Tree Lookback FeeMarket TxFacts VMFacts AcceptFacts Values.
From S2P Require Import ServiceFacts ClientFacts TreeFacts Samples NodeSamples ChainSamples ServiceSamples VMWitnesses.

Lemma builder_is_replaced_and_stopped_witness :
  lf_control started <> Crashed /\ (length (lf_running started) <= 2)%nat.
Proof.
  destruct (builder_is_replaced_and_stopped started ltac:(apply rtc_refl)) as (Hc & _ & _ & _ & Hl).
  split; [exact Hc|exact Hl].
Defined.

(** ** A chain with a value *)

Definition the_value : bytes := String.list_byte_of_string "hello".
Definition set_value : SetTx := mkSetTx (mkBaseTx (vm_preferred booted) 7 5) the_value.
Definition value_submitted : VM := after (Submit [NewTx (USet set_value) sample_sig]) booted.
Definition value_built : VM := after (vm_BuildBlock 0) value_submitted.
Definition value_at_loc : block_loc := loc_of (vm_BuildBlock 0) value_submitted.
Definition value_verified : VM := after (Verify value_at_loc) value_built.
Definition value_accepted : VM := after (Accept value_at_loc) value_verified.
Definition value_block : StatelessBlock :=
  default (hand_block (txid 11) (txid 10) 2 []) (vm_objects value_built !! value_at_loc).
Definition value_tx : Transaction := default one_tx (head (Txs (sb_block value_block))).

Lemma value_block_at : vm_objects value_built !! value_at_loc = Some value_block.
Proof.
  assert (bool_decide (is_Some (vm_objects value_built !! value_at_loc)) = true) as Hb by (vm_compute; reflexivity).
  apply bool_decide_eq_true in Hb as [b Hb]. unfold value_block. by rewrite Hb.
Qed.
Lemma value_built_wf : vm_wf value_built.
Proof. apply vm_wfb_ok. vm_compute. reflexivity. Qed.
Lemma value_block_ready : block_ready (vm_genesis value_built) value_block.
Proof.
  unfold block_ready. refine (conj _ (conj _ (conj _ _))).
  - vm_compute. reflexivity.
  - vm_decide.
  - vm_compute. reflexivity.
  - apply list_all. vm_compute. reflexivity.
Qed.
Lemma value_block_txs : Txs (sb_block value_block) = [value_tx].
Proof.
  assert (length (Txs (sb_block value_block)) = 1%nat) as Hl by (vm_compute; reflexivity).
  unfold value_tx. by destruct (Txs (sb_block value_block)) as [|t [|]].
Qed.
Lemma value_ids_agree : ids_agree (Txs (sb_block value_block)).
Proof. rewrite value_block_txs. by intros t1 t2 ->%list_elem_of_singleton ->%list_elem_of_singleton _. Qed.
Lemma value_verify_runs : Verify value_at_loc value_built = (value_verified, Ok tt).
Proof. unfold value_verified, after. apply ran. vm_compute. reflexivity. Qed.
Lemma value_accept_runs : Accept value_at_loc value_verified = (value_accepted, Ok tt).
Proof. unfold value_accepted, after. apply ran. vm_compute. reflexivity. Qed.
Lemma value_tx_sets : tx_Unsigned value_tx = USet set_value.
Proof. vm_compute. reflexivity. Qed.

Lemma accepted_value_resolves_witness :
  exists s', svc_Resolve (ValueHash the_value) (service_of value_accepted) =
    (s', Ok (mkResolveReply true the_value
      (Some (mkValueMeta 5 (tx_id value_tx) (u64 (blk_Tmstmp (sb_block value_block))))))).
Proof.
  destruct (accepted_value_resolves value_at_loc value_built value_verified value_accepted value_block value_tx
    set_value (service_of value_accepted) value_built_wf value_block_at value_block_ready value_ids_agree
    value_verify_runs value_accept_runs ltac:(rewrite value_block_txs; left) value_tx_sets eq_refl
    (linked_ok_New _)) as (s' & Hrun & _).
  exists s'. exact Hrun.
Defined.

(** ** Activities *)

Lemma empty_ring : ring verified_vm [].
Proof. split; [vm_compute; split; congruence|vm_compute; reflexivity..|intros i a Hi; done]. Qed.
Definition verified_block : StatelessBlock :=
  default (hand_block (txid 11) (txid 10) 2 []) (vm_objects verified_vm !! built_at).
Lemma verified_block_at : vm_objects verified_vm !! built_at = Some verified_block.
Proof.
  assert (bool_decide (is_Some (vm_objects verified_vm !! built_at)) = true) as Hb by (vm_compute; reflexivity).
  apply bool_decide_eq_true in Hb as [b Hb]. unfold verified_block. by rewrite Hb.
Qed.
Lemma recent_activity_is_end_of_history_witness :
  svc_RecentActivity (service_of accepted_vm) =
    (service_of accepted_vm, Ok (take 4 (reverse (block_activities verified_block)))).
Proof.
  exact (proj2 (recent_activity_is_end_of_history built_at verified_vm accepted_vm verified_block []
    (service_of accepted_vm) empty_ring verified_block_at accept_runs ltac:(vm_compute; reflexivity) eq_refl)).
Defined.

(** ** Transactions, signed by the node and by a client *)

Definition the_key : PrivateKey := payer.
Definition payment : UnsignedTransaction := UTransfer (mkTransferTx zeroBaseTx (addr 2) 40).
Definition run_of {S A} (x : A) (m : M S A) (s : S) : S * A :=
  let r := m s in (r.1, match r.2 with Ok a => a | _ => x end).
Lemma run_of_runs {S A B} (x : A * B) (m : M S (A * B)) (s : S) :
  (if (m s).2 is Ok _ then true else false) = true ->
  m s = ((run_of x m s).1, Ok ((run_of x m s).2.1, (run_of x m s).2.2)).
Proof. unfold run_of. destruct (m s) as [s' [[a b]|e|p]]; cbn; done. Qed.
Definition node_signs := run_of (EmptyID, 0) (SignSubmitRawTx payment the_key) (service_of booted).
Lemma node_signs_runs :
  SignSubmitRawTx payment the_key (service_of booted) = (node_signs.1, Ok (node_signs.2.1, node_signs.2.2)).
Proof. unfold node_signs. apply (run_of_runs _ (SignSubmitRawTx payment the_key)). vm_compute. reflexivity. Qed.
Lemma signed_transaction_is_the_users_at_twice_the_price_witness :
  exists tx, tx_id tx = node_signs.2.1 /\ tx_sender tx = payer.
Proof.
  destruct (signed_transaction_is_the_users_at_twice_the_price payment the_key (service_of booted) _ _ _ node_signs_runs)
    as (tx & _ & _ & _ & _ & _ & _ & _ & Hid & Hs & _).
  exists tx. split; [exact Hid|]. rewrite Hs. vm_decide.
Defined.

Definition idle_chain : Requester := served_by (fun s => s).
Definition client_signs := run_of (EmptyID, 0) (@SignIssueRawTx _ _ idle_chain _ _ _ 0 (mkDecoded payment true) the_key [])
  (service_of booted, 3%nat).
Lemma client_signs_runs :
  @SignIssueRawTx _ _ idle_chain _ _ _ 0 (mkDecoded payment true) the_key [] (service_of booted, 3%nat) =
    (client_signs.1, Ok (client_signs.2.1, client_signs.2.2)).
Proof. unfold client_signs. apply (run_of_runs _ (@SignIssueRawTx _ _ idle_chain _ _ _ 0 (mkDecoded payment true) the_key [])). vm_compute. reflexivity. Qed.
Lemma raw_transaction_reaches_the_node_witness :
  exists tx, tx_id tx = client_signs.2.1 /\ tx_sender tx = payer.
Proof.
  destruct (raw_transaction_reaches_the_node (fun s => s) 0 payment the_key (service_of booted) 3 _ _ _ client_signs_runs)
    as (tx & _ & _ & _ & _ & _ & _ & _ & _ & _ & Hid & Hs & _).
  exists tx. split; [exact Hid|]. rewrite Hs. vm_decide.
Defined.

(** The transaction is not in the chain yet, so polling ends with the context. *)
Lemma polling_ends_with_the_context_witness :
  exists w' e, @cli_PollTx _ _ idle_chain 4 client_signs.2.1 client_signs.1 = (w', Err e) /\
    @ctx_Err _ _ idle_chain w' = Some e.
Proof.
  destruct (@polling_ends_with_the_context _ _ idle_chain (served_deadline _) 4 client_signs.2.1 client_signs.1
    ltac:(vm_compute; lia)) as (w' & r & Hrun & Hcases).
  assert ((if (@cli_PollTx _ _ idle_chain 4 client_signs.2.1 client_signs.1).2 is Err _ then true else false) = true) as Herr
    by (vm_compute; reflexivity).
  rewrite Hrun in Herr. destruct Hcases as [[-> _]|(e & -> & He)]; [discriminate Herr|].
  exists w', e. split; [exact Hrun|exact He].
Defined.

(** ** Values and files *)

Definition a_store : gmap Hash bytes := <[ ValueHash the_value := the_value ]> ∅.
Lemma a_store_resolves : cli_Resolve (ValueHash the_value) a_store = (a_store, Ok (true, the_value, None)).
Proof.
  destruct (resolve_value a_store (ValueHash the_value)) as (m & Hrun & ->). rewrite Hrun.
  unfold a_store. rewrite value_in_insert. by rewrite decide_True.
Qed.
Lemma resolved_value_has_the_hash_witness :
  exists v m, cli_Resolve (ValueHash the_value) a_store = (a_store, Ok (true, v, m)) /\
    ValueHash v = ValueHash the_value /\ v = the_value.
Proof.
  exists the_value, None. split; [exact a_store_resolves|]. split; [|reflexivity].
  exact (resolved_value_has_the_hash _ _ _ true the_value None a_store_resolves).
Defined.

(** Five bytes in chunks of two. *)
Definition root_bytes : bytes := match Marshal (root_of 2 the_value) with inr b => b | inl _ => [] end.
Definition all_pieces : list bytes := root_bytes :: pieces 2 the_value.
Definition digestibleb (c : bytes) : bool :=
  match tx_DigestHash (stored_as c) with Ok dh => (length dh =? 32)%nat | _ => false end.
Lemma pieces_digestible : forallb digestibleb all_pieces = true.
Proof. vm_compute. reflexivity. Qed.
Lemma pieces_apart : NoDup ((fun c => array (ValueHash c)) <$> all_pieces).
Proof. vm_decide. Qed.
Lemma apart_distinct l c c' : NoDup ((fun c => array (ValueHash c)) <$> l) -> c ∈ l -> c' ∈ l -> ValueHash c = ValueHash c' -> c = c'.
Proof.
  intros Hnd [i Hi]%list_elem_of_lookup [j Hj]%list_elem_of_lookup Heq.
  assert (i = j) as <-; [|congruence].
  apply (NoDup_lookup _ i j (array (ValueHash c)) Hnd); [by rewrite list_lookup_fmap, Hi|by rewrite list_lookup_fmap, Hj, Heq].
Qed.
Lemma the_pieces_storable : @storable _ _ _ _ _ _ 1 the_key (value_node_store the_key) ∅ all_pieces.
Proof.
  split.
  - intros c Hc. pose proof pieces_digestible as Hall. rewrite forallb_forall in Hall.
    specialize (Hall c (proj1 (list_elem_of_In _ _) Hc)). unfold digestibleb in Hall.
    change (digestible c). unfold digestible. destruct (tx_DigestHash (stored_as c)); [|done..].
    by apply Nat.eqb_eq.
  - intros c v _. change (value_in ∅ (ValueHash c) = Some v -> v = c). unfold value_in. by rewrite lookup_empty.
  - intros c c'. apply apart_distinct, pieces_apart.
Qed.
Lemma root_marshalled : Marshal (root_of 2 the_value) = inr root_bytes.
Proof. vm_compute. reflexivity. Qed.
Lemma uploaded_file_comes_back_witness :
  exists w' r' w'' o', Upload 6 1 the_key 2 (∅ : Remote, the_value : Rd) = ((w', r'), Ok (ValueHash root_bytes)) /\
    Download (ValueHash root_bytes) (w', [] : Wr) = ((w'', o'), Ok tt) /\ o' = the_value.
Proof.
  exact (uploaded_file_comes_back 1 the_key 2 (∅ : Remote) (the_value : Rd) ([] : Wr) root_bytes
    ltac:(lia) root_marshalled the_pieces_storable eq_refl ltac:(apply (bool_decide_eq_true_1 _); vm_compute; reflexivity)).
Defined.

(** ** Keys of a user *)
Definition alice : PublicService := service_of booted.
Lemma no_keys_yet : wallet empty_db [].
Proof. split; [apply NoDup_nil_2|done|done]. Qed.
Definition key_text : string := String.string_of_list_byte (array payer).
Lemma key_text_is_hex : IsHexAddress key_text = true.
Proof. reflexivity. Qed.
Lemma imported_key_is_exported_witness :
  exists s1 s2, svc_ImportKey "alice" "secret" (Some the_key) alice = (s1, Ok (address_of the_key)) /\
    svc_ExportKey "alice" "secret" key_text s1 = (s2, Ok (the_key, hexutil_Encode (sk_Bytes the_key))).
Proof.
  destruct (imported_key_is_exported "alice" "secret" empty_db [] the_key key_text alice eq_refl no_keys_yet key_text_is_hex
    ltac:(vm_decide)) as (s1 & db1 & s2 & Himp & _ & _ & _ & Hexp).
  exists s1, s2. split; [exact Himp|]. apply Hexp. intros Hin. by apply elem_of_nil in Hin.
Defined.
