(* ===== verification/CliSamples.v ===== *)
(** * A concrete machine for the command line, and a node behind it *)

From S2P Require Import Prelude External GoStd Builder Instances Keys Storage Genesis Users SamaState StateFacts.
From S2P Require Import Tx TypedTx Activity Keystore Block Mempool VM Config Service Client Tree Cli.
From S2P Require Import TreeFacts CliFacts Samples NodeSamples ChainSamples ServiceSamples ServiceWitnesses.

(** Files, key files, a clock that advances when it is read, and the number of
    keys made so far. *)
Record Desk := mkDesk {
  files : gmap string bytes;
  keyring : gmap string Address;
  clock_s : Z;
  made : nat
}.
Definition put_file (p : string) (b : bytes) (d : Desk) : Desk :=
  mkDesk (<[p := b]> (files d)) (keyring d) (clock_s d) (made d).
Definition file_at {A} (m : gmap string A) (p : string) : result A :=
  match m !! p with Some a => inr a | None => inl (ExtError "no such file or directory") end.
#[export] Instance sample_machine : Machine := {|
  Mach := Desk;
  Stat d p := match files d !! p, keyring d !! p with None, None => Some ErrNotExist | _, _ => None end;
  Open d p := file_at (files d) p;
  Create d p := (put_file p [] d, inr []);
  Close d p o := put_file p o d;
  ReadFile d p := file_at (files d) p;
  WriteFile d p b := (put_file p b d, inr tt);
  LoadECDSA d p := file_at (keyring d) p;
  SaveECDSA d p sk := (mkDesk (files d) (<[p := sk]> (keyring d)) (clock_s d) (made d), inr tt);
  GenerateKey d := (mkDesk (files d) (keyring d) (clock_s d) (S (made d)), inr (addr (Z.of_nat (S (made d)))));
  Now d := (mkDesk (files d) (keyring d) (clock_s d + 1) (made d), clock_s d * ns_per_sec)
|}.
#[export] Instance sample_machine_laws : MachineLaws.
Proof.
  split.
  - by intros d p d' o [= <- <-].
  - intros d p o. cbn. unfold file_at. by rewrite lookup_insert_eq.
  - intros d p b d' [= <-]. cbn. unfold file_at. by rewrite lookup_insert_eq.
  - by intros d p b d' r q [= <- <-] _.
  - intros d p sk d' [= <-]. cbn. unfold file_at. by rewrite lookup_insert_eq.
Qed.
#[export] Instance sample_key_text : KeyText := {|
  HexToHash s := sized_of 32 (String.list_byte_of_string s);
  HexToECDSA s := match hex_DecodeString s with inl e => inl e | inr b => ToPrivateKey b end;
  FromECDSA := array;
  FromECDSAPub pk := pk
|}.
#[export] Instance sample_key_text_laws : KeyTextLaws.
Proof.
  split; [|done]. intros h. change (sized_of 32 (String.list_byte_of_string (String.string_of_list_byte (array h))) = h).
  by rewrite String.list_byte_of_string_of_list_byte, sized_of_array.
Qed.

(** ** The JSON of a genesis: the tuple of its fields *)
#[export] Instance packable_allocation : Packable CustomAllocation :=
  packable_via (fun c => (Alloc_Address c, Alloc_Balance c)) (fun '(a, z) => mkCustomAllocation a z)
    ltac:(by intros []).
Definition genesis_numbers (g : Genesis) : list Z :=
  match g with
  | mkGenesis m b v mv mp lw tr ts mb _ _ _ u tk cu ci ty ry ct mi fo ro se va bs ms br mr bu rs ss mo sn an st _ _ =>
      [m; b; v; mv; mp; lw; tr; ts; mb; u; tk; cu; ci; ty; ry; ct; mi; fo; ro; se; va; bs; ms; br; mr; bu; rs; ss;
       mo; sn; an; st]
  end.
Definition genesis_of (l : list Z) (e : bool) (c : list CustomAllocation) (h r f : string) : Genesis :=
  match l with
  | [m; b; v; mv; mp; lw; tr; ts; mb; u; tk; cu; ci; ty; ry; ct; mi; fo; ro; se; va; bs; ms; br; mr; bu; rs; ss;
     mo; sn; an; st] =>
      mkGenesis m b v mv mp lw tr ts mb e c h u tk cu ci ty ry ct mi fo ro se va bs ms br mr bu rs ss mo sn an st r f
  | _ => DefaultGenesis
  end.
#[export] Instance packable_genesis : Packable Genesis :=
  packable_via (fun g => (genesis_numbers g, Genesis_BlockCostEnabled g, Genesis_CustomAllocation g,
      (String.list_byte_of_string (Genesis_AirdropHash g), String.list_byte_of_string (Genesis_RootAddress g),
       String.list_byte_of_string (Genesis_FoundationAddr g))))
    (fun '(l, e, c, (h, r, f)) => genesis_of l e c (String.string_of_list_byte h) (String.string_of_list_byte r)
      (String.string_of_list_byte f))
    ltac:(intros []; cbv beta iota; rewrite !String.string_of_list_byte_of_string; reflexivity).
#[export] Instance sample_json : NodeJSON := {|
  config_Unmarshal c _ := inr c;
  genesis_Unmarshal _ := Unmarshal (A := Genesis);
  genesis_Marshal := Marshal (A := Genesis);
  allocations_Unmarshal := Unmarshal (A := list CustomAllocation)
|}.
#[export] Instance sample_json_laws : NodeJSONLaws.
Proof.
  split.
  - intros g. by eexists.
  - intros d g b _. apply (Unmarshal_Marshal (A := Genesis)).
Qed.

(** ** A desk: the key of the payer, a file, and allocations for a new chain *)
Definition the_desk : Desk := mkDesk
  {[ "photo"%string := the_value; "allocations.json"%string := pack [mkCustomAllocation payer 100000] ]}
  {[ "./sama-cli-pk"%string := payer ]} 1700000000 0.
Definition the_flags : Flags := mkFlags "./sama-cli-pk" false "genesis.json" 3 "" 0.
