(* ===== verification/EndToEnd.v ===== *)
(** * Runs of the whole program: a file goes through the chain

    All the parts at once: a client that signs and polls, the service, the
    mempool, building, verification and acceptance of blocks, storage, and the
    download, on one node whose consensus decides one block a second. *)

From S2P Require Import Prelude External GoStd Builder Instances Keys Storage Genesis SamaState StateFacts.
From S2P Require Import Tx TypedTx Activity Keystore Block Mempool VM Config Service Client Tree Cli.
From S2P Require Import Samples NodeSamples ChainSamples ServiceSamples ServiceWitnesses CliSamples.

(** A clock that advances with every look at it. *)
Definition ticking : GoRuntime := {|
  map_range K V _ _ m := map_to_list m;
  time_Now i := (1700000000 + Z.of_nat i) * 1000000000;
  float_to_uint_oob := 2 ^ 63;
  float_to_int_oob := - 2 ^ 63
|}.
#[local] Existing Instance ticking | 0.

Definition ticking_vm : VM :=
  match Initialize empty_db (inr (10, 4)) (inr G) [] (fun _ => inr []) (fresh_state G) 0 with
  | Ok v => v
  | _ => empty_vm
  end.
(** What the engine does with a node that is the only validator. *)
Definition decide_block : M VM unit :=
  let! l := vm_BuildBlock 0 in
  let! b := block_at l in
  Verify l ;;; SetPreference (sb_id b) ;;; Accept l.
Definition consensus_round (s : PublicService) : PublicService :=
  mkPublicService (decide_block (svc_vm s)).1 (svc_Cache s) (svc_linked s) (svc_ks s) (svc_rand s).
Definition live : Requester := served_by consensus_round.

(** Five bytes in chunks of two: the payer uploads three chunks and a root, each
    in a transaction and a block of its own, for which the client waits. *)
Definition uploading := @Upload _ _ live _ _ _ _ _ 6 3 the_key 2 ((service_of ticking_vm, 20%nat), the_value).
Definition downloading :=
  match uploading with
  | (w, Ok root) => @Download _ _ live _ _ root (w.1, [] : Wr)
  | (w, Err e) => ((w.1, [] : Wr), Err e)
  | (w, Panic p) => ((w.1, [] : Wr), Panic p)
  end.
Definition node_of {F R} (x : PublicService * nat * F * outcome R) : PublicService := x.1.1.1.
Definition file_of {S R} (x : S * Wr * outcome R) : bytes := x.1.2.
Definition result_of {S R} (x : S * outcome R) : outcome R := x.2.

(** On this node and for this file: the client downloads it again byte for byte;
    every chunk is signed, submitted, built into a block, verified, accepted and
    stored apart from its transaction, polled for, and resolved in the end.  The
    service reports the four transactions, and the last block is the fourth. *)
Example file_goes_through_the_chain :
  result_of downloading = Ok tt /\ file_of downloading = the_value /\
  (if result_of (svc_RecentActivity (node_of downloading)) is Ok l then length l else 0%nat) = 4%nat /\
  (if result_of (svc_LastAccepted (node_of downloading)) is Ok (height, _) then height else 0) = 4.
Proof. split_and!; vm_compute; reflexivity. Qed.

(** ** The same from the command line *)

Definition at_desk (c : Command) (args : list string) (x : Desk * (PublicService * nat)) :=
  @RunE _ _ live _ _ _ _ _ _ _ _ _ 10 5 the_flags c args x.
(** The operator writes a genesis; a node is started on the file, with default
    configuration. *)
Definition new_chain := at_desk genesisCmd ["7"; "allocations.json"]%string (the_desk, (service_of ticking_vm, 20%nat)).
Definition desk_of {S R} (x : Desk * S * R) : Desk := x.1.1.
Definition genesis_bytes : bytes :=
  match files (desk_of new_chain) !! "genesis.json"%string with Some b => b | None => [] end.
Definition new_node : outcome VM :=
  InitializeBytes empty_db [] genesis_bytes [] (fun _ => inr []) (fresh_state G) 0.
Definition node_or (v : VM) : VM := match new_node with Ok v => v | _ => v end.
(** The payer transfers 40 units, stores a file, and reads it into another. *)
Definition transferred :=
  at_desk transferCmd [Address_Hex (addr 2); "40"]%string (desk_of new_chain, (service_of (node_or ticking_vm), 20%nat)).
Definition stored_file := at_desk setFileCmd ["photo"%string] transferred.1.
Definition root_text : string :=
  match result_of stored_file with Ok (ShowRoot r) => Hash_Hex r | _ => EmptyString end.
Definition resolved_file := at_desk resolveFileCmd [root_text; "copy"%string] stored_file.1.
Definition succeeded (x : outcome Output) : bool := match x with Ok _ => true | _ => false end.

Definition behind {R} (x : Desk * (PublicService * nat) * R) : PublicService := x.1.2.1.

(** The run of these commands, from the genesis file on: the command line writes
    the genesis, a node starts from it with the balances it allocates, and takes
    a transfer and a file; each command waits until its transaction is in a
    block.  The receiver has the units and the sender the rest but for the fees,
    the copy of the file is the file, and a second copy does not overwrite it. *)
Example chain_from_the_command_line :
  forallb succeeded [result_of new_chain; result_of transferred; result_of stored_file; result_of resolved_file] = true /\
  (if new_node is Ok v then Genesis_Magic (vm_genesis v) else 0) = 7 /\
  files (desk_of resolved_file) !! "copy"%string = Some the_value /\
  result_of (svc_Balance (addr 2) (behind resolved_file)) = Ok 40 /\
  result_of (svc_Balance payer (behind resolved_file)) = Ok (100000 - 40 - 9) /\
  result_of (at_desk resolveFileCmd [root_text; "copy"%string] resolved_file.1) =
    Err (Errorf "file %s already exists").
Proof. split_and!; vm_compute; reflexivity. Qed.

(** ** A file in chunks, from the command line

    A node whose largest value has 128 bytes, and a file of 200. *)
Definition small_values : Genesis :=
  genesis_of (<[3%nat := 128]> (genesis_numbers G)) true [mkCustomAllocation payer 100000] EmptyString
    (Genesis_RootAddress G) (Genesis_FoundationAddr G).
Definition small_vm : VM :=
  match Initialize empty_db (inr (10, 4)) (inr small_values) [] (fun _ => inr []) (fresh_state small_values) 0 with
  | Ok v => v
  | _ => empty_vm
  end.
Definition the_album : bytes := concat (replicate 20 (String.list_byte_of_string "0123456789")).
Definition album_desk : Desk := put_file "album" the_album the_desk.
Definition stored_album := at_desk setFileCmd ["album"%string] (album_desk, (service_of small_vm, 20%nat)).
Definition root_shown (x : outcome Output) : Hash := match x with Ok (ShowRoot r) => r | _ => sized_of 32 [] end.
Definition album_hash := root_shown (result_of stored_album).
Definition resolved_album := at_desk resolveFileCmd [Hash_Hex album_hash; "copy"%string] stored_album.1.
