(* ===== verification/CliWitnesses.v ===== *)
(** * The theorems on the command line at concrete inputs *)

From S2P Require Import Prelude External GoStd Builder Instances Keys Storage Genesis SamaState StateFacts.
From S2P Require Import Tx TypedTx TypedTxFacts Activity Keystore Block BlockFacts Mempool VM Config Service Client Tree Cli.
From S2P Require Import ServiceFacts ClientFacts TreeFacts CliFacts.
From S2P Require Import Samples NodeSamples ChainSamples ServiceSamples ServiceWitnesses CliSamples EndToEnd.
#[local] Existing Instance ticking | 0.

(** A run that ends in a value, taken apart. *)
Lemma ran_at {S A} (r : (Desk * S) * outcome A) (a : A) :
  r.2 = Ok a -> r = ((r.1.1, r.1.2), Ok a).
Proof. destruct r as [[d s] o]. cbn. by intros ->. Qed.

Lemma transferred_ends : transferred.2 = Ok Done.
Proof. vm_compute. reflexivity. Qed.
Lemma transferred_runs :
  @RunE _ _ (served_by consensus_round) _ _ _ _ _ _ _ _ _ 10 5 the_flags transferCmd
    [Address_Hex (addr 2); "40"%string] (desk_of new_chain, (service_of (node_or ticking_vm), 20%nat)) =
  ((transferred.1.1, transferred.1.2), Ok Done).
Proof. exact (ran_at transferred Done transferred_ends). Qed.
Lemma successful_command_is_confirmed_witness :
  exists u tx s2 s3, asked payer transferCmd [Address_Hex (addr 2); "40"%string] u /\
    tx_Unsigned tx = set_base (base (tx_Unsigned tx)) u /\ tx_sender tx = payer /\
    svc_HasTx (tx_id tx) s2 = (s3, Ok true) /\ behind transferred = s3.
Proof.
  destruct (successful_command_is_confirmed (H20 := sample_machine) consensus_round 10 5 the_flags transferCmd [Address_Hex (addr 2); "40"%string]
    (desk_of new_chain ) (service_of (node_or ticking_vm)) 20 _ _ _ eq_refl transferred_runs)
    as (sk & u & tx & s0 & n0 & v & cost & s1 & s2 & n2 & s3 & Hk & Hask & _ & Hu & Hs & _ & _ & _ & _ & _ & Hhas & _ & Hlast).
  assert (LoadECDSA (desk_of new_chain : Mach) "./sama-cli-pk" = inr payer) as Hp by (vm_compute; reflexivity).
  assert (sk = payer) as -> by (change (LoadECDSA (desk_of new_chain : Mach) "./sama-cli-pk" = inr sk) in Hk; congruence).
  assert (address_of payer = payer) as Ha by vm_decide. rewrite Ha in Hask, Hs.
  exists u, tx, s2, s3. repeat (split; [first [exact Hask|exact Hu|exact Hs|exact Hhas]|]).
  exact (f_equal fst Hlast).
Defined.

Lemma new_chain_ends : new_chain.2 = Ok Done.
Proof. vm_compute. reflexivity. Qed.
Lemma new_chain_runs :
  @genesisFunc _ _ live _ _ _ _ the_flags ["7"; "allocations.json"]%string (the_desk, (service_of ticking_vm, 20%nat)) =
  ((new_chain.1.1, new_chain.1.2), Ok Done).
Proof. exact (ran_at new_chain Done new_chain_ends). Qed.
Lemma genesis_file_starts_the_chain_witness :
  exists g, Genesis_Magic g = 7 /\
    InitializeBytes empty_db [] genesis_bytes [] (fun _ => inr []) (fresh_state G) 0 =
    Initialize empty_db (inr (1024, 128)) (inr g) [] (fun _ => inr []) (fresh_state G) 0.
Proof.
  destruct (@genesis_file_starts_the_chain _ _ live _ _ _ _ _ _ _ _ _ _ the_flags _ _ _ _ _
    ["7"; "allocations.json"]%string _ _ _ ltac:(constructor) new_chain_runs)
    as (magic & file & a & allocs & g & b & [= <- <-] & _ & _ & Hb & _ & Hm & _ & _ & _ & Hstart).
  exists g. split; [change (inr 7 = inr (Genesis_Magic g) :> result Z) in Hm; congruence|].
  assert (ReadFile (new_chain.1.1 : Mach) "genesis.json" = inr genesis_bytes) as Hg by (vm_compute; reflexivity).
  rewrite <- Hstart. f_equal. change (ReadFile (new_chain.1.1 : Mach) "genesis.json" = inr b) in Hb. congruence.
Defined.

(** A file in two chunks, stored and resolved on a running node. *)
Lemma stored_album_ends : stored_album.2 = Ok (ShowRoot album_hash).
Proof. vm_compute. reflexivity. Qed.
Lemma resolved_album_ends : resolved_album.2 = Ok (ShowRoot album_hash).
Proof. vm_compute. reflexivity. Qed.
Lemma stored_album_runs :
  @setFileFunc _ _ live _ _ _ _ _ _ _ 10 5 the_flags ["album"%string] (album_desk, (service_of small_vm, 20%nat)) =
  ((stored_album.1.1, stored_album.1.2), Ok (ShowRoot album_hash)).
Proof. exact (ran_at stored_album _ stored_album_ends). Qed.
Lemma resolved_album_runs :
  @resolveFileFunc _ _ live _ _ _ _ _ [Hash_Hex album_hash; "copy"%string] (stored_album.1.1, stored_album.1.2) =
  ((resolved_album.1.1, resolved_album.1.2), Ok (ShowRoot album_hash)).
Proof.
  change (stored_album.1.1, stored_album.1.2) with (id (stored_album.1.1, stored_album.1.2)).
  rewrite <- (surjective_pairing stored_album.1). exact (ran_at resolved_album _ resolved_album_ends).
Qed.

Definition album_root : bytes := match Marshal (root_with 128 200 the_album) with inr b => b | inl _ => [] end.
Lemma album_root_marshalled : Marshal (root_with 128 200 the_album) = inr album_root.
Proof. vm_compute. reflexivity. Qed.
Lemma small_values_asked g w0 :
  @cli_Genesis _ _ live (service_of small_vm, 20%nat) = (w0, Ok (Some g)) -> Z.to_nat (i64 (Genesis_MaxValueSize g)) = 128%nat.
Proof.
  assert (match (@cli_Genesis _ _ live (service_of small_vm, 20%nat)).2 with
    | Ok (Some g) => Z.to_nat (i64 (Genesis_MaxValueSize g)) | _ => 0%nat end = 128%nat) as Hg by (vm_compute; reflexivity).
  intros Hrun. by rewrite Hrun in Hg.
Qed.
Definition values_of (x : outcome (list bytes)) : list bytes := match x with Ok vs => vs | _ => [] end.
Definition album_replies := values_of (@replies _ _ live _ album_hash stored_album.1.2).2.
Lemma album_told_apart : tells_apart (album_root :: parts 128 200 the_album) album_replies.
Proof. apply (bool_decide_eq_true_1 _). vm_compute. reflexivity. Qed.
Lemma resolved_file_is_the_one_set_witness :
  ReadFile (desk_of resolved_album : Mach) "copy" = inr the_album /\ (length the_album = 200)%nat /\ length album_replies = 3%nat.
Proof.
  destruct (@resolved_file_is_the_one_set _ _ live _ _ _ _ _ _ _ _ _ _ _ _ _ 10 5 the_flags "album" "copy" _ _ _ _ _ _ _ _ _ _
    stored_album_runs resolved_album_runs)
    as (rd & w0 & g & k & b & rb & e & m' & o & o' & Hopen & Hg & Hk & Hfull & Hb & Hm & _ & _ & _ & _ & _ & _ & _ & Hback).
  apply small_values_asked in Hg. rewrite Hg in Hb, Hm, Hback.
  assert (rd = the_album) as -> by (change (inr the_album = inr rd :> result bytes) in Hopen; congruence).
  specialize (Hfull file_reads_fully). cbn [unread file_reader_file] in Hfull, Hk, Hb.
  assert (length the_album = 200)%nat as Hl by (vm_compute; reflexivity). rewrite Hl in Hfull. subst k.
  rewrite decide_False, take_ge in Hb by lia. subst b. rewrite album_root_marshalled in Hm. injection Hm as <-.
  split; [|split; [exact Hl|vm_compute; reflexivity]].
  apply (Hback album_replies); [|exact album_told_apart]. vm_compute. reflexivity.
Defined.
